(** * wlmaker toolkit: the container's event routing (src/toolkit/container.c)

    A shallow embedding of [wlmtk_container_t] and of the functions of
    container.c that route pointer motion, pointer buttons, pointer grabs and
    keyboard focus through a tree of elements.

    Elements live in a heap and are designated by addresses, as in the C code:
    a container's list and its four slots hold addresses, every element holds
    the address of its parent container.  The functions thread the heap and a
    record of the calls made into the elements' virtual methods.  Calls through
    an element's method table recurse through nested containers; they are
    defined by recursion on a fuel bound. *)

From Stdlib Require Import ZArith Lia Bool.
From stdpp Require Import base option list gmap.

Open Scope Z_scope.

(** ** Data model *)

(** Address of a [wlmtk_element_t]. *)
Abbreviation ptr := nat (only parsing).

(** A pointer coordinate (a C [double]): a finite position or the [NAN]
    sentinel.  Finite positions are taken on the integer grid. *)
Inductive coord : Type :=
| Finite (v : Z)
| NAN.

(** [wlmtk_pointer_motion_event_t]. *)
Record wlmtk_pointer_motion_event_t : Type := MotionEvent {
  ev_x : coord;
  ev_y : coord;
  ev_time_msec : Z;
  ev_pointer_ptr : option nat;
}.

(** Phase of a button event.  [BUTTON_OTHER] stands for every value of the C
    enumeration type that is not one of its four enumerators. *)
Inductive wlmtk_button_event_type_t : Type :=
| WLMTK_BUTTON_DOWN
| WLMTK_BUTTON_UP
| WLMTK_BUTTON_CLICK
| WLMTK_BUTTON_DOUBLE_CLICK
| BUTTON_OTHER (raw : Z).

(** [wlmtk_button_event_t]. *)
Record wlmtk_button_event_t : Type := ButtonEvent {
  button : Z;
  type : wlmtk_button_event_type_t;
}.

(** [BTN_LEFT] of linux/input-event-codes.h. *)
Definition BTN_LEFT : Z := 272.

Definition INT32_MAX : Z := 2147483647.
Definition INT32_MIN : Z := -2147483648.

(** A box [(left, top, right, bottom)]. *)
Record box : Type := Box {
  left : Z;
  top : Z;
  right : Z;
  bottom : Z;
}.

(** Modelled from the spec: the capability table of an element that is not a
    container (element.h is not part of the sources at hand).  A leaf answers
    for its own boxes and accepts or rejects the events it is given. *)
Record leaf_t : Type := Leaf {
  leaf_dimensions : box;
  leaf_pointer_area : box;
  leaf_pointer_motion : wlmtk_pointer_motion_event_t -> bool;
  leaf_pointer_button : wlmtk_button_event_t -> bool;
  leaf_has_pointer_grab_cancel : bool;
}.

(** The fields [wlmtk_container_t] adds to its super element. *)
Record wlmtk_container_t : Type := Container {
  elements : list ptr;
  pointer_focus_element_ptr : option ptr;
  left_button_element_ptr : option ptr;
  pointer_grab_element_ptr : option ptr;
  keyboard_focus_element_ptr : option ptr;
}.

(** The method table an element carries: the leaf's own, or the container's
    [container_element_vmt]. *)
Inductive vmt_t : Type :=
| LeafVmt (l : leaf_t)
| ContainerVmt (c : wlmtk_container_t).

(** Modelled from the spec: the fields of [wlmtk_element_t] that container.c
    reads and writes. *)
Record wlmtk_element_t : Type := Element {
  x_pos : Z;
  y_pos : Z;
  visible : bool;
  parent_container_ptr : option ptr;
  last_pointer_motion_event : wlmtk_pointer_motion_event_t;
  vmt : vmt_t;
}.

(** A call into an element's method table, as seen from outside. *)
Inductive call : Type :=
| pointer_motion_call (el : ptr) (ev : wlmtk_pointer_motion_event_t)
| pointer_button_call (el : ptr) (ev : wlmtk_button_event_t)
| pointer_grab_cancel_call (el : ptr)
| keyboard_blur_call (el : ptr).

(** The heap of elements and the calls made so far, oldest first. *)
Record state : Type := State {
  heap : gmap nat wlmtk_element_t;
  calls : list call;
}.

(** How a function ends: with a result, in an abort ([BS_ASSERT] failed or
    [BS_FATAL] logged), on an address that designates no element of the
    expected kind, or with the fuel of the embedding used up. *)
Inductive outcome (A : Type) : Type :=
| Done (a : A)
| Fatal
| Wild
| OutOfFuel.
Arguments Done {A} a.
Arguments Fatal {A}.
Arguments Wild {A}.
Arguments OutOfFuel {A}.

(** ** The state monad of the embedding *)

Definition M (A : Type) : Type := state -> outcome (A * state).

Definition ret {A} (a : A) : M A := fun s => Done (a, s).

Definition bind {A B} (m : M A) (k : A -> M B) : M B :=
  fun s =>
    match m s with
    | Done (a, s') => k a s'
    | Fatal => Fatal
    | Wild => Wild
    | OutOfFuel => OutOfFuel
    end.

Notation "'let*' x ':=' m 'in' k" := (bind m (fun x => k))
  (at level 10, x name, m at level 200, k at level 200,
   format "'[v' 'let*'  x  ':='  m  'in' '/' k ']'").

Definition fatal {A} : M A := fun _ => Fatal.
Definition out_of_fuel {A} : M A := fun _ => OutOfFuel.

(** [BS_ASSERT]. *)
Definition BS_ASSERT (b : bool) : M unit :=
  if b then ret tt else fatal.

Definition get_element (p : ptr) : M wlmtk_element_t :=
  fun s => match heap s !! p with
           | Some e => Done (e, s)
           | None => Wild
           end.

Definition put_element (p : ptr) (e : wlmtk_element_t) : M unit :=
  fun s => Done (tt, State (<[p := e]> (heap s)) (calls s)).

(** [BS_CONTAINER_OF (element_ptr, wlmtk_container_t, super_element)]. *)
Definition get_container (p : ptr) : M wlmtk_container_t :=
  let* e := get_element p in
  match vmt e with
  | ContainerVmt c => ret c
  | LeafVmt _ => fun _ => Wild
  end.

Definition set_vmt (e : wlmtk_element_t) (v : vmt_t) : wlmtk_element_t :=
  Element (x_pos e) (y_pos e) (visible e) (parent_container_ptr e)
    (last_pointer_motion_event e) v.

Definition put_container (p : ptr) (c : wlmtk_container_t) : M unit :=
  let* e := get_element p in
  put_element p (set_vmt e (ContainerVmt c)).

Definition emit (c : call) : M unit :=
  fun s => Done (tt, State (heap s) (calls s ++ [c])).

(** Field updates of a container. *)
Definition set_pointer_focus (c : wlmtk_container_t) (v : option ptr) :=
  Container (elements c) v (left_button_element_ptr c)
    (pointer_grab_element_ptr c) (keyboard_focus_element_ptr c).
Definition set_left_button (c : wlmtk_container_t) (v : option ptr) :=
  Container (elements c) (pointer_focus_element_ptr c) v
    (pointer_grab_element_ptr c) (keyboard_focus_element_ptr c).
Definition set_pointer_grab (c : wlmtk_container_t) (v : option ptr) :=
  Container (elements c) (pointer_focus_element_ptr c)
    (left_button_element_ptr c) v (keyboard_focus_element_ptr c).
Definition set_keyboard_focus (c : wlmtk_container_t) (v : option ptr) :=
  Container (elements c) (pointer_focus_element_ptr c)
    (left_button_element_ptr c) (pointer_grab_element_ptr c) v.
Definition set_elements (c : wlmtk_container_t) (l : list ptr) :=
  Container l (pointer_focus_element_ptr c) (left_button_element_ptr c)
    (pointer_grab_element_ptr c) (keyboard_focus_element_ptr c).

(** Comparison of two slots ([==] on element pointers, [None] is [NULL]). *)
Definition ptr_eqb (a b : option ptr) : bool := bool_decide (a = b).

(** Runs a function that only reads the heap. *)
Definition read {A} (f : gmap nat wlmtk_element_t -> outcome A) : M A :=
  fun s =>
    match f (heap s) with
    | Done a => Done (a, s)
    | Fatal => Fatal
    | Wild => Wild
    | OutOfFuel => OutOfFuel
    end.

(** ** Coordinates *)

(** [x - x_pos], with [x] a double and [x_pos] an int.  One application
    stands for one subtraction of the code: on the integer grid it is exact,
    and no statement below gathers two of them into one, which a C [double]
    would not allow. *)
Definition coord_sub (x : coord) (x_pos : Z) : coord :=
  match x with
  | Finite v => Finite (v - x_pos)
  | NAN => NAN
  end.

(** [a <= x]; every comparison with [NAN] is false. *)
Definition int_le_coord (a : Z) (x : coord) : bool :=
  match x with
  | Finite v => a <=? v
  | NAN => false
  end.

(** [x < b]. *)
Definition coord_lt_int (x : coord) (b : Z) : bool :=
  match x with
  | Finite v => v <? b
  | NAN => false
  end.

Definition is_nan (x : coord) : bool :=
  match x with
  | Finite _ => false
  | NAN => true
  end.

(** A motion event that is the focus-loss sentinel. *)
Definition is_sentinel (ev : wlmtk_pointer_motion_event_t) : bool :=
  is_nan (ev_x ev) && is_nan (ev_y ev).

(** ** Dimensions and pointer area *)

Section Aggregation.
(** [wlmtk_element_get_dimensions], respectively
    [wlmtk_element_get_pointer_area], of a child. *)
Variable child_box : gmap nat wlmtk_element_t -> ptr -> outcome box.
Variable h : gmap nat wlmtk_element_t.

(** The loop over [container_ptr->elements], head to tail, shared by
    [_wlmtk_container_element_get_dimensions] and
    [_wlmtk_container_element_get_pointer_area]. *)
Fixpoint aggregate (els : list ptr) (acc : box) : outcome box :=
  match els with
  | [] => Done acc
  | element_ptr :: rest =>
    match h !! element_ptr with
    | None => Wild
    | Some e =>
      if negb (visible e) then aggregate rest acc
      else
        match child_box h element_ptr with
        | Done b =>
          aggregate rest
            (Box (Z.min (left acc) (x_pos e + left b))
                 (Z.min (top acc) (y_pos e + top b))
                 (Z.max (right acc) (x_pos e + right b))
                 (Z.max (bottom acc) (y_pos e + bottom b)))
        | Fatal => Fatal
        | Wild => Wild
        | OutOfFuel => OutOfFuel
        end
    end
  end.

(** The two [if (left >= right)] and [if (top >= bottom)] statements. *)
Definition normalise (b : box) : box :=
  Box (if left b >=? right b then 0 else left b)
      (if top b >=? bottom b then 0 else top b)
      (if left b >=? right b then 0 else right b)
      (if top b >=? bottom b then 0 else bottom b).

Definition container_box (c : wlmtk_container_t) : outcome box :=
  match aggregate (elements c)
          (Box INT32_MAX INT32_MAX INT32_MIN INT32_MIN) with
  | Done b => Done (normalise b)
  | Fatal => Fatal
  | Wild => Wild
  | OutOfFuel => OutOfFuel
  end.
End Aggregation.

Definition _wlmtk_container_element_get_dimensions
    (wlmtk_element_get_dimensions :
       gmap nat wlmtk_element_t -> ptr -> outcome box)
    (h : gmap nat wlmtk_element_t) (c : wlmtk_container_t) : outcome box :=
  container_box wlmtk_element_get_dimensions h c.

Definition _wlmtk_container_element_get_pointer_area
    (wlmtk_element_get_pointer_area :
       gmap nat wlmtk_element_t -> ptr -> outcome box)
    (h : gmap nat wlmtk_element_t) (c : wlmtk_container_t) : outcome box :=
  container_box wlmtk_element_get_pointer_area h c.

(** Dispatch through [vmt.get_dimensions]. *)
Fixpoint wlmtk_element_get_dimensions (fuel : nat)
    (h : gmap nat wlmtk_element_t) (element_ptr : ptr) : outcome box :=
  match fuel with
  | O => OutOfFuel
  | S n =>
    match h !! element_ptr with
    | None => Wild
    | Some e =>
      match vmt e with
      | LeafVmt l => Done (leaf_dimensions l)
      | ContainerVmt c =>
        _wlmtk_container_element_get_dimensions
          (wlmtk_element_get_dimensions n) h c
      end
    end
  end.

(** Dispatch through [vmt.get_pointer_area]. *)
Fixpoint wlmtk_element_get_pointer_area (fuel : nat)
    (h : gmap nat wlmtk_element_t) (element_ptr : ptr) : outcome box :=
  match fuel with
  | O => OutOfFuel
  | S n =>
    match h !! element_ptr with
    | None => Wild
    | Some e =>
      match vmt e with
      | LeafVmt l => Done (leaf_pointer_area l)
      | ContainerVmt c =>
        _wlmtk_container_element_get_pointer_area
          (wlmtk_element_get_pointer_area n) h c
      end
    end
  end.

(** ** Pointer motion *)

(** Modelled from the spec: the element's own [pointer_motion] method, which
    a container keeps as [orig_super_element_vmt.pointer_motion]: it caches the
    event as the last known pointer position. *)
Definition _wlmtk_element_pointer_motion (element_ptr : ptr)
    (ev : wlmtk_pointer_motion_event_t) : M unit :=
  let* e := get_element element_ptr in
  put_element element_ptr
    (Element (x_pos e) (y_pos e) (visible e) (parent_container_ptr e) ev
       (vmt e)).

Section ContainerMotion.
(** The calls through the children's method tables. *)
Variable wlmtk_element_pointer_motion :
  ptr -> wlmtk_pointer_motion_event_t -> M bool.
Variable wlmtk_element_get_pointer_area :
  gmap nat wlmtk_element_t -> ptr -> outcome box.

(** The code after the loop of [update_pointer_focus_at]: no element took
    the motion. *)
Definition reset_pointer_focus (container_ptr : ptr) (time_msec : Z)
    (pointer_ptr : option nat) : M bool :=
  let* c := get_container container_ptr in
  match pointer_focus_element_ptr c with
  | Some f =>
    let* _ := wlmtk_element_pointer_motion f
                (MotionEvent NAN NAN time_msec pointer_ptr) in
    let* c := get_container container_ptr in
    let* _ := put_container container_ptr (set_pointer_focus c None) in
    ret false
  | None => ret false
  end.

(** The code that follows an accepted motion in the loop. *)
Definition take_pointer_focus (container_ptr element_ptr : ptr)
    (time_msec : Z) (pointer_ptr : option nat) : M bool :=
  let* c := get_container container_ptr in
  let* _ :=
    match pointer_focus_element_ptr c with
    | Some f =>
      if bool_decide (f = element_ptr) then ret false
      else wlmtk_element_pointer_motion f
             (MotionEvent NAN NAN time_msec pointer_ptr)
    | None => ret false
    end in
  let* c := get_container container_ptr in
  let* _ := put_container container_ptr
              (set_pointer_focus c (Some element_ptr)) in
  ret true.

(** The loop of [update_pointer_focus_at] over the elements, head first. *)
Fixpoint scan (container_ptr : ptr) (x y : coord) (time_msec : Z)
    (pointer_ptr : option nat) (els : list ptr) : M bool :=
  match els with
  | [] => reset_pointer_focus container_ptr time_msec pointer_ptr
  | element_ptr :: rest =>
    let* e := get_element element_ptr in
    if negb (visible e) then
      scan container_ptr x y time_msec pointer_ptr rest
    else
      let* a := read (fun h => wlmtk_element_get_pointer_area h element_ptr) in
      if int_le_coord (x_pos e + left a) x
         && coord_lt_int x (x_pos e + right a)
         && int_le_coord (y_pos e + top a) y
         && coord_lt_int y (y_pos e + bottom a)
      then
        let* accepted := wlmtk_element_pointer_motion element_ptr
               (MotionEvent (coord_sub x (x_pos e)) (coord_sub y (y_pos e))
                  time_msec pointer_ptr) in
        if negb accepted then
          scan container_ptr x y time_msec pointer_ptr rest
        else take_pointer_focus container_ptr element_ptr time_msec
               pointer_ptr
      else scan container_ptr x y time_msec pointer_ptr rest
  end.

Definition update_pointer_focus_at (container_ptr : ptr) (x y : coord)
    (time_msec : Z) (pointer_ptr : option nat) : M bool :=
  let* c := get_container container_ptr in
  match pointer_grab_element_ptr c with
  | Some g =>
    let* ge := get_element g in
    let* _ := wlmtk_element_pointer_motion g
                (MotionEvent (coord_sub x (x_pos ge))
                   (coord_sub y (y_pos ge)) time_msec pointer_ptr) in
    ret true
  | None => scan container_ptr x y time_msec pointer_ptr (elements c)
  end.

Definition _wlmtk_container_element_pointer_motion (element_ptr : ptr)
    (ev : wlmtk_pointer_motion_event_t) : M bool :=
  let* _ := _wlmtk_element_pointer_motion element_ptr ev in
  update_pointer_focus_at element_ptr (ev_x ev) (ev_y ev)
    (ev_time_msec ev) (ev_pointer_ptr ev).
End ContainerMotion.

(** Dispatch through [vmt.pointer_motion]. *)
Fixpoint wlmtk_element_pointer_motion (fuel : nat) (element_ptr : ptr)
    (ev : wlmtk_pointer_motion_event_t) : M bool :=
  match fuel with
  | O => out_of_fuel
  | S n =>
    let* _ := emit (pointer_motion_call element_ptr ev) in
    let* e := get_element element_ptr in
    match vmt e with
    | LeafVmt l =>
      let* _ := _wlmtk_element_pointer_motion element_ptr ev in
      ret (leaf_pointer_motion l ev)
    | ContainerVmt _ =>
      _wlmtk_container_element_pointer_motion
        (wlmtk_element_pointer_motion n)
        (wlmtk_element_get_pointer_area n) element_ptr ev
    end
  end.

(** ** Pointer buttons *)

Section ContainerButton.
Variable wlmtk_element_pointer_button :
  ptr -> wlmtk_button_event_t -> M bool.

Definition _wlmtk_container_element_pointer_button (element_ptr : ptr)
    (ev : wlmtk_button_event_t) : M bool :=
  let* c := get_container element_ptr in
  match pointer_grab_element_ptr c with
  | Some g => wlmtk_element_pointer_button g ev
  | None =>
    if button ev =? BTN_LEFT then
      match type ev with
      | WLMTK_BUTTON_DOWN =>
        match pointer_focus_element_ptr c with
        | Some f =>
          let* accepted := wlmtk_element_pointer_button f ev in
          let* c := get_container element_ptr in
          let* _ := put_container element_ptr
                      (set_left_button c
                         (if accepted then pointer_focus_element_ptr c
                          else None)) in
          ret accepted
        | None => ret false
        end
      | WLMTK_BUTTON_UP =>
        match left_button_element_ptr c with
        | Some l => wlmtk_element_pointer_button l ev
        | None => ret false
        end
      | WLMTK_BUTTON_CLICK
      | WLMTK_BUTTON_DOUBLE_CLICK =>
        match left_button_element_ptr c with
        | Some l =>
          if ptr_eqb (left_button_element_ptr c)
               (pointer_focus_element_ptr c)
          then wlmtk_element_pointer_button l ev
          else ret false
        | None => ret false
        end
      | BUTTON_OTHER _ => fatal
      end
    else
      match pointer_focus_element_ptr c with
      | None => ret false
      | Some f => wlmtk_element_pointer_button f ev
      end
  end.
End ContainerButton.

(** Dispatch through [vmt.pointer_button]. *)
Fixpoint wlmtk_element_pointer_button (fuel : nat) (element_ptr : ptr)
    (ev : wlmtk_button_event_t) : M bool :=
  match fuel with
  | O => out_of_fuel
  | S n =>
    let* _ := emit (pointer_button_call element_ptr ev) in
    let* e := get_element element_ptr in
    match vmt e with
    | LeafVmt l => ret (leaf_pointer_button l ev)
    | ContainerVmt _ =>
      _wlmtk_container_element_pointer_button
        (wlmtk_element_pointer_button n) element_ptr ev
    end
  end.

(** ** Grab cancel and keyboard blur *)

Section ContainerCancel.
Variable wlmtk_element_pointer_grab_cancel : ptr -> M unit.
Variable wlmtk_element_keyboard_blur : ptr -> M unit.

Definition _wlmtk_container_element_pointer_grab_cancel
    (element_ptr : ptr) : M unit :=
  let* c := get_container element_ptr in
  match pointer_grab_element_ptr c with
  | None => ret tt
  | Some g =>
    let* _ := wlmtk_element_pointer_grab_cancel g in
    let* c := get_container element_ptr in
    put_container element_ptr (set_pointer_grab c None)
  end.

Definition _wlmtk_container_element_keyboard_blur (element_ptr : ptr)
    : M unit :=
  let* c := get_container element_ptr in
  match keyboard_focus_element_ptr c with
  | None => ret tt
  | Some k =>
    let* _ := wlmtk_element_keyboard_blur k in
    let* c := get_container element_ptr in
    put_container element_ptr (set_keyboard_focus c None)
  end.
End ContainerCancel.

(** Modelled from the spec: [wlmtk_element_pointer_grab_cancel] calls the
    element's [pointer_grab_cancel] method when it has one. *)
Fixpoint wlmtk_element_pointer_grab_cancel (fuel : nat) (element_ptr : ptr)
    : M unit :=
  match fuel with
  | O => out_of_fuel
  | S n =>
    let* e := get_element element_ptr in
    match vmt e with
    | LeafVmt l =>
      if leaf_has_pointer_grab_cancel l
      then emit (pointer_grab_cancel_call element_ptr)
      else ret tt
    | ContainerVmt _ =>
      let* _ := emit (pointer_grab_cancel_call element_ptr) in
      _wlmtk_container_element_pointer_grab_cancel
        (wlmtk_element_pointer_grab_cancel n) element_ptr
    end
  end.

(** Dispatch through [vmt.keyboard_blur]. *)
Fixpoint wlmtk_element_keyboard_blur (fuel : nat) (element_ptr : ptr)
    : M unit :=
  match fuel with
  | O => out_of_fuel
  | S n =>
    let* _ := emit (keyboard_blur_call element_ptr) in
    let* e := get_element element_ptr in
    match vmt e with
    | LeafVmt _ => ret tt
    | ContainerVmt _ =>
      _wlmtk_container_element_keyboard_blur
        (wlmtk_element_keyboard_blur n) element_ptr
    end
  end.

(** ** Focus recomputation, grabs, keyboard focus, removal *)

Definition parent_of (p : ptr) : M (option ptr) :=
  let* e := get_element p in ret (parent_container_ptr e).

(** [wlmtk_container_update_pointer_focus]: climbs to the outermost container
    and recomputes the focus there, from the cached pointer position. *)
Fixpoint wlmtk_container_update_pointer_focus (fuel : nat)
    (container_ptr : ptr) : M unit :=
  match fuel with
  | O => out_of_fuel
  | S n =>
    let* e := get_element container_ptr in
    match parent_container_ptr e with
    | Some p => wlmtk_container_update_pointer_focus n p
    | None =>
      let* _ := update_pointer_focus_at
                  (wlmtk_element_pointer_motion n)
                  (wlmtk_element_get_pointer_area n)
                  container_ptr
                  (ev_x (last_pointer_motion_event e))
                  (ev_y (last_pointer_motion_event e))
                  (ev_time_msec (last_pointer_motion_event e))
                  (ev_pointer_ptr (last_pointer_motion_event e)) in
      ret tt
    end
  end.

(** [_wlmtk_container_update_layout], the method every container starts
    with, reached through [wlmtk_container_update_layout]. *)
Fixpoint wlmtk_container_update_layout (fuel : nat) (container_ptr : ptr)
    : M unit :=
  match fuel with
  | O => out_of_fuel
  | S n =>
    let* p := parent_of container_ptr in
    match p with
    | Some p => wlmtk_container_update_layout n p
    | None => wlmtk_container_update_pointer_focus n container_ptr
    end
  end.

Definition has_pointer_grab_cancel (e : wlmtk_element_t) : bool :=
  match vmt e with
  | LeafVmt l => leaf_has_pointer_grab_cancel l
  | ContainerVmt _ => true
  end.

Fixpoint wlmtk_container_pointer_grab (fuel : nat)
    (container_ptr element_ptr : ptr) : M unit :=
  match fuel with
  | O => out_of_fuel
  | S n =>
    let* e := get_element element_ptr in
    let* _ := BS_ASSERT
                (ptr_eqb (Some container_ptr) (parent_container_ptr e)) in
    let* _ := BS_ASSERT (has_pointer_grab_cancel e) in
    let* c := get_container container_ptr in
    if ptr_eqb (pointer_grab_element_ptr c) (Some element_ptr) then ret tt
    else
      let* _ := _wlmtk_container_element_pointer_grab_cancel
                  (wlmtk_element_pointer_grab_cancel n) container_ptr in
      let* c := get_container container_ptr in
      let* _ := put_container container_ptr
                  (set_pointer_grab c (Some element_ptr)) in
      let* p := parent_of container_ptr in
      let* _ := match p with
                | Some p => wlmtk_container_pointer_grab n p container_ptr
                | None => ret tt
                end in
      let* c := get_container container_ptr in
      match pointer_focus_element_ptr c with
      | Some f =>
        if bool_decide (f = element_ptr) then ret tt
        else
          let* _ := wlmtk_element_pointer_motion n f
                      (MotionEvent NAN NAN 0 None) in
          ret tt
      | None => ret tt
      end
  end.

Fixpoint wlmtk_container_pointer_grab_release (fuel : nat)
    (container_ptr element_ptr : ptr) : M unit :=
  match fuel with
  | O => out_of_fuel
  | S n =>
    let* e := get_element element_ptr in
    let* _ := BS_ASSERT
                (ptr_eqb (Some container_ptr) (parent_container_ptr e)) in
    let* c := get_container container_ptr in
    if negb (ptr_eqb (pointer_grab_element_ptr c) (Some element_ptr))
    then ret tt
    else
      let* _ := put_container container_ptr (set_pointer_grab c None) in
      let* p := parent_of container_ptr in
      match p with
      | Some p => wlmtk_container_pointer_grab_release n p container_ptr
      | None => wlmtk_container_update_pointer_focus n container_ptr
      end
  end.

Fixpoint wlmtk_container_set_keyboard_focus_element (fuel : nat)
    (container_ptr : ptr) (element_ptr : option ptr) : M unit :=
  match fuel with
  | O => out_of_fuel
  | S n =>
    let* _ := match element_ptr with
              | Some el =>
                let* e := get_element el in
                BS_ASSERT
                  (ptr_eqb (parent_container_ptr e) (Some container_ptr))
              | None => ret tt
              end in
    let* c := get_container container_ptr in
    if ptr_eqb (keyboard_focus_element_ptr c) element_ptr then ret tt
    else
      let* _ := match keyboard_focus_element_ptr c with
                | Some k => wlmtk_element_keyboard_blur n k
                | None => ret tt
                end in
      let* c := get_container container_ptr in
      let* _ := put_container container_ptr
                  (set_keyboard_focus c element_ptr) in
      let* p := parent_of container_ptr in
      match p with
      | Some p =>
        wlmtk_container_set_keyboard_focus_element n p
          (match element_ptr with
           | Some _ => Some container_ptr
           | None => None
           end)
      | None => ret tt
      end
  end.

(** Modelled from the spec: [wlmtk_element_set_parent_container] records the
    owning container (the attachment to the scene graph is left out). *)
Definition wlmtk_element_set_parent_container (element_ptr : ptr)
    (parent : option ptr) : M unit :=
  let* e := get_element element_ptr in
  put_element element_ptr
    (Element (x_pos e) (y_pos e) (visible e) parent
       (last_pointer_motion_event e) (vmt e)).

(** [bs_dllist_remove]: unlinks the node of [element_ptr]. *)
Definition bs_dllist_remove (els : list ptr) (element_ptr : ptr) : list ptr :=
  filter (fun p => p <> element_ptr) els.

Definition wlmtk_container_remove_element (fuel : nat)
    (container_ptr element_ptr : ptr) : M unit :=
  let* e := get_element element_ptr in
  let* _ := BS_ASSERT
              (ptr_eqb (parent_container_ptr e) (Some container_ptr)) in
  let* _ := wlmtk_element_set_parent_container element_ptr None in
  let* c := get_container container_ptr in
  let* _ := put_container container_ptr
              (set_elements c (bs_dllist_remove (elements c) element_ptr)) in
  let* c := get_container container_ptr in
  let* _ :=
    if ptr_eqb (pointer_grab_element_ptr c) (Some element_ptr) then
      let* _ := _wlmtk_container_element_pointer_grab_cancel
                  (wlmtk_element_pointer_grab_cancel fuel) container_ptr in
      let* p := parent_of container_ptr in
      match p with
      | Some p => wlmtk_container_pointer_grab_release fuel p container_ptr
      | None => ret tt
      end
    else ret tt in
  let* c := get_container container_ptr in
  let* _ :=
    if ptr_eqb (left_button_element_ptr c) (Some element_ptr)
    then put_container container_ptr (set_left_button c None)
    else ret tt in
  let* c := get_container container_ptr in
  let* _ :=
    if ptr_eqb (keyboard_focus_element_ptr c) (Some element_ptr)
    then wlmtk_container_set_keyboard_focus_element fuel container_ptr None
    else ret tt in
  let* _ := wlmtk_container_update_layout fuel container_ptr in
  let* _ := wlmtk_container_update_pointer_focus fuel container_ptr in
  let* c := get_container container_ptr in
  let* _ := BS_ASSERT
              (negb (ptr_eqb (Some element_ptr)
                       (pointer_focus_element_ptr c))) in
  BS_ASSERT
    (negb (ptr_eqb (Some element_ptr) (keyboard_focus_element_ptr c))).

(** * Vocabulary of the statements *)

(** [container_at s p c]: address [p] holds a container whose fields are
    [c]. *)
Definition container_at (s : state) (p : ptr) (c : wlmtk_container_t) : Prop :=
  exists e, heap s !! p = Some e /\ vmt e = ContainerVmt c.

(** The phases the gesture state machine knows. *)
Definition recognized (t : wlmtk_button_event_type_t) : bool :=
  match t with
  | BUTTON_OTHER _ => false
  | _ => true
  end.

(** The addresses held by the four slots of a container. *)
Definition slots (c : wlmtk_container_t) : list ptr :=
  omap id [pointer_focus_element_ptr c; left_button_element_ptr c;
           pointer_grab_element_ptr c; keyboard_focus_element_ptr c].

(** Every address a container refers to: its elements and its slots. *)
Definition refs (c : wlmtk_container_t) : list ptr := elements c ++ slots c.

(** [ranked rank s]: every address a container refers to designates an
    element of the heap, of lower rank than the container.  The containers
    then nest to a finite depth. *)
Definition ranked (rank : ptr -> nat) (s : state) : Prop :=
  forall k c, container_at s k c ->
    forall q, q ∈ refs c -> is_Some (heap s !! q) /\ (rank q < rank k)%nat.

Definition rankedb (rank : ptr -> nat) (s : state) : bool :=
  forallb
    (fun ke : nat * wlmtk_element_t =>
       match vmt ke.2 with
       | LeafVmt _ => true
       | ContainerVmt c =>
         forallb
           (fun q => bool_decide (is_Some (heap s !! q))
                     && bool_decide (rank q < rank ke.1)%nat)
           (refs c)
       end)
    (map_to_list (heap s)).

(** What a call may change in a container. *)
Record perm : Type := Perm {
  may_focus : bool;
  may_capture : bool;
  may_grab : bool;
  may_keyboard : bool;
  may_event : bool;
}.

(** A slot keeps its value or, where that is permitted, is cleared or takes
    a value that [grow] admits. *)
Definition slot_step (may : bool) (grow : ptr -> Prop)
    (old new : option ptr) : Prop :=
  new = old \/ (may = true /\ (new = None \/ exists q, new = Some q /\ grow q)).

(** The list of elements stays; the pointer focus may move to an element of
    the list, the capture slot to an address the container already refers to;
    grab and keyboard focus may only be cleared. *)
Definition container_step (pi : perm) (c c' : wlmtk_container_t) : Prop :=
  elements c' = elements c /\
  slot_step (may_focus pi) (fun q => q ∈ elements c)
    (pointer_focus_element_ptr c) (pointer_focus_element_ptr c') /\
  slot_step (may_capture pi) (fun q => q ∈ refs c)
    (left_button_element_ptr c) (left_button_element_ptr c') /\
  slot_step (may_grab pi) (fun _ => False)
    (pointer_grab_element_ptr c) (pointer_grab_element_ptr c') /\
  slot_step (may_keyboard pi) (fun _ => False)
    (keyboard_focus_element_ptr c) (keyboard_focus_element_ptr c').

Definition vmt_step (pi : perm) (v v' : vmt_t) : Prop :=
  match v, v' with
  | LeafVmt l, LeafVmt l' => l' = l
  | ContainerVmt c, ContainerVmt c' => container_step pi c c'
  | _, _ => False
  end.

Definition element_step (pi : perm) (e e' : wlmtk_element_t) : Prop :=
  x_pos e' = x_pos e /\ y_pos e' = y_pos e /\ visible e' = visible e /\
  parent_container_ptr e' = parent_container_ptr e /\
  (may_event pi = false ->
   last_pointer_motion_event e' = last_pointer_motion_event e) /\
  vmt_step pi (vmt e) (vmt e').

(** [frame pi s s']: the heap of [s'] has the elements of [s], each changed
    within what [pi] permits. *)
Definition frame (pi : perm) (s s' : state) : Prop :=
  forall k,
    match heap s !! k, heap s' !! k with
    | Some e, Some e' => element_step pi e e'
    | None, None => True
    | _, _ => False
    end.

(** The calls of [s'] continue those of [s]. *)
Definition extends (s s' : state) : Prop :=
  exists l, calls s' = calls s ++ l.

(** A state and its successor, related by a frame and by the calls made. *)
Definition evolves (pi : perm) (s s' : state) : Prop :=
  frame pi s s' /\ extends s s'.

Definition motion_perm : perm := Perm true false false false true.
Definition button_perm : perm := Perm false true false false false.
Definition cancel_perm : perm := Perm false false true false false.
Definition blur_perm : perm := Perm false false false true false.
Definition any_perm : perm := Perm true true true true true.

Definition perm_le (p q : perm) : Prop :=
  (may_focus p = true -> may_focus q = true) /\
  (may_capture p = true -> may_capture q = true) /\
  (may_grab p = true -> may_grab q = true) /\
  (may_keyboard p = true -> may_keyboard q = true) /\
  (may_event p = true -> may_event q = true).

(** ** Hit testing, as the specification words it *)

(** The motion event in the space of an element at [(x_pos, y_pos)]. *)
Definition local_event (e : wlmtk_element_t) (x y : coord) (time_msec : Z)
    (pointer_ptr : option nat) : wlmtk_pointer_motion_event_t :=
  MotionEvent (coord_sub x (x_pos e)) (coord_sub y (y_pos e)) time_msec
    pointer_ptr.

(** The focus-loss sentinel of [update_pointer_focus_at]. *)
Definition sentinel (time_msec : Z) (pointer_ptr : option nat)
    : wlmtk_pointer_motion_event_t :=
  MotionEvent NAN NAN time_msec pointer_ptr.

(** [(x, y)] lies in box [a] translated by the position of [e]. *)
Definition in_area (e : wlmtk_element_t) (a : box) (x y : coord) : bool :=
  int_le_coord (x_pos e + left a) x
  && coord_lt_int x (x_pos e + right a)
  && int_le_coord (y_pos e + top a) y
  && coord_lt_int y (y_pos e + bottom a).

Section HitTest.
Variable accepts_child :
  gmap nat wlmtk_element_t -> ptr -> wlmtk_pointer_motion_event_t -> bool.
Variable area : gmap nat wlmtk_element_t -> ptr -> outcome box.
Variable h : gmap nat wlmtk_element_t.
Variables (x y : coord) (time_msec : Z) (pointer_ptr : option nat).

(** A visible child whose pointer area, translated by its position,
    contains [(x, y)]. *)
Definition candidate (q : ptr) : bool :=
  match h !! q with
  | Some e =>
    visible e &&
    match area h q with
    | Done a => in_area e a x y
    | _ => false
    end
  | None => false
  end.

Definition offer (q : ptr) : wlmtk_pointer_motion_event_t :=
  match h !! q with
  | Some e => local_event e x y time_msec pointer_ptr
  | None => MotionEvent x y time_msec pointer_ptr
  end.

(** The deliveries of a front-to-back scan, in order, and the child that
    wins: every candidate is offered the motion in its own space, up to and
    including the first one that accepts. *)
Fixpoint plan (els : list ptr)
    : list (ptr * wlmtk_pointer_motion_event_t) * option ptr :=
  match els with
  | [] => ([], None)
  | q :: rest =>
    if candidate q then
      if accepts_child h q (offer q) then ([(q, offer q)], Some q)
      else ((q, offer q) :: (plan rest).1, (plan rest).2)
    else plan rest
  end.

(** A container accepts a motion when it holds a grab, or when one of its
    candidates accepts. *)
Definition container_accepts (c : wlmtk_container_t) : bool :=
  match pointer_grab_element_ptr c with
  | Some _ => true
  | None => bool_decide (is_Some (plan (elements c)).2)
  end.
End HitTest.

(** Whether an element accepts a motion event: leaves answer directly,
    containers recurse. *)
Fixpoint accepts (fuel : nat) (h : gmap nat wlmtk_element_t) (el : ptr)
    (ev : wlmtk_pointer_motion_event_t) : bool :=
  match fuel with
  | O => false
  | S n =>
    match h !! el with
    | Some e =>
      match vmt e with
      | LeafVmt l => leaf_pointer_motion l ev
      | ContainerVmt c =>
        container_accepts (accepts n) (wlmtk_element_get_pointer_area n) h
          (ev_x ev) (ev_y ev) (ev_time_msec ev) (ev_pointer_ptr ev) c
      end
    | None => false
    end
  end.

(** The code that ends the scan of [update_pointer_focus_at], with a winner
    or without. *)
Definition settle (deliver : ptr -> wlmtk_pointer_motion_event_t -> M bool)
    (cp : ptr) (t : Z) (p : option nat) (w : option ptr) : M bool :=
  match w with
  | Some q => take_pointer_focus deliver cp q t p
  | None => reset_pointer_focus deliver cp t p
  end.

(** The leave notification that a change of the focus holder sends. *)
Definition leave (old new : option ptr) (time_msec : Z)
    (pointer_ptr : option nat)
    : list (ptr * wlmtk_pointer_motion_event_t) :=
  match old with
  | Some f =>
    if bool_decide (new = Some f) then []
    else [(f, sentinel time_msec pointer_ptr)]
  | None => []
  end.

(** Delivers motion events one after the other. *)
Fixpoint deliveries
    (deliver : ptr -> wlmtk_pointer_motion_event_t -> M bool)
    (evs : list (ptr * wlmtk_pointer_motion_event_t)) : M unit :=
  match evs with
  | [] => ret tt
  | (q, ev) :: rest =>
    let* _ := deliver q ev in
    deliveries deliver rest
  end.

(** ** Bounding boxes, as the specification words them *)

(** The smallest box that covers both. *)
Definition box_union (a b : box) : box :=
  Box (Z.min (left a) (left b)) (Z.min (top a) (top b))
      (Z.max (right a) (right b)) (Z.max (bottom a) (bottom b)).

Definition translate (dx dy : Z) (b : box) : box :=
  Box (dx + left b) (dy + top b) (dx + right b) (dy + bottom b).

(** An axis of a box that is degenerate becomes the zero interval. *)
Definition zero_degenerate_axes (b : box) : box :=
  Box (if decide (left b >= right b) then 0 else left b)
      (if decide (top b >= bottom b) then 0 else top b)
      (if decide (left b >= right b) then 0 else right b)
      (if decide (top b >= bottom b) then 0 else bottom b).

(** The union of the boxes of a list; the zero box when there is none. *)
Definition bounding_box (bs : list box) : box :=
  match bs with
  | [] => Box 0 0 0 0
  | b :: rest => zero_degenerate_axes (foldl box_union b rest)
  end.

(** The boxes of the visible children, each translated by the position of
    its child, front to back. *)
Definition visible_boxes
    (child_box : gmap nat wlmtk_element_t -> ptr -> outcome box)
    (h : gmap nat wlmtk_element_t) (els : list ptr) : list box :=
  omap (fun q =>
          match h !! q with
          | Some e =>
            if visible e then
              match child_box h q with
              | Done b => Some (translate (x_pos e) (y_pos e) b)
              | _ => None
              end
            else None
          | None => None
          end) els.

(** The children answer: each is in the heap and, when visible, has a box. *)
Definition children_answer
    (child_box : gmap nat wlmtk_element_t -> ptr -> outcome box)
    (h : gmap nat wlmtk_element_t) (els : list ptr) : Prop :=
  Forall (fun q => exists e, h !! q = Some e /\
                   (visible e = true -> exists b, child_box h q = Done b))
    els.

(** The coordinates of a box are values of the C type [int]. *)
Definition int32_box (b : box) : Prop :=
  INT32_MIN <= left b <= INT32_MAX /\ INT32_MIN <= top b <= INT32_MAX /\
  INT32_MIN <= right b <= INT32_MAX /\ INT32_MIN <= bottom b <= INT32_MAX.

(** [untouched rank r s s']: the elements of rank [r] and above are the same
    in [s'] as in [s]. *)
Definition untouched (rank : ptr -> nat) (r : nat) (s s' : state) : Prop :=
  forall k, (r <= rank k)%nat -> heap s' !! k = heap s !! k.

(** The state in which container [cp] has its pointer focus set to [w]. *)
Definition with_pointer_focus (cp : ptr) (w : option ptr) (s : state)
    : state :=
  match heap s !! cp with
  | Some e =>
    match vmt e with
    | ContainerVmt c =>
      State (<[cp := set_vmt e (ContainerVmt (set_pointer_focus c w))]>
               (heap s)) (calls s)
    | LeafVmt _ => s
    end
  | None => s
  end.

(** ** A scene for worked examples *)

Definition zero_event : wlmtk_pointer_motion_event_t :=
  MotionEvent (Finite 0) (Finite 0) 0 None.

(** The fake element of the unit tests of container.c: its dimensions are
    [width] by [height], its pointer area extends them by (-1, -2, 3, 4). *)
Definition wlmtk_fake_element (width height : Z) (accept : bool) : vmt_t :=
  LeafVmt (Leaf (Box 0 0 width height)
             (Box (-1) (-2) (width + 3) (height + 4))
             (fun _ => accept) (fun _ => accept) true).

(** A container at address 0 with two fake elements of 10 by 10: element 1
    at (0, 0) in front, element 2 at (10, 0) behind it. *)
Definition scene (root : wlmtk_container_t) (accept2 : bool) : state :=
  State
    (<[0%nat := Element 0 0 true None zero_event (ContainerVmt root)]>
     (<[1%nat := Element 0 0 true (Some 0%nat) zero_event
                   (wlmtk_fake_element 10 10 true)]>
      (<[2%nat := Element 10 0 true (Some 0%nat) zero_event
                    (wlmtk_fake_element 10 10 accept2)]> ∅)))
    [].

(** Containers nested in one another: container 0 holds container 1, which
    holds container 2, which holds the fake element 3. *)
Definition nested_scene (c0 c1 c2 : wlmtk_container_t) : state :=
  State
    (<[0%nat := Element 0 0 true None zero_event (ContainerVmt c0)]>
     (<[1%nat := Element 0 0 true (Some 0%nat) zero_event (ContainerVmt c1)]>
      (<[2%nat := Element 0 0 true (Some 1%nat) zero_event
                    (ContainerVmt c2)]>
       (<[3%nat := Element 0 0 true (Some 2%nat) zero_event
                     (wlmtk_fake_element 10 10 true)]> ∅))))
    [].

(** Ranks for the scenes: the depth below which an element sits. *)
Definition scene_rank (k : ptr) : nat :=
  match k with
  | O => 3
  | S O => 2
  | S (S O) => 1
  | _ => 0
  end.

(** The state a call ends in; [s] when it does not end. *)
Definition final_state {A} (o : outcome (A * state)) (s : state) : state :=
  match o with
  | Done (_, s') => s'
  | _ => s
  end.

(** [leave_before_enter old new cs]: among the calls [cs], a sentinel motion
    to [old] comes before a real motion to [new]. *)
Definition leave_before_enter (old new : ptr) (cs : list call) : Prop :=
  exists i j evl eve,
    (i < j)%nat /\
    cs !! i = Some (pointer_motion_call old evl) /\ is_sentinel evl = true /\
    cs !! j = Some (pointer_motion_call new eve) /\ is_sentinel eve = false.

(** ** The tree of elements *)

(** The parent container recorded in the element at [x]. *)
Definition parent_at (s : state) (x : ptr) : option ptr :=
  match heap s !! x with
  | Some e => parent_container_ptr e
  | None => None
  end.

(** [below s a x]: following parent pointers from [x] leads to [a]. *)
Inductive below (s : state) (a : ptr) : ptr -> Prop :=
| below_self : below s a a
| below_child (x p : ptr) :
    parent_at s x = Some p -> below s a p -> below s a x.

(** Every element a container refers to records that container as its
    parent. *)
Definition owned (s : state) : Prop :=
  forall a c q, container_at s a c -> q ∈ refs c -> parent_at s q = Some a.

(** A parent ranks above its children. *)
Definition parent_ranked (rank : ptr -> nat) (s : state) : Prop :=
  forall x p, parent_at s x = Some p -> (rank x < rank p)%nat.

(** No element ranks above [r]. *)
Definition rank_bound (rank : ptr -> nat) (r : nat) (s : state) : Prop :=
  forall k, is_Some (heap s !! k) -> (rank k <= r)%nat.

(** The fields of the container at [p], when there is one. *)
Definition container_of (s : state) (p : ptr) : option wlmtk_container_t :=
  match heap s !! p with
  | Some e =>
    match vmt e with
    | ContainerVmt c => Some c
    | LeafVmt _ => None
    end
  | None => None
  end.

(** The parent of an element is a container. *)
Definition parents_contain (s : state) : Prop :=
  forall x p, parent_at s x = Some p -> exists c, container_at s p c.

(** The elements form a tree that [rank] measures. *)
Definition tree (rank : ptr -> nat) (r : nat) (s : state) : Prop :=
  ranked rank s /\ owned s /\ parent_ranked rank s /\ rank_bound rank r s /\
  parents_contain s.

Definition treeb (rank : ptr -> nat) (r : nat) (s : state) : bool :=
  rankedb rank s &&
  forallb
    (fun ke : nat * wlmtk_element_t =>
       bool_decide (rank ke.1 <= r)%nat &&
       match parent_container_ptr ke.2 with
       | Some p =>
         bool_decide (rank ke.1 < rank p)%nat &&
         bool_decide (is_Some (container_of s p))
       | None => true
       end &&
       match vmt ke.2 with
       | LeafVmt _ => true
       | ContainerVmt c =>
         forallb (fun q => bool_decide (parent_at s q = Some ke.1)) (refs c)
       end)
    (map_to_list (heap s)).

(** The value of a slot of the container at [p]. *)
Definition slot_of (f : wlmtk_container_t -> option ptr) (s : state)
    (p : ptr) : option ptr :=
  match container_of s p with
  | Some c => f c
  | None => None
  end.

(** [confined s k s']: the elements that are not below [k] are the same in
    [s'] as in [s]. *)
Definition confined (s : state) (k : ptr) (s' : state) : Prop :=
  forall x, ~ below s k x -> heap s' !! x = heap s !! x.

(** ** Grab chains *)

(** [above s x y]: [y] is a proper ancestor of [x]. *)
Inductive above (s : state) : ptr -> ptr -> Prop :=
| above_parent (x a : ptr) : parent_at s x = Some a -> above s x a
| above_step (x a y : ptr) :
    parent_at s x = Some a -> above s a y -> above s x y.

(** [grab_chain s x]: every ancestor of [x] records, as its pointer-grab
    holder, the element through which it contains [x]. *)
Inductive grab_chain (s : state) : ptr -> Prop :=
| grab_chain_root (x : ptr) : parent_at s x = None -> grab_chain s x
| grab_chain_step (x a : ptr) :
    parent_at s x = Some a ->
    slot_of pointer_grab_element_ptr s a = Some x ->
    grab_chain s a -> grab_chain s x.



(** ** Repeating a motion *)

(** Only the cached motion events may change. *)
Definition event_perm : perm := Perm false false false false true.

(** A call that is not the delivery of a focus-loss sentinel. *)
Definition real_call (c : call) : Prop :=
  match c with
  | pointer_motion_call _ ev => is_sentinel ev = false
  | _ => True
  end.

(** [quiet s s']: from [s] to [s'] no sentinel motion was delivered to any
    element. *)
Definition quiet (s s' : state) : Prop :=
  exists l, calls s' = calls s ++ l /\ Forall real_call l.

(** No element is twice in the list of a container. *)
Definition distinct (s : state) : Prop :=
  forall k c, container_at s k c -> NoDup (elements c).

Definition distinctb (s : state) : bool :=
  forallb
    (fun ke : nat * wlmtk_element_t =>
       match vmt ke.2 with
       | LeafVmt _ => true
       | ContainerVmt c => bool_decide (NoDup (elements c))
       end)
    (map_to_list (heap s)).

(** [settled fuel h el ev]: in the containers that a delivery of [ev] to
    [el] passes through, the pointer-focus holder is already the child that
    the hit test finds (none when no child accepts). *)
Fixpoint settled (fuel : nat) (h : gmap nat wlmtk_element_t) (el : ptr)
    (ev : wlmtk_pointer_motion_event_t) : Prop :=
  match fuel with
  | O => True
  | S n =>
    match h !! el with
    | Some e =>
      match vmt e with
      | LeafVmt _ => True
      | ContainerVmt c =>
        match pointer_grab_element_ptr c with
        | Some g =>
          match h !! g with
          | Some ge =>
            settled n h g
              (local_event ge (ev_x ev) (ev_y ev) (ev_time_msec ev)
                 (ev_pointer_ptr ev))
          | None => True
          end
        | None =>
          pointer_focus_element_ptr c
          = (plan (accepts n) (wlmtk_element_get_pointer_area n) h
               (ev_x ev) (ev_y ev) (ev_time_msec ev) (ev_pointer_ptr ev)
               (elements c)).2 /\
          Forall (fun qe => settled n h qe.1 qe.2)
            (plan (accepts n) (wlmtk_element_get_pointer_area n) h
               (ev_x ev) (ev_y ev) (ev_time_msec ev) (ev_pointer_ptr ev)
               (elements c)).1
        end
      end
    | None => True
    end
  end.

(** Two elements that differ at most in the cached motion event. *)
Definition same_modulo_event (o o' : option wlmtk_element_t) : Prop :=
  match o, o' with
  | Some e, Some e' => element_step event_perm e e'
  | None, None => True
  | _, _ => False
  end.

(** [similar_below s s' q]: below [q], the heaps of [s] and [s'] differ at
    most in cached motion events. *)
Definition similar_below (s s' : state) (q : ptr) : Prop :=
  forall x, below s q x -> same_modulo_event (heap s !! x) (heap s' !! x).

(** The state right after a motion event reached the element [e] at [el]:
    the call is on record and the event is cached in the element. *)
Definition with_motion_event (el : ptr) (e : wlmtk_element_t)
    (ev : wlmtk_pointer_motion_event_t) (s : state) : state :=
  State
    (<[el := Element (x_pos e) (y_pos e) (visible e) (parent_container_ptr e)
               ev (vmt e)]> (heap s))
    (calls s ++ [pointer_motion_call el ev]).


(** * The rest of container.c *)

(** ** Adding and raising elements *)

(** [bs_dllist_push_front], [bs_dllist_push_back]: the head of the list is
    the front. *)
Definition bs_dllist_push_front (els : list ptr) (element_ptr : ptr)
    : list ptr :=
  element_ptr :: els.

Definition bs_dllist_push_back (els : list ptr) (element_ptr : ptr)
    : list ptr :=
  els ++ [element_ptr].

(** [bs_dllist_insert_node_before]: links [new] right before the node
    [reference]; [None] when [reference] is no node of the list. *)
Fixpoint bs_dllist_insert_node_before (els : list ptr)
    (reference new : ptr) : option (list ptr) :=
  match els with
  | [] => None
  | q :: rest =>
    if bool_decide (q = reference) then Some (new :: q :: rest)
    else
      match bs_dllist_insert_node_before rest reference new with
      | Some l => Some (q :: l)
      | None => None
      end
  end.

(** [wlmtk_container_add_element].  The scene graph is left out: no element
    has a scene node, which is what the second assertion of the function
    asks of [element_ptr]. *)
Definition wlmtk_container_add_element (fuel : nat)
    (container_ptr element_ptr : ptr) : M unit :=
  let* e := get_element element_ptr in
  let* _ := BS_ASSERT (ptr_eqb None (parent_container_ptr e)) in
  let* _ := wlmtk_element_pointer_grab_cancel fuel element_ptr in
  let* c := get_container container_ptr in
  let* _ := put_container container_ptr
              (set_elements c
                 (bs_dllist_push_front (elements c) element_ptr)) in
  let* _ := wlmtk_element_set_parent_container element_ptr
              (Some container_ptr) in
  wlmtk_container_update_layout fuel container_ptr.

(** [wlmtk_container_add_element_atop]; [reference_element_ptr] is [None]
    for [NULL]. *)
Definition wlmtk_container_add_element_atop (fuel : nat)
    (container_ptr : ptr) (reference_element_ptr : option ptr)
    (element_ptr : ptr) : M unit :=
  let* e := get_element element_ptr in
  let* _ := BS_ASSERT (ptr_eqb None (parent_container_ptr e)) in
  let* _ :=
    match reference_element_ptr with
    | None => ret tt
    | Some r =>
      let* re := get_element r in
      BS_ASSERT (ptr_eqb (Some container_ptr) (parent_container_ptr re))
    end in
  let* c := get_container container_ptr in
  let* els :=
    match reference_element_ptr with
    | None => ret (bs_dllist_push_back (elements c) element_ptr)
    | Some r =>
      match bs_dllist_insert_node_before (elements c) r element_ptr with
      | Some l => ret l
      | None => fun _ => Wild
      end
    end in
  let* _ := put_container container_ptr (set_elements c els) in
  let* _ := wlmtk_element_set_parent_container element_ptr
              (Some container_ptr) in
  wlmtk_container_update_layout fuel container_ptr.

(** [wlmtk_container_raise_element_to_top]. *)
Definition wlmtk_container_raise_element_to_top (fuel : nat)
    (container_ptr element_ptr : ptr) : M unit :=
  let* e := get_element element_ptr in
  let* _ := BS_ASSERT
              (ptr_eqb (parent_container_ptr e) (Some container_ptr)) in
  let* c := get_container container_ptr in
  if ptr_eqb (Some element_ptr) (head (elements c)) then ret tt
  else
    let* _ := put_container container_ptr
                (set_elements c
                   (bs_dllist_push_front
                      (bs_dllist_remove (elements c) element_ptr)
                      element_ptr)) in
    wlmtk_container_update_layout fuel container_ptr.

(** ** Axis and keyboard events *)

Section AxisAndKeyboard.
(** Modelled from the spec: what the [pointer_axis] method, and what the
    [keyboard_event] method, of the element at an address answers when that
    element is not a container. *)
Variable leaf_pointer_axis : ptr -> bool.
Variable leaf_keyboard_event : ptr -> bool.

(** [_wlmtk_container_element_pointer_axis]: reads the grab and the focus
    slot, writes nothing. *)
Definition _wlmtk_container_element_pointer_axis
    (wlmtk_element_pointer_axis :
       gmap nat wlmtk_element_t -> ptr -> outcome bool)
    (h : gmap nat wlmtk_element_t) (c : wlmtk_container_t) : outcome bool :=
  match pointer_grab_element_ptr c with
  | Some g => wlmtk_element_pointer_axis h g
  | None =>
    match pointer_focus_element_ptr c with
    | None => Done false
    | Some f => wlmtk_element_pointer_axis h f
    end
  end.

(** Dispatch through [vmt.pointer_axis]. *)
Fixpoint wlmtk_element_pointer_axis (fuel : nat)
    (h : gmap nat wlmtk_element_t) (element_ptr : ptr) : outcome bool :=
  match fuel with
  | O => OutOfFuel
  | S n =>
    match h !! element_ptr with
    | None => Wild
    | Some e =>
      match vmt e with
      | LeafVmt _ => Done (leaf_pointer_axis element_ptr)
      | ContainerVmt c =>
        _wlmtk_container_element_pointer_axis
          (wlmtk_element_pointer_axis n) h c
      end
    end
  end.

(** [_wlmtk_container_element_keyboard_event]. *)
Definition _wlmtk_container_element_keyboard_event
    (wlmtk_element_keyboard_event :
       gmap nat wlmtk_element_t -> ptr -> outcome bool)
    (h : gmap nat wlmtk_element_t) (c : wlmtk_container_t) : outcome bool :=
  match keyboard_focus_element_ptr c with
  | None => Done false
  | Some k => wlmtk_element_keyboard_event h k
  end.

(** Dispatch through [vmt.keyboard_event]. *)
Fixpoint wlmtk_element_keyboard_event (fuel : nat)
    (h : gmap nat wlmtk_element_t) (element_ptr : ptr) : outcome bool :=
  match fuel with
  | O => OutOfFuel
  | S n =>
    match h !! element_ptr with
    | None => Wild
    | Some e =>
      match vmt e with
      | LeafVmt _ => Done (leaf_keyboard_event element_ptr)
      | ContainerVmt c =>
        _wlmtk_container_element_keyboard_event
          (wlmtk_element_keyboard_event n) h c
      end
    end
  end.
End AxisAndKeyboard.

(** ** Vocabulary of the further statements *)

(** Every pointer-focus holder is an element of its container. *)
Definition focus_is_child (s : state) : Prop :=
  forall k c f, container_at s k c ->
    pointer_focus_element_ptr c = Some f -> f ∈ elements c.

(** The box [b] lies within the box [r]. *)
Definition covers (r b : box) : Prop :=
  left r <= left b /\ right b <= right r /\
  top r <= top b /\ bottom b <= bottom r.

(** [kbd_chain s x]: every ancestor of [x] records, as its keyboard-focus
    holder, the element through which it contains [x]. *)
Inductive kbd_chain (s : state) : ptr -> Prop :=
| kbd_chain_root (x : ptr) : parent_at s x = None -> kbd_chain s x
| kbd_chain_step (x a : ptr) :
    parent_at s x = Some a ->
    slot_of keyboard_focus_element_ptr s a = Some x ->
    kbd_chain s a -> kbd_chain s x.

(** [focus_path s el k]: [k] is reached from the container [el] by going
    from pointer-focus holder to pointer-focus holder, through containers
    that hold no grab; [k] is one of them. *)
Inductive focus_path (s : state) : ptr -> ptr -> Prop :=
| focus_path_here (el : ptr) (c : wlmtk_container_t) :
    container_at s el c -> pointer_grab_element_ptr c = None ->
    focus_path s el el
| focus_path_down (el : ptr) (c : wlmtk_container_t) (f k : ptr) :
    container_at s el c -> pointer_grab_element_ptr c = None ->
    pointer_focus_element_ptr c = Some f ->
    focus_path s f k -> focus_path s el k.

(** [nested rank r s]: what is left of [tree] while an element is being
    taken out of its container, when a slot may still designate an element
    that has lost its parent. *)
Definition nested (rank : ptr -> nat) (r : nat) (s : state) : Prop :=
  ranked rank s /\ parent_ranked rank s /\ rank_bound rank r s /\
  parents_contain s.

(** [restored C c e s]: in [s] the container at [C] has the list of
    elements and the capture, grab and keyboard-focus holders of [c], and
    the element at [e] has no parent. *)
Definition restored (C : ptr) (c : wlmtk_container_t) (e : ptr) (s : state)
    : Prop :=
  exists c2,
    container_at s C c2 /\
    elements c2 = elements c /\
    left_button_element_ptr c2 = left_button_element_ptr c /\
    pointer_grab_element_ptr c2 = pointer_grab_element_ptr c /\
    keyboard_focus_element_ptr c2 = keyboard_focus_element_ptr c /\
    parent_at s e = None.

(** A container at address 0 with the fake element 1 at (0, 0) as its only
    child; the fake element 2, at (10, 0), has no parent. *)
Definition loose_scene (root : wlmtk_container_t) : state :=
  State
    (<[0%nat := Element 0 0 true None zero_event (ContainerVmt root)]>
     (<[1%nat := Element 0 0 true (Some 0%nat) zero_event
                   (wlmtk_fake_element 10 10 true)]>
      (<[2%nat := Element 10 0 true None zero_event
                    (wlmtk_fake_element 10 10 true)]> ∅)))
    [].

(** [slot_line slot s a L]: going from the container [a] to the holder its
    slot [slot] names, and so on through containers that hold no grab, ends
    at the element [L], which is not a container. *)
Inductive slot_line (slot : wlmtk_container_t -> option ptr) (s : state)
    : ptr -> ptr -> Prop :=
| slot_line_leaf (L : ptr) (e : wlmtk_element_t) (lf : leaf_t) :
    heap s !! L = Some e -> vmt e = LeafVmt lf -> slot_line slot s L L
| slot_line_step (a : ptr) (c : wlmtk_container_t) (q L : ptr) :
    container_at s a c -> pointer_grab_element_ptr c = None ->
    slot c = Some q -> slot_line slot s q L -> slot_line slot s a L.




(** * Reasoning about the embedding *)

(** ** Inversion of monadic steps *)

Lemma bind_Done {A B} (m : M A) (k : A -> M B) s r :
  bind m k s = Done r ->
  exists a s1, m s = Done (a, s1) /\ k a s1 = Done r.
Proof.
  unfold bind. destruct (m s) as [[a s1]| | |]; try discriminate.
  intros H. exists a, s1. split; [reflexivity | exact H].
Qed.

Lemma bind_Done_intro {A B} (m : M A) (k : A -> M B) s a s1 :
  m s = Done (a, s1) -> bind m k s = k a s1.
Proof. unfold bind. intros ->. reflexivity. Qed.

Lemma ret_Done {A} (a : A) s r : ret a s = Done r -> r = (a, s).
Proof. unfold ret. congruence. Qed.

Lemma get_element_Done p s e s1 :
  get_element p s = Done (e, s1) -> s1 = s /\ heap s !! p = Some e.
Proof.
  unfold get_element. destruct (heap s !! p); [|discriminate].
  intros H. injection H as -> ->. split; reflexivity.
Qed.

Lemma get_element_intro p s e :
  heap s !! p = Some e -> get_element p s = Done (e, s).
Proof. unfold get_element. intros ->. reflexivity. Qed.

Lemma get_container_Done p s c s1 :
  get_container p s = Done (c, s1) -> s1 = s /\ container_at s p c.
Proof.
  unfold get_container. intros H.
  apply bind_Done in H as (e & s2 & He & H).
  apply get_element_Done in He as [-> He].
  destruct (vmt e) eqn:Hv; [discriminate|].
  apply ret_Done in H. injection H as -> ->.
  split; [reflexivity|]. exists e. split; assumption.
Qed.

Lemma get_container_intro p s c :
  container_at s p c -> get_container p s = Done (c, s).
Proof.
  intros (e & He & Hv). unfold get_container.
  rewrite (bind_Done_intro _ _ _ _ _ (get_element_intro _ _ _ He)).
  rewrite Hv. reflexivity.
Qed.

Lemma container_at_inj s p c1 c2 :
  container_at s p c1 -> container_at s p c2 -> c1 = c2.
Proof. intros (e1 & H1 & V1) (e2 & H2 & V2). congruence. Qed.

Lemma put_element_Done p e s u s1 :
  put_element p e s = Done (u, s1) ->
  s1 = State (<[p := e]> (heap s)) (calls s).
Proof. unfold put_element. congruence. Qed.

Lemma put_container_Done p c s u s1 :
  put_container p c s = Done (u, s1) ->
  exists e, heap s !! p = Some e /\
    s1 = State (<[p := set_vmt e (ContainerVmt c)]> (heap s)) (calls s).
Proof.
  unfold put_container. intros H.
  apply bind_Done in H as (e & s2 & He & H).
  apply get_element_Done in He as [-> He].
  apply put_element_Done in H. exists e. split; assumption.
Qed.

Lemma put_container_intro p c s e :
  heap s !! p = Some e ->
  put_container p c s =
  Done (tt, State (<[p := set_vmt e (ContainerVmt c)]> (heap s)) (calls s)).
Proof.
  intros He. unfold put_container.
  rewrite (bind_Done_intro _ _ _ _ _ (get_element_intro _ _ _ He)).
  reflexivity.
Qed.

Lemma emit_Done c s u s1 :
  emit c s = Done (u, s1) -> s1 = State (heap s) (calls s ++ [c]).
Proof. unfold emit. congruence. Qed.

Lemma BS_ASSERT_Done b s u s1 :
  BS_ASSERT b s = Done (u, s1) -> b = true /\ s1 = s.
Proof.
  unfold BS_ASSERT. destruct b; [|discriminate].
  intros H. apply ret_Done in H. split; congruence.
Qed.

Lemma read_Done {A} (f : gmap nat wlmtk_element_t -> outcome A) s a s1 :
  read f s = Done (a, s1) -> s1 = s /\ f (heap s) = Done a.
Proof.
  unfold read. destruct (f (heap s)); try discriminate.
  intros H. injection H as -> ->. split; reflexivity.
Qed.

Lemma parent_of_Done p s o s1 :
  parent_of p s = Done (o, s1) ->
  s1 = s /\ exists e, heap s !! p = Some e /\ parent_container_ptr e = o.
Proof.
  unfold parent_of. intros H.
  apply bind_Done in H as (e & s2 & He & H).
  apply get_element_Done in He as [-> He].
  apply ret_Done in H. injection H as -> ->.
  split; [reflexivity|]. exists e. split; [assumption | reflexivity].
Qed.

Lemma ptr_eqb_true a b : ptr_eqb a b = true <-> a = b.
Proof. unfold ptr_eqb. apply bool_decide_eq_true. Qed.

Lemma ptr_eqb_false a b : ptr_eqb a b = false <-> a <> b.
Proof. unfold ptr_eqb. apply bool_decide_eq_false. Qed.

(** Splits the first step off a computation that is known to finish. *)
Ltac step_in H :=
  let a := fresh "a" in
  let s := fresh "s" in
  let H1 := fresh "Hstep" in
  apply bind_Done in H as (a & s & H1 & H).

Ltac inv_step H :=
  match type of H with
  | get_element _ _ = Done _ =>
      apply get_element_Done in H as [-> H]
  | get_container _ _ = Done _ =>
      apply get_container_Done in H as [-> H]
  | emit _ _ = Done _ => apply emit_Done in H; subst
  | BS_ASSERT _ _ = Done _ => apply BS_ASSERT_Done in H as [H ->]
  | ret _ _ = Done _ => apply ret_Done in H; inversion H; subst; clear H
  | parent_of _ _ = Done _ => apply parent_of_Done in H as [-> H]
  | read _ _ = Done _ => apply read_Done in H as [-> H]
  end.

(** ** Frames *)

Lemma elem_of_slots c q :
  q ∈ slots c <->
  pointer_focus_element_ptr c = Some q \/
  left_button_element_ptr c = Some q \/
  pointer_grab_element_ptr c = Some q \/
  keyboard_focus_element_ptr c = Some q.
Proof.
  unfold slots. rewrite list_elem_of_omap. split.
  - intros (o & Ho & Hq). simpl in Hq. subst o.
    rewrite !elem_of_cons in Ho. rewrite elem_of_nil in Ho.
    destruct Ho as [H|[H|[H|[H|[]]]]]; symmetry in H; tauto.
  - intros H. exists (Some q). split; [|reflexivity].
    rewrite !elem_of_cons.
    destruct H as [H|[H|[H|H]]]; rewrite <- H; tauto.
Qed.

Lemma elem_of_refs c q :
  q ∈ refs c <-> q ∈ elements c \/ q ∈ slots c.
Proof. unfold refs. apply elem_of_app. Qed.

Lemma slot_step_refl may grow old : slot_step may grow old old.
Proof. left. reflexivity. Qed.

Lemma slot_step_trans may (g1 g2 : ptr -> Prop) a b c :
  (forall q, g2 q -> g1 q) ->
  slot_step may g1 a b -> slot_step may g2 b c -> slot_step may g1 a c.
Proof.
  intros Hg [->|[Hm H1]] [->|[Hm' H2]].
  - left; reflexivity.
  - right. split; [assumption|].
    destruct H2 as [->|(q & -> & Hq)]; [left|right]; eauto.
  - right. split; assumption.
  - right. split; [assumption|].
    destruct H2 as [->|(q & -> & Hq)]; [left|right]; eauto.
Qed.

Lemma slot_step_mono (m1 m2 : bool) (g1 g2 : ptr -> Prop) a b :
  (m1 = true -> m2 = true) -> (forall q, g1 q -> g2 q) ->
  slot_step m1 g1 a b -> slot_step m2 g2 a b.
Proof.
  intros Hm Hg [->|[H1 H2]]; [left; reflexivity|].
  right. split; [auto|]. destruct H2 as [->|(q & -> & Hq)]; eauto.
Qed.

Lemma slot_step_in may (grow : ptr -> Prop) old new q :
  slot_step may grow old new -> new = Some q -> old = Some q \/ grow q.
Proof.
  intros [->|[_ [->|(q' & -> & Hq)]]] H; [left; exact H|discriminate|].
  injection H as ->. right. exact Hq.
Qed.

Lemma slot_step_fixed (g : ptr -> Prop) old new :
  slot_step false g old new -> new = old.
Proof. intros [H|[H _]]; [exact H | discriminate H]. Qed.

Lemma container_step_refl pi c : container_step pi c c.
Proof. repeat split; apply slot_step_refl. Qed.

Lemma container_step_refs pi c c' q :
  container_step pi c c' -> q ∈ refs c' -> q ∈ refs c.
Proof.
  intros (He & Hf & Hl & Hg & Hk). rewrite !elem_of_refs, He.
  intros [H|H]; [left; exact H|].
  apply elem_of_slots in H. rewrite elem_of_slots.
  destruct H as [H|[H|[H|H]]].
  - destruct (slot_step_in _ _ _ _ _ Hf H); [right; tauto | left; assumption].
  - destruct (slot_step_in _ _ _ _ _ Hl H) as [H'|H']; [right; tauto|].
    apply elem_of_refs in H'. rewrite elem_of_slots in H'. exact H'.
  - destruct (slot_step_in _ _ _ _ _ Hg H); [right; tauto | contradiction].
  - destruct (slot_step_in _ _ _ _ _ Hk H); [right; tauto | contradiction].
Qed.

Lemma container_step_trans pi c1 c2 c3 :
  container_step pi c1 c2 -> container_step pi c2 c3 ->
  container_step pi c1 c3.
Proof.
  intros H12 H23.
  pose proof (fun q => container_step_refs _ _ _ q H12) as Hrefs.
  destruct H12 as (He & Hf & Hl & Hg & Hk).
  destruct H23 as (He' & Hf' & Hl' & Hg' & Hk').
  split; [congruence|].
  split; [eapply slot_step_trans; [|exact Hf|exact Hf'];
          simpl; intros q; rewrite He; auto|].
  split; [eapply slot_step_trans; [|exact Hl|exact Hl']; exact (fun q => Hrefs q)|].
  split; [eapply slot_step_trans; [|exact Hg|exact Hg']; auto|].
  eapply slot_step_trans; [|exact Hk|exact Hk']; auto.
Qed.

Lemma container_step_mono p q c c' :
  perm_le p q -> container_step p c c' -> container_step q c c'.
Proof.
  intros (L1 & L2 & L3 & L4 & L5) (He & Hf & Hl & Hg & Hk).
  split; [assumption|].
  split; [eapply slot_step_mono; [exact L1| |exact Hf]; auto|].
  split; [eapply slot_step_mono; [exact L2| |exact Hl]; auto|].
  split; [eapply slot_step_mono; [exact L3| |exact Hg]; auto|].
  eapply slot_step_mono; [exact L4| |exact Hk]; auto.
Qed.

Lemma element_step_refl pi e : element_step pi e e.
Proof.
  repeat split. unfold vmt_step. destruct (vmt e);
    [reflexivity | apply container_step_refl].
Qed.

Lemma element_step_trans pi e1 e2 e3 :
  element_step pi e1 e2 -> element_step pi e2 e3 -> element_step pi e1 e3.
Proof.
  intros (X & Y & V & P & L & S1) (X' & Y' & V' & P' & L' & S2).
  repeat split; try congruence.
  - intros Hm. rewrite (L' Hm). exact (L Hm).
  - unfold vmt_step in *.
    destruct (vmt e1), (vmt e2), (vmt e3); try contradiction;
      [congruence | eapply container_step_trans; eassumption].
Qed.

Lemma element_step_mono p q e e' :
  perm_le p q -> element_step p e e' -> element_step q e e'.
Proof.
  intros Hle (X & Y & V & P & L & S1).
  repeat split; try assumption.
  - intros Hm. apply L. destruct Hle as (_ & _ & _ & _ & L5).
    destruct (may_event p); [specialize (L5 eq_refl); congruence|reflexivity].
  - unfold vmt_step in *. destruct (vmt e), (vmt e'); try assumption.
    eapply container_step_mono; eassumption.
Qed.

Lemma frame_refl pi s : frame pi s s.
Proof.
  intros k. destruct (heap s !! k); [apply element_step_refl | exact I].
Qed.

Lemma frame_trans pi s1 s2 s3 :
  frame pi s1 s2 -> frame pi s2 s3 -> frame pi s1 s3.
Proof.
  intros H12 H23 k. specialize (H12 k). specialize (H23 k).
  destruct (heap s1 !! k), (heap s2 !! k), (heap s3 !! k);
    try contradiction; try exact I.
  eapply element_step_trans; eassumption.
Qed.

Lemma frame_mono p q s s' : perm_le p q -> frame p s s' -> frame q s s'.
Proof.
  intros Hle H k. specialize (H k).
  destruct (heap s !! k), (heap s' !! k); try assumption.
  eapply element_step_mono; eassumption.
Qed.

Lemma frame_lookup pi s s' k e :
  frame pi s s' -> heap s !! k = Some e ->
  exists e', heap s' !! k = Some e' /\ element_step pi e e'.
Proof.
  intros H He. specialize (H k). rewrite He in H.
  destruct (heap s' !! k) as [e'|]; [|contradiction]. eauto.
Qed.

Lemma frame_lookup_rev pi s s' k e' :
  frame pi s s' -> heap s' !! k = Some e' ->
  exists e, heap s !! k = Some e /\ element_step pi e e'.
Proof.
  intros H He. specialize (H k). rewrite He in H.
  destruct (heap s !! k) as [e|]; [|contradiction]. eauto.
Qed.

Lemma frame_container pi s s' k c :
  frame pi s s' -> container_at s k c ->
  exists c', container_at s' k c' /\ container_step pi c c'.
Proof.
  intros H (e & He & Hv).
  destruct (frame_lookup _ _ _ _ _ H He) as (e' & He' & St).
  destruct St as (_ & _ & _ & _ & _ & Sv). unfold vmt_step in Sv.
  rewrite Hv in Sv. destruct (vmt e') as [|c'] eqn:Hv'; [contradiction|].
  exists c'. split; [exists e'; split; assumption | assumption].
Qed.

Lemma frame_container_rev pi s s' k c' :
  frame pi s s' -> container_at s' k c' ->
  exists c, container_at s k c /\ container_step pi c c'.
Proof.
  intros H (e' & He' & Hv').
  destruct (frame_lookup_rev _ _ _ _ _ H He') as (e & He & St).
  destruct St as (_ & _ & _ & _ & _ & Sv). unfold vmt_step in Sv.
  rewrite Hv' in Sv. destruct (vmt e) as [|c] eqn:Hv; [contradiction|].
  exists c. split; [exists e; split; assumption | assumption].
Qed.

Lemma ranked_frame rank pi s s' :
  ranked rank s -> frame pi s s' -> ranked rank s'.
Proof.
  intros Hr Hf k c' Hc' q Hq.
  destruct (frame_container_rev _ _ _ _ _ Hf Hc') as (c & Hc & St).
  destruct (Hr k c Hc q (container_step_refs _ _ _ _ St Hq)) as [[e He] Hlt].
  split; [|exact Hlt].
  destruct (frame_lookup _ _ _ _ _ Hf He) as (e' & He' & _). eauto.
Qed.

Lemma extends_refl s : extends s s.
Proof. exists []. symmetry. apply app_nil_r. Qed.

Lemma extends_trans s1 s2 s3 :
  extends s1 s2 -> extends s2 s3 -> extends s1 s3.
Proof.
  intros [l1 H1] [l2 H2]. exists (l1 ++ l2).
  rewrite H2, H1. symmetry. apply app_assoc.
Qed.

Lemma rankedb_sound rank s : rankedb rank s = true -> ranked rank s.
Proof.
  unfold rankedb. rewrite forallb_forall.
  intros H k c (e & He & Hv) q Hq.
  specialize (H (k, e)). simpl in H. rewrite Hv in H.
  assert (Hin : In (k, e) (map_to_list (heap s))).
  { apply list_elem_of_In. apply elem_of_map_to_list. exact He. }
  specialize (H Hin). rewrite forallb_forall in H.
  specialize (H q (proj1 (list_elem_of_In _ _) Hq)).
  apply andb_true_iff in H as [H1 H2].
  apply bool_decide_eq_true in H1. apply bool_decide_eq_true in H2.
  split; assumption.
Qed.

(** ** The primitive writes *)

Lemma frame_calls pi s l : frame pi s (State (heap s) l).
Proof. apply (frame_refl pi s). Qed.

Lemma frame_put_container pi s p e c c' l :
  heap s !! p = Some e -> vmt e = ContainerVmt c ->
  container_step pi c c' ->
  frame pi s (State (<[p := set_vmt e (ContainerVmt c')]> (heap s)) l).
Proof.
  intros He Hv Hc k. simpl. destruct (decide (k = p)) as [->|Hne].
  - rewrite He, lookup_insert_eq. repeat split. simpl.
    unfold vmt_step. rewrite Hv. exact Hc.
  - rewrite lookup_insert_ne by congruence.
    destruct (heap s !! k); [apply element_step_refl | exact I].
Qed.

Lemma frame_put_event pi s p e ev l :
  may_event pi = true -> heap s !! p = Some e ->
  frame pi s
    (State (<[p := Element (x_pos e) (y_pos e) (visible e)
                     (parent_container_ptr e) ev (vmt e)]> (heap s)) l).
Proof.
  intros Hm He k. simpl. destruct (decide (k = p)) as [->|Hne].
  - rewrite He, lookup_insert_eq. repeat split; simpl.
    + congruence.
    + unfold vmt_step. destruct (vmt e);
        [reflexivity | apply container_step_refl].
  - rewrite lookup_insert_ne by congruence.
    destruct (heap s !! k); [apply element_step_refl | exact I].
Qed.

Lemma put_container_frame pi p c' s c u s1 :
  container_at s p c -> container_step pi c c' ->
  put_container p c' s = Done (u, s1) ->
  frame pi s s1 /\ calls s1 = calls s /\ container_at s1 p c'.
Proof.
  intros (e & He & Hv) Hc H.
  apply put_container_Done in H as (e0 & He0 & ->).
  assert (e0 = e) by congruence. subst e0.
  split; [eapply frame_put_container; eassumption|].
  split; [reflexivity|].
  exists (set_vmt e (ContainerVmt c')). simpl.
  rewrite lookup_insert_eq. split; reflexivity.
Qed.

Lemma element_pointer_motion_frame p ev s u s1 :
  _wlmtk_element_pointer_motion p ev s = Done (u, s1) ->
  frame motion_perm s s1 /\ calls s1 = calls s.
Proof.
  unfold _wlmtk_element_pointer_motion. intros H.
  step_in H. inv_step Hstep. apply put_element_Done in H. subst s1.
  split; [|reflexivity]. apply frame_put_event; [reflexivity | assumption].
Qed.

Lemma emit_frame pi c s u s1 :
  emit c s = Done (u, s1) -> frame pi s s1 /\ extends s s1.
Proof.
  intros H. apply emit_Done in H. subst s1.
  split; [apply frame_calls | exists [c]; reflexivity].
Qed.

Lemma evolves_refl pi s : evolves pi s s.
Proof. split; [apply frame_refl | apply extends_refl]. Qed.

Lemma evolves_trans pi s1 s2 s3 :
  evolves pi s1 s2 -> evolves pi s2 s3 -> evolves pi s1 s3.
Proof.
  intros [F1 E1] [F2 E2].
  split; [eapply frame_trans | eapply extends_trans]; eassumption.
Qed.

Lemma evolves_mono p q s s' : perm_le p q -> evolves p s s' -> evolves q s s'.
Proof. intros Hle [F E]. split; [eapply frame_mono; eassumption | exact E]. Qed.

Lemma evolves_put_container pi p c' s c u s1 :
  container_at s p c -> container_step pi c c' ->
  put_container p c' s = Done (u, s1) -> evolves pi s s1.
Proof.
  intros Hc St H.
  destruct (put_container_frame pi _ _ _ _ _ _ Hc St H) as (F & E & _).
  split; [exact F | exists []; rewrite E; symmetry; apply app_nil_r].
Qed.

Lemma evolves_emit pi c s u s1 : emit c s = Done (u, s1) -> evolves pi s s1.
Proof. apply emit_frame. Qed.

Tactic Notation "step" ident(H) "as" ident(a) ident(s) ident(H1) :=
  apply bind_Done in H as (a & s & H1 & H).

(** ** Button delivery: what it changes *)

Lemma step_set_left_button c v :
  v = None \/ v = pointer_focus_element_ptr c ->
  container_step button_perm c (set_left_button c v).
Proof.
  intros Hv. split; [reflexivity|].
  split; [apply slot_step_refl|].
  split; [|split; apply slot_step_refl].
  simpl. right. split; [reflexivity|].
  destruct Hv as [-> | ->]; [left; reflexivity|].
  destruct (pointer_focus_element_ptr c) as [q|] eqn:Hq;
    [right|left; reflexivity].
  exists q. split; [reflexivity|].
  apply elem_of_refs. right. apply elem_of_slots. left. exact Hq.
Qed.

Section ButtonFrame.
Variable deliver : ptr -> wlmtk_button_event_t -> M bool.
Hypothesis deliver_evolves : forall p ev s acc s',
  deliver p ev s = Done (acc, s') -> evolves button_perm s s'.

Lemma container_button_evolves el ev s acc s' :
  _wlmtk_container_element_pointer_button deliver el ev s = Done (acc, s') ->
  evolves button_perm s s'.
Proof.
  unfold _wlmtk_container_element_pointer_button. intros H.
  step H as c s0 Hc. inv_step Hc.
  destruct (pointer_grab_element_ptr c); [eauto|].
  destruct (button ev =? BTN_LEFT).
  - destruct (type ev); try discriminate H.
    + destruct (pointer_focus_element_ptr c); [|inv_step H; apply evolves_refl].
      step H as a1 s1 H1. step H as c2 s2 H2. inv_step H2.
      step H as u s3 H3. inv_step H.
      eapply evolves_trans; [eauto|].
      eapply evolves_put_container; [exact H2| |exact H3].
      apply step_set_left_button.
      match goal with |- context [if ?b then _ else _] => destruct b end; auto.
    + destruct (left_button_element_ptr c);
        [eauto | inv_step H; apply evolves_refl].
    + destruct (left_button_element_ptr c);
        [|inv_step H; apply evolves_refl].
      destruct (ptr_eqb _ _); [eauto | inv_step H; apply evolves_refl].
    + destruct (left_button_element_ptr c);
        [|inv_step H; apply evolves_refl].
      destruct (ptr_eqb _ _); [eauto | inv_step H; apply evolves_refl].
  - destruct (pointer_focus_element_ptr c);
      [eauto | inv_step H; apply evolves_refl].
Qed.
End ButtonFrame.

Lemma button_evolves fuel el ev s acc s' :
  wlmtk_element_pointer_button fuel el ev s = Done (acc, s') ->
  evolves button_perm s s'.
Proof.
  revert el ev s acc s'.
  induction fuel as [|n IH]; intros el ev s acc s' H; simpl in H;
    [discriminate|].
  step H as u s1 H1. apply (evolves_emit button_perm) in H1.
  step H as e s2 H2. inv_step H2.
  eapply evolves_trans; [exact H1|].
  destruct (vmt e).
  - inv_step H. apply evolves_refl.
  - eapply container_button_evolves; [|exact H]. exact IH.
Qed.

(** ** Button delivery ends *)

Lemma ranked_slot rank s k c q :
  ranked rank s -> container_at s k c ->
  pointer_focus_element_ptr c = Some q \/
  left_button_element_ptr c = Some q \/
  pointer_grab_element_ptr c = Some q \/
  keyboard_focus_element_ptr c = Some q ->
  is_Some (heap s !! q) /\ (rank q < rank k)%nat.
Proof.
  intros Hr Hc Hq. apply (Hr k c Hc). apply elem_of_refs. right.
  apply elem_of_slots. exact Hq.
Qed.

Lemma ranked_element rank s k c q :
  ranked rank s -> container_at s k c -> q ∈ elements c ->
  is_Some (heap s !! q) /\ (rank q < rank k)%nat.
Proof.
  intros Hr Hc Hq. apply (Hr k c Hc). apply elem_of_refs. left. exact Hq.
Qed.

Lemma ranked_calls rank s l : ranked rank s -> ranked rank (State (heap s) l).
Proof.
  intros Hr. apply (ranked_frame rank any_perm s); [exact Hr|].
  apply frame_calls.
Qed.

Ltac run_with H := rewrite (bind_Done_intro _ _ _ _ _ H).
Ltac run_container H :=
  rewrite (bind_Done_intro _ _ _ _ _ (get_container_intro _ _ _ H)).
Ltac run_element H :=
  rewrite (bind_Done_intro _ _ _ _ _ (get_element_intro _ _ _ H)).

Section ButtonTotal.
Variable rank : ptr -> nat.
Variable n : nat.
Variable deliver : ptr -> wlmtk_button_event_t -> M bool.
Variable ev : wlmtk_button_event_t.
Hypothesis deliver_evolves : forall p ev s acc s',
  deliver p ev s = Done (acc, s') -> evolves button_perm s s'.
Hypothesis deliver_total : forall p s,
  ranked rank s -> is_Some (heap s !! p) -> (rank p < n)%nat ->
  exists acc s', deliver p ev s = Done (acc, s').

Lemma container_button_total el c s :
  ranked rank s -> container_at s el c -> (rank el <= n)%nat ->
  recognized (type ev) = true ->
  exists acc s',
    _wlmtk_container_element_pointer_button deliver el ev s
    = Done (acc, s').
Proof.
  intros Hr Hc Hn Hrec.
  assert (Hslot : forall q,
    pointer_focus_element_ptr c = Some q \/
    left_button_element_ptr c = Some q \/
    pointer_grab_element_ptr c = Some q \/
    keyboard_focus_element_ptr c = Some q ->
    exists acc s', deliver q ev s = Done (acc, s')).
  { intros q Hq. destruct (ranked_slot _ _ _ _ _ Hr Hc Hq) as [Hs Hlt].
    apply deliver_total; [assumption | assumption | lia]. }
  unfold _wlmtk_container_element_pointer_button. run_container Hc.
  destruct (pointer_grab_element_ptr c) as [g|] eqn:Hg; [auto|].
  destruct (button ev =? BTN_LEFT).
  - destruct (type ev); try discriminate Hrec.
    + destruct (pointer_focus_element_ptr c) as [f|] eqn:Hf;
        [|eexists _, _; reflexivity].
      destruct (Hslot f) as (acc & s1 & H1); [auto|].
      run_with H1.
      destruct (frame_container _ _ _ _ _
                  (proj1 (deliver_evolves _ _ _ _ _ H1)) Hc)
        as (c1 & Hc1 & _).
      run_container Hc1. destruct Hc1 as (e1 & He1 & Hv1).
      rewrite (bind_Done_intro _ _ _ _ _ (put_container_intro _ _ _ _ He1)).
      eexists _, _; reflexivity.
    + destruct (left_button_element_ptr c) as [l|] eqn:Hl;
        [auto | eexists _, _; reflexivity].
    + destruct (left_button_element_ptr c) as [l|] eqn:Hl;
        [|eexists _, _; reflexivity].
      destruct (ptr_eqb _ _); [auto | eexists _, _; reflexivity].
    + destruct (left_button_element_ptr c) as [l|] eqn:Hl;
        [|eexists _, _; reflexivity].
      destruct (ptr_eqb _ _); [auto | eexists _, _; reflexivity].
  - destruct (pointer_focus_element_ptr c) as [f|] eqn:Hf;
      [auto | eexists _, _; reflexivity].
Qed.
End ButtonTotal.

Lemma button_total rank fuel el ev s :
  ranked rank s -> is_Some (heap s !! el) -> (rank el < fuel)%nat ->
  recognized (type ev) = true ->
  exists acc s', wlmtk_element_pointer_button fuel el ev s = Done (acc, s').
Proof.
  intros Hr Hs Hlt Hrec. revert el s Hr Hs Hlt.
  induction fuel as [|n IH]; intros el s Hr [e He] Hlt; [lia|].
  simpl. unfold bind at 1. simpl.
  assert (He' : heap (State (heap s) (calls s ++ [pointer_button_call el ev]))
                !! el = Some e) by exact He.
  run_element He'. destruct (vmt e) as [l|c] eqn:Hv.
  - eexists _, _; reflexivity.
  - apply (container_button_total rank n (wlmtk_element_pointer_button n)
             ev) with (c := c).
    + intros p ev0 s0 acc s'. apply button_evolves.
    + intros p s0 Hr0 Hs0 Hp. apply IH; assumption.
    + apply ranked_calls. exact Hr.
    + exists e. split; [exact He' | exact Hv].
    + lia.
    + exact Hrec.
Qed.

(** ** Motion delivery: what it changes *)

Lemma step_set_pointer_focus c v :
  v = None \/ (exists q, v = Some q /\ q ∈ elements c) ->
  container_step motion_perm c (set_pointer_focus c v).
Proof.
  intros Hv. split; [reflexivity|].
  split; [|repeat split; apply slot_step_refl].
  simpl. right. split; [reflexivity|]. exact Hv.
Qed.

Lemma frame_elements pi s s' k c c' :
  frame pi s s' -> container_at s k c -> container_at s' k c' ->
  elements c' = elements c.
Proof.
  intros F Hc Hc'. destruct (frame_container _ _ _ _ _ F Hc) as (c2 & H2 & St).
  rewrite (container_at_inj _ _ _ _ Hc' H2). apply St.
Qed.

Section MotionFrame.
Variable deliver : ptr -> wlmtk_pointer_motion_event_t -> M bool.
Variable area : gmap nat wlmtk_element_t -> ptr -> outcome box.
Hypothesis deliver_evolves : forall p ev s acc s',
  deliver p ev s = Done (acc, s') -> evolves motion_perm s s'.

Lemma reset_pointer_focus_evolves cp t p s acc s' :
  reset_pointer_focus deliver cp t p s = Done (acc, s') ->
  evolves motion_perm s s'.
Proof.
  unfold reset_pointer_focus. intros H.
  step H as c s0 Hc. inv_step Hc.
  destruct (pointer_focus_element_ptr c); [|inv_step H; apply evolves_refl].
  step H as a1 s1 H1. step H as c2 s2 H2. inv_step H2.
  step H as u s3 H3. inv_step H.
  eapply evolves_trans; [eauto|].
  eapply evolves_put_container; [exact H2| |exact H3].
  apply step_set_pointer_focus. left. reflexivity.
Qed.

Lemma take_pointer_focus_evolves cp q t p s acc s' :
  (forall c, container_at s cp c -> q ∈ elements c) ->
  take_pointer_focus deliver cp q t p s = Done (acc, s') ->
  evolves motion_perm s s'.
Proof.
  unfold take_pointer_focus. intros Hq H.
  step H as c s0 Hc. inv_step Hc.
  step H as a1 s1 H1.
  assert (E1 : evolves motion_perm s s1).
  { destruct (pointer_focus_element_ptr c);
      [|inv_step H1; apply evolves_refl].
    destruct (bool_decide _); [inv_step H1; apply evolves_refl | eauto]. }
  step H as c2 s2 H2. inv_step H2.
  step H as u s3 H3. inv_step H.
  eapply evolves_trans; [exact E1|].
  eapply evolves_put_container; [exact H2| |exact H3].
  apply step_set_pointer_focus. right. exists q. split; [reflexivity|].
  rewrite (frame_elements _ _ _ _ _ _ (proj1 E1) Hc H2). auto.
Qed.

Lemma scan_evolves cp x y t p els s acc s' :
  (forall c, container_at s cp c -> forall q, q ∈ els -> q ∈ elements c) ->
  scan deliver area cp x y t p els s = Done (acc, s') ->
  evolves motion_perm s s'.
Proof.
  revert s. induction els as [|q rest IH]; intros s Hin H; simpl in H.
  - eapply reset_pointer_focus_evolves; exact H.
  - assert (Hrest : forall s1, evolves motion_perm s s1 ->
      forall c, container_at s1 cp c ->
      forall q', q' ∈ rest -> q' ∈ elements c).
    { intros s1 [F _] c1 Hc1 q' Hq'.
      destruct (frame_container_rev _ _ _ _ _ F Hc1) as (c0 & Hc0 & St).
      destruct St as (-> & _). apply (Hin c0 Hc0). right. exact Hq'. }
    step H as e s0 He. inv_step He.
    destruct (visible e); simpl in H;
      [|apply IH; [apply Hrest, evolves_refl | exact H]].
    step H as a s1 Ha. inv_step Ha.
    match type of H with
    | (if ?b then _ else _) _ = _ => destruct b
    end; [|apply IH; [apply Hrest, evolves_refl | exact H]].
    step H as accepted s2 Hd.
    pose proof (deliver_evolves _ _ _ _ _ Hd) as E.
    destruct accepted; simpl in H.
    + eapply evolves_trans; [exact E|].
      eapply take_pointer_focus_evolves; [|exact H].
      intros c1 Hc1.
      destruct (frame_container_rev _ _ _ _ _ (proj1 E) Hc1)
        as (c0 & Hc0 & St).
      destruct St as (-> & _). apply (Hin c0 Hc0). left.
    + eapply evolves_trans; [exact E|].
      apply IH; [apply Hrest, E | exact H].
Qed.

Lemma update_pointer_focus_at_evolves cp x y t p s acc s' :
  update_pointer_focus_at deliver area cp x y t p s = Done (acc, s') ->
  evolves motion_perm s s'.
Proof.
  unfold update_pointer_focus_at. intros H.
  step H as c s0 Hc. inv_step Hc.
  destruct (pointer_grab_element_ptr c).
  - step H as ge s1 Hg. inv_step Hg. step H as a s2 Hd. inv_step H. eauto.
  - eapply scan_evolves; [|exact H].
    intros c0 Hc0 q Hq. rewrite (container_at_inj _ _ _ _ Hc0 Hc). exact Hq.
Qed.

Lemma container_motion_evolves el ev s acc s' :
  _wlmtk_container_element_pointer_motion deliver area el ev s
  = Done (acc, s') ->
  evolves motion_perm s s'.
Proof.
  unfold _wlmtk_container_element_pointer_motion. intros H.
  step H as u s1 H1. apply element_pointer_motion_frame in H1 as [F E].
  eapply evolves_trans;
    [|eapply update_pointer_focus_at_evolves; exact H].
  split; [exact F | exists []; rewrite E; symmetry; apply app_nil_r].
Qed.
End MotionFrame.

Lemma motion_evolves fuel el ev s acc s' :
  wlmtk_element_pointer_motion fuel el ev s = Done (acc, s') ->
  evolves motion_perm s s'.
Proof.
  revert el ev s acc s'.
  induction fuel as [|n IH]; intros el ev s acc s' H; simpl in H;
    [discriminate|].
  step H as u s1 H1. apply (evolves_emit motion_perm) in H1.
  step H as e s2 H2. inv_step H2.
  eapply evolves_trans; [exact H1|].
  destruct (vmt e).
  - step H as u2 s3 H3. inv_step H.
    apply element_pointer_motion_frame in H3 as [F E].
    split; [exact F | exists []; rewrite E; symmetry; apply app_nil_r].
  - eapply container_motion_evolves; [|exact H]. exact IH.
Qed.

(** ** The pointer area does not depend on what the calls change *)

Lemma frame_none pi s s' k :
  frame pi s s' -> heap s !! k = None -> heap s' !! k = None.
Proof.
  intros F H. specialize (F k). rewrite H in F.
  destruct (heap s' !! k); [contradiction | reflexivity].
Qed.

Lemma aggregate_frame pi s s' cb cb' els acc :
  frame pi s s' ->
  (forall q, q ∈ els -> cb' (heap s') q = cb (heap s) q) ->
  aggregate cb' (heap s') els acc = aggregate cb (heap s) els acc.
Proof.
  intros F. revert acc. induction els as [|q els IH]; intros acc Hcb; simpl;
    [reflexivity|].
  destruct (heap s !! q) as [e|] eqn:He.
  - destruct (frame_lookup _ _ _ _ _ F He) as (e' & -> & St).
    destruct St as (-> & -> & -> & _).
    rewrite (Hcb q) by left.
    destruct (visible e); simpl.
    + destruct (cb (heap s) q); try reflexivity.
      apply IH. intros q' Hq'. apply Hcb. right. exact Hq'.
    + apply IH. intros q' Hq'. apply Hcb. right. exact Hq'.
  - rewrite (frame_none _ _ _ _ F He). reflexivity.
Qed.

Lemma area_frame pi s s' n el :
  frame pi s s' ->
  wlmtk_element_get_pointer_area n (heap s') el
  = wlmtk_element_get_pointer_area n (heap s) el.
Proof.
  intros F. revert el. induction n as [|n IH]; intros el; simpl;
    [reflexivity|].
  destruct (heap s !! el) as [e|] eqn:He.
  - destruct (frame_lookup _ _ _ _ _ F He) as (e' & -> & St).
    destruct St as (_ & _ & _ & _ & _ & Sv). unfold vmt_step in Sv.
    destruct (vmt e) as [l|c], (vmt e') as [l'|c']; try contradiction.
    + congruence.
    + unfold _wlmtk_container_element_get_pointer_area, container_box.
      destruct Sv as (-> & _).
      rewrite (aggregate_frame pi s s' (wlmtk_element_get_pointer_area n)
                 (wlmtk_element_get_pointer_area n)); [reflexivity|exact F|].
      intros q _. apply IH.
  - rewrite (frame_none _ _ _ _ F He). reflexivity.
Qed.

Lemma aggregate_total (s : state) cb els acc :
  (forall q, q ∈ els ->
     is_Some (heap s !! q) /\ exists b, cb (heap s) q = Done b) ->
  exists b, aggregate cb (heap s) els acc = Done b.
Proof.
  revert acc. induction els as [|q els IH]; intros acc H; simpl; [eauto|].
  destruct (H q) as [[e He] [b Hb]]; [left|]. rewrite He, Hb.
  destruct (visible e); simpl; apply IH; intros q' Hq'; apply H; right;
    exact Hq'.
Qed.

Lemma area_total rank s fuel el :
  ranked rank s -> is_Some (heap s !! el) -> (rank el < fuel)%nat ->
  exists b, wlmtk_element_get_pointer_area fuel (heap s) el = Done b.
Proof.
  intros Hr. revert el. induction fuel as [|n IH]; intros el [e He] Hlt;
    [lia|].
  simpl. rewrite He. destruct (vmt e) as [l|c] eqn:Hv; [eauto|].
  unfold _wlmtk_container_element_get_pointer_area, container_box.
  destruct (aggregate_total s (wlmtk_element_get_pointer_area n)
              (elements c) (Box INT32_MAX INT32_MAX INT32_MIN INT32_MIN))
    as [b ->]; [|eauto].
  intros q Hq.
  destruct (ranked_element rank s el c q Hr (ex_intro _ e (conj He Hv)) Hq)
    as [Hs Hq'].
  split; [exact Hs|]. apply IH; [exact Hs | lia].
Qed.

(** ** Hit testing does not depend on what a motion changes *)

Section PlanFrame.
Variables acc acc' :
  gmap nat wlmtk_element_t -> ptr -> wlmtk_pointer_motion_event_t -> bool.
Variables area area' : gmap nat wlmtk_element_t -> ptr -> outcome box.
Variables (pi : perm) (s s' : state).
Hypothesis F : frame pi s s'.
Hypothesis acc_eq : forall q ev, acc' (heap s') q ev = acc (heap s) q ev.
Hypothesis area_eq : forall q, area' (heap s') q = area (heap s) q.

Lemma candidate_frame x y q :
  candidate area' (heap s') x y q = candidate area (heap s) x y q.
Proof.
  unfold candidate. rewrite area_eq.
  destruct (heap s !! q) as [e|] eqn:He.
  - destruct (frame_lookup _ _ _ _ _ F He) as (e' & -> & St).
    destruct St as (X & Y & V & _). unfold in_area. rewrite X, Y, V.
    reflexivity.
  - rewrite (frame_none _ _ _ _ F He). reflexivity.
Qed.

Lemma offer_frame x y t p q :
  offer (heap s') x y t p q = offer (heap s) x y t p q.
Proof.
  unfold offer. destruct (heap s !! q) as [e|] eqn:He.
  - destruct (frame_lookup _ _ _ _ _ F He) as (e' & -> & St).
    destruct St as (X & Y & _). unfold local_event. rewrite X, Y.
    reflexivity.
  - rewrite (frame_none _ _ _ _ F He). reflexivity.
Qed.

Lemma plan_frame x y t p els :
  plan acc' area' (heap s') x y t p els = plan acc area (heap s) x y t p els.
Proof.
  induction els as [|q els IH]; simpl; [reflexivity|].
  rewrite candidate_frame, offer_frame, acc_eq, IH. reflexivity.
Qed.
End PlanFrame.

Lemma accepts_frame pi s s' n el ev :
  may_grab pi = false -> frame pi s s' ->
  accepts n (heap s') el ev = accepts n (heap s) el ev.
Proof.
  intros Hg F. revert el ev. induction n as [|n IH]; intros el ev; simpl;
    [reflexivity|].
  destruct (heap s !! el) as [e|] eqn:He.
  - destruct (frame_lookup _ _ _ _ _ F He) as (e' & -> & St).
    destruct St as (_ & _ & _ & _ & _ & Sv). unfold vmt_step in Sv.
    destruct (vmt e) as [l|c], (vmt e') as [l'|c']; try contradiction.
    + congruence.
    + destruct Sv as (Hel & _ & _ & Sg & _). rewrite Hg in Sg.
      apply slot_step_fixed in Sg. unfold container_accepts.
      rewrite Sg, Hel.
      rewrite (plan_frame (accepts n) (accepts n)
                 (wlmtk_element_get_pointer_area n)
                 (wlmtk_element_get_pointer_area n) pi s s' F);
        [reflexivity | exact IH |].
      intros q. apply area_frame with (pi := pi). exact F.
  - rewrite (frame_none _ _ _ _ F He). reflexivity.
Qed.

Lemma untouched_refl rank r s : untouched rank r s s.
Proof. intros k _. reflexivity. Qed.

Lemma untouched_trans rank r s1 s2 s3 :
  untouched rank r s1 s2 -> untouched rank r s2 s3 -> untouched rank r s1 s3.
Proof. intros H1 H2 k Hk. rewrite (H2 k Hk). apply H1. exact Hk. Qed.

Lemma untouched_mono rank r r' s s' :
  (r <= r')%nat -> untouched rank r s s' -> untouched rank r' s s'.
Proof. intros Hle H k Hk. apply H. lia. Qed.

Lemma untouched_container rank r s s' k c :
  untouched rank r s s' -> (r <= rank k)%nat ->
  container_at s k c -> container_at s' k c.
Proof.
  intros H Hk (e & He & Hv). exists e. split; [|exact Hv].
  rewrite (H k Hk). exact He.
Qed.

Lemma untouched_calls rank r s l : untouched rank r s (State (heap s) l).
Proof. intros k _. reflexivity. Qed.

Lemma untouched_insert rank r s p e l :
  (rank p < r)%nat -> untouched rank r s (State (<[p := e]> (heap s)) l).
Proof.
  intros Hp k Hk. simpl. apply lookup_insert_ne. intros ->. lia.
Qed.

(** ** The scan of [update_pointer_focus_at] carries out the plan *)

Lemma with_pointer_focus_id s cp c :
  container_at s cp c ->
  with_pointer_focus cp (pointer_focus_element_ptr c) s = s.
Proof.
  intros (e & He & Hv). unfold with_pointer_focus. rewrite He, Hv.
  replace (set_vmt e (ContainerVmt
             (set_pointer_focus c (pointer_focus_element_ptr c)))) with e.
  - rewrite insert_id by exact He. destruct s; reflexivity.
  - destruct e as [x y v pa le vm]. simpl in Hv. subst vm.
    destruct c; reflexivity.
Qed.

Lemma put_focus_eq s cp c w :
  container_at s cp c ->
  put_container cp (set_pointer_focus c w) s
  = Done (tt, with_pointer_focus cp w s).
Proof.
  intros (e & He & Hv). unfold with_pointer_focus. rewrite He, Hv.
  apply put_container_intro. exact He.
Qed.

Lemma with_pointer_focus_container s cp c w :
  container_at s cp c ->
  container_at (with_pointer_focus cp w s) cp (set_pointer_focus c w).
Proof.
  intros (e & He & Hv). unfold with_pointer_focus. rewrite He, Hv.
  eexists. simpl. rewrite lookup_insert_eq. split; reflexivity.
Qed.

Lemma with_pointer_focus_other s cp w k :
  k <> cp -> heap (with_pointer_focus cp w s) !! k = heap s !! k.
Proof.
  intros Hk. unfold with_pointer_focus.
  destruct (heap s !! cp) as [e|]; [|reflexivity].
  destruct (vmt e); [reflexivity|]. simpl.
  apply lookup_insert_ne. congruence.
Qed.

Lemma with_pointer_focus_calls s cp w :
  calls (with_pointer_focus cp w s) = calls s.
Proof.
  unfold with_pointer_focus.
  destruct (heap s !! cp) as [e|]; [|reflexivity].
  destruct (vmt e); reflexivity.
Qed.

Section MotionSpec.
Variable rank : ptr -> nat.
Variable n : nat.
Variable deliver : ptr -> wlmtk_pointer_motion_event_t -> M bool.
Variable area : gmap nat wlmtk_element_t -> ptr -> outcome box.
Variable acc :
  gmap nat wlmtk_element_t -> ptr -> wlmtk_pointer_motion_event_t -> bool.
Hypothesis deliver_evolves : forall p ev s a s',
  deliver p ev s = Done (a, s') -> evolves motion_perm s s'.
Hypothesis deliver_spec : forall q ev s,
  ranked rank s -> is_Some (heap s !! q) -> (rank q < n)%nat ->
  exists s', deliver q ev s = Done (acc (heap s) q ev, s') /\
             untouched rank (S (rank q)) s s'.
Hypothesis acc_frame : forall s s' q ev,
  frame motion_perm s s' -> acc (heap s') q ev = acc (heap s) q ev.
Hypothesis area_is_total : forall s q,
  ranked rank s -> is_Some (heap s !! q) -> (rank q < n)%nat ->
  exists b, area (heap s) q = Done b.
Hypothesis area_is_framed : forall s s' q,
  frame motion_perm s s' -> area (heap s') q = area (heap s) q.

Variable cp : ptr.
Variables (x y : coord) (t : Z) (p : option nat).
Hypothesis cp_rank : (rank cp <= n)%nat.

Lemma settle_spec s c w :
  ranked rank s -> container_at s cp c ->
  exists s1,
    deliveries deliver (leave (pointer_focus_element_ptr c) w t p) s
    = Done (tt, s1) /\
    settle deliver cp t p w s = Done (bool_decide (is_Some w), with_pointer_focus cp w s1)
    /\ untouched rank (rank cp) s s1 /\ evolves motion_perm s s1.
Proof.
  intros Hr Hc. unfold leave, settle.
  destruct (pointer_focus_element_ptr c) as [f|] eqn:Hf.
  - destruct (ranked_slot rank s cp c f Hr Hc (or_introl Hf)) as [Hs Hlt].
    destruct (deliver_spec f (sentinel t p) s Hr Hs ltac:(lia))
      as (s1 & Hd & Hu).
    assert (Hu' : untouched rank (rank cp) s s1)
      by (eapply untouched_mono; [|exact Hu]; lia).
    pose proof (untouched_container _ _ _ _ _ _ Hu' (le_n _) Hc) as Hc1.
    destruct w as [q|].
    + unfold take_pointer_focus. run_container Hc. rewrite Hf.
      destruct (bool_decide (f = q)) eqn:Hfq.
      * apply bool_decide_eq_true in Hfq. subst q.
        rewrite bool_decide_eq_true_2 by reflexivity.
        exists s. split; [reflexivity|].
        unfold ret at 1. unfold bind at 1. run_container Hc.
        rewrite (bind_Done_intro _ _ _ _ _ (put_focus_eq _ _ _ _ Hc)).
        split; [reflexivity|].
        split; [apply untouched_refl | apply evolves_refl].
      * apply bool_decide_eq_false in Hfq.
        rewrite bool_decide_eq_false_2 by congruence.
        exists s1. simpl. unfold sentinel in Hd. run_with Hd.
        split; [reflexivity|].
        run_with Hd. run_container Hc1.
        rewrite (bind_Done_intro _ _ _ _ _ (put_focus_eq _ _ _ _ Hc1)).
        split; [reflexivity|]. split; [exact Hu'|]. eauto.
    + rewrite bool_decide_eq_false_2 by discriminate.
      exists s1. simpl. unfold sentinel in Hd. run_with Hd.
      split; [reflexivity|].
      unfold reset_pointer_focus. run_container Hc. rewrite Hf.
      run_with Hd. run_container Hc1.
      rewrite (bind_Done_intro _ _ _ _ _ (put_focus_eq _ _ _ _ Hc1)).
      split; [reflexivity|]. split; [exact Hu'|]. eauto.
  - exists s. split; [reflexivity|].
    split; [|split; [apply untouched_refl | apply evolves_refl]].
    destruct w as [q|].
    + unfold take_pointer_focus. run_container Hc. rewrite Hf.
      unfold ret at 1. unfold bind at 1. run_container Hc.
      rewrite (bind_Done_intro _ _ _ _ _ (put_focus_eq _ _ _ _ Hc)).
      reflexivity.
    + unfold reset_pointer_focus. run_container Hc. rewrite Hf.
      pose proof (with_pointer_focus_id _ _ _ Hc) as Hid.
      rewrite Hf in Hid. rewrite Hid. reflexivity.
Qed.
Lemma scan_spec els : forall s c,
  ranked rank s -> container_at s cp c ->
  (forall q, q ∈ els -> q ∈ elements c) ->
  exists s1,
    deliveries deliver
      ((plan acc area (heap s) x y t p els).1
       ++ leave (pointer_focus_element_ptr c)
            (plan acc area (heap s) x y t p els).2 t p) s
    = Done (tt, s1) /\
    scan deliver area cp x y t p els s
    = Done (bool_decide (is_Some (plan acc area (heap s) x y t p els).2),
            with_pointer_focus cp
              (plan acc area (heap s) x y t p els).2 s1) /\
    untouched rank (rank cp) s s1 /\ evolves motion_perm s s1.
Proof.
  induction els as [|q rest IH]; intros s c Hr Hc Hin.
  - simpl. apply (settle_spec s c None Hr Hc).
  - assert (Hrest : forall q', q' ∈ rest -> q' ∈ elements c)
      by (intros q' Hq'; apply Hin; right; exact Hq').
    destruct (ranked_element rank s cp c q Hr Hc (Hin q ltac:(left)))
      as [[e He] Hlt].
    simpl. run_element He.
    unfold candidate, offer. rewrite He.
    destruct (visible e); simpl; [|apply IH; assumption].
    destruct (area_is_total s q Hr (ex_intro _ e He) ltac:(lia)) as [a Ha].
    rewrite Ha.
    assert (Hread : read (fun h => area h q) s = Done (a, s))
      by (unfold read; rewrite Ha; reflexivity).
    run_with Hread. fold (in_area e a x y).
    destruct (in_area e a x y); [|apply IH; assumption].
    fold (local_event e x y t p).
    destruct (deliver_spec q (local_event e x y t p) s Hr
                (ex_intro _ e He) ltac:(lia)) as (s1 & Hd & Hu).
    pose proof (deliver_evolves _ _ _ _ _ Hd) as E.
    assert (Hu' : untouched rank (rank cp) s s1)
      by (eapply untouched_mono; [|exact Hu]; lia).
    pose proof (untouched_container _ _ _ _ _ _ Hu' (le_n _) Hc) as Hc1.
    pose proof (ranked_frame _ _ _ _ Hr (proj1 E)) as Hr1.
    run_with Hd.
    destruct (acc (heap s) q (local_event e x y t p)); simpl.
    + destruct (settle_spec s1 c (Some q) Hr1 Hc1)
        as (s2 & Hd2 & Hs2 & Hu2 & E2).
      exists s2. run_with Hd. split; [exact Hd2|].
      split; [exact Hs2|].
      split; [eapply untouched_trans | eapply evolves_trans]; eassumption.
    + destruct (IH s1 c Hr1 Hc1 Hrest) as (s2 & Hd2 & Hs2 & Hu2 & E2).
      rewrite (plan_frame acc acc area area motion_perm s s1 (proj1 E))
        in Hd2, Hs2
        by (intros; first [apply acc_frame | apply area_is_framed];
            exact (proj1 E)).
      exists s2. run_with Hd. split; [exact Hd2|].
      split; [exact Hs2|].
      split; [eapply untouched_trans | eapply evolves_trans]; eassumption.
Qed.
End MotionSpec.

(** ** Motion delivery ends, with the answer of the hit test *)

Lemma untouched_with_pointer_focus rank cp w s :
  untouched rank (S (rank cp)) s (with_pointer_focus cp w s).
Proof.
  intros k Hk. apply with_pointer_focus_other. intros ->. lia.
Qed.

Lemma base_motion_spec rank el e ev s :
  heap s !! el = Some e ->
  exists s1,
    _wlmtk_element_pointer_motion el ev s = Done (tt, s1) /\
    evolves motion_perm s s1 /\ untouched rank (S (rank el)) s s1 /\
    calls s1 = calls s /\
    exists e1, heap s1 !! el = Some e1 /\ vmt e1 = vmt e.
Proof.
  intros He. unfold _wlmtk_element_pointer_motion. run_element He.
  eexists. split; [reflexivity|].
  split; [|split; [|split]].
  - split; [apply frame_put_event; [reflexivity | exact He]|].
    exists []. simpl. symmetry. apply app_nil_r.
  - apply untouched_insert. lia.
  - reflexivity.
  - eexists. simpl. rewrite lookup_insert_eq. split; reflexivity.
Qed.

Lemma motion_spec rank fuel : forall el ev s,
  ranked rank s -> is_Some (heap s !! el) -> (rank el < fuel)%nat ->
  exists s',
    wlmtk_element_pointer_motion fuel el ev s
    = Done (accepts fuel (heap s) el ev, s') /\
    untouched rank (S (rank el)) s s'.
Proof.
  induction fuel as [|n IH]; intros el ev s Hr [e He] Hlt; [lia|].
  simpl. unfold bind at 1. simpl.
  set (s0 := State (heap s) (calls s ++ [pointer_motion_call el ev])).
  assert (He0 : heap s0 !! el = Some e) by exact He.
  run_element He0. rewrite He.
  destruct (base_motion_spec rank el e ev s0 He0)
    as (s1 & Hb & E1 & U1 & _ & e1 & He1 & Hv1).
  assert (F01 : frame motion_perm s s1) by exact (proj1 E1).
  pose proof (ranked_frame _ _ _ _ Hr F01) as Hr1.
  destruct (vmt e) as [l|c] eqn:Hv.
  - run_with Hb. exists s1. split; [reflexivity | exact U1].
  - unfold _wlmtk_container_element_pointer_motion. run_with Hb.
    assert (Hc1 : container_at s1 el c)
      by (exists e1; split; [exact He1 | congruence]).
    unfold update_pointer_focus_at. run_container Hc1.
    unfold container_accepts.
    destruct (pointer_grab_element_ptr c) as [g|] eqn:Hg.
    + destruct (ranked_slot rank s1 el c g Hr1 Hc1
                  (or_intror (or_intror (or_introl Hg)))) as [[ge Hge] Hgl].
      run_element Hge.
      destruct (IH g (MotionEvent (coord_sub (ev_x ev) (x_pos ge))
                        (coord_sub (ev_y ev) (y_pos ge))
                        (ev_time_msec ev) (ev_pointer_ptr ev)) s1 Hr1
                  (ex_intro _ ge Hge) ltac:(lia)) as (s2 & Hd & U2).
      run_with Hd. exists s2. split; [reflexivity|].
      eapply untouched_trans; [exact U1|].
      eapply untouched_mono; [|exact U2]. lia.
    + destruct (scan_spec rank n (wlmtk_element_pointer_motion n)
                  (wlmtk_element_get_pointer_area n) (accepts n)
                  (fun p ev s a s' => motion_evolves n p ev s a s')
                  IH
                  (fun s s' q ev F =>
                     accepts_frame motion_perm s s' n q ev eq_refl F)
                  (fun s q Hr Hs Hl => area_total rank s n q Hr Hs Hl)
                  (fun s s' q F => area_frame motion_perm s s' n q F)
                  el (ev_x ev) (ev_y ev) (ev_time_msec ev)
                  (ev_pointer_ptr ev) ltac:(lia) (elements c) s1 c Hr1 Hc1
                  (fun q Hq => Hq))
        as (s2 & _ & Hs & U2 & _).
      rewrite (plan_frame (accepts n) (accepts n)
                 (wlmtk_element_get_pointer_area n)
                 (wlmtk_element_get_pointer_area n) motion_perm s s1 F01)
        in Hs
        by (intros; first [apply (accepts_frame motion_perm); [reflexivity|]
                          | apply (area_frame motion_perm)]; exact F01).
      rewrite Hs. eexists. split; [reflexivity|].
      eapply untouched_trans; [exact U1|].
      eapply untouched_trans;
        [eapply untouched_mono; [|exact U2]; lia|].
      apply untouched_with_pointer_focus.
Qed.

(** [update_pointer_focus_at] without a grab: the deliveries of the plan,
    then the new holder. *)
Lemma update_no_grab_run rank n s cp c x y t p :
  ranked rank s -> container_at s cp c -> (rank cp <= n)%nat ->
  pointer_grab_element_ptr c = None ->
  exists s1,
    deliveries (wlmtk_element_pointer_motion n)
      ((plan (accepts n) (wlmtk_element_get_pointer_area n) (heap s) x y t p
          (elements c)).1
       ++ leave (pointer_focus_element_ptr c)
            (plan (accepts n) (wlmtk_element_get_pointer_area n) (heap s)
               x y t p (elements c)).2 t p) s
    = Done (tt, s1) /\
    update_pointer_focus_at (wlmtk_element_pointer_motion n)
      (wlmtk_element_get_pointer_area n) cp x y t p s
    = Done (bool_decide
              (is_Some (plan (accepts n) (wlmtk_element_get_pointer_area n)
                          (heap s) x y t p (elements c)).2),
            with_pointer_focus cp
              (plan (accepts n) (wlmtk_element_get_pointer_area n) (heap s)
                 x y t p (elements c)).2 s1) /\
    untouched rank (rank cp) s s1 /\ evolves motion_perm s s1.
Proof.
  intros Hr Hc Hn Hgrab.
  destruct (scan_spec rank n (wlmtk_element_pointer_motion n)
              (wlmtk_element_get_pointer_area n) (accepts n)
              (fun p ev s a s' => motion_evolves n p ev s a s')
              (motion_spec rank n)
              (fun s s' q ev F =>
                 accepts_frame motion_perm s s' n q ev eq_refl F)
              (fun s q Hr Hs Hl => area_total rank s n q Hr Hs Hl)
              (fun s s' q F => area_frame motion_perm s s' n q F)
              cp x y t p Hn (elements c) s c Hr Hc (fun q Hq => Hq))
    as (s1 & Hd & Hs & U & E).
  exists s1. split; [exact Hd|]. split; [|split; assumption].
  unfold update_pointer_focus_at. run_container Hc. rewrite Hgrab. exact Hs.
Qed.

(** ** Trees *)

Lemma container_of_at s p c : container_of s p = Some c <-> container_at s p c.
Proof.
  unfold container_of, container_at. split.
  - destruct (heap s !! p) as [e|]; [|discriminate].
    destruct (vmt e) eqn:Hv; [discriminate|].
    intros H. injection H as ->. eauto.
  - intros (e & -> & ->). reflexivity.
Qed.

Lemma slot_of_at f s p c : container_at s p c -> slot_of f s p = f c.
Proof.
  intros H. unfold slot_of. apply container_of_at in H. rewrite H.
  reflexivity.
Qed.

Lemma treeb_sound rank r s : treeb rank r s = true -> tree rank r s.
Proof.
  unfold treeb. intros H. apply andb_true_iff in H as [H1 H2].
  rewrite forallb_forall in H2.
  assert (Hall : forall k e, heap s !! k = Some e ->
    (rank k <= r)%nat /\
    (forall p, parent_container_ptr e = Some p ->
       (rank k < rank p)%nat /\ exists c, container_at s p c) /\
    (forall c, vmt e = ContainerVmt c ->
       forall q, q ∈ refs c -> parent_at s q = Some k)).
  { intros k e He.
    specialize (H2 (k, e)). simpl in H2.
    assert (Hin : In (k, e) (map_to_list (heap s))).
    { apply list_elem_of_In. apply elem_of_map_to_list. exact He. }
    specialize (H2 Hin).
    apply andb_true_iff in H2 as [H2 H5].
    apply andb_true_iff in H2 as [H3 H4].
    apply bool_decide_eq_true in H3.
    split; [exact H3|]. split.
    - intros p Hp. rewrite Hp in H4. apply andb_true_iff in H4 as [H4 H6].
      apply bool_decide_eq_true in H4. apply bool_decide_eq_true in H6.
      split; [exact H4|]. destruct H6 as [c Hc]. exists c.
      apply container_of_at. exact Hc.
    - intros c Hv q Hq. rewrite Hv in H5. rewrite forallb_forall in H5.
      specialize (H5 q (proj1 (list_elem_of_In _ _) Hq)).
      apply bool_decide_eq_true in H5. exact H5. }
  split; [apply rankedb_sound; exact H1|].
  split; [|split; [|split]].
  - intros a c q (e & He & Hv) Hq.
    exact (proj2 (proj2 (Hall a e He)) c Hv q Hq).
  - intros x p Hp. unfold parent_at in Hp.
    destruct (heap s !! x) as [e|] eqn:He; [|discriminate].
    exact (proj1 (proj1 (proj2 (Hall x e He)) p Hp)).
  - intros k [e He]. exact (proj1 (Hall k e He)).
  - intros x p Hp. unfold parent_at in Hp.
    destruct (heap s !! x) as [e|] eqn:He; [|discriminate].
    exact (proj2 (proj1 (proj2 (Hall x e He)) p Hp)).
Qed.

Lemma parent_at_frame pi s s' x :
  frame pi s s' -> parent_at s' x = parent_at s x.
Proof.
  intros F. unfold parent_at. specialize (F x).
  destruct (heap s !! x), (heap s' !! x); try contradiction;
    [|reflexivity].
  destruct F as (_ & _ & _ & P & _). exact P.
Qed.

Lemma below_frame pi s s' a x :
  frame pi s s' -> below s a x <-> below s' a x.
Proof.
  intros F. split; induction 1 as [|x p Hp _ IH].
  - constructor.
  - econstructor; [|exact IH]. rewrite (parent_at_frame _ _ _ _ F). exact Hp.
  - constructor.
  - econstructor; [|exact IH]. rewrite <- (parent_at_frame _ _ _ _ F).
    exact Hp.
Qed.

Lemma owned_frame pi s s' : owned s -> frame pi s s' -> owned s'.
Proof.
  intros Ho F a c' q Hc' Hq.
  destruct (frame_container_rev _ _ _ _ _ F Hc') as (c & Hc & St).
  rewrite (parent_at_frame _ _ _ _ F).
  apply (Ho a c q Hc). eapply container_step_refs; eassumption.
Qed.

Lemma parent_ranked_frame rank pi s s' :
  parent_ranked rank s -> frame pi s s' -> parent_ranked rank s'.
Proof.
  intros Hp F x p H. apply (Hp x p).
  rewrite <- (parent_at_frame _ _ _ _ F). exact H.
Qed.

Lemma rank_bound_frame rank r pi s s' :
  rank_bound rank r s -> frame pi s s' -> rank_bound rank r s'.
Proof.
  intros Hb F k [e' He']. apply Hb.
  destruct (frame_lookup_rev _ _ _ _ _ F He') as (e & He & _). eauto.
Qed.

Lemma parents_contain_frame pi s s' :
  parents_contain s -> frame pi s s' -> parents_contain s'.
Proof.
  intros Hp F x p H. rewrite (parent_at_frame _ _ _ _ F) in H.
  destruct (Hp x p H) as [c Hc].
  destruct (frame_container _ _ _ _ _ F Hc) as (c' & Hc' & _). eauto.
Qed.

Lemma tree_frame rank r pi s s' :
  tree rank r s -> frame pi s s' -> tree rank r s'.
Proof.
  intros (H1 & H2 & H3 & H4 & H5) F.
  split; [eapply ranked_frame; eassumption|].
  split; [eapply owned_frame; eassumption|].
  split; [eapply parent_ranked_frame; eassumption|].
  split; [eapply rank_bound_frame; eassumption|].
  eapply parents_contain_frame; eassumption.
Qed.

Lemma below_rank rank s a x :
  parent_ranked rank s -> below s a x -> (rank x <= rank a)%nat.
Proof.
  intros Hp. induction 1 as [|x p Hx _ IH]; [lia|].
  specialize (Hp x p Hx). lia.
Qed.

Lemma below_trans s a b x : below s a b -> below s b x -> below s a x.
Proof.
  intros Hab. induction 1 as [|x p Hx _ IH]; [exact Hab|].
  econstructor; eassumption.
Qed.

Lemma below_chain s u v x :
  below s u x -> below s v x -> below s u v \/ below s v u.
Proof.
  intros Bu. revert v. induction Bu as [|x p Hx Bu IH]; intros v Bv.
  - right. exact Bv.
  - inversion Bv as [|x' p' Hx' Bv']; subst.
    + left. econstructor; eassumption.
    + assert (p' = p) by congruence. subst p'. apply IH. exact Bv'.
Qed.

(** Two different children of one container have nothing in common below
    them. *)
Lemma below_siblings rank s a k1 k2 x :
  parent_ranked rank s ->
  parent_at s k1 = Some a -> parent_at s k2 = Some a -> k1 <> k2 ->
  below s k1 x -> below s k2 x -> False.
Proof.
  intros Hp H1 H2 Hne B1 B2.
  destruct (below_chain s k1 k2 x B1 B2) as [B|B].
  - inversion B as [|x' p' Hx' B']; subst; [congruence|].
    assert (p' = a) by congruence. subst p'.
    pose proof (below_rank rank s k1 a Hp B').
    specialize (Hp k1 a H1). lia.
  - inversion B as [|x' p' Hx' B']; subst; [congruence|].
    assert (p' = a) by congruence. subst p'.
    pose proof (below_rank rank s k2 a Hp B').
    specialize (Hp k2 a H2). lia.
Qed.

Lemma not_below_parent rank s a k :
  parent_ranked rank s -> parent_at s k = Some a -> ~ below s k a.
Proof.
  intros Hp Hk B. pose proof (below_rank rank s k a Hp B).
  specialize (Hp k a Hk). lia.
Qed.

(** ** Keyboard blur and grab cancel *)

Lemma step_set_keyboard_focus_none c :
  container_step blur_perm c (set_keyboard_focus c None).
Proof.
  split; [reflexivity|]. repeat split; try apply slot_step_refl.
  simpl. right. split; [reflexivity|]. left. reflexivity.
Qed.

Lemma step_set_pointer_grab_none c :
  container_step cancel_perm c (set_pointer_grab c None).
Proof.
  split; [reflexivity|]. repeat split; try apply slot_step_refl.
  simpl. right. split; [reflexivity|]. left. reflexivity.
Qed.

Lemma owned_calls s l : owned s -> owned (State (heap s) l).
Proof. intros Ho. apply (owned_frame any_perm s); [exact Ho|apply frame_calls]. Qed.

Lemma below_calls s l a x : below s a x <-> below (State (heap s) l) a x.
Proof. apply (below_frame any_perm). apply frame_calls. Qed.

Lemma below_ref s a c q x :
  owned s -> container_at s a c -> q ∈ refs c -> below s q x -> below s a x.
Proof.
  intros Ho Hc Hq B. eapply below_trans; [|exact B].
  econstructor; [exact (Ho a c q Hc Hq) | constructor].
Qed.

Lemma kbd_in_refs c q : keyboard_focus_element_ptr c = Some q -> q ∈ refs c.
Proof. intros H. apply elem_of_refs. right. apply elem_of_slots. tauto. Qed.

Lemma grab_in_refs c q : pointer_grab_element_ptr c = Some q -> q ∈ refs c.
Proof. intros H. apply elem_of_refs. right. apply elem_of_slots. tauto. Qed.

Lemma focus_in_refs c q : pointer_focus_element_ptr c = Some q -> q ∈ refs c.
Proof. intros H. apply elem_of_refs. right. apply elem_of_slots. tauto. Qed.

Lemma put_container_at s k c c' :
  container_at s k c ->
  exists s',
    put_container k c' s = Done (tt, s') /\
    container_at s' k c' /\ calls s' = calls s /\
    (forall x, x <> k -> heap s' !! x = heap s !! x) /\
    (forall x, parent_at s' x = parent_at s x) /\
    (forall pi, container_step pi c c' -> frame pi s s').
Proof.
  intros (e & He & Hv). eexists. split; [apply put_container_intro; exact He|].
  split; [eexists; simpl; rewrite lookup_insert_eq; split; reflexivity|].
  split; [reflexivity|].
  split; [intros x Hx; simpl; apply lookup_insert_ne; congruence|].
  split.
  - intros x. unfold parent_at. simpl. destruct (decide (x = k)) as [->|Hx].
    + rewrite lookup_insert_eq, He. reflexivity.
    + rewrite lookup_insert_ne by congruence. reflexivity.
  - intros pi St. eapply frame_put_container; eassumption.
Qed.

Lemma blur_spec rank fuel : forall k s,
  ranked rank s -> owned s -> is_Some (heap s !! k) -> (rank k < fuel)%nat ->
  exists s' l,
    wlmtk_element_keyboard_blur fuel k s = Done (tt, s') /\
    frame blur_perm s s' /\
    calls s' = calls s ++ keyboard_blur_call k :: l /\
    confined s k s' /\
    (forall c, container_at s k c ->
       slot_of keyboard_focus_element_ptr s' k = None).
Proof.
  induction fuel as [|n IH]; intros k s Hr Ho [e He] Hlt; [lia|].
  simpl. unfold bind at 1. simpl.
  set (s0 := State (heap s) (calls s ++ [keyboard_blur_call k])).
  assert (He0 : heap s0 !! k = Some e) by exact He.
  assert (Hr0 : ranked rank s0) by (apply ranked_calls; exact Hr).
  assert (Ho0 : owned s0) by (apply owned_calls; exact Ho).
  run_element He0.
  destruct (vmt e) as [lf|c] eqn:Hv.
  - exists s0, []. split; [reflexivity|].
    split; [apply frame_calls|]. split; [reflexivity|].
    split; [intros x _; reflexivity|].
    intros c (e' & He' & Hv'). congruence.
  - assert (Hc0 : container_at s0 k c) by (exists e; split; assumption).
    unfold _wlmtk_container_element_keyboard_blur. run_container Hc0.
    destruct (keyboard_focus_element_ptr c) as [q|] eqn:Hq.
    + destruct (Hr0 k c Hc0 q (kbd_in_refs _ _ Hq)) as [Hs Hql].
      destruct (IH q s0 Hr0 Ho0 Hs ltac:(lia))
        as (s1 & l & Hb & F & Hl & Hconf & _).
      run_with Hb.
      destruct (frame_container _ _ _ _ _ F Hc0) as (c1 & Hc1 & St).
      run_container Hc1.
      destruct (put_container_at s1 k c1 (set_keyboard_focus c1 None) Hc1)
        as (s2 & Hp & Hc2 & Hcalls & Hoth & _ & Hfr).
      rewrite Hp. exists s2, (keyboard_blur_call q :: l).
      split; [reflexivity|].
      split; [eapply frame_trans; [exact F|];
              apply Hfr, step_set_keyboard_focus_none|].
      split; [rewrite Hcalls, Hl; simpl; rewrite <- app_assoc; reflexivity|].
      split.
      * intros x Hx. rewrite Hoth by (intros ->; apply Hx; constructor).
        apply Hconf. intros B. apply Hx.
        apply (below_ref s k c q x Ho (ex_intro _ e (conj He Hv))
                 (kbd_in_refs _ _ Hq)).
        apply (proj2 (below_calls s (calls s0) q x)). exact B.
      * intros c0 _. rewrite (slot_of_at _ _ _ _ Hc2). reflexivity.
    + exists s0, []. split; [reflexivity|].
      split; [apply frame_calls|]. split; [reflexivity|].
      split; [intros x _; reflexivity|].
      intros c0 _. rewrite (slot_of_at _ _ _ _ Hc0). exact Hq.
Qed.

Lemma cancel_spec rank fuel : forall k s,
  ranked rank s -> owned s -> is_Some (heap s !! k) -> (rank k < fuel)%nat ->
  exists s' l,
    wlmtk_element_pointer_grab_cancel fuel k s = Done (tt, s') /\
    frame cancel_perm s s' /\
    calls s' = calls s ++ l /\
    (forall e, heap s !! k = Some e -> has_pointer_grab_cancel e = true ->
       exists l', l = pointer_grab_cancel_call k :: l') /\
    confined s k s' /\
    (forall c, container_at s k c ->
       slot_of pointer_grab_element_ptr s' k = None).
Proof.
  induction fuel as [|n IH]; intros k s Hr Ho [e He] Hlt; [lia|].
  simpl. run_element He.
  destruct (vmt e) as [lf|c] eqn:Hv.
  - destruct (leaf_has_pointer_grab_cancel lf) eqn:Hh.
    + eexists _, [pointer_grab_cancel_call k]. split; [reflexivity|].
      split; [apply frame_calls|]. split; [reflexivity|].
      split; [eauto|].
      split; [intros x _; reflexivity|].
      intros c (e' & He' & Hv'). congruence.
    + exists s, []. split; [reflexivity|].
      split; [apply frame_refl|].
      split; [symmetry; apply app_nil_r|].
      split.
      { intros e' He' Hh'. assert (e' = e) by congruence. subst e'.
        unfold has_pointer_grab_cancel in Hh'. rewrite Hv in Hh'. congruence. }
      split; [intros x _; reflexivity|].
      intros c (e' & He' & Hv'). congruence.
  - unfold bind at 1. simpl.
    set (s0 := State (heap s) (calls s ++ [pointer_grab_cancel_call k])).
    assert (Hr0 : ranked rank s0) by (apply ranked_calls; exact Hr).
    assert (Ho0 : owned s0) by (apply owned_calls; exact Ho).
    assert (Hc0 : container_at s0 k c) by (exists e; split; assumption).
    unfold _wlmtk_container_element_pointer_grab_cancel. run_container Hc0.
    destruct (pointer_grab_element_ptr c) as [q|] eqn:Hq.
    + destruct (Hr0 k c Hc0 q (grab_in_refs _ _ Hq)) as [Hs Hql].
      destruct (IH q s0 Hr0 Ho0 Hs ltac:(lia))
        as (s1 & l & Hb & F & Hl & _ & Hconf & _).
      run_with Hb.
      destruct (frame_container _ _ _ _ _ F Hc0) as (c1 & Hc1 & St).
      run_container Hc1.
      destruct (put_container_at s1 k c1 (set_pointer_grab c1 None) Hc1)
        as (s2 & Hp & Hc2 & Hcalls & Hoth & _ & Hfr).
      rewrite Hp. exists s2, (pointer_grab_cancel_call k :: l).
      split; [reflexivity|].
      split; [eapply frame_trans; [exact F|];
              apply Hfr, step_set_pointer_grab_none|].
      split; [rewrite Hcalls, Hl; simpl; rewrite <- app_assoc; reflexivity|].
      split; [eauto|].
      split.
      * intros x Hx. rewrite Hoth by (intros ->; apply Hx; constructor).
        apply Hconf. intros B. apply Hx.
        apply (below_ref s k c q x Ho (ex_intro _ e (conj He Hv))
                 (grab_in_refs _ _ Hq)).
        apply (proj2 (below_calls s (calls s0) q x)). exact B.
      * intros c0 _. rewrite (slot_of_at _ _ _ _ Hc2). reflexivity.
    + exists s0, [pointer_grab_cancel_call k]. split; [reflexivity|].
      split; [apply frame_calls|]. split; [reflexivity|].
      split; [eauto|].
      split; [intros x _; reflexivity|].
      intros c0 _. rewrite (slot_of_at _ _ _ _ Hc0). exact Hq.
Qed.

(** ** Writing a slot keeps the tree *)

Lemma parent_of_intro s a :
  is_Some (heap s !! a) -> parent_of a s = Done (parent_at s a, s).
Proof.
  intros [e He]. unfold parent_of, parent_at. run_element He. rewrite He.
  reflexivity.
Qed.

Lemma parent_at_Some s x p : parent_at s x = Some p -> is_Some (heap s !! x).
Proof.
  unfold parent_at. destruct (heap s !! x); [eauto | discriminate].
Qed.

Lemma container_at_Some s k c : container_at s k c -> is_Some (heap s !! k).
Proof. intros (e & He & _). eauto. Qed.

Lemma below_parent_eq s s' a x :
  (forall y, parent_at s' y = parent_at s y) -> below s a x <-> below s' a x.
Proof.
  intros Hp. split; induction 1 as [|x p Hx _ IH].
  - constructor.
  - econstructor; [|exact IH]. rewrite Hp. exact Hx.
  - constructor.
  - econstructor; [|exact IH]. rewrite <- Hp. exact Hx.
Qed.

Lemma tree_put rank R s s' a c c' child :
  tree rank R s ->
  container_at s a c -> parent_at s child = Some a ->
  elements c' = elements c ->
  (forall q, q ∈ slots c' -> q ∈ slots c \/ q = child) ->
  container_at s' a c' ->
  (forall x, x <> a -> heap s' !! x = heap s !! x) ->
  (forall x, parent_at s' x = parent_at s x) ->
  tree rank R s'.
Proof.
  intros (Hr & Ho & Hpr & Hb & Hpc) Hc Hch Hel Hsl Hc' Hoth Hpar.
  assert (Hdom : forall k, is_Some (heap s !! k) -> is_Some (heap s' !! k)).
  { intros k Hk. destruct (decide (k = a)) as [->|Hne].
    - eapply container_at_Some; exact Hc'.
    - rewrite Hoth by exact Hne. exact Hk. }
  assert (Hdom' : forall k, is_Some (heap s' !! k) -> is_Some (heap s !! k)).
  { intros k Hk. destruct (decide (k = a)) as [->|Hne].
    - eapply container_at_Some; exact Hc.
    - rewrite <- Hoth by exact Hne. exact Hk. }
  assert (Hrefs : forall k ck q, container_at s' k ck -> q ∈ refs ck ->
            (exists ck0, container_at s k ck0 /\ q ∈ refs ck0) \/
            (k = a /\ q = child)).
  { intros k ck q Hck Hq. destruct (decide (k = a)) as [->|Hne].
    - rewrite (container_at_inj _ _ _ _ Hck Hc') in Hq.
      apply elem_of_refs in Hq as [Hq|Hq].
      + left. exists c. split; [exact Hc|]. apply elem_of_refs. left.
        rewrite <- Hel. exact Hq.
      + destruct (Hsl q Hq) as [Hq'| ->]; [|right; split; reflexivity].
        left. exists c. split; [exact Hc|]. apply elem_of_refs. right.
        exact Hq'.
    - left. exists ck. split; [|exact Hq].
      destruct Hck as (e & He & Hv). exists e.
      rewrite <- Hoth by exact Hne. split; assumption. }
  split; [|split; [|split; [|split]]].
  - intros k ck Hck q Hq.
    destruct (Hrefs k ck q Hck Hq) as [(ck0 & Hck0 & Hq0)|[-> ->]].
    + destruct (Hr k ck0 Hck0 q Hq0) as [Hs Hlt]. split; [auto | exact Hlt].
    + split; [apply Hdom; eapply parent_at_Some; exact Hch|].
      apply (Hpr child a Hch).
  - intros k ck q Hck Hq. rewrite Hpar.
    destruct (Hrefs k ck q Hck Hq) as [(ck0 & Hck0 & Hq0)|[-> ->]].
    + apply (Ho k ck0 q Hck0 Hq0).
    + exact Hch.
  - intros x p Hx. rewrite Hpar in Hx. apply (Hpr x p Hx).
  - intros k Hk. apply Hb. auto.
  - intros x p Hx. rewrite Hpar in Hx. destruct (Hpc x p Hx) as [cp0 Hcp].
    destruct (decide (p = a)) as [->|Hne]; [eauto|].
    exists cp0. destruct Hcp as (e & He & Hv). exists e.
    rewrite Hoth by exact Hne. split; assumption.
Qed.

Lemma frame_slot_cleared pi f s s' a :
  (forall c c', container_step pi c c' -> f c' = f c \/ f c' = None) ->
  frame pi s s' -> slot_of f s a = None -> slot_of f s' a = None.
Proof.
  intros Hf F H. unfold slot_of, container_of in *. specialize (F a).
  destruct (heap s !! a) as [e|], (heap s' !! a) as [e'|];
    try contradiction; [|reflexivity].
  destruct F as (_ & _ & _ & _ & _ & Sv). unfold vmt_step in Sv.
  destruct (vmt e) as [|c], (vmt e') as [|c']; try contradiction;
    [reflexivity|].
  destruct (Hf c c' Sv) as [E|E]; congruence.
Qed.

Lemma blur_step_kbd c c' :
  container_step blur_perm c c' ->
  keyboard_focus_element_ptr c' = keyboard_focus_element_ptr c \/
  keyboard_focus_element_ptr c' = None.
Proof.
  intros (_ & _ & _ & _ & [H|[_ [H|(q & _ & [])]]]); auto.
Qed.


Lemma bind_ret {A B} (a : A) (k : A -> M B) s : bind (ret a) k s = k a s.
Proof. reflexivity. Qed.

Lemma tree_fuel rank R s x p :
  tree rank R s -> parent_at s x = Some p ->
  (rank x < rank p)%nat /\ (rank p <= R)%nat /\ (exists c, container_at s p c).
Proof.
  intros (_ & _ & Hpr & Hb & Hpc) H.
  destruct (Hpc x p H) as [c Hc].
  split; [exact (Hpr x p H)|].
  split; [apply Hb; eapply container_at_Some; exact Hc | eauto].
Qed.


(** ** What a motion reads lies below its target *)

Lemma container_step_event c c' : container_step event_perm c c' -> c' = c.
Proof.
  intros (He & Hf & Hl & Hg & Hk).
  apply slot_step_fixed in Hf, Hl, Hg, Hk.
  destruct c, c'; simpl in *. congruence.
Qed.

Lemma same_modulo_event_Some e o' :
  same_modulo_event (Some e) o' ->
  exists e', o' = Some e' /\ x_pos e' = x_pos e /\ y_pos e' = y_pos e /\
    visible e' = visible e /\ vmt e' = vmt e.
Proof.
  destruct o' as [e'|]; [|contradiction].
  intros (X & Y & V & _ & _ & Sv). exists e'.
  repeat split; try assumption.
  unfold vmt_step in Sv. destruct (vmt e), (vmt e'); try contradiction.
  - congruence.
  - f_equal. apply container_step_event. exact Sv.
Qed.

Lemma same_modulo_event_None o' : same_modulo_event None o' -> o' = None.
Proof. destruct o'; [contradiction | reflexivity]. Qed.

Lemma similar_below_child s s' q c q' :
  owned s -> container_at s q c -> q' ∈ refs c ->
  similar_below s s' q -> similar_below s s' q'.
Proof.
  intros Ho Hc Hq' H x Hx. apply H.
  eapply below_ref; eassumption.
Qed.

Lemma similar_below_frame s s' q : frame event_perm s s' -> similar_below s s' q.
Proof.
  intros F x _. specialize (F x). unfold same_modulo_event.
  destruct (heap s !! x), (heap s' !! x); assumption.
Qed.

Lemma similar_below_eq s s' q :
  (forall x, below s q x -> heap s' !! x = heap s !! x) ->
  similar_below s s' q.
Proof.
  intros H x Hx. rewrite (H x Hx). unfold same_modulo_event.
  destruct (heap s !! x); [apply element_step_refl | exact I].
Qed.

Lemma aggregate_similar (s s' : state) cb els acc :
  (forall q, q ∈ els ->
     same_modulo_event (heap s !! q) (heap s' !! q) /\
     cb (heap s') q = cb (heap s) q) ->
  aggregate cb (heap s') els acc = aggregate cb (heap s) els acc.
Proof.
  revert acc. induction els as [|q els IH]; intros acc H; simpl;
    [reflexivity|].
  destruct (H q ltac:(left)) as [Hq Hcb].
  destruct (heap s !! q) as [e|] eqn:He.
  - destruct (same_modulo_event_Some _ _ Hq) as (e' & -> & X & Y & V & _).
    rewrite X, Y, V, Hcb.
    destruct (visible e); simpl.
    + destruct (cb (heap s) q); try reflexivity.
      apply IH. intros q' Hq'. apply H. right. exact Hq'.
    + apply IH. intros q' Hq'. apply H. right. exact Hq'.
  - rewrite (same_modulo_event_None _ Hq). reflexivity.
Qed.

Lemma area_similar s s' n : forall q,
  owned s -> similar_below s s' q ->
  wlmtk_element_get_pointer_area n (heap s') q
  = wlmtk_element_get_pointer_area n (heap s) q.
Proof.
  induction n as [|n IH]; intros q Ho H; simpl; [reflexivity|].
  pose proof (H q (below_self s q)) as Hq.
  destruct (heap s !! q) as [e|] eqn:He.
  - destruct (same_modulo_event_Some _ _ Hq) as (e' & -> & _ & _ & _ & ->).
    destruct (vmt e) as [l|c] eqn:Hv; [reflexivity|].
    unfold _wlmtk_container_element_get_pointer_area, container_box.
    rewrite (aggregate_similar s s'); [reflexivity|].
    intros q' Hq'.
    assert (Hsim : similar_below s s' q').
    { eapply similar_below_child; [exact Ho | exists e; eauto | | exact H].
      apply elem_of_refs. left. exact Hq'. }
    split; [apply Hsim; constructor | apply IH; assumption].
  - rewrite (same_modulo_event_None _ Hq). reflexivity.
Qed.

Lemma plan_similar (s s' : state) acc area x y t p els :
  (forall q, q ∈ els ->
     same_modulo_event (heap s !! q) (heap s' !! q) /\
     area (heap s') q = area (heap s) q /\
     forall ev, acc (heap s') q ev = acc (heap s) q ev) ->
  plan acc area (heap s') x y t p els = plan acc area (heap s) x y t p els.
Proof.
  induction els as [|q els IH]; intros H; simpl; [reflexivity|].
  destruct (H q ltac:(left)) as (Hq & Ha & Hacc).
  rewrite IH by (intros q' Hq'; apply H; right; exact Hq').
  assert (Hc : candidate area (heap s') x y q = candidate area (heap s) x y q).
  { unfold candidate. rewrite Ha. destruct (heap s !! q) as [e|] eqn:He.
    - destruct (same_modulo_event_Some _ _ Hq) as (e' & -> & X & Y & V & _).
      unfold in_area. rewrite X, Y, V. reflexivity.
    - rewrite (same_modulo_event_None _ Hq). reflexivity. }
  assert (Hoff : offer (heap s') x y t p q = offer (heap s) x y t p q).
  { unfold offer. destruct (heap s !! q) as [e|] eqn:He.
    - destruct (same_modulo_event_Some _ _ Hq) as (e' & -> & X & Y & _).
      unfold local_event. rewrite X, Y. reflexivity.
    - rewrite (same_modulo_event_None _ Hq). reflexivity. }
  rewrite Hc, Hoff, Hacc. reflexivity.
Qed.

Lemma accepts_similar s s' n : forall q ev,
  owned s -> similar_below s s' q ->
  accepts n (heap s') q ev = accepts n (heap s) q ev.
Proof.
  induction n as [|n IH]; intros q ev Ho H; simpl; [reflexivity|].
  pose proof (H q (below_self s q)) as Hq.
  destruct (heap s !! q) as [e|] eqn:He.
  - destruct (same_modulo_event_Some _ _ Hq) as (e' & -> & _ & _ & _ & ->).
    destruct (vmt e) as [l|c] eqn:Hv; [reflexivity|].
    unfold container_accepts.
    destruct (pointer_grab_element_ptr c); [reflexivity|].
    rewrite (plan_similar s s'); [reflexivity|].
    intros q' Hq'.
    assert (Hsim : similar_below s s' q').
    { eapply similar_below_child; [exact Ho | exists e; eauto | | exact H].
      apply elem_of_refs. left. exact Hq'. }
    split; [apply Hsim; constructor|].
    split; [apply area_similar; assumption|].
    intros ev'. apply IH; assumption.
  - rewrite (same_modulo_event_None _ Hq). reflexivity.
Qed.

Lemma plan_targets acc area h x y t p els q ev :
  (q, ev) ∈ (plan acc area h x y t p els).1 ->
  q ∈ els /\ candidate area h x y q = true /\ ev = offer h x y t p q.
Proof.
  induction els as [|q' els IH]; simpl; [intros H; inversion H|].
  destruct (candidate area h x y q') eqn:Hc.
  - destruct (acc h q' (offer h x y t p q')); simpl.
    + intros H. apply list_elem_of_singleton in H. injection H as -> ->.
      split; [left|]. split; [exact Hc | reflexivity].
    + intros H. apply elem_of_cons in H as [H|H].
      * injection H as -> ->. split; [left|].
        split; [exact Hc | reflexivity].
      * destruct (IH H) as (H1 & H2 & H3). split; [right; exact H1|].
        split; assumption.
  - intros H. destruct (IH H) as (H1 & H2 & H3). split; [right; exact H1|].
    split; assumption.
Qed.

Lemma settled_similar s s' n : forall q ev,
  owned s -> similar_below s s' q ->
  settled n (heap s) q ev -> settled n (heap s') q ev.
Proof.
  induction n as [|n IH]; intros q ev Ho H; simpl; [trivial|].
  pose proof (H q (below_self s q)) as Hq.
  destruct (heap s !! q) as [e|] eqn:He.
  - destruct (same_modulo_event_Some _ _ Hq) as (e' & -> & _ & _ & _ & ->).
    destruct (vmt e) as [l|c] eqn:Hv; [trivial|].
    assert (Hc : container_at s q c) by (exists e; eauto).
    destruct (pointer_grab_element_ptr c) as [g|] eqn:Hg.
    + assert (Hsim : similar_below s s' g).
      { eapply similar_below_child; [exact Ho | exact Hc | | exact H].
        apply grab_in_refs. exact Hg. }
      pose proof (Hsim g (below_self s g)) as Hgg.
      destruct (heap s !! g) as [ge|] eqn:Hge.
      * destruct (same_modulo_event_Some _ _ Hgg)
          as (ge' & -> & X & Y & _).
        unfold local_event. rewrite X, Y. apply IH; assumption.
      * rewrite (same_modulo_event_None _ Hgg). trivial.
    + assert (Hpl :
        plan (accepts n) (wlmtk_element_get_pointer_area n) (heap s')
          (ev_x ev) (ev_y ev) (ev_time_msec ev) (ev_pointer_ptr ev)
          (elements c)
        = plan (accepts n) (wlmtk_element_get_pointer_area n) (heap s)
            (ev_x ev) (ev_y ev) (ev_time_msec ev) (ev_pointer_ptr ev)
            (elements c)).
      { apply plan_similar. intros q' Hq'.
        assert (Hsim : similar_below s s' q').
        { eapply similar_below_child; [exact Ho | exact Hc | | exact H].
          apply elem_of_refs. left. exact Hq'. }
        split; [apply Hsim; constructor|].
        split; [apply area_similar; assumption|].
        intros ev'. apply accepts_similar; assumption. }
      rewrite Hpl. intros [Hfoc Hall]. split; [exact Hfoc|].
      rewrite Forall_forall in *. intros [q' ev'] Hin. simpl.
      destruct (plan_targets _ _ _ _ _ _ _ _ _ _ Hin) as (Hq' & _ & _).
      apply IH; [exact Ho| |exact (Hall _ Hin)].
      eapply similar_below_child; [exact Ho | exact Hc | | exact H].
      apply elem_of_refs. left. exact Hq'.
  - rewrite (same_modulo_event_None _ Hq). trivial.
Qed.

(** ** Motion delivery, one level at a time *)

Lemma element_pointer_motion_run el e ev s :
  heap s !! el = Some e ->
  _wlmtk_element_pointer_motion el ev s
  = Done (tt, State (<[el := Element (x_pos e) (y_pos e) (visible e)
                             (parent_container_ptr e) ev (vmt e)]> (heap s))
                (calls s)).
Proof.
  intros He. unfold _wlmtk_element_pointer_motion. run_element He.
  reflexivity.
Qed.

Lemma motion_leaf n el ev s e l :
  heap s !! el = Some e -> vmt e = LeafVmt l ->
  wlmtk_element_pointer_motion (S n) el ev s
  = Done (leaf_pointer_motion l ev, with_motion_event el e ev s).
Proof.
  intros He Hv. simpl. unfold bind at 1. simpl.
  assert (He0 : heap (State (heap s) (calls s ++ [pointer_motion_call el ev]))
                !! el = Some e) by exact He.
  run_element He0. rewrite Hv.
  run_with (element_pointer_motion_run el e ev _ He0). reflexivity.
Qed.

Lemma motion_container n el ev s e c :
  heap s !! el = Some e -> vmt e = ContainerVmt c ->
  wlmtk_element_pointer_motion (S n) el ev s
  = update_pointer_focus_at (wlmtk_element_pointer_motion n)
      (wlmtk_element_get_pointer_area n) el (ev_x ev) (ev_y ev)
      (ev_time_msec ev) (ev_pointer_ptr ev) (with_motion_event el e ev s).
Proof.
  intros He Hv. simpl. unfold bind at 1. simpl.
  assert (He0 : heap (State (heap s) (calls s ++ [pointer_motion_call el ev]))
                !! el = Some e) by exact He.
  run_element He0. rewrite Hv.
  unfold _wlmtk_container_element_pointer_motion.
  run_with (element_pointer_motion_run el e ev _ He0). reflexivity.
Qed.

Lemma motion_Done_lookup n el ev s r :
  wlmtk_element_pointer_motion n el ev s = Done r ->
  exists m e, n = S m /\ heap s !! el = Some e.
Proof.
  destruct n as [|m]; [discriminate|]. simpl. intros H.
  step H as u s1 H1. inv_step H1. step H as e s2 H2. inv_step H2.
  exists m, e. split; [reflexivity | exact H2].
Qed.

Lemma with_motion_event_frame el e ev s :
  heap s !! el = Some e -> frame event_perm s (with_motion_event el e ev s).
Proof. intros He. apply frame_put_event; [reflexivity | exact He]. Qed.

Lemma with_motion_event_container el e ev s c :
  heap s !! el = Some e -> vmt e = ContainerVmt c ->
  container_at (with_motion_event el e ev s) el c.
Proof.
  intros He Hv. eexists. unfold with_motion_event. simpl.
  rewrite lookup_insert_eq. split; [reflexivity | exact Hv].
Qed.

Lemma with_motion_event_other el e ev s x :
  x <> el -> heap (with_motion_event el e ev s) !! x = heap s !! x.
Proof. intros Hx. simpl. apply lookup_insert_ne. congruence. Qed.

Lemma update_grab_run deliver area s cp c g ge x y t p :
  container_at s cp c -> pointer_grab_element_ptr c = Some g ->
  heap s !! g = Some ge ->
  update_pointer_focus_at deliver area cp x y t p s
  = (let* _ := deliver g (local_event ge x y t p) in ret true) s.
Proof.
  intros Hc Hg Hge. unfold update_pointer_focus_at. run_container Hc.
  rewrite Hg. run_element Hge. reflexivity.
Qed.

Lemma deliveries_fold deliver (P : state -> Prop)
    (ok : ptr -> wlmtk_pointer_motion_event_t -> Prop) D : forall s s1,
  (forall q ev s a s', P s -> ok q ev -> deliver q ev s = Done (a, s') ->
     P s') ->
  Forall (fun qe => ok qe.1 qe.2) D -> P s ->
  deliveries deliver D s = Done (tt, s1) -> P s1.
Proof.
  induction D as [|[q ev] D IH]; intros s s1 Hstep Hok HP H; simpl in H.
  - inv_step H. exact HP.
  - step H as a s2 Hd. inversion Hok as [|? ? Hq HD]; subst.
    apply (IH s2 s1 Hstep HD); [|exact H].
    eapply Hstep; [exact HP | exact Hq | exact Hd].
Qed.

Lemma deliveries_app deliver D1 D2 s :
  deliveries deliver (D1 ++ D2) s
  = (let* _ := deliveries deliver D1 in deliveries deliver D2) s.
Proof.
  revert s. induction D1 as [|[q ev] D1 IH]; intros s; simpl;
    [reflexivity|].
  unfold bind. destruct (deliver q ev s) as [[a s1]| | |];
    try reflexivity.
  rewrite IH. reflexivity.
Qed.

Lemma leave_target old new t p q ev :
  (q, ev) ∈ leave old new t p ->
  old = Some q /\ new <> Some q /\ ev = sentinel t p.
Proof.
  unfold leave. destruct old as [f|]; [|intros H; inversion H].
  destruct (bool_decide (new = Some f)) eqn:Hb; [intros H; inversion H|].
  apply bool_decide_eq_false in Hb.
  intros H. apply list_elem_of_singleton in H. injection H as -> ->.
  repeat split. exact Hb.
Qed.

(** A motion changes nothing outside of what lies below its target. *)
Lemma motion_confined rank R fuel : forall el ev s b s',
  tree rank R s -> (rank el < fuel)%nat ->
  wlmtk_element_pointer_motion fuel el ev s = Done (b, s') ->
  confined s el s'.
Proof.
  induction fuel as [|n IH]; intros el ev s b s' Ht Hfuel H; [discriminate|].
  destruct (motion_Done_lookup _ _ _ _ _ H) as (m & e & _ & He).
  pose proof Ht as (Hr & Ho & Hpr & Hb & Hpc).
  destruct (vmt e) as [l|c] eqn:Hv.
  - rewrite (motion_leaf n el ev s e l He Hv) in H. injection H as _ <-.
    intros x Hx. apply with_motion_event_other. intros ->. apply Hx.
    constructor.
  - rewrite (motion_container n el ev s e c He Hv) in H.
    set (sb := with_motion_event el e ev s) in *.
    pose proof (with_motion_event_frame el e ev s He) as Fb.
    pose proof (tree_frame _ _ _ _ _ Ht Fb) as Htb.
    pose proof (with_motion_event_container el e ev s c He Hv) as Hcb.
    assert (Hc : container_at s el c) by (exists e; eauto).
    set (P := fun s0 : state =>
           tree rank R s0 /\ (forall z, parent_at s0 z = parent_at s z) /\
           forall x, ~ below s el x -> heap s0 !! x = heap s !! x).
    assert (HPb : P sb).
    { split; [exact Htb|]. split.
      - intros z. apply (parent_at_frame event_perm). exact Fb.
      - intros x Hx. apply with_motion_event_other. intros ->. apply Hx.
        constructor. }
    assert (Hdeliver : forall q ev0 s0 a s0',
      P s0 -> parent_at s q = Some el ->
      wlmtk_element_pointer_motion n q ev0 s0 = Done (a, s0') -> P s0').
    { intros q ev0 s0 a s0' (Ht0 & Hp0 & Hk0) Hq Hd.
      pose proof (Hpr q el Hq) as Hql.
      pose proof (proj1 (motion_evolves _ _ _ _ _ _ Hd)) as F0.
      split; [eapply tree_frame; eassumption|]. split.
      - intros z. rewrite (parent_at_frame motion_perm s0 s0' z F0).
        apply Hp0.
      - intros x Hx. rewrite <- (Hk0 x Hx).
        apply (IH q ev0 s0 a s0' Ht0 ltac:(lia) Hd). intros Hqx. apply Hx.
        apply (below_parent_eq s s0 q x Hp0) in Hqx.
        eapply below_trans; [|exact Hqx].
        econstructor; [exact Hq | constructor]. }
    assert (HR : (rank el <= R)%nat) by (apply Hb; eauto).
    destruct (pointer_grab_element_ptr c) as [g|] eqn:Hg.
    + pose proof Htb as (Hrb & _).
      destruct (Hrb el c Hcb g (grab_in_refs _ _ Hg)) as [[ge Hge] _].
      rewrite (update_grab_run _ _ sb el c g ge _ _ _ _ Hcb Hg Hge) in H.
      step H as a s2 Hd. inv_step H.
      exact (proj2 (proj2 (Hdeliver g _ sb a _ HPb
                             (Ho el c g Hc (grab_in_refs _ _ Hg)) Hd))).
    + pose proof Htb as (Hrb & _).
      destruct (update_no_grab_run rank n sb el c (ev_x ev) (ev_y ev)
                  (ev_time_msec ev) (ev_pointer_ptr ev) Hrb Hcb ltac:(lia) Hg)
        as (s1 & Hd & Hrun & _ & _).
      rewrite Hrun in H. injection H as _ <-.
      assert (HP1 : P s1).
      { refine (deliveries_fold (wlmtk_element_pointer_motion n) P
                  (fun q _ => parent_at s q = Some el) _ sb s1 _ _ HPb Hd);
          [intros q ev0 s0 a s0' HP Hq Hd0;
           exact (Hdeliver q ev0 s0 a s0' HP Hq Hd0)|].
        apply Forall_forall. intros [q ev0] Hin. simpl.
        apply elem_of_app in Hin as [Hin|Hin].
        - destruct (plan_targets _ _ _ _ _ _ _ _ _ _ Hin) as (Hq & _).
          apply (Ho el c q Hc). apply elem_of_refs. left. exact Hq.
        - destruct (leave_target _ _ _ _ _ _ Hin) as (Hq & _).
          apply (Ho el c q Hc). apply focus_in_refs. exact Hq. }
      destruct HP1 as (_ & _ & Hk1).
      intros x Hx. rewrite with_pointer_focus_other; [apply Hk1; exact Hx|].
      intros ->. apply Hx. constructor.
Qed.

(** ** Facts about plans, quiet runs and sentinels *)

Lemma plan_nan acc area h y t p els :
  plan acc area h NAN y t p els = ([], None).
Proof.
  induction els as [|q els IH]; simpl; [reflexivity|].
  replace (candidate area h NAN y q) with false; [exact IH|].
  unfold candidate. destruct (h !! q) as [e|]; [|reflexivity].
  destruct (visible e); [|reflexivity]. simpl.
  destruct (area h q); reflexivity.
Qed.

Lemma plan_rejected acc area h x y t p els q ev :
  (q, ev) ∈ (plan acc area h x y t p els).1 ->
  (plan acc area h x y t p els).2 <> Some q ->
  acc h q ev = false.
Proof.
  induction els as [|q' els IH]; simpl; [intros H; inversion H|].
  destruct (candidate area h x y q') eqn:Hc; [|exact IH].
  destruct (acc h q' (offer h x y t p q')) eqn:Ha; simpl.
  - intros H Hne. apply list_elem_of_singleton in H. injection H as -> ->.
    congruence.
  - intros H Hne. apply elem_of_cons in H as [H|H].
    + injection H as -> ->. exact Ha.
    + apply IH; assumption.
Qed.

Lemma plan_targets_NoDup acc area h x y t p els :
  NoDup els -> NoDup (plan acc area h x y t p els).1.*1.
Proof.
  induction 1 as [|q els Hq Hnd IH]; simpl; [constructor|].
  destruct (candidate area h x y q); [|exact IH].
  destruct (acc h q (offer h x y t p q)); simpl.
  - apply NoDup_singleton.
  - constructor; [|exact IH].
    intros Hin. apply list_elem_of_fmap in Hin as ([q' ev] & -> & Hin).
    simpl in Hq. apply Hq.
    exact (proj1 (plan_targets _ _ _ _ _ _ _ _ _ _ Hin)).
Qed.

Lemma is_sentinel_local e ev :
  is_sentinel (local_event e (ev_x ev) (ev_y ev) (ev_time_msec ev)
                 (ev_pointer_ptr ev)) = is_sentinel ev.
Proof.
  unfold is_sentinel, local_event. simpl.
  destruct (ev_x ev), (ev_y ev); reflexivity.
Qed.

Lemma quiet_refl s : quiet s s.
Proof. exists []. split; [symmetry; apply app_nil_r | constructor]. Qed.

Lemma quiet_trans s1 s2 s3 : quiet s1 s2 -> quiet s2 s3 -> quiet s1 s3.
Proof.
  intros (l1 & H1 & F1) (l2 & H2 & F2). exists (l1 ++ l2).
  split; [rewrite H2, H1; symmetry; apply app_assoc|].
  apply Forall_app. split; assumption.
Qed.

Lemma quiet_with_motion_event el e ev s :
  is_sentinel ev = false -> quiet s (with_motion_event el e ev s).
Proof.
  intros Hev. exists [pointer_motion_call el ev]. split; [reflexivity|].
  constructor; [exact Hev | constructor].
Qed.

Lemma distinct_frame pi s s' : distinct s -> frame pi s s' -> distinct s'.
Proof.
  intros Hd F k c' Hc'.
  destruct (frame_container_rev _ _ _ _ _ F Hc') as (c & Hc & St).
  destruct St as (-> & _). exact (Hd k c Hc).
Qed.

Lemma distinctb_sound s : distinctb s = true -> distinct s.
Proof.
  unfold distinctb. rewrite forallb_forall. intros H k c (e & He & Hv).
  specialize (H (k, e)). simpl in H. rewrite Hv in H.
  eapply bool_decide_eq_true_1. apply H.
  apply list_elem_of_In. apply elem_of_map_to_list. exact He.
Qed.

Lemma frame_event_container s s' k c :
  frame event_perm s s' -> container_at s k c -> container_at s' k c.
Proof.
  intros F Hc. destruct (frame_container _ _ _ _ _ F Hc) as (c' & Hc' & St).
  rewrite <- (container_step_event _ _ St). exact Hc'.
Qed.

(** A sentinel changes nothing but cached events in an element that is
    settled for a motion it rejects. *)
Lemma sentinel_idle rank fuel el ev sev s :
  ranked rank s -> is_Some (heap s !! el) -> (rank el < fuel)%nat ->
  settled fuel (heap s) el ev -> accepts fuel (heap s) el ev = false ->
  ev_x sev = NAN ->
  exists b s',
    wlmtk_element_pointer_motion fuel el sev s = Done (b, s') /\
    frame event_perm s s'.
Proof.
  intros Hr [e He] Hlt Hset Hacc Hx.
  destruct fuel as [|n]; [lia|].
  pose proof (with_motion_event_frame el e sev s He) as Fb.
  simpl in Hset, Hacc. rewrite He in Hset, Hacc.
  destruct (vmt e) as [l|c] eqn:Hv.
  - rewrite (motion_leaf n el sev s e l He Hv). eauto.
  - rewrite (motion_container n el sev s e c He Hv).
    unfold container_accepts in Hacc.
    destruct (pointer_grab_element_ptr c) eqn:Hg; [discriminate|].
    apply bool_decide_eq_false in Hacc.
    destruct Hset as [Hfoc _].
    assert (Hnone : pointer_focus_element_ptr c = None).
    { rewrite Hfoc.
      destruct ((plan (accepts n) (wlmtk_element_get_pointer_area n) (heap s)
                   (ev_x ev) (ev_y ev) (ev_time_msec ev) (ev_pointer_ptr ev)
                   (elements c)).2); [|reflexivity].
      exfalso. apply Hacc. eauto. }
    pose proof (with_motion_event_container el e sev s c He Hv) as Hcb.
    destruct (update_no_grab_run rank n (with_motion_event el e sev s) el c
                (ev_x sev) (ev_y sev) (ev_time_msec sev) (ev_pointer_ptr sev)
                (ranked_frame _ _ _ _ Hr Fb) Hcb ltac:(lia) Hg)
      as (s1 & Hd & Hrun & _ & _).
    rewrite Hx, plan_nan in Hd, Hrun. simpl in Hd, Hrun.
    rewrite Hx. rewrite Hnone in Hd. simpl in Hd. inv_step Hd.
    rewrite Hrun. eexists _, _. split; [reflexivity|].
    pose proof (with_pointer_focus_id _ _ _ Hcb) as Hid.
    rewrite Hnone in Hid. rewrite Hid. exact Fb.
Qed.

(** ** The pointer focus update without a grab *)

Section PlanFacts.
Variable acc :
  gmap nat wlmtk_element_t -> ptr -> wlmtk_pointer_motion_event_t -> bool.
Variable area : gmap nat wlmtk_element_t -> ptr -> outcome box.
Variable h : gmap nat wlmtk_element_t.
Variables (x y : coord) (t : Z) (p : option nat).

Let cand := candidate area h x y.
Let off := offer h x y t p.
Let offers (l : list ptr) := (fun q => (q, off q)) <$> List.filter cand l.

Lemma plan_winner els w :
  (plan acc area h x y t p els).2 = Some w ->
  exists pre post,
    els = pre ++ w :: post /\
    cand w = true /\ acc h w (off w) = true /\
    (forall q, q ∈ pre -> cand q = true -> acc h q (off q) = false) /\
    (plan acc area h x y t p els).1 = offers pre ++ [(w, off w)].
Proof.
  unfold offers.
  induction els as [|q els IH]; simpl; [discriminate|].
  fold cand off. destruct (cand q) eqn:Hc.
  - destruct (acc h q (off q)) eqn:Ha; simpl.
    + intros H. injection H as <-. exists [], els. simpl.
      repeat split; try assumption. intros q' Hq'. inversion Hq'.
    + intros H. destruct (IH H) as (pre & post & -> & C & A & R & D).
      exists (q :: pre), post. simpl. rewrite Hc. simpl. rewrite D.
      repeat split; try assumption.
      intros q' Hq' Hc'. apply elem_of_cons in Hq' as [-> | Hq'];
        [exact Ha | apply R; assumption].
  - intros H. destruct (IH H) as (pre & post & -> & C & A & R & D).
    exists (q :: pre), post. simpl. rewrite Hc.
    repeat split; try assumption.
    intros q' Hq' Hc'. apply elem_of_cons in Hq' as [-> | Hq'];
      [congruence | apply R; assumption].
Qed.

Lemma plan_no_winner els :
  (plan acc area h x y t p els).2 = None ->
  (forall q, q ∈ els -> cand q = true -> acc h q (off q) = false) /\
  (plan acc area h x y t p els).1 = offers els.
Proof.
  unfold offers.
  induction els as [|q els IH]; simpl.
  - intros _. split; [|reflexivity]. intros q Hq. inversion Hq.
  - fold cand off. destruct (cand q) eqn:Hc.
    + destruct (acc h q (off q)) eqn:Ha; simpl; [discriminate|].
      intros H. destruct (IH H) as [R D]. rewrite D.
      split; [|reflexivity].
      intros q' Hq' Hc'. apply elem_of_cons in Hq' as [-> | Hq'];
        [exact Ha | apply R; assumption].
    + intros H. destruct (IH H) as [R D]. split; [|exact D].
      intros q' Hq' Hc'. apply elem_of_cons in Hq' as [-> | Hq'];
        [congruence | apply R; assumption].
Qed.

Lemma candidate_offer_real q :
  cand q = true -> is_sentinel (off q) = false.
Proof.
  unfold cand, off, candidate, offer.
  destruct (h !! q) as [e|]; [|discriminate].
  destruct (visible e); [|discriminate]. simpl.
  destruct (area h q) as [a| | |]; try discriminate.
  unfold in_area, is_sentinel, local_event. simpl.
  destruct x; simpl; [reflexivity | discriminate].
Qed.
End PlanFacts.

(** What [update_pointer_focus_at] does when the container holds no grab. *)
Lemma update_no_grab_spec (rank : ptr -> nat) (n : nat) (s : state)
    (cp : ptr) (c : wlmtk_container_t) (x y : coord) (t : Z)
    (p : option nat) :
  ranked rank s ->
  container_at s cp c ->
  (rank cp <= n)%nat ->
  pointer_grab_element_ptr c = None ->
  let deliver := wlmtk_element_pointer_motion n in
  let area := wlmtk_element_get_pointer_area n in
  let cand := candidate area (heap s) x y in
  let off := offer (heap s) x y t p in
  let takes q := accepts n (heap s) q (off q) in
  let offers l := (fun q => (q, off q)) <$> List.filter cand l in
  exists offered w s1,
    deliveries deliver
      (offered ++ leave (pointer_focus_element_ptr c) w t p) s
    = Done (tt, s1) /\
    update_pointer_focus_at deliver area cp x y t p s
    = Done (bool_decide (is_Some w), with_pointer_focus cp w s1) /\
    container_at (with_pointer_focus cp w s1) cp (set_pointer_focus c w) /\
    match w with
    | Some q =>
      exists pre post,
        elements c = pre ++ q :: post /\
        cand q = true /\ takes q = true /\
        (forall r, r ∈ pre -> cand r = true -> takes r = false) /\
        offered = offers pre ++ [(q, off q)]
    | None =>
      (forall r, r ∈ elements c -> cand r = true -> takes r = false) /\
      offered = offers (elements c) /\
      (forall f, pointer_focus_element_ptr c = Some f ->
         leave (pointer_focus_element_ptr c) None t p = [(f, sentinel t p)])
    end.
Proof.
  intros Hr Hc Hn Hgrab deliver area cand off takes offers.
  destruct (scan_spec rank n deliver area (accepts n)
              (fun p ev s a s' => motion_evolves n p ev s a s')
              (motion_spec rank n)
              (fun s s' q ev F =>
                 accepts_frame motion_perm s s' n q ev eq_refl F)
              (fun s q Hr Hs Hl => area_total rank s n q Hr Hs Hl)
              (fun s s' q F => area_frame motion_perm s s' n q F)
              cp x y t p Hn (elements c) s c Hr Hc (fun q Hq => Hq))
    as (s1 & Hd & Hs & U & E).
  exists (plan (accepts n) area (heap s) x y t p (elements c)).1,
         (plan (accepts n) area (heap s) x y t p (elements c)).2, s1.
  split; [exact Hd|].
  split.
  { unfold update_pointer_focus_at. run_container Hc. rewrite Hgrab.
    exact Hs. }
  split.
  { apply with_pointer_focus_container.
    eapply untouched_container; [exact U | apply le_n | exact Hc]. }
  destruct (plan (accepts n) area (heap s) x y t p (elements c)).2
    as [q|] eqn:Hw.
  - destruct (plan_winner _ _ _ _ _ _ _ _ _ Hw)
      as (pre & post & Hel & C & A & R & D).
    exists pre, post. repeat split; assumption.
  - destruct (plan_no_winner _ _ _ _ _ _ _ _ Hw) as [R D].
    repeat split; try assumption.
    intros f Hf. unfold leave. rewrite Hf.
    rewrite bool_decide_eq_false_2 by discriminate. reflexivity.
Qed.

(** C1: the pointer-focus update of a container that holds no grab.  The
    children are scanned from the head of the list to its tail.  Every
    candidate (a visible child whose pointer area, translated by its
    position, contains the point) is offered the motion translated into its
    own space, up to and including the first one that accepts; nothing is
    offered behind it.  With such a winner the call delivers the leave of a
    former holder that differs, makes the winner the pointer-focus holder and
    returns true.  When no candidate accepts, a former holder is sent the
    sentinel, the holder is cleared and the call returns false. *)
Theorem pointer_focus_scan (rank : ptr -> nat) (n : nat) (s : state)
    (cp : ptr) (c : wlmtk_container_t) (x y : coord) (t : Z)
    (p : option nat) :
  ranked rank s ->
  container_at s cp c ->
  (rank cp <= n)%nat ->
  pointer_grab_element_ptr c = None ->
  let deliver := wlmtk_element_pointer_motion n in
  let area := wlmtk_element_get_pointer_area n in
  let cand := candidate area (heap s) x y in
  let off := offer (heap s) x y t p in
  let takes q := accepts n (heap s) q (off q) in
  let offers l := (fun q => (q, off q)) <$> List.filter cand l in
  exists offered w s1,
    deliveries deliver
      (offered ++ leave (pointer_focus_element_ptr c) w t p) s
    = Done (tt, s1) /\
    update_pointer_focus_at deliver area cp x y t p s
    = Done (bool_decide (is_Some w), with_pointer_focus cp w s1) /\
    container_at (with_pointer_focus cp w s1) cp (set_pointer_focus c w) /\
    match w with
    | Some q =>
      exists pre post,
        elements c = pre ++ q :: post /\
        cand q = true /\ takes q = true /\
        (forall r, r ∈ pre -> cand r = true -> takes r = false) /\
        offered = offers pre ++ [(q, off q)]
    | None =>
      (forall r, r ∈ elements c -> cand r = true -> takes r = false) /\
      offered = offers (elements c) /\
      (forall f, pointer_focus_element_ptr c = Some f ->
         leave (pointer_focus_element_ptr c) None t p = [(f, sentinel t p)])
    end.
Proof. apply update_no_grab_spec. Qed.

(** ** Enter and leave on a change of the focus holder *)

(** C2, as the code has it: when a pointer-focus update moves the focus from
    one element to another, the real motion is delivered to the new holder
    first (its acceptance is what makes it the holder) and the sentinel to
    the old holder after it, as the last delivery of the update.  The two go
    to different elements. *)
Theorem enter_then_leave (rank : ptr -> nat) (n : nat) (s : state)
    (cp : ptr) (c : wlmtk_container_t) (x y : coord) (t : Z)
    (p : option nat) (old new : ptr) (s' : state) (c' : wlmtk_container_t) :
  ranked rank s ->
  container_at s cp c ->
  (rank cp <= n)%nat ->
  pointer_grab_element_ptr c = None ->
  pointer_focus_element_ptr c = Some old ->
  update_pointer_focus_at (wlmtk_element_pointer_motion n)
    (wlmtk_element_get_pointer_area n) cp x y t p s = Done (true, s') ->
  container_at s' cp c' ->
  pointer_focus_element_ptr c' = Some new ->
  new <> old ->
  exists before enter s1,
    is_sentinel enter = false /\
    enter = offer (heap s) x y t p new /\
    deliveries (wlmtk_element_pointer_motion n)
      (before ++ [(new, enter); (old, sentinel t p)]) s = Done (tt, s1) /\
    s' = with_pointer_focus cp (Some new) s1.
Proof.
  intros Hr Hc Hn Hgrab Hold Hrun Hc' Hnew Hne.
  destruct (update_no_grab_spec rank n s cp c x y t p Hr Hc Hn Hgrab)
    as (offered & w & s1 & Hd & Hu & Hcw & Hw).
  rewrite Hrun in Hu. injection Hu as Hb ->.
  pose proof (container_at_inj _ _ _ _ Hc' Hcw) as ->. simpl in Hnew.
  subst w. destruct Hw as (pre & post & Hel & C & A & R & ->).
  eexists _, _, s1.
  split; [eapply candidate_offer_real; exact C|].
  split; [reflexivity|]. split; [|reflexivity].
  unfold leave in Hd. rewrite Hold in Hd.
  rewrite bool_decide_eq_false_2 in Hd by congruence.
  rewrite <- app_assoc in Hd. exact Hd.
Qed.

(** ** The capture of the left button *)

Lemma button_step_focus c c' :
  container_step button_perm c c' ->
  pointer_focus_element_ptr c' = pointer_focus_element_ptr c.
Proof. intros (_ & Hf & _). exact (slot_step_fixed _ _ _ Hf). Qed.

Lemma button_first_call fuel f ev s acc s1 :
  wlmtk_element_pointer_button fuel f ev s = Done (acc, s1) ->
  exists l, calls s1 = calls s ++ pointer_button_call f ev :: l.
Proof.
  destruct fuel as [|n]; [discriminate|]. intros H.
  replace (wlmtk_element_pointer_button (S n) f ev s) with
    ((let* e := get_element f in
      match vmt e with
      | LeafVmt l => ret (leaf_pointer_button l ev)
      | ContainerVmt _ =>
        _wlmtk_container_element_pointer_button
          (wlmtk_element_pointer_button n) f ev
      end) (State (heap s) (calls s ++ [pointer_button_call f ev]))) in H
    by reflexivity.
  step H as e s2 H2. inv_step H2.
  assert (E : extends
                (State (heap s) (calls s ++ [pointer_button_call f ev])) s1).
  { destruct (vmt e).
    - inv_step H. apply extends_refl.
    - eapply container_button_evolves; [|exact H].
      intros p ev0 s0 acc0 s0'. apply button_evolves. }
  destruct E as [l Hl]. simpl in Hl. exists l. rewrite Hl.
  rewrite <- app_assoc. reflexivity.
Qed.

(** C3: the left-button state machine of a container that holds no grab.
    DOWN goes to the pointer-focus holder, when there is one: it becomes the
    capture holder when it accepts, and the capture slot is cleared when it
    rejects.  With no pointer-focus holder the DOWN is delivered to nobody,
    the call reports it unaccepted and the state, the capture slot included,
    stays as it was.  UP goes to the capture holder, whatever the
    pointer-focus holder is, and is reported unaccepted with the state
    unchanged when there is no capture holder.  CLICK and DOUBLE_CLICK go to
    the capture holder when it is also the pointer-focus holder; otherwise
    the call reports the event unaccepted and leaves the state, the record
    of calls included, as it was. *)
Theorem capture_button_law (rank : ptr -> nat) (n : nat) (s : state)
    (el : ptr) (c : wlmtk_container_t) (ev : wlmtk_button_event_t) :
  ranked rank s ->
  container_at s el c ->
  (rank el <= n)%nat ->
  pointer_grab_element_ptr c = None ->
  button ev = BTN_LEFT ->
  let deliver := wlmtk_element_pointer_button n in
  let run := _wlmtk_container_element_pointer_button deliver el ev s in
  (type ev = WLMTK_BUTTON_DOWN ->
   (forall f, pointer_focus_element_ptr c = Some f ->
    exists acc s1 s' c' l,
      deliver f ev s = Done (acc, s1) /\
      calls s1 = calls s ++ pointer_button_call f ev :: l /\
      run = Done (acc, s') /\
      calls s' = calls s1 /\
      container_at s' el c' /\
      left_button_element_ptr c' = (if acc then Some f else None)) /\
   (pointer_focus_element_ptr c = None -> run = Done (false, s))) /\
  (type ev = WLMTK_BUTTON_UP ->
   (forall h, left_button_element_ptr c = Some h ->
    exists acc s' l,
      deliver h ev s = Done (acc, s') /\
      calls s' = calls s ++ pointer_button_call h ev :: l /\
      run = Done (acc, s')) /\
   (left_button_element_ptr c = None -> run = Done (false, s))) /\
  (type ev = WLMTK_BUTTON_CLICK \/ type ev = WLMTK_BUTTON_DOUBLE_CLICK ->
   (forall h, left_button_element_ptr c = Some h ->
      pointer_focus_element_ptr c = Some h ->
      exists acc s' l,
        deliver h ev s = Done (acc, s') /\
        calls s' = calls s ++ pointer_button_call h ev :: l /\
        run = Done (acc, s')) /\
   (left_button_element_ptr c = None \/
    left_button_element_ptr c <> pointer_focus_element_ptr c ->
    run = Done (false, s))).
Proof.
  intros Hr Hc Hn Hgrab Hleft deliver run.
  assert (Htotal : forall q,
    pointer_focus_element_ptr c = Some q \/
    left_button_element_ptr c = Some q \/
    pointer_grab_element_ptr c = Some q \/
    keyboard_focus_element_ptr c = Some q ->
    recognized (type ev) = true ->
    exists acc s1 l, deliver q ev s = Done (acc, s1) /\
      calls s1 = calls s ++ pointer_button_call q ev :: l).
  { intros q Hq Hrec. destruct (ranked_slot _ _ _ _ _ Hr Hc Hq) as [Hs Hlt].
    destruct (button_total rank n q ev s Hr Hs ltac:(lia) Hrec)
      as (acc & s1 & H1).
    destruct (button_first_call _ _ _ _ _ _ H1) as [l Hl].
    exists acc, s1, l. split; assumption. }
  assert (Hrun : run =
    (match type ev with
     | WLMTK_BUTTON_DOWN =>
       match pointer_focus_element_ptr c with
       | Some f =>
         let* accepted := deliver f ev in
         let* c := get_container el in
         let* _ := put_container el
                     (set_left_button c
                        (if accepted then pointer_focus_element_ptr c
                         else None)) in
         ret accepted
       | None => ret false
       end
     | WLMTK_BUTTON_UP =>
       match left_button_element_ptr c with
       | Some l => deliver l ev
       | None => ret false
       end
     | WLMTK_BUTTON_CLICK
     | WLMTK_BUTTON_DOUBLE_CLICK =>
       match left_button_element_ptr c with
       | Some l =>
         if ptr_eqb (left_button_element_ptr c) (pointer_focus_element_ptr c)
         then deliver l ev
         else ret false
       | None => ret false
       end
     | BUTTON_OTHER _ => fatal
     end) s).
  { unfold run, _wlmtk_container_element_pointer_button.
    run_container Hc. rewrite Hgrab, Hleft. reflexivity. }
  split; [|split].
  - intros Hty. split;
      [|intros Hf; rewrite Hrun, Hty, Hf; reflexivity].
    intros f Hf.
    destruct (Htotal f) as (acc & s1 & l & H1 & Hl);
      [auto | rewrite Hty; reflexivity|].
    destruct (frame_container _ _ _ _ _
                (proj1 (button_evolves _ _ _ _ _ _ H1)) Hc)
      as (c1 & Hc1 & St).
    pose proof (button_step_focus _ _ St) as Hfoc.
    pose proof Hc1 as (e1 & He1 & Hv1).
    eexists acc, s1, _, _, l.
    split; [exact H1|]. split; [exact Hl|].
    split.
    { rewrite Hrun, Hty, Hf. run_with H1.
      run_container Hc1.
      rewrite (bind_Done_intro _ _ _ _ _ (put_container_intro _ _ _ _ He1)).
      reflexivity. }
    split; [reflexivity|].
    split.
    { eexists. simpl. rewrite lookup_insert_eq. split; reflexivity. }
    simpl. rewrite Hfoc, Hf. reflexivity.
  - intros Hty. split;
      [|intros Hh; rewrite Hrun, Hty, Hh; reflexivity].
    intros h Hh.
    destruct (Htotal h) as (acc & s1 & l & H1 & Hl);
      [auto | rewrite Hty; reflexivity|].
    exists acc, s1, l. split; [exact H1|]. split; [exact Hl|].
    rewrite Hrun, Hty, Hh. exact H1.
  - intros Hty. split.
    + intros h Hh Hf.
      destruct (Htotal h) as (acc & s1 & l & H1 & Hl);
        [auto | destruct Hty as [-> | ->]; reflexivity|].
      exists acc, s1, l. split; [exact H1|]. split; [exact Hl|].
      rewrite Hrun.
      assert (E : ptr_eqb (left_button_element_ptr c)
                    (pointer_focus_element_ptr c) = true)
        by (apply ptr_eqb_true; congruence).
      destruct Hty as [-> | ->]; rewrite Hh in *; rewrite E; exact H1.
    + intros Hno. rewrite Hrun.
      destruct (left_button_element_ptr c) as [h|] eqn:Hh.
      * destruct Hno as [Hno|Hno]; [discriminate|].
        apply ptr_eqb_false in Hno.
        destruct Hty as [-> | ->]; rewrite Hno; reflexivity.
      * destruct Hty as [-> | ->]; reflexivity.
Qed.

(** ** Pointer grabs along the path to the root *)








Lemma pointer_grab_unfold n container_ptr element_ptr :
  wlmtk_container_pointer_grab (S n) container_ptr element_ptr
  = (let* e := get_element element_ptr in
     let* _ := BS_ASSERT
                 (ptr_eqb (Some container_ptr) (parent_container_ptr e)) in
     let* _ := BS_ASSERT (has_pointer_grab_cancel e) in
     let* c := get_container container_ptr in
     if ptr_eqb (pointer_grab_element_ptr c) (Some element_ptr) then ret tt
     else
       let* _ := _wlmtk_container_element_pointer_grab_cancel
                   (wlmtk_element_pointer_grab_cancel n) container_ptr in
       let* c := get_container container_ptr in
       let* _ := put_container container_ptr
                   (set_pointer_grab c (Some element_ptr)) in
       let* p := parent_of container_ptr in
       let* _ := match p with
                 | Some p => wlmtk_container_pointer_grab n p container_ptr
                 | None => ret tt
                 end in
       let* c := get_container container_ptr in
       match pointer_focus_element_ptr c with
       | Some f =>
         if bool_decide (f = element_ptr) then ret tt
         else
           let* _ := wlmtk_element_pointer_motion n f
                       (MotionEvent NAN NAN 0 None) in
           ret tt
       | None => ret tt
       end).
Proof. reflexivity. Qed.

Lemma grab_slots_put c child q :
  q ∈ slots (set_pointer_grab c (Some child)) -> q ∈ slots c \/ q = child.
Proof.
  rewrite !elem_of_slots. simpl. intros [H|[H|[H|H]]]; try tauto.
  right. congruence.
Qed.

(** The container's own cancel method, on a tree. *)
Lemma container_cancel_spec rank R n a c s :
  tree rank R s -> container_at s a c -> (R <= n)%nat ->
  exists s1 l,
    _wlmtk_container_element_pointer_grab_cancel
      (wlmtk_element_pointer_grab_cancel n) a s = Done (tt, s1) /\
    frame cancel_perm s s1 /\ calls s1 = calls s ++ l /\
    slot_of pointer_grab_element_ptr s1 a = None /\
    (forall g e, pointer_grab_element_ptr c = Some g ->
       heap s !! g = Some e -> has_pointer_grab_cancel e = true ->
       exists l', l = pointer_grab_cancel_call g :: l') /\
    (forall x, x <> a ->
       (forall g, pointer_grab_element_ptr c = Some g -> ~ below s g x) ->
       heap s1 !! x = heap s !! x).
Proof.
  intros Ht Hc Hn. pose proof Ht as (Hr & Ho & Hpr & Hb & Hpc).
  unfold _wlmtk_container_element_pointer_grab_cancel. run_container Hc.
  destruct (pointer_grab_element_ptr c) as [g|] eqn:Hg.
  - destruct (Hr a c Hc g (grab_in_refs _ _ Hg)) as [Hs Hlt].
    assert (HaR : (rank a <= R)%nat)
      by (apply Hb; eapply container_at_Some; exact Hc).
    destruct (cancel_spec rank n g s Hr Ho Hs ltac:(lia))
      as (s1 & l & Hrun & F1 & Hl & Hfirst & Hconf & _).
    run_with Hrun.
    destruct (frame_container _ _ _ _ _ F1 Hc) as (c1 & Hc1 & St).
    run_container Hc1.
    destruct (put_container_at s1 a c1 (set_pointer_grab c1 None) Hc1)
      as (s2 & Hp & Hc2 & Hcalls & Hoth & _ & Hfr).
    rewrite Hp. exists s2, l. split; [reflexivity|].
    split; [eapply frame_trans; [exact F1|];
            apply Hfr, step_set_pointer_grab_none|].
    split; [rewrite Hcalls; exact Hl|].
    split; [rewrite (slot_of_at _ _ _ _ Hc2); reflexivity|].
    split.
    + intros g' e Hg' He Hh. injection Hg' as <-. eauto.
    + intros x Hx Hnb. rewrite Hoth by exact Hx. apply Hconf.
      apply Hnb. reflexivity.
  - exists s, []. split; [reflexivity|]. split; [apply frame_refl|].
    split; [symmetry; apply app_nil_r|].
    split; [rewrite (slot_of_at _ _ _ _ Hc); exact Hg|].
    split; [intros g e Hg'; discriminate|]. reflexivity.
Qed.


Lemma grab_release_unfold n container_ptr element_ptr :
  wlmtk_container_pointer_grab_release (S n) container_ptr element_ptr
  = (let* e := get_element element_ptr in
     let* _ := BS_ASSERT
                 (ptr_eqb (Some container_ptr) (parent_container_ptr e)) in
     let* c := get_container container_ptr in
     if negb (ptr_eqb (pointer_grab_element_ptr c) (Some element_ptr))
     then ret tt
     else
       let* _ := put_container container_ptr (set_pointer_grab c None) in
       let* p := parent_of container_ptr in
       match p with
       | Some p => wlmtk_container_pointer_grab_release n p container_ptr
       | None => wlmtk_container_update_pointer_focus n container_ptr
       end).
Proof. reflexivity. Qed.





(** ** The pointer focus update under a grab *)

(** C5: a container that holds a pointer grab passes a motion at [(x, y)]
    straight to the grab holder, in the holder's own space (the holder's
    position subtracted).  That one delivery is all the update does: no child
    is hit-tested, no slot changes.  The call returns true whatever the
    holder's handler answers. *)
Theorem grab_routes_motion (rank : ptr -> nat) (n : nat) (s : state)
    (cp : ptr) (c : wlmtk_container_t) (g : ptr) (x y : coord) (t : Z)
    (p : option nat) :
  ranked rank s ->
  container_at s cp c ->
  (rank cp <= n)%nat ->
  pointer_grab_element_ptr c = Some g ->
  exists ge answer s',
    heap s !! g = Some ge /\
    wlmtk_element_pointer_motion n g
      (MotionEvent (coord_sub x (x_pos ge)) (coord_sub y (y_pos ge)) t p) s
    = Done (answer, s') /\
    update_pointer_focus_at (wlmtk_element_pointer_motion n)
      (wlmtk_element_get_pointer_area n) cp x y t p s
    = Done (true, s').
Proof.
  intros Hr Hc Hn Hg.
  destruct (ranked_slot rank s cp c g Hr Hc
              (or_intror (or_intror (or_introl Hg)))) as [[ge Hge] Hlt].
  destruct (motion_spec rank n g
              (MotionEvent (coord_sub x (x_pos ge)) (coord_sub y (y_pos ge))
                 t p) s Hr (ex_intro _ ge Hge) ltac:(lia)) as (s' & Hd & _).
  eexists ge, _, s'. split; [exact Hge|]. split; [exact Hd|].
  unfold update_pointer_focus_at. run_container Hc. rewrite Hg.
  run_element Hge. run_with Hd. reflexivity.
Qed.

(** ** Keyboard focus along the path to the root *)

Lemma set_keyboard_focus_none_spec rank R fuel : forall a s,
  tree rank R s -> (exists c, container_at s a c) ->
  (R + (R - rank a) < fuel)%nat ->
  exists s',
    wlmtk_container_set_keyboard_focus_element fuel a None s = Done (tt, s')
    /\ evolves blur_perm s s' /\
    slot_of keyboard_focus_element_ptr s' a = None /\
    (forall k, slot_of keyboard_focus_element_ptr s a = Some k ->
       (exists l, calls s' = calls s ++ keyboard_blur_call k :: l) /\
       forall p, parent_at s a = Some p ->
         slot_of keyboard_focus_element_ptr s' p = None).
Proof.
  induction fuel as [|n IH]; intros a s Ht [c Hc] Hf; [lia|].
  simpl. rewrite bind_ret. run_container Hc.
  rewrite (slot_of_at _ _ _ _ Hc).
  destruct (keyboard_focus_element_ptr c) as [k|] eqn:Hk.
  - replace (ptr_eqb (Some k) None) with false
      by (symmetry; apply ptr_eqb_false; discriminate).
    pose proof Ht as (Hr & Ho & Hpr & Hb & Hpc).
    destruct (Hr a c Hc k (kbd_in_refs _ _ Hk)) as [Hs Hlt].
    assert (Ha : (rank a <= R)%nat)
      by (apply Hb; eapply container_at_Some; exact Hc).
    destruct (blur_spec rank n k s Hr Ho Hs ltac:(lia))
      as (s1 & l & Hbl & F1 & Hl & _ & _).
    run_with Hbl.
    destruct (frame_container _ _ _ _ _ F1 Hc) as (c1 & Hc1 & St).
    run_container Hc1.
    destruct (put_container_at s1 a c1 (set_keyboard_focus c1 None) Hc1)
      as (s2 & Hp & Hc2 & Hcalls & Hoth & Hpar & Hfr).
    run_with Hp.
    assert (F2 : frame blur_perm s s2).
    { eapply frame_trans; [exact F1|].
      apply Hfr, step_set_keyboard_focus_none. }
    run_with (parent_of_intro s2 a (container_at_Some _ _ _ Hc2)).
    assert (Hpa : parent_at s2 a = parent_at s a)
      by (apply (parent_at_frame blur_perm); exact F2).
    rewrite Hpa.
    destruct (parent_at s a) as [p|] eqn:Hpp.
    + destruct (tree_fuel rank R s a p Ht Hpp) as (Hap & HpR & cp0 & Hcp).
      destruct (frame_container _ _ _ _ _ F2 Hcp) as (cp2 & Hcp2 & _).
      destruct (IH p s2 (tree_frame _ _ _ _ _ Ht F2) (ex_intro _ _ Hcp2)
                  ltac:(lia)) as (s3 & Hrun & [F3 E3] & Hslot & _).
      assert (E2 : extends s s2).
      { exists (keyboard_blur_call k :: l). rewrite Hcalls. exact Hl. }
      exists s3. split; [exact Hrun|].
      split; [split; [eapply frame_trans | eapply extends_trans];
              eassumption|].
      split.
      { eapply (frame_slot_cleared blur_perm); [apply blur_step_kbd|exact F3|].
        rewrite (slot_of_at _ _ _ _ Hc2). reflexivity. }
      intros k' Hk'. injection Hk' as <-. split.
      * destruct E3 as [l3 Hl3]. exists (l ++ l3).
        rewrite Hl3, Hcalls, Hl. rewrite <- app_assoc. reflexivity.
      * intros p' Hp'. injection Hp' as <-. exact Hslot.
    + exists s2. split; [reflexivity|].
      split; [split; [exact F2|];
              exists (keyboard_blur_call k :: l); rewrite Hcalls; exact Hl|].
      split; [rewrite (slot_of_at _ _ _ _ Hc2); reflexivity|].
      intros k' Hk'. injection Hk' as <-. split.
      * exists l. rewrite Hcalls. exact Hl.
      * intros p' Hp'. discriminate.
  - replace (ptr_eqb None None) with true
      by (symmetry; apply ptr_eqb_true; reflexivity).
    exists s. split; [reflexivity|]. split; [apply evolves_refl|].
    split; [rewrite (slot_of_at _ _ _ _ Hc); exact Hk|].
    intros k' Hk'. discriminate.
Qed.

Lemma set_keyboard_focus_unfold n container_ptr element_ptr :
  wlmtk_container_set_keyboard_focus_element (S n) container_ptr element_ptr
  = (let* _ := match element_ptr with
               | Some el =>
                 let* e := get_element el in
                 BS_ASSERT
                   (ptr_eqb (parent_container_ptr e) (Some container_ptr))
               | None => ret tt
               end in
     let* c := get_container container_ptr in
     if ptr_eqb (keyboard_focus_element_ptr c) element_ptr then ret tt
     else
       let* _ := match keyboard_focus_element_ptr c with
                 | Some k => wlmtk_element_keyboard_blur n k
                 | None => ret tt
                 end in
       let* c := get_container container_ptr in
       let* _ := put_container container_ptr
                   (set_keyboard_focus c element_ptr) in
       let* p := parent_of container_ptr in
       match p with
       | Some p =>
         wlmtk_container_set_keyboard_focus_element n p
           (match element_ptr with
            | Some _ => Some container_ptr
            | None => None
            end)
       | None => ret tt
       end).
Proof. reflexivity. Qed.

Lemma kbd_slots_put c child q :
  q ∈ slots (set_keyboard_focus c (Some child)) -> q ∈ slots c \/ q = child.
Proof.
  rewrite !elem_of_slots. simpl. intros [H|[H|[H|H]]]; try tauto.
  right. congruence.
Qed.

Lemma set_keyboard_focus_some_spec rank R fuel : forall a child s,
  tree rank R s -> parent_at s child = Some a ->
  (R + (R - rank a) < fuel)%nat ->
  exists s',
    wlmtk_container_set_keyboard_focus_element fuel a (Some child) s
    = Done (tt, s') /\
    tree rank R s' /\
    (forall x, parent_at s' x = parent_at s x) /\
    slot_of keyboard_focus_element_ptr s' a = Some child /\
    (forall x, below s child x -> heap s' !! x = heap s !! x) /\
    (slot_of keyboard_focus_element_ptr s a <> Some child ->
     forall p, parent_at s a = Some p ->
       slot_of keyboard_focus_element_ptr s' p = Some a).
Proof.
  induction fuel as [|n IH]; intros a child s Ht Hch Hf; [lia|].
  destruct (tree_fuel rank R s child a Ht Hch) as (Hca & HaR & c & Hc).
  destruct (parent_at_Some _ _ _ Hch) as [ce Hce].
  rewrite set_keyboard_focus_unfold. unfold bind at 1. run_element Hce.
  assert (Hassert : ptr_eqb (parent_container_ptr ce) (Some a) = true).
  { apply ptr_eqb_true. unfold parent_at in Hch. rewrite Hce in Hch.
    exact Hch. }
  rewrite Hassert. simpl. run_container Hc.
  rewrite (slot_of_at _ _ _ _ Hc).
  destruct (ptr_eqb (keyboard_focus_element_ptr c) (Some child)) eqn:Heq.
  { apply ptr_eqb_true in Heq. exists s. split; [reflexivity|].
    split; [exact Ht|]. split; [reflexivity|].
    split; [rewrite (slot_of_at _ _ _ _ Hc); exact Heq|].
    split; [reflexivity|]. intros Hne. contradiction. }
  apply ptr_eqb_false in Heq.
  pose proof Ht as (Hr & Ho & Hpr & Hb & Hpc).
  assert (Hblur : exists s1,
    (match keyboard_focus_element_ptr c with
     | Some k => wlmtk_element_keyboard_blur n k
     | None => ret tt
     end) s = Done (tt, s1) /\ frame blur_perm s s1 /\
    (forall x, below s child x -> heap s1 !! x = heap s !! x)).
  { destruct (keyboard_focus_element_ptr c) as [k|] eqn:Hk.
    - destruct (Hr a c Hc k (kbd_in_refs _ _ Hk)) as [Hs Hlt].
      destruct (blur_spec rank n k s Hr Ho Hs ltac:(lia))
        as (s1 & l & Hbl & F1 & _ & Hconf & _).
      exists s1. split; [exact Hbl|]. split; [exact F1|].
      intros x Hx. apply Hconf. intros Hkx.
      apply (below_siblings rank s a k child x Hpr
               (Ho a c k Hc (kbd_in_refs _ _ Hk)) Hch); [congruence|..];
        assumption.
    - exists s. split; [reflexivity|]. split; [apply frame_refl|].
      reflexivity. }
  destruct Hblur as (s1 & Hbl & F1 & Hkeep1).
  run_with Hbl.
  destruct (frame_container _ _ _ _ _ F1 Hc) as (c1 & Hc1 & St).
  run_container Hc1.
  destruct (put_container_at s1 a c1 (set_keyboard_focus c1 (Some child)) Hc1)
    as (s2 & Hp & Hc2 & Hcalls & Hoth & Hpar & _).
  run_with Hp.
  pose proof (tree_frame _ _ _ _ _ Ht F1) as Ht1.
  assert (Hpar1 : forall x, parent_at s1 x = parent_at s x)
    by (intros x; apply (parent_at_frame blur_perm); exact F1).
  assert (Hch1 : parent_at s1 child = Some a) by (rewrite Hpar1; exact Hch).
  assert (Ht2 : tree rank R s2).
  { apply (tree_put rank R s1 s2 a c1 (set_keyboard_focus c1 (Some child))
             child Ht1 Hc1 Hch1); try assumption; [reflexivity|].
    apply kbd_slots_put. }
  assert (Hpar2 : forall x, parent_at s2 x = parent_at s x)
    by (intros x; rewrite Hpar; apply Hpar1).
  assert (Hkeep2 : forall x, below s child x -> heap s2 !! x = heap s !! x).
  { intros x Hx. rewrite Hoth; [apply Hkeep1; exact Hx|].
    intros ->. exact (not_below_parent rank s a child Hpr Hch Hx). }
  run_with (parent_of_intro s2 a (container_at_Some _ _ _ Hc2)).
  rewrite Hpar2.
  destruct (parent_at s a) as [p|] eqn:Hpp.
  - destruct (tree_fuel rank R s a p Ht Hpp) as (Hap & HpR & _).
    assert (Hpp2 : parent_at s2 a = Some p) by (rewrite Hpar2; exact Hpp).
    destruct (IH p a s2 Ht2 Hpp2 ltac:(lia))
      as (s3 & Hrun & Ht3 & Hpar3 & Hslot & Hkeep3 & _).
    exists s3. split; [exact Hrun|]. split; [exact Ht3|].
    split; [intros x; rewrite Hpar3; apply Hpar2|].
    split.
    { unfold slot_of, container_of.
      rewrite (Hkeep3 a (below_self s2 a)).
      fold (container_of s2 a). fold (slot_of keyboard_focus_element_ptr s2 a).
      rewrite (slot_of_at _ _ _ _ Hc2). reflexivity. }
    split.
    { intros x Hx. rewrite Hkeep3; [apply Hkeep2; exact Hx|].
      apply (below_parent_eq s s2 a x Hpar2).
      eapply below_trans; [|exact Hx].
      econstructor; [exact Hch | constructor]. }
    intros _ p' Hp'. injection Hp' as <-. exact Hslot.
  - exists s2. split; [reflexivity|]. split; [exact Ht2|].
    split; [exact Hpar2|].
    split; [rewrite (slot_of_at _ _ _ _ Hc2); reflexivity|].
    split; [exact Hkeep2|]. intros _ p' Hp'. discriminate.
Qed.

(** Setting the keyboard focus to the element the container records
    already returns at once (line 368): the state is kept, and nothing is
    told to the parent. *)
Lemma set_keyboard_focus_recorded n s a c k e :
  container_at s a c -> heap s !! k = Some e ->
  parent_container_ptr e = Some a ->
  keyboard_focus_element_ptr c = Some k ->
  wlmtk_container_set_keyboard_focus_element (S n) a (Some k) s
  = Done (tt, s).
Proof.
  intros Hc He Hpar Hk.
  rewrite set_keyboard_focus_unfold. unfold bind at 1. run_element He.
  replace (ptr_eqb (parent_container_ptr e) (Some a)) with true
    by (symmetry; apply ptr_eqb_true; exact Hpar).
  simpl. run_container Hc.
  replace (ptr_eqb (keyboard_focus_element_ptr c) (Some k)) with true
    by (symmetry; apply ptr_eqb_true; exact Hk).
  reflexivity.
Qed.

(** C6, as the code has it: with containers C1 holding C2 holding L, in a
    well-formed tree where C2 does not record L as its keyboard-focus holder
    yet, setting the keyboard focus to L at C2 records L in C2 and goes up
    with C2's own identity, so that C1 records C2.  Clearing the keyboard
    focus at C2 afterwards blurs L, clears the slot of C2 and goes up as a
    clear: the slot of C1 is cleared as well. *)
Theorem keyboard_focus_set_then_clear (rank : ptr -> nat) (R fuel : nat)
    (s : state) (C1 C2 L : ptr) :
  tree rank R s ->
  parent_at s C2 = Some C1 ->
  parent_at s L = Some C2 ->
  slot_of keyboard_focus_element_ptr s C2 <> Some L ->
  (2 * R < fuel)%nat ->
  exists s1,
    wlmtk_container_set_keyboard_focus_element fuel C2 (Some L) s
    = Done (tt, s1) /\
    slot_of keyboard_focus_element_ptr s1 C2 = Some L /\
    slot_of keyboard_focus_element_ptr s1 C1 = Some C2 /\
    exists s2 l,
      wlmtk_container_set_keyboard_focus_element fuel C2 None s1
      = Done (tt, s2) /\
      calls s2 = calls s1 ++ keyboard_blur_call L :: l /\
      slot_of keyboard_focus_element_ptr s2 C2 = None /\
      slot_of keyboard_focus_element_ptr s2 C1 = None.
Proof.
  intros Ht H21 HL2 Hne Hfuel.
  destruct (set_keyboard_focus_some_spec rank R fuel C2 L s Ht HL2
              ltac:(lia)) as (s1 & Hrun & Ht1 & Hpar & Hslot & _ & Hup).
  exists s1. split; [exact Hrun|]. split; [exact Hslot|].
  split; [exact (Hup Hne C1 H21)|].
  assert (Hc : exists c, container_at s1 C2 c).
  { unfold slot_of in Hslot.
    destruct (container_of s1 C2) as [c|] eqn:Hc; [|discriminate].
    exists c. apply container_of_at. exact Hc. }
  destruct (set_keyboard_focus_none_spec rank R fuel C2 s1 Ht1 Hc
              ltac:(lia)) as (s2 & Hrun2 & _ & Hslot2 & Hblur).
  destruct (Hblur L Hslot) as [[l Hl] Hp].
  exists s2, l. split; [exact Hrun2|]. split; [exact Hl|].
  split; [exact Hslot2|]. apply Hp. rewrite Hpar. exact H21.
Qed.

(** ** Aggregated dimensions and pointer area *)

Section AggregationSpec.
Variable child_box : gmap nat wlmtk_element_t -> ptr -> outcome box.
Variable h : gmap nat wlmtk_element_t.

Lemma aggregate_visible_boxes els acc :
  children_answer child_box h els ->
  aggregate child_box h els acc
  = Done (foldl box_union acc (visible_boxes child_box h els)).
Proof.
  intros Hans. revert acc.
  induction Hans as [|q els (e & He & Hb) _ IH]; intros acc; simpl;
    [reflexivity|].
  unfold visible_boxes in *. simpl. rewrite He.
  destruct (visible e); simpl; [|apply IH].
  destruct (Hb eq_refl) as [b ->]. simpl. rewrite IH. reflexivity.
Qed.

Lemma foldl_union_start b bs :
  int32_box b ->
  foldl box_union (Box INT32_MAX INT32_MAX INT32_MIN INT32_MIN) (b :: bs)
  = foldl box_union b bs.
Proof.
  intros (L & T & R & B). simpl. f_equal.
  unfold box_union. simpl. destruct b as [l t r bo]; simpl in *.
  f_equal; lia.
Qed.

Lemma normalise_zero_degenerate b :
  normalise b = zero_degenerate_axes b.
Proof.
  unfold normalise, zero_degenerate_axes.
  destruct (Z.geb_spec (left b) (right b));
    destruct (decide (left b >= right b)); try lia;
    destruct (Z.geb_spec (top b) (bottom b));
    destruct (decide (top b >= bottom b)); try lia; reflexivity.
Qed.

Lemma container_box_bounding c :
  children_answer child_box h (elements c) ->
  Forall int32_box (visible_boxes child_box h (elements c)) ->
  container_box child_box h c
  = Done (bounding_box (visible_boxes child_box h (elements c))).
Proof.
  intros Hans Hint. unfold container_box.
  rewrite (aggregate_visible_boxes _ _ Hans).
  destruct (visible_boxes child_box h (elements c)) as [|b bs] eqn:Hvb.
  - reflexivity.
  - rewrite foldl_union_start by (inversion Hint; assumption).
    simpl. rewrite normalise_zero_degenerate. reflexivity.
Qed.
End AggregationSpec.

(** C8: the dimensions and the pointer area of a container are each the
    union of the corresponding boxes of its visible children, every box
    translated by the position of its child; invisible children add nothing.
    With no visible child the result is the zero box, and an axis on which
    the union is degenerate (left >= right, or top >= bottom) is set to the
    zero interval, the other axis being left as it is. *)
Theorem container_boxes_are_unions (n : nat) (h : gmap nat wlmtk_element_t)
    (c : wlmtk_container_t) :
  children_answer (wlmtk_element_get_dimensions n) h (elements c) ->
  children_answer (wlmtk_element_get_pointer_area n) h (elements c) ->
  Forall int32_box
    (visible_boxes (wlmtk_element_get_dimensions n) h (elements c)) ->
  Forall int32_box
    (visible_boxes (wlmtk_element_get_pointer_area n) h (elements c)) ->
  _wlmtk_container_element_get_dimensions (wlmtk_element_get_dimensions n) h c
  = Done (bounding_box
            (visible_boxes (wlmtk_element_get_dimensions n) h (elements c)))
  /\
  _wlmtk_container_element_get_pointer_area
    (wlmtk_element_get_pointer_area n) h c
  = Done (bounding_box
            (visible_boxes (wlmtk_element_get_pointer_area n) h
               (elements c))).
Proof.
  intros Hd Ha Hdi Hai. split.
  - apply container_box_bounding; assumption.
  - apply container_box_bounding; assumption.
Qed.

(** ** A settled element takes a motion quietly *)

Lemma leave_same o t p : leave o o t p = [].
Proof.
  unfold leave. destruct o as [f|]; [|reflexivity].
  rewrite bool_decide_eq_true_2 by reflexivity. reflexivity.
Qed.

Lemma owned_of_tree rank R s : tree rank R s -> owned s.
Proof. intros (_ & Ho & _). exact Ho. Qed.

Lemma ranked_of_tree rank R s : tree rank R s -> ranked rank s.
Proof. intros (Hr & _). exact Hr. Qed.

Section UpdateQuiet.
Variable rank : ptr -> nat.
Variables R n : nat.
Hypothesis motion_quiet : forall q ev s,
  tree rank R s -> is_Some (heap s !! q) -> (rank q < n)%nat ->
  is_sentinel ev = false -> settled n (heap s) q ev ->
  exists b s',
    wlmtk_element_pointer_motion n q ev s = Done (b, s') /\
    frame event_perm s s' /\ quiet s s'.

Lemma update_quiet s cp c x y t p :
  tree rank R s -> container_at s cp c -> (rank cp <= n)%nat ->
  pointer_grab_element_ptr c = None ->
  pointer_focus_element_ptr c
  = (plan (accepts n) (wlmtk_element_get_pointer_area n) (heap s) x y t p
       (elements c)).2 ->
  Forall (fun qe => settled n (heap s) qe.1 qe.2)
    (plan (accepts n) (wlmtk_element_get_pointer_area n) (heap s) x y t p
       (elements c)).1 ->
  exists s',
    update_pointer_focus_at (wlmtk_element_pointer_motion n)
      (wlmtk_element_get_pointer_area n) cp x y t p s
    = Done (bool_decide
              (is_Some (plan (accepts n) (wlmtk_element_get_pointer_area n)
                          (heap s) x y t p (elements c)).2), s') /\
    frame event_perm s s' /\ quiet s s'.
Proof.
  intros Ht Hc Hn Hg Hfoc Hall.
  pose proof Ht as (Hr & Ho & _).
  destruct (update_no_grab_run rank n s cp c x y t p Hr Hc Hn Hg)
    as (s1 & Hd & Hrun & _ & _).
  rewrite Hfoc, leave_same, app_nil_r in Hd.
  set (P := fun s0 : state =>
         tree rank R s0 /\ frame event_perm s s0 /\ quiet s s0).
  assert (HP1 : P s1).
  { refine (deliveries_fold (wlmtk_element_pointer_motion n) P
              (fun q e => is_Some (heap s !! q) /\ (rank q < n)%nat /\
                          is_sentinel e = false /\ settled n (heap s) q e)
              _ s s1 _ _ _ Hd).
    - intros q e s0 a s0' (Ht0 & F0 & Q0) ([eq Heq] & Hq & Hreal & Hset) Hd0.
      destruct (frame_lookup _ _ _ _ _ F0 Heq) as (eq' & Heq' & _).
      destruct (motion_quiet q e s0 Ht0 (ex_intro _ _ Heq') Hq Hreal
                  (settled_similar s s0 n q e Ho
                     (similar_below_frame s s0 q F0) Hset))
        as (b' & s'' & Hrun' & F' & Q').
      rewrite Hrun' in Hd0. injection Hd0 as _ <-.
      split; [eapply tree_frame; eassumption|].
      split; [eapply frame_trans | eapply quiet_trans]; eassumption.
    - rewrite Forall_forall in *. intros [q e] Hin. simpl.
      destruct (plan_targets _ _ _ _ _ _ _ _ _ _ Hin) as (Hq & Hcand & ->).
      destruct (ranked_element rank s cp c q Hr Hc Hq) as [Hs Hlt].
      split; [exact Hs|]. split; [lia|].
      split; [exact (candidate_offer_real _ _ _ _ _ _ _ Hcand)|].
      exact (Hall _ Hin).
    - split; [exact Ht|]. split; [apply frame_refl | apply quiet_refl]. }
  destruct HP1 as (_ & F1 & Q1).
  exists s1. split; [|split; assumption].
  rewrite Hrun. do 2 f_equal.
  pose proof (with_pointer_focus_id s1 cp c
                (frame_event_container _ _ _ _ F1 Hc)) as Hid.
  rewrite Hfoc in Hid. exact Hid.
Qed.
End UpdateQuiet.

Lemma settled_quiet rank R fuel : forall q ev s,
  tree rank R s -> is_Some (heap s !! q) -> (rank q < fuel)%nat ->
  is_sentinel ev = false -> settled fuel (heap s) q ev ->
  exists b s',
    wlmtk_element_pointer_motion fuel q ev s = Done (b, s') /\
    frame event_perm s s' /\ quiet s s'.
Proof.
  induction fuel as [|n IH]; intros el ev s Ht [e He] Hlt Hreal Hset; [lia|].
  pose proof Ht as (Hr & Ho & Hpr & Hb & Hpc).
  pose proof (with_motion_event_frame el e ev s He) as Fb.
  pose proof (tree_frame _ _ _ _ _ Ht Fb) as Htb.
  pose proof (quiet_with_motion_event el e ev s Hreal) as Qb.
  apply (settled_similar s (with_motion_event el e ev s) (S n) el ev Ho
           (similar_below_frame _ _ _ Fb)) in Hset.
  destruct (vmt e) as [l|c] eqn:Hv.
  - rewrite (motion_leaf n el ev s e l He Hv). eauto.
  - rewrite (motion_container n el ev s e c He Hv).
    pose proof (with_motion_event_container el e ev s c He Hv) as Hcb.
    set (sb := with_motion_event el e ev s) in *. clearbody sb.
    simpl in Hset. destruct Hcb as (eb & Heb & Hvb).
    rewrite Heb, Hvb in Hset.
    assert (Hcb : container_at sb el c) by (exists eb; eauto).
    destruct (pointer_grab_element_ptr c) as [g|] eqn:Hg.
    + pose proof Htb as (Hrb & _).
      destruct (Hrb el c Hcb g (grab_in_refs _ _ Hg)) as [[ge Hge] Hgl].
      rewrite Hge in Hset.
      rewrite (update_grab_run _ _ sb el c g ge _ _ _ _ Hcb Hg Hge).
      destruct (IH g _ sb Htb (ex_intro _ _ Hge) ltac:(lia)
                  ltac:(rewrite is_sentinel_local; exact Hreal) Hset)
        as (b & s' & Hrun & F & Q).
      run_with Hrun. eexists _, s'. split; [reflexivity|].
      split; [eapply frame_trans | eapply quiet_trans]; eassumption.
    + destruct Hset as [Hfoc Hall].
      destruct (update_quiet rank R n IH sb el c (ev_x ev) (ev_y ev)
                  (ev_time_msec ev) (ev_pointer_ptr ev) Htb Hcb ltac:(lia)
                  Hg Hfoc Hall) as (s' & Hrun & F & Q).
      eexists _, s'. split; [exact Hrun|].
      split; [eapply frame_trans | eapply quiet_trans]; eassumption.
Qed.

(** ** A motion leaves the element settled *)

Lemma deliveries_frame n D s s1 :
  deliveries (wlmtk_element_pointer_motion n) D s = Done (tt, s1) ->
  frame motion_perm s s1.
Proof.
  intros H.
  refine (deliveries_fold (wlmtk_element_pointer_motion n)
            (fun s0 => frame motion_perm s s0) (fun _ _ => True)
            D s s1 _ _ _ H).
  - intros q ev s0 a s0' F _ Hd.
    eapply frame_trans; [exact F|]. apply (motion_evolves _ _ _ _ _ _ Hd).
  - apply Forall_forall. intros; exact I.
  - apply frame_refl.
Qed.

(** Deliveries to siblings, and sentinels to an element that rejected the
    motion, leave a settled element settled. *)
Lemma deliveries_keep rank R n a q ev D s s1 :
  tree rank R s -> parent_at s q = Some a ->
  settled n (heap s) q ev ->
  Forall (fun qe =>
            parent_at s qe.1 = Some a /\ (rank qe.1 < n)%nat /\
            (qe.1 <> q \/
             (ev_x qe.2 = NAN /\ accepts n (heap s) q ev = false))) D ->
  deliveries (wlmtk_element_pointer_motion n) D s = Done (tt, s1) ->
  settled n (heap s1) q ev.
Proof.
  intros Ht Hpq Hset Hall Hd.
  set (P := fun s0 : state =>
         tree rank R s0 /\ frame motion_perm s s0 /\
         settled n (heap s0) q ev).
  assert (HP : P s1); [|exact (proj2 (proj2 HP))].
  refine (deliveries_fold (wlmtk_element_pointer_motion n) P
            (fun q' ev' =>
               parent_at s q' = Some a /\ (rank q' < n)%nat /\
               (q' <> q \/
                (ev_x ev' = NAN /\ accepts n (heap s) q ev = false)))
            D s s1 _ Hall _ Hd).
  - intros q' ev' s0 b s0' (Ht0 & F0 & S0) (Hp' & Hr' & Hcase) Hrun.
    pose proof (proj1 (motion_evolves _ _ _ _ _ _ Hrun)) as F1.
    pose proof Ht0 as (Hr0 & Ho0 & Hpr0 & _).
    split; [eapply tree_frame; eassumption|].
    split; [eapply frame_trans; eassumption|].
    destruct Hcase as [Hne | [Hnan Hrej]].
    + apply (settled_similar s0 s0' n q ev Ho0); [|exact S0].
      apply similar_below_eq. intros x Hx.
      apply (motion_confined rank R n q' ev' s0 b s0' Ht0 Hr' Hrun).
      intros Hx'.
      apply (below_siblings rank s0 a q' q x Hpr0); try assumption;
        rewrite (parent_at_frame _ _ _ _ F0); assumption.
    + destruct (decide (q' = q)) as [-> | Hne].
      * destruct (motion_Done_lookup _ _ _ _ _ Hrun) as (m & e & _ & He).
        destruct (sentinel_idle rank n q ev ev' s0 Hr0 (ex_intro _ _ He) Hr'
                    S0 ltac:(rewrite (accepts_frame motion_perm s s0)
                               by (reflexivity || exact F0); exact Hrej)
                    Hnan) as (b' & s'' & Hrun' & Fe).
        rewrite Hrun' in Hrun. injection Hrun as _ <-.
        apply (settled_similar s0 s'' n q ev Ho0); [|exact S0].
        apply similar_below_frame. exact Fe.
      * apply (settled_similar s0 s0' n q ev Ho0); [|exact S0].
        apply similar_below_eq. intros x Hx.
        apply (motion_confined rank R n q' ev' s0 b s0' Ht0 Hr' Hrun).
        intros Hx'.
        apply (below_siblings rank s0 a q' q x Hpr0); try assumption;
          rewrite (parent_at_frame _ _ _ _ F0); assumption.
  - split; [exact Ht|]. split; [apply frame_refl | exact Hset].
Qed.

Section UpdateSettles.
Variable rank : ptr -> nat.
Variables R n : nat.
Hypothesis motion_settles_n : forall q ev s b s',
  tree rank R s -> distinct s -> (rank q < n)%nat ->
  wlmtk_element_pointer_motion n q ev s = Done (b, s') ->
  settled n (heap s') q ev.

Lemma deliveries_settle a D1 D2 s s1 :
  tree rank R s -> distinct s -> NoDup D1.*1 ->
  Forall (fun qe => parent_at s qe.1 = Some a /\ (rank qe.1 < n)%nat)
    (D1 ++ D2) ->
  (forall q ev q' ev', (q, ev) ∈ D1 -> (q', ev') ∈ D2 ->
     q' <> q \/ (ev_x ev' = NAN /\ accepts n (heap s) q ev = false)) ->
  deliveries (wlmtk_element_pointer_motion n) (D1 ++ D2) s = Done (tt, s1) ->
  Forall (fun qe => settled n (heap s1) qe.1 qe.2) D1.
Proof.
  intros Ht Hdis Hnd Hch Hharm Hd.
  apply Forall_forall. intros [q ev] Hin. simpl.
  rewrite Forall_forall in Hch.
  destruct (Hch _ ltac:(apply elem_of_app; left; exact Hin)) as [Hpq Hrq].
  simpl in Hpq, Hrq.
  destruct (list_elem_of_split _ _ Hin) as (pre & post & ->).
  rewrite <- app_assoc in Hd. rewrite deliveries_app in Hd.
  step Hd as u sa Hpre. destruct u.
  simpl in Hd. step Hd as b sb Hrun.
  pose proof (deliveries_frame _ _ _ _ Hpre) as Fa.
  pose proof (proj1 (motion_evolves _ _ _ _ _ _ Hrun)) as Fb.
  pose proof (frame_trans _ _ _ _ Fa Fb) as Fab.
  pose proof (tree_frame _ _ _ _ _ Ht Fa) as Hta.
  apply (deliveries_keep rank R n a q ev (post ++ D2) sb s1).
  - eapply tree_frame; eassumption.
  - rewrite (parent_at_frame _ _ _ _ Fab). exact Hpq.
  - apply (motion_settles_n q ev sa b sb Hta); try assumption.
    eapply distinct_frame; eassumption.
  - apply Forall_forall. intros [q' ev'] Hin'. simpl.
    destruct (Hch (q', ev')) as [Hp' Hr'].
    { rewrite <- app_assoc. apply elem_of_app. right.
      right. exact Hin'. }
    simpl in Hp', Hr'.
    split; [rewrite (parent_at_frame _ _ _ _ Fab); exact Hp'|].
    split; [exact Hr'|].
    apply elem_of_app in Hin' as [Hpost | H2].
    + left. intros ->.
      rewrite fmap_app, fmap_cons in Hnd. simpl in Hnd.
      apply NoDup_app in Hnd as (_ & _ & Hnd).
      apply NoDup_cons in Hnd as [Hnot _]. apply Hnot.
      apply list_elem_of_fmap. exists (q, ev'). split; [reflexivity|].
      exact Hpost.
    + rewrite (accepts_frame motion_perm s sb) by (reflexivity || exact Fab).
      apply (Hharm q ev q' ev'); [exact Hin | exact H2].
  - exact Hd.
Qed.

Lemma update_settles s cp c x y t p b s' :
  tree rank R s -> distinct s -> container_at s cp c ->
  (rank cp <= n)%nat -> pointer_grab_element_ptr c = None ->
  update_pointer_focus_at (wlmtk_element_pointer_motion n)
    (wlmtk_element_get_pointer_area n) cp x y t p s = Done (b, s') ->
  container_at s' cp
    (set_pointer_focus c
       (plan (accepts n) (wlmtk_element_get_pointer_area n) (heap s) x y t p
          (elements c)).2) /\
  plan (accepts n) (wlmtk_element_get_pointer_area n) (heap s') x y t p
    (elements c)
  = plan (accepts n) (wlmtk_element_get_pointer_area n) (heap s) x y t p
      (elements c) /\
  Forall (fun qe => settled n (heap s') qe.1 qe.2)
    (plan (accepts n) (wlmtk_element_get_pointer_area n) (heap s) x y t p
       (elements c)).1.
Proof.
  intros Ht Hdis Hc Hn Hg Hup.
  pose proof Ht as (Hr & Ho & Hpr & _).
  pose proof (proj1 (update_pointer_focus_at_evolves
                       (wlmtk_element_pointer_motion n)
                       (wlmtk_element_get_pointer_area n)
                       (motion_evolves n) _ _ _ _ _ _ _ _ Hup)) as F.
  destruct (update_no_grab_run rank n s cp c x y t p Hr Hc Hn Hg)
    as (s1 & Hd & Hrun & Hunt & [F1 _]).
  rewrite Hrun in Hup. injection Hup as _ <-.
  set (pl := plan (accepts n) (wlmtk_element_get_pointer_area n) (heap s)
               x y t p (elements c)) in *.
  assert (Hc1 : container_at s1 cp c).
  { destruct Hc as (e & He & Hv). exists e. split; [|exact Hv].
    rewrite (Hunt cp) by lia. exact He. }
  split; [apply with_pointer_focus_container; exact Hc1|].
  split.
  { apply (plan_frame _ _ _ _ motion_perm s _ F).
    - intros q ev. apply (accepts_frame motion_perm); [reflexivity | exact F].
    - intros q. apply (area_frame motion_perm). exact F. }
  assert (Hkids : forall q, q ∈ refs c ->
            parent_at s q = Some cp /\ (rank q < n)%nat).
  { intros q Hq. split; [exact (Ho cp c q Hc Hq)|].
    destruct (Hr cp c Hc q Hq) as [_ Hlt]. lia. }
  assert (Hs1 : Forall (fun qe => settled n (heap s1) qe.1 qe.2) pl.1).
  { apply (deliveries_settle cp pl.1
             (leave (pointer_focus_element_ptr c) pl.2 t p) s s1 Ht Hdis).
    - apply plan_targets_NoDup. exact (Hdis cp c Hc).
    - apply Forall_forall. intros [q ev] Hin. simpl.
      apply Hkids. apply elem_of_app in Hin as [Hin | Hin].
      + apply elem_of_refs. left.
        exact (proj1 (plan_targets _ _ _ _ _ _ _ _ _ _ Hin)).
      + apply focus_in_refs.
        exact (proj1 (leave_target _ _ _ _ _ _ Hin)).
    - intros q ev q' ev' Hin Hin'.
      destruct (leave_target _ _ _ _ _ _ Hin') as (_ & Hnw & ->).
      destruct (decide (q' = q)) as [-> | Hne]; [right | left; exact Hne].
      split; [reflexivity|].
      exact (plan_rejected _ _ _ _ _ _ _ _ _ _ Hin Hnw).
    - exact Hd. }
  rewrite Forall_forall in *. intros [q ev] Hin. simpl.
  pose proof (tree_frame _ _ _ _ _ Ht F1) as (_ & Ho1 & Hpr1 & _).
  apply (settled_similar s1 _ n q ev Ho1); [|exact (Hs1 _ Hin)].
  apply similar_below_eq. intros k Hk.
  apply with_pointer_focus_other. intros ->.
  pose proof (below_rank rank s1 q cp Hpr1 Hk) as Hle.
  destruct (Hkids q) as [Hpq _].
  { apply elem_of_refs. left.
    exact (proj1 (plan_targets _ _ _ _ _ _ _ _ _ _ Hin)). }
  pose proof (Hpr q cp Hpq). lia.
Qed.
End UpdateSettles.

Lemma motion_settles rank R fuel : forall q ev s b s',
  tree rank R s -> distinct s -> (rank q < fuel)%nat ->
  wlmtk_element_pointer_motion fuel q ev s = Done (b, s') ->
  settled fuel (heap s') q ev.
Proof.
  induction fuel as [|n IH]; intros el ev s b s' Ht Hdis Hlt H; [lia|].
  destruct (motion_Done_lookup _ _ _ _ _ H) as (m & e & _ & He).
  pose proof (with_motion_event_frame el e ev s He) as Fb.
  pose proof (tree_frame _ _ _ _ _ Ht Fb) as Htb.
  pose proof (distinct_frame _ _ _ Hdis Fb) as Hdb.
  destruct (vmt e) as [l|c] eqn:Hv.
  - rewrite (motion_leaf n el ev s e l He Hv) in H. injection H as _ <-.
    simpl. rewrite lookup_insert_eq. simpl. rewrite Hv. exact I.
  - rewrite (motion_container n el ev s e c He Hv) in H.
    pose proof (with_motion_event_container el e ev s c He Hv) as Hcb.
    set (sb := with_motion_event el e ev s) in *. clearbody sb.
    pose proof Htb as (Hrb & Hob & Hprb & _).
    destruct (pointer_grab_element_ptr c) as [g|] eqn:Hg.
    + destruct (Hrb el c Hcb g (grab_in_refs _ _ Hg)) as [[ge Hge] Hgl].
      rewrite (update_grab_run _ _ sb el c g ge _ _ _ _ Hcb Hg Hge) in H.
      step H as b' s2 Hrun. inv_step H.
      pose proof (IH g _ sb b' _ Htb Hdb ltac:(lia) Hrun) as Hset.
      pose proof (proj1 (motion_evolves _ _ _ _ _ _ Hrun)) as F.
      pose proof (motion_confined rank R n g _ sb b' _ Htb ltac:(lia) Hrun
                    el) as Hel.
      assert (Hnb : ~ below sb g el).
      {
        apply (not_below_parent rank sb el g Hprb).
        exact (Hob el c g Hcb (grab_in_refs _ _ Hg)). }
      specialize (Hel Hnb).
      destruct Hcb as (eb & Heb & Hvb).
      destruct (frame_lookup _ _ _ _ _ F Hge) as (ge' & Hge' & St).
      simpl. rewrite Hel, Heb, Hvb, Hg, Hge'.
      destruct St as (X & Y & _).
      unfold local_event in *. rewrite X, Y. exact Hset.
    + destruct (update_settles rank R n IH sb el c _ _ _ _ b s' Htb Hdb Hcb
                  ltac:(lia) Hg H) as ((e' & He' & Hv') & Hpl & Hall).
      simpl. rewrite He', Hv'. simpl. rewrite Hg, Hpl.
      split; [reflexivity | exact Hall].
Qed.

(** C9. Repeating the pointer-focus update. In a well-formed tree whose
    containers list no child twice, with no grab held by the container and
    nothing done to the tree in between, two successive calls of the
    pointer-focus update at the same position both return, with the same
    answer; the container has the same pointer-focus holder after each; the
    second call changes nothing in the tree but the motion events cached in
    the elements (so every nested container keeps its holder too) and
    delivers no sentinel motion to any element. *)
Theorem pointer_focus_update_idempotent rank R n s cp c x y t p :
  tree rank R s -> distinct s -> container_at s cp c -> (R <= n)%nat ->
  pointer_grab_element_ptr c = None ->
  exists b s1 s2 c1,
    update_pointer_focus_at (wlmtk_element_pointer_motion n)
      (wlmtk_element_get_pointer_area n) cp x y t p s = Done (b, s1) /\
    update_pointer_focus_at (wlmtk_element_pointer_motion n)
      (wlmtk_element_get_pointer_area n) cp x y t p s1 = Done (b, s2) /\
    container_at s1 cp c1 /\ container_at s2 cp c1 /\
    frame event_perm s1 s2 /\ quiet s1 s2.
Proof.
  intros Ht Hdis Hc Hn Hg.
  pose proof Ht as (Hr & _ & _ & Hb & _).
  assert (Hcp : (rank cp <= n)%nat).
  { destruct Hc as (e & He & _). specialize (Hb cp (ex_intro _ _ He)). lia. }
  destruct (update_no_grab_run rank n s cp c x y t p Hr Hc Hcp Hg)
    as (s0 & _ & Hrun & _).
  pose proof (proj1 (update_pointer_focus_at_evolves
                       (wlmtk_element_pointer_motion n)
                       (wlmtk_element_get_pointer_area n)
                       (motion_evolves n) _ _ _ _ _ _ _ _ Hrun)) as F.
  destruct (update_settles rank R n (motion_settles rank R n) s cp c x y t p
              _ _ Ht Hdis Hc Hcp Hg Hrun) as (Hc1 & Hpl & Hall).
  set (pl := plan (accepts n) (wlmtk_element_get_pointer_area n) (heap s)
               x y t p (elements c)) in *.
  set (s1 := with_pointer_focus cp pl.2 s0) in *. clearbody s1.
  destruct (update_quiet rank R n (settled_quiet rank R n) s1 cp
              (set_pointer_focus c pl.2) x y t p
              (tree_frame _ _ _ _ _ Ht F) Hc1 Hcp Hg)
    as (s2 & Hrun2 & F2 & Q2).
  - simpl. rewrite Hpl. reflexivity.
  - simpl. rewrite Hpl. exact Hall.
  - simpl in Hrun2. rewrite Hpl in Hrun2.
    exists (bool_decide (is_Some pl.2)), s1, s2, (set_pointer_focus c pl.2).
    split; [exact Hrun|]. split; [exact Hrun2|].
    split; [exact Hc1|].
    split; [exact (frame_event_container _ _ _ _ F2 Hc1)|].
    split; assumption.
Qed.

(** ** Unrecognized button phases *)

Lemma bind_not_Fatal {A B} (m : M A) (k : A -> M B) s :
  m s <> Fatal ->
  (forall a s1, m s = Done (a, s1) -> k a s1 <> Fatal) ->
  bind m k s <> Fatal.
Proof.
  unfold bind. intros Hm Hk. destruct (m s) as [[a s1]| | |]; try easy.
  apply Hk. reflexivity.
Qed.

Lemma get_element_not_Fatal p s : get_element p s <> Fatal.
Proof. unfold get_element. destruct (heap s !! p); easy. Qed.

Lemma get_container_not_Fatal p s : get_container p s <> Fatal.
Proof.
  unfold get_container. apply bind_not_Fatal.
  - apply get_element_not_Fatal.
  - intros e s1 _. destruct (vmt e); easy.
Qed.

Lemma put_container_not_Fatal p c s : put_container p c s <> Fatal.
Proof.
  unfold put_container. apply bind_not_Fatal.
  - apply get_element_not_Fatal.
  - intros e s1 _. easy.
Qed.

Section ButtonNotFatal.
Variable deliver : ptr -> wlmtk_button_event_t -> M bool.
Variable ev : wlmtk_button_event_t.
Hypothesis deliver_not_Fatal : forall p s, deliver p ev s <> Fatal.

Lemma container_button_not_Fatal el s :
  recognized (type ev) = true ->
  _wlmtk_container_element_pointer_button deliver el ev s <> Fatal.
Proof.
  intros Hrec. unfold _wlmtk_container_element_pointer_button.
  apply bind_not_Fatal; [apply get_container_not_Fatal|].
  intros c s1 _.
  destruct (pointer_grab_element_ptr c); [apply deliver_not_Fatal|].
  destruct (button ev =? BTN_LEFT).
  - destruct (type ev); try discriminate Hrec.
    + destruct (pointer_focus_element_ptr c); [|easy].
      apply bind_not_Fatal; [apply deliver_not_Fatal|].
      intros acc s2 _.
      apply bind_not_Fatal; [apply get_container_not_Fatal|].
      intros c2 s3 _.
      apply bind_not_Fatal; [apply put_container_not_Fatal|].
      intros [] s4 _. easy.
    + destruct (left_button_element_ptr c);
        [apply deliver_not_Fatal | easy].
    + destruct (left_button_element_ptr c); [|easy].
      destruct (ptr_eqb _ _); [apply deliver_not_Fatal | easy].
    + destruct (left_button_element_ptr c); [|easy].
      destruct (ptr_eqb _ _); [apply deliver_not_Fatal | easy].
  - destruct (pointer_focus_element_ptr c);
      [apply deliver_not_Fatal | easy].
Qed.
End ButtonNotFatal.

Lemma button_not_Fatal fuel el ev s :
  recognized (type ev) = true ->
  wlmtk_element_pointer_button fuel el ev s <> Fatal.
Proof.
  intros Hrec. revert el s.
  induction fuel as [|n IH]; intros el s; simpl; [easy|].
  apply bind_not_Fatal; [easy|]. intros [] s1 _.
  apply bind_not_Fatal; [apply get_element_not_Fatal|]. intros e s2 _.
  destruct (vmt e); [easy|].
  apply container_button_not_Fatal; [exact IH | exact Hrec].
Qed.

(** C10: a left-button event that enters the gesture state machine of a
    container (no grab is active there) ends in the fatal branch exactly when
    its phase is none of DOWN, UP, CLICK, DOUBLE_CLICK.  For the four
    recognized phases the delivery never aborts, however deep it is passed
    on; for any other phase it aborts at once. *)
Theorem unrecognized_phase_is_fatal (n : nat) (s : state) (el : ptr)
    (c : wlmtk_container_t) (ev : wlmtk_button_event_t) :
  container_at s el c ->
  pointer_grab_element_ptr c = None ->
  button ev = BTN_LEFT ->
  (wlmtk_element_pointer_button (S n) el ev s = Fatal <->
   recognized (type ev) = false).
Proof.
  intros (e & He & Hv) Hgrab Hleft. split.
  - intros HF. destruct (recognized (type ev)) eqn:Hrec; [|reflexivity].
    exfalso. exact (button_not_Fatal (S n) el ev s Hrec HF).
  - intros Hrec. simpl.
    unfold bind at 1. simpl.
    unfold bind at 1. unfold get_element at 1. simpl. rewrite He, Hv.
    unfold _wlmtk_container_element_pointer_button.
    unfold bind at 1. unfold get_container, bind at 1, get_element. simpl.
    rewrite He, Hv. simpl. rewrite Hgrab, Hleft. simpl.
    destruct (type ev); try discriminate Hrec. reflexivity.
Qed.

(** * Worked examples *)

Lemma scene_ranked root accept2 :
  rankedb scene_rank (scene root accept2) = true ->
  ranked scene_rank (scene root accept2).
Proof. apply rankedb_sound. Qed.

Lemma pointer_focus_scan_witness :
  exists offered w s1,
    deliveries (wlmtk_element_pointer_motion 3)
      (offered ++ leave (Some 1%nat) w 7 None)
      (scene (Container [1%nat; 2%nat] (Some 1%nat) None None None) true)
    = Done (tt, s1) /\
    update_pointer_focus_at (wlmtk_element_pointer_motion 3)
      (wlmtk_element_get_pointer_area 3) 0%nat (Finite 15) (Finite 5) 7 None
      (scene (Container [1%nat; 2%nat] (Some 1%nat) None None None) true)
    = Done (bool_decide (is_Some w), with_pointer_focus 0%nat w s1) /\
    w = Some 2%nat /\ offered = [(2%nat, MotionEvent (Finite 5) (Finite 5) 7 None)].
Proof.
  destruct (pointer_focus_scan scene_rank 3
              (scene (Container [1%nat; 2%nat] (Some 1%nat) None None None)
                 true)
              0%nat (Container [1%nat; 2%nat] (Some 1%nat) None None None)
              (Finite 15) (Finite 5) 7 None)
    as (offered & w & s1 & Hd & Hu & Hc & Hw).
  - apply rankedb_sound. vm_compute. reflexivity.
  - eexists. split; vm_compute; reflexivity.
  - vm_compute. lia.
  - reflexivity.
  - exists offered, w, s1. split; [exact Hd|]. split; [exact Hu|].
    destruct w as [q|].
    + destruct Hw as (pre & post & Hel & C & A & R & ->).
      destruct pre as [|a pre].
      * simpl in Hel. injection Hel as <- _. vm_compute in C. discriminate.
      * simpl in Hel. injection Hel as <- Hel.
        destruct pre as [|b pre].
        -- simpl in Hel. injection Hel as <- _. split; reflexivity.
        -- simpl in Hel. injection Hel as _ Hel. destruct pre; discriminate.
    + destruct Hw as (R & _ & _).
      specialize (R 2%nat). vm_compute in R.
      discriminate R; [right; left | reflexivity].
Defined.

(** The pointer moves from element 1 to element 2 of the scene. *)
Lemma enter_then_leave_witness :
  exists before enter s1,
    is_sentinel enter = false /\
    enter
    = offer
        (heap (scene (Container [1%nat; 2%nat] (Some 1%nat) None None None)
                 true))
        (Finite 15) (Finite 5) 7 None 2%nat /\
    deliveries (wlmtk_element_pointer_motion 3)
      (before ++ [(2%nat, enter); (1%nat, sentinel 7 None)])
      (scene (Container [1%nat; 2%nat] (Some 1%nat) None None None) true)
    = Done (tt, s1) /\
    final_state
      (update_pointer_focus_at (wlmtk_element_pointer_motion 3)
         (wlmtk_element_get_pointer_area 3) 0%nat (Finite 15) (Finite 5) 7
         None
         (scene (Container [1%nat; 2%nat] (Some 1%nat) None None None) true))
      (scene (Container [1%nat; 2%nat] (Some 1%nat) None None None) true)
    = with_pointer_focus 0%nat (Some 2%nat) s1.
Proof.
  apply (enter_then_leave scene_rank 3
           (scene (Container [1%nat; 2%nat] (Some 1%nat) None None None) true)
           0%nat (Container [1%nat; 2%nat] (Some 1%nat) None None None)
           (Finite 15) (Finite 5) 7 None 1%nat 2%nat _
           (Container [1%nat; 2%nat] (Some 2%nat) None None None)).
  - apply rankedb_sound. vm_compute. reflexivity.
  - eexists. split; vm_compute; reflexivity.
  - vm_compute. lia.
  - reflexivity.
  - reflexivity.
  - vm_compute. reflexivity.
  - eexists. split; vm_compute; reflexivity.
  - reflexivity.
  - discriminate.
Defined.

(** The same update, call by call: element 2 gets the real motion first,
    element 1 the sentinel after it, so no sentinel to the old holder comes
    before the real motion to the new one. *)
Lemma leave_follows_enter :
  exists s',
    update_pointer_focus_at (wlmtk_element_pointer_motion 3)
      (wlmtk_element_get_pointer_area 3) 0%nat (Finite 15) (Finite 5) 7 None
      (scene (Container [1%nat; 2%nat] (Some 1%nat) None None None) true)
    = Done (true, s') /\
    slot_of pointer_focus_element_ptr
      (scene (Container [1%nat; 2%nat] (Some 1%nat) None None None) true)
      0%nat = Some 1%nat /\
    slot_of pointer_focus_element_ptr s' 0%nat = Some 2%nat /\
    calls s'
    = [pointer_motion_call 2%nat (MotionEvent (Finite 5) (Finite 5) 7 None);
       pointer_motion_call 1%nat (sentinel 7 None)] /\
    ~ leave_before_enter 1%nat 2%nat (calls s').
Proof.
  eexists. split; [vm_compute; reflexivity|].
  split; [reflexivity|]. split; [reflexivity|]. split; [reflexivity|].
  intros (i & j & evl & eve & Hij & Hi & _ & Hj & _). simpl in Hi, Hj.
  destruct i as [|[|i]]; simpl in Hi; try discriminate.
  destruct j as [|[|j]]; simpl in Hj; try discriminate; lia.
Qed.

(** The left button goes down over element 1 of the scene. *)
Lemma capture_button_law_witness :
  exists acc s1 s' c' l,
    wlmtk_element_pointer_button 3 1%nat
      (ButtonEvent BTN_LEFT WLMTK_BUTTON_DOWN)
      (scene (Container [1%nat; 2%nat] (Some 1%nat) None None None) true)
    = Done (acc, s1) /\
    calls s1
    = calls (scene (Container [1%nat; 2%nat] (Some 1%nat) None None None)
               true)
      ++ pointer_button_call 1%nat (ButtonEvent BTN_LEFT WLMTK_BUTTON_DOWN)
         :: l /\
    _wlmtk_container_element_pointer_button (wlmtk_element_pointer_button 3)
      0%nat (ButtonEvent BTN_LEFT WLMTK_BUTTON_DOWN)
      (scene (Container [1%nat; 2%nat] (Some 1%nat) None None None) true)
    = Done (acc, s') /\
    calls s' = calls s1 /\
    container_at s' 0%nat c' /\
    left_button_element_ptr c' = (if acc then Some 1%nat else None).
Proof.
  destruct (capture_button_law scene_rank 3
              (scene (Container [1%nat; 2%nat] (Some 1%nat) None None None)
                 true)
              0%nat (Container [1%nat; 2%nat] (Some 1%nat) None None None)
              (ButtonEvent BTN_LEFT WLMTK_BUTTON_DOWN))
    as (Hdown & _ & _).
  - apply rankedb_sound. vm_compute. reflexivity.
  - eexists. split; vm_compute; reflexivity.
  - vm_compute. lia.
  - reflexivity.
  - reflexivity.
  - exact (proj1 (Hdown eq_refl) 1%nat eq_refl).
Defined.

(** The left button goes down over element 1 of the scene, which accepts
    and becomes the capture holder; the pointer then leaves every element,
    so that the container has no pointer-focus holder, and the left button
    goes down again.  This second DOWN is delivered to nobody and reported
    unaccepted, and the capture holder is not cleared: it is element 1 as
    before. *)
Lemma down_without_focus_keeps_capture :
  exists s1 s2 s3,
    wlmtk_element_pointer_motion 3 0%nat
      (MotionEvent (Finite 5) (Finite 5) 0 None)
      (scene (Container [1%nat; 2%nat] None None None None) true)
    = Done (true, s1) /\
    wlmtk_element_pointer_button 3 0%nat
      (ButtonEvent BTN_LEFT WLMTK_BUTTON_DOWN) s1 = Done (true, s2) /\
    slot_of left_button_element_ptr s2 0%nat = Some 1%nat /\
    wlmtk_element_pointer_motion 3 0%nat
      (MotionEvent (Finite 50) (Finite 50) 0 None) s2 = Done (false, s3) /\
    slot_of pointer_grab_element_ptr s3 0%nat = None /\
    slot_of pointer_focus_element_ptr s3 0%nat = None /\
    _wlmtk_container_element_pointer_button (wlmtk_element_pointer_button 3)
      0%nat (ButtonEvent BTN_LEFT WLMTK_BUTTON_DOWN) s3 = Done (false, s3) /\
    slot_of left_button_element_ptr s3 0%nat = Some 1%nat /\
    slot_of left_button_element_ptr s3 0%nat <> None.
Proof.
  eexists _, _, _.
  split; [vm_compute; reflexivity|].
  split; [vm_compute; reflexivity|].
  split; [vm_compute; reflexivity|].
  split; [vm_compute; reflexivity|].
  split; [vm_compute; reflexivity|].
  split; [vm_compute; reflexivity|].
  split; [vm_compute; reflexivity|].
  split; [vm_compute; reflexivity | vm_compute; discriminate].
Qed.




(** Element 2 of the scene holds the grab and rejects every motion: the
    update at (15, 5) hands it the motion at (5, 5) and still returns
    true. *)
Lemma grab_routes_motion_witness :
  exists ge answer s',
    heap (scene (Container [1%nat; 2%nat] (Some 1%nat) None (Some 2%nat) None)
            false) !! 2%nat = Some ge /\
    wlmtk_element_pointer_motion 3 2%nat
      (MotionEvent (coord_sub (Finite 15) (x_pos ge))
         (coord_sub (Finite 5) (y_pos ge)) 7 None)
      (scene (Container [1%nat; 2%nat] (Some 1%nat) None (Some 2%nat) None)
         false)
    = Done (answer, s') /\
    update_pointer_focus_at (wlmtk_element_pointer_motion 3)
      (wlmtk_element_get_pointer_area 3) 0%nat (Finite 15) (Finite 5) 7 None
      (scene (Container [1%nat; 2%nat] (Some 1%nat) None (Some 2%nat) None)
         false)
    = Done (true, s').
Proof.
  apply (grab_routes_motion scene_rank 3
           (scene (Container [1%nat; 2%nat] (Some 1%nat) None (Some 2%nat)
                     None) false)
           0%nat (Container [1%nat; 2%nat] (Some 1%nat) None (Some 2%nat) None)
           2%nat (Finite 15) (Finite 5) 7 None).
  - apply rankedb_sound. vm_compute. reflexivity.
  - eexists. split; vm_compute; reflexivity.
  - vm_compute. lia.
  - reflexivity.
Defined.

(** The scene of containers 0, 1, 2 around element 3, nothing focused. *)
Lemma keyboard_focus_set_then_clear_witness :
  exists s1,
    wlmtk_container_set_keyboard_focus_element 7 2%nat (Some 3%nat)
      (nested_scene (Container [1%nat] None None None None)
         (Container [2%nat] None None None None)
         (Container [3%nat] None None None None))
    = Done (tt, s1) /\
    slot_of keyboard_focus_element_ptr s1 2%nat = Some 3%nat /\
    slot_of keyboard_focus_element_ptr s1 1%nat = Some 2%nat /\
    exists s2 l,
      wlmtk_container_set_keyboard_focus_element 7 2%nat None s1
      = Done (tt, s2) /\
      calls s2 = calls s1 ++ keyboard_blur_call 3%nat :: l /\
      slot_of keyboard_focus_element_ptr s2 2%nat = None /\
      slot_of keyboard_focus_element_ptr s2 1%nat = None.
Proof.
  apply (keyboard_focus_set_then_clear scene_rank 3).
  - apply treeb_sound. vm_compute. reflexivity.
  - reflexivity.
  - reflexivity.
  - vm_compute. discriminate.
  - lia.
Defined.

(** Clearing the keyboard focus at container 2 changes what its parent,
    container 1, records. *)
Lemma keyboard_focus_clear_reaches_parent :
  let s0 := nested_scene (Container [1%nat] None None None None)
              (Container [2%nat] None None None None)
              (Container [3%nat] None None None None) in
  let s1 := final_state
              (wlmtk_container_set_keyboard_focus_element 7 2%nat
                 (Some 3%nat) s0) s0 in
  let s2 := final_state
              (wlmtk_container_set_keyboard_focus_element 7 2%nat None s1)
              s1 in
  wlmtk_container_set_keyboard_focus_element 7 2%nat None s1 = Done (tt, s2)
  /\ slot_of keyboard_focus_element_ptr s1 2%nat = Some 3%nat
  /\ slot_of keyboard_focus_element_ptr s1 1%nat = Some 2%nat
  /\ slot_of keyboard_focus_element_ptr s2 1%nat
     <> slot_of keyboard_focus_element_ptr s1 1%nat.
Proof.
  vm_compute. repeat split; discriminate.
Qed.

(** C7, at an input where the code does not get there.  The pointer focus
    of the scene is on element 1; element 2 acquires the pointer grab, which
    leaves the focus slot as it is.  Removing element 1 then recomputes the
    pointer focus under the grab: the motion goes to element 2, the focus
    slot keeps designating element 1, and the closing assertion of
    [wlmtk_container_remove_element] aborts. *)
Theorem remove_focus_holder_under_grab :
  exists s1,
    wlmtk_container_pointer_grab 8 0%nat 2%nat
      (scene (Container [1%nat; 2%nat] (Some 1%nat) None None None) true)
    = Done (tt, s1) /\
    slot_of pointer_focus_element_ptr s1 0%nat = Some 1%nat /\
    slot_of pointer_grab_element_ptr s1 0%nat = Some 2%nat /\
    wlmtk_container_remove_element 8 0%nat 1%nat s1 = Fatal.
Proof.
  eexists. split; [vm_compute; reflexivity|].
  split; [reflexivity|]. split; [reflexivity|].
  vm_compute. reflexivity.
Qed.

(** Without the grab the same removal goes through, and no slot of the
    container designates element 1 afterwards. *)
Lemma remove_focus_holder_no_grab :
  exists s',
    wlmtk_container_remove_element 8 0%nat 1%nat
      (scene (Container [1%nat; 2%nat] (Some 1%nat) (Some 1%nat) None
                (Some 1%nat)) true)
    = Done (tt, s') /\
    container_at s' 0%nat (Container [2%nat] None None None None).
Proof.
  eexists. split; [vm_compute; reflexivity|].
  eexists. split; vm_compute; reflexivity.
Qed.

(** The boxes of the scene: both fake elements are visible. *)
Lemma container_boxes_are_unions_witness :
  _wlmtk_container_element_get_dimensions (wlmtk_element_get_dimensions 3)
    (heap (scene (Container [1%nat; 2%nat] None None None None) true))
    (Container [1%nat; 2%nat] None None None None)
  = Done (bounding_box
            (visible_boxes (wlmtk_element_get_dimensions 3)
               (heap (scene (Container [1%nat; 2%nat] None None None None)
                        true))
               [1%nat; 2%nat])) /\
  _wlmtk_container_element_get_pointer_area
    (wlmtk_element_get_pointer_area 3)
    (heap (scene (Container [1%nat; 2%nat] None None None None) true))
    (Container [1%nat; 2%nat] None None None None)
  = Done (bounding_box
            (visible_boxes (wlmtk_element_get_pointer_area 3)
               (heap (scene (Container [1%nat; 2%nat] None None None None)
                        true))
               [1%nat; 2%nat])).
Proof.
  apply (container_boxes_are_unions 3
           (heap (scene (Container [1%nat; 2%nat] None None None None) true))
           (Container [1%nat; 2%nat] None None None None)).
  - unfold children_answer; simpl. repeat (apply Forall_cons_2;
            [eexists; split; [vm_compute; reflexivity|];
             intros _; eexists; vm_compute; reflexivity|]).
    apply Forall_nil_2.
  - unfold children_answer; simpl. repeat (apply Forall_cons_2;
            [eexists; split; [vm_compute; reflexivity|];
             intros _; eexists; vm_compute; reflexivity|]).
    apply Forall_nil_2.
  - unfold children_answer; simpl. repeat (apply Forall_cons_2; [vm_compute; repeat split; discriminate|]).
    apply Forall_nil_2.
  - unfold children_answer; simpl. repeat (apply Forall_cons_2; [vm_compute; repeat split; discriminate|]).
    apply Forall_nil_2.
Defined.

(** The pointer-focus update at (15, 5), twice, in the scene whose focus is
    on element 1. *)
Lemma pointer_focus_update_idempotent_witness :
  exists b s1 s2 c1,
    update_pointer_focus_at (wlmtk_element_pointer_motion 3)
      (wlmtk_element_get_pointer_area 3) 0%nat (Finite 15) (Finite 5) 7 None
      (scene (Container [1%nat; 2%nat] (Some 1%nat) None None None) true)
    = Done (b, s1) /\
    update_pointer_focus_at (wlmtk_element_pointer_motion 3)
      (wlmtk_element_get_pointer_area 3) 0%nat (Finite 15) (Finite 5) 7 None
      s1
    = Done (b, s2) /\
    container_at s1 0%nat c1 /\ container_at s2 0%nat c1 /\
    frame event_perm s1 s2 /\ quiet s1 s2.
Proof.
  apply (pointer_focus_update_idempotent scene_rank 3 3
           (scene (Container [1%nat; 2%nat] (Some 1%nat) None None None) true)
           0%nat (Container [1%nat; 2%nat] (Some 1%nat) None None None)).
  - apply treeb_sound. vm_compute. reflexivity.
  - apply distinctb_sound. vm_compute. reflexivity.
  - eexists. split; vm_compute; reflexivity.
  - lia.
  - reflexivity.
Defined.

(** A left-button event of phase 9 reaches the container of the scene. *)
Lemma unrecognized_phase_is_fatal_witness :
  wlmtk_element_pointer_button 4 0%nat
    (ButtonEvent BTN_LEFT (BUTTON_OTHER 9))
    (scene (Container [1%nat; 2%nat] (Some 1%nat) None None None) true)
  = Fatal.
Proof.
  apply (unrecognized_phase_is_fatal 3
           (scene (Container [1%nat; 2%nat] (Some 1%nat) None None None) true)
           0%nat (Container [1%nat; 2%nat] (Some 1%nat) None None None)
           (ButtonEvent BTN_LEFT (BUTTON_OTHER 9))).
  - eexists. split; vm_compute; reflexivity.
  - reflexivity.
  - reflexivity.
  - reflexivity.
Defined.

(** * Further properties of the container code *)

(** ** Button events that do not write *)

(** X1. Only a left-button DOWN writes.  A button event that is not the
    DOWN of the left button, however deep it is passed on and whoever
    accepts it, leaves every element as it was: no slot of any container
    changes.  In particular the UP of the left button does not clear the
    capture holder. *)
Theorem button_writes_only_on_left_down fuel : forall el ev s acc s',
  button ev <> BTN_LEFT \/ type ev <> WLMTK_BUTTON_DOWN ->
  wlmtk_element_pointer_button fuel el ev s = Done (acc, s') ->
  heap s' = heap s.
Proof.
  induction fuel as [|n IH]; intros el ev s acc s' Hev H; simpl in H;
    [discriminate|].
  pose proof (fun q t a t' => IH q ev t a t' Hev) as IH'.
  step H as u s1 H1. inv_step H1.
  step H as e s2 H2. inv_step H2.
  destruct (vmt e) as [lf|c0]; [inv_step H; reflexivity|].
  unfold _wlmtk_container_element_pointer_button in H.
  step H as c s0 Hc. inv_step Hc.
  destruct (pointer_grab_element_ptr c);
    [exact (IH' _ _ _ _ H)|].
  destruct (button ev =? BTN_LEFT) eqn:Hb.
  - apply Z.eqb_eq in Hb.
    destruct (type ev) eqn:Ht; try discriminate H.
    + destruct Hev as [Hev | Hev]; congruence.
    + destruct (left_button_element_ptr c);
        [exact (IH' _ _ _ _ H) | inv_step H; reflexivity].
    + destruct (left_button_element_ptr c); [|inv_step H; reflexivity].
      destruct (ptr_eqb _ _);
        [exact (IH' _ _ _ _ H) | inv_step H; reflexivity].
    + destruct (left_button_element_ptr c); [|inv_step H; reflexivity].
      destruct (ptr_eqb _ _);
        [exact (IH' _ _ _ _ H) | inv_step H; reflexivity].
  - destruct (pointer_focus_element_ptr c);
      [exact (IH' _ _ _ _ H) | inv_step H; reflexivity].
Qed.

(** ** Button events under a pointer grab *)

Lemma slot_of_Some f s p x :
  slot_of f s p = Some x ->
  exists e c, heap s !! p = Some e /\ vmt e = ContainerVmt c /\ f c = Some x.
Proof.
  unfold slot_of, container_of.
  destruct (heap s !! p) as [e|]; [|discriminate].
  destruct (vmt e) as [l|c] eqn:Hv; [discriminate|]. eauto.
Qed.

Lemma button_grab_descent rank R s a ev : forall x,
  below s a x -> tree rank R s -> grab_chain s x ->
  exists d path,
    (d + rank x <= rank a)%nat /\
    Forall (fun q => below s q x) path /\
    forall f l0,
      wlmtk_element_pointer_button (d + f) a ev (State (heap s) l0)
      = wlmtk_element_pointer_button f x ev
          (State (heap s)
             (l0 ++ ((fun q => pointer_button_call q ev) <$> path))).
Proof.
  induction 1 as [|x p Hpar Hbel IH]; intros Ht Hch.
  - exists 0%nat, []. split; [lia|]. split; [constructor|].
    intros f l0. simpl. rewrite app_nil_r. reflexivity.
  - inversion Hch as [? Hroot | ? a0 Hpar' Hslot Hch']; subst;
      [congruence|].
    assert (a0 = p) by congruence. subst a0.
    destruct (IH Ht Hch') as (d & path & Hd & Hpath & Hrun).
    pose proof Ht as (_ & _ & Hpr & _).
    pose proof (Hpr x p Hpar) as Hlt.
    destruct (slot_of_Some _ _ _ _ Hslot) as (ep & c & Hp & Hv & Hg).
    exists (S d), (path ++ [p]). split; [lia|]. split.
    + apply Forall_app. split.
      * eapply Forall_impl; [exact Hpath|]. intros q Hq.
        eapply below_child; eassumption.
      * constructor; [|constructor].
        eapply below_child; [exact Hpar | constructor].
    + intros f l0.
      replace (S d + f)%nat with (d + S f)%nat by lia.
      rewrite Hrun. simpl.
      unfold bind, emit, get_element. simpl. rewrite Hp, Hv.
      unfold _wlmtk_container_element_pointer_button, get_container, bind,
        get_element. simpl. rewrite Hp, Hv. unfold ret. rewrite Hg.
      rewrite fmap_app, app_assoc. reflexivity.
Qed.

(** X2. Under a pointer grab every button event goes to the grab holder.
    When the containers from [a] down to the leaf [E] each record the next
    one as grab holder, a button event delivered at [a], of any button and
    any phase, is passed down that chain to [E]: the call returns the answer
    of [E], it cannot abort, the calls on record are the deliveries along
    the chain, and no slot of any container changes. *)
Theorem grab_chain_routes_buttons rank R fuel s a E eE lf ev :
  tree rank R s -> below s a E -> grab_chain s E ->
  heap s !! E = Some eE -> vmt eE = LeafVmt lf ->
  (rank a < fuel)%nat ->
  exists path,
    Forall (fun q => below s q E) path /\
    wlmtk_element_pointer_button fuel a ev s
    = Done (leaf_pointer_button lf ev,
            State (heap s)
              (calls s
               ++ ((fun q => pointer_button_call q ev) <$> path ++ [E]))).
Proof.
  intros Ht Hbel Hch HE Hv Hfuel.
  destruct (button_grab_descent rank R s a ev E Hbel Ht Hch)
    as (d & path & Hd & Hpath & Hrun).
  exists path. split; [exact Hpath|].
  replace fuel with (d + S (fuel - d - 1))%nat by lia.
  destruct s as [h cs]. simpl in *. rewrite Hrun. simpl.
  unfold bind, emit, get_element. simpl. rewrite HE, Hv. unfold ret.
  rewrite fmap_app, app_assoc. reflexivity.
Qed.

(** ** Axis and keyboard events *)

Lemma axis_grab_descent rank R la s a : forall x,
  below s a x -> tree rank R s -> grab_chain s x ->
  exists d,
    (d + rank x <= rank a)%nat /\
    forall f,
      wlmtk_element_pointer_axis la (d + f) (heap s) a
      = wlmtk_element_pointer_axis la f (heap s) x.
Proof.
  induction 1 as [|x p Hpar Hbel IH]; intros Ht Hch.
  - exists 0%nat. split; [lia|]. reflexivity.
  - inversion Hch as [? Hroot | ? a0 Hpar' Hslot Hch']; subst;
      [congruence|].
    assert (a0 = p) by congruence. subst a0.
    destruct (IH Ht Hch') as (d & Hd & Hrun).
    pose proof Ht as (_ & _ & Hpr & _).
    pose proof (Hpr x p Hpar) as Hlt.
    destruct (slot_of_Some _ _ _ _ Hslot) as (ep & c & Hp & Hv & Hg).
    exists (S d). split; [lia|]. intros f.
    replace (S d + f)%nat with (d + S f)%nat by lia.
    rewrite Hrun. simpl. rewrite Hp, Hv.
    unfold _wlmtk_container_element_pointer_axis. rewrite Hg. reflexivity.
Qed.

(** X3. Axis events under a pointer grab.  When the containers from [a]
    down to the leaf [E] each record the next one as grab holder, an axis
    event delivered at [a] is answered by [E], whatever the pointer-focus
    holders are and whatever the leaves answer. *)
Theorem grab_chain_routes_axis rank R la fuel s a E eE lf :
  tree rank R s -> below s a E -> grab_chain s E ->
  heap s !! E = Some eE -> vmt eE = LeafVmt lf ->
  (rank a < fuel)%nat ->
  wlmtk_element_pointer_axis la fuel (heap s) a = Done (la E).
Proof.
  intros Ht Hbel Hch HE Hv Hfuel.
  destruct (axis_grab_descent rank R la s a E Hbel Ht Hch) as (d & Hd & Hrun).
  replace fuel with (d + S (fuel - d - 1))%nat by lia.
  rewrite Hrun. simpl. rewrite HE, Hv. reflexivity.
Qed.

Lemma keyboard_descent rank R lk s a : forall x,
  below s a x -> tree rank R s -> kbd_chain s x ->
  exists d,
    (d + rank x <= rank a)%nat /\
    forall f,
      wlmtk_element_keyboard_event lk (d + f) (heap s) a
      = wlmtk_element_keyboard_event lk f (heap s) x.
Proof.
  induction 1 as [|x p Hpar Hbel IH]; intros Ht Hch.
  - exists 0%nat. split; [lia|]. reflexivity.
  - inversion Hch as [? Hroot | ? a0 Hpar' Hslot Hch']; subst;
      [congruence|].
    assert (a0 = p) by congruence. subst a0.
    destruct (IH Ht Hch') as (d & Hd & Hrun).
    pose proof Ht as (_ & _ & Hpr & _).
    pose proof (Hpr x p Hpar) as Hlt.
    destruct (slot_of_Some _ _ _ _ Hslot) as (ep & c & Hp & Hv & Hg).
    exists (S d). split; [lia|]. intros f.
    replace (S d + f)%nat with (d + S f)%nat by lia.
    rewrite Hrun. simpl. rewrite Hp, Hv.
    unfold _wlmtk_container_element_keyboard_event. rewrite Hg. reflexivity.
Qed.

(** X4. Keyboard events follow the keyboard-focus path.  When the containers
    from [a] down to [x] each record the next one as keyboard-focus holder, a
    keyboard event delivered at [a] is answered by [x] when [x] is a leaf,
    and is reported unhandled (false) when [x] is a container that has no
    keyboard-focus holder. *)
Theorem keyboard_event_follows_focus rank R lk fuel s a x e :
  tree rank R s -> below s a x -> kbd_chain s x ->
  heap s !! x = Some e -> (rank a < fuel)%nat ->
  match vmt e with
  | LeafVmt _ =>
    wlmtk_element_keyboard_event lk fuel (heap s) a = Done (lk x)
  | ContainerVmt c =>
    keyboard_focus_element_ptr c = None ->
    wlmtk_element_keyboard_event lk fuel (heap s) a = Done false
  end.
Proof.
  intros Ht Hbel Hch Hx Hfuel.
  destruct (keyboard_descent rank R lk s a x Hbel Ht Hch) as (d & Hd & Hrun).
  replace fuel with (d + S (fuel - d - 1))%nat by lia.
  rewrite Hrun. simpl. rewrite Hx.
  destruct (vmt e) as [l|c]; [reflexivity|].
  intros Hk. unfold _wlmtk_container_element_keyboard_event. rewrite Hk.
  reflexivity.
Qed.

(** X5. Setting and clearing the keyboard focus decides where keyboard
    events go.  With containers C1 holding C2 holding the leaf L, in a
    well-formed tree where C2 does not record L as its keyboard-focus holder
    yet: once the keyboard focus is set to L at C2, a keyboard event
    delivered at C1 is answered by L; once it is cleared at C2 again, a
    keyboard event delivered at C1 is reported unhandled. *)
Theorem keyboard_focus_directs_events rank R fuel n lk s C1 C2 L eL lf :
  tree rank R s ->
  parent_at s C2 = Some C1 -> parent_at s L = Some C2 ->
  heap s !! L = Some eL -> vmt eL = LeafVmt lf ->
  slot_of keyboard_focus_element_ptr s C2 <> Some L ->
  (2 * R < fuel)%nat -> (rank C1 < n)%nat ->
  exists s1,
    wlmtk_container_set_keyboard_focus_element fuel C2 (Some L) s
    = Done (tt, s1) /\
    wlmtk_element_keyboard_event lk n (heap s1) C1 = Done (lk L) /\
    exists s2,
      wlmtk_container_set_keyboard_focus_element fuel C2 None s1
      = Done (tt, s2) /\
      wlmtk_element_keyboard_event lk n (heap s2) C1 = Done false.
Proof.
  intros Ht H21 HL2 HL Hv Hne Hfuel Hn.
  pose proof Ht as (_ & _ & Hpr & _).
  pose proof (Hpr _ _ H21). pose proof (Hpr _ _ HL2).
  destruct (set_keyboard_focus_some_spec rank R fuel C2 L s Ht HL2
              ltac:(lia))
    as (s1 & Hrun1 & Ht1 & Hpar1 & Hs2 & Hkeep & Hup).
  specialize (Hup Hne C1 H21).
  exists s1. split; [exact Hrun1|].
  destruct (slot_of_Some _ _ _ _ Hs2) as (e2 & c2 & He2 & Hv2 & Hk2).
  destruct (slot_of_Some _ _ _ _ Hup) as (e1 & c1 & He1 & Hv1 & Hk1).
  destruct n as [|[|[|m]]]; try lia.
  split.
  { cbn [wlmtk_element_keyboard_event]. rewrite He1, Hv1.
    unfold _wlmtk_container_element_keyboard_event at 1. rewrite Hk1.
    rewrite He2, Hv2.
    unfold _wlmtk_container_element_keyboard_event at 1. rewrite Hk2.
    rewrite (Hkeep L (below_self s L)), HL, Hv. reflexivity. }
  destruct (set_keyboard_focus_none_spec rank R fuel C2 s1 Ht1
              (ex_intro _ c2 (ex_intro _ e2 (conj He2 Hv2))) ltac:(lia))
    as (s2 & Hrun2 & [F2 _] & _ & Hclr).
  exists s2. split; [exact Hrun2|].
  destruct (Hclr L Hs2) as [_ Hp].
  specialize (Hp C1 ltac:(rewrite Hpar1; exact H21)).
  destruct (frame_lookup _ _ _ _ _ F2 He1) as (e1' & He1' & St).
  cbn [wlmtk_element_keyboard_event]. rewrite He1'.
  unfold slot_of, container_of in Hp. rewrite He1' in Hp.
  destruct (vmt e1') as [l|c1'] eqn:Hv1'.
  - destruct St as (_ & _ & _ & _ & _ & Hvs). rewrite Hv1, Hv1' in Hvs.
    contradiction.
  - unfold _wlmtk_container_element_keyboard_event. rewrite Hp. reflexivity.
Qed.

(** ** What a pointer motion leaves alone *)

Lemma focus_is_child_frame s s' :
  frame motion_perm s s' -> focus_is_child s -> focus_is_child s'.
Proof.
  intros F Hinv k c' f Hc' Hf.
  destruct (frame_container_rev _ _ _ _ _ F Hc') as (c & Hc & St).
  destruct St as (Hel & Hfoc & _). rewrite Hel.
  destruct Hfoc as [Heq | [_ [Hn | (q & Hq & Hin)]]].
  - apply (Hinv k c f Hc). congruence.
  - congruence.
  - rewrite Hf in Hq. injection Hq as ->. exact Hin.
Qed.

(** X6. A pointer motion touches nothing but pointer focus.  However deep a
    motion event is passed on, every container keeps its list of elements,
    its capture holder, its grab holder and its keyboard-focus holder, every
    element keeps its parent, its position and its visibility, and outside
    the subtree of the element the motion was delivered to nothing changes
    at all.  A pointer-focus holder that changed is a child of its
    container: if every holder was a child before, every holder is one
    after. *)
Theorem motion_touches_only_focus rank R fuel el ev s b s' :
  tree rank R s -> (rank el < fuel)%nat ->
  wlmtk_element_pointer_motion fuel el ev s = Done (b, s') ->
  (forall k c, container_at s k c ->
     exists c', container_at s' k c' /\
       elements c' = elements c /\
       left_button_element_ptr c' = left_button_element_ptr c /\
       pointer_grab_element_ptr c' = pointer_grab_element_ptr c /\
       keyboard_focus_element_ptr c' = keyboard_focus_element_ptr c) /\
  (forall x e, heap s !! x = Some e ->
     exists e', heap s' !! x = Some e' /\
       parent_container_ptr e' = parent_container_ptr e /\
       x_pos e' = x_pos e /\ y_pos e' = y_pos e /\ visible e' = visible e) /\
  (forall x, ~ below s el x -> heap s' !! x = heap s !! x) /\
  (focus_is_child s -> focus_is_child s').
Proof.
  intros Ht Hfuel H.
  pose proof (proj1 (motion_evolves _ _ _ _ _ _ H)) as F.
  split; [|split; [|split]].
  - intros k c Hc.
    destruct (frame_container _ _ _ _ _ F Hc) as (c' & Hc' & St).
    destruct St as (Hel & _ & Hcap & Hgrab & Hkbd).
    exists c'. split; [exact Hc'|]. split; [exact Hel|].
    split; [exact (slot_step_fixed _ _ _ Hcap)|].
    split; [exact (slot_step_fixed _ _ _ Hgrab)|].
    exact (slot_step_fixed _ _ _ Hkbd).
  - intros x e He.
    destruct (frame_lookup _ _ _ _ _ F He) as (e' & He' & St).
    destruct St as (X & Y & V & P & _). eauto 10.
  - exact (motion_confined rank R fuel el ev s b s' Ht Hfuel H).
  - exact (focus_is_child_frame s s' F).
Qed.

(** ** The box of a container covers its visible children *)

Section AggregateCovers.
Variable child_box : gmap nat wlmtk_element_t -> ptr -> outcome box.
Variable h : gmap nat wlmtk_element_t.

Lemma aggregate_grows els : forall acc r,
  aggregate child_box h els acc = Done r ->
  left r <= left acc /\ top r <= top acc /\
  right acc <= right r /\ bottom acc <= bottom r.
Proof.
  induction els as [|q els IH]; intros acc r H; simpl in H.
  - injection H as <-. lia.
  - destruct (h !! q) as [e|]; [|discriminate].
    destruct (visible e); simpl in H; [|exact (IH _ _ H)].
    destruct (child_box h q) as [b| | |]; try discriminate.
    apply IH in H. simpl in H. lia.
Qed.

Lemma aggregate_covers els : forall acc r q e b,
  aggregate child_box h els acc = Done r ->
  q ∈ els -> h !! q = Some e -> visible e = true ->
  child_box h q = Done b ->
  left r <= x_pos e + left b /\ top r <= y_pos e + top b /\
  x_pos e + right b <= right r /\ y_pos e + bottom b <= bottom r.
Proof.
  induction els as [|q' els IH]; intros acc r q e b H Hin He Hvis Hb;
    [inversion Hin|].
  simpl in H. apply elem_of_cons in Hin as [-> | Hin].
  - rewrite He, Hvis, Hb in H. simpl in H.
    apply aggregate_grows in H. simpl in H. lia.
  - destruct (h !! q') as [e'|]; [|discriminate].
    destruct (visible e'); simpl in H; [|exact (IH _ _ _ _ _ H Hin He Hvis Hb)].
    destruct (child_box h q') as [b'| | |]; try discriminate.
    exact (IH _ _ _ _ _ H Hin He Hvis Hb).
Qed.

Lemma container_box_covers c r q e b :
  container_box child_box h c = Done r ->
  q ∈ elements c -> h !! q = Some e -> visible e = true ->
  child_box h q = Done b ->
  (left b < right b ->
   left r <= x_pos e + left b /\ x_pos e + right b <= right r) /\
  (top b < bottom b ->
   top r <= y_pos e + top b /\ y_pos e + bottom b <= bottom r).
Proof.
  unfold container_box. intros H Hin He Hvis Hb.
  destruct (aggregate child_box h (elements c) _) as [a| | |] eqn:Ha;
    try discriminate.
  injection H as <-.
  pose proof (aggregate_covers _ _ _ _ _ _ Ha Hin He Hvis Hb) as Hc.
  unfold normalise. simpl. split; intros Hlt.
  - destruct (Z.geb_spec (left a) (right a)); lia.
  - destruct (Z.geb_spec (top a) (bottom a)); lia.
Qed.
End AggregateCovers.

(** X7. The box of a container covers its visible children.  Whenever the
    dimensions, or the pointer area, of a container are computed (the moved
    boxes of the children being within the range of int), the result
    covers, on every axis on which the box of a visible child is not empty,
    that box moved by the position of the child. *)
Theorem container_boxes_cover_children n h c q e :
  q ∈ elements c -> h !! q = Some e -> visible e = true ->
  (forall r b,
     Forall int32_box
       (visible_boxes (wlmtk_element_get_dimensions n) h (elements c)) ->
     _wlmtk_container_element_get_dimensions
       (wlmtk_element_get_dimensions n) h c = Done r ->
     wlmtk_element_get_dimensions n h q = Done b ->
     (left b < right b ->
      left r <= x_pos e + left b /\ x_pos e + right b <= right r) /\
     (top b < bottom b ->
      top r <= y_pos e + top b /\ y_pos e + bottom b <= bottom r)) /\
  (forall r b,
     Forall int32_box
       (visible_boxes (wlmtk_element_get_pointer_area n) h (elements c)) ->
     _wlmtk_container_element_get_pointer_area
       (wlmtk_element_get_pointer_area n) h c = Done r ->
     wlmtk_element_get_pointer_area n h q = Done b ->
     (left b < right b ->
      left r <= x_pos e + left b /\ x_pos e + right b <= right r) /\
     (top b < bottom b ->
      top r <= y_pos e + top b /\ y_pos e + bottom b <= bottom r)).
Proof.
  intros Hin He Hvis. split; intros r b _ Hr Hb.
  - exact (container_box_covers _ h c r q e b Hr Hin He Hvis Hb).
  - exact (container_box_covers _ h c r q e b Hr Hin He Hvis Hb).
Qed.

(** ** Layout updates end in the pointer-focus update of the root *)

Lemma tree_nested rank R s : tree rank R s -> nested rank R s.
Proof.
  intros (H1 & _ & H3 & H4 & H5).
  split; [assumption|]. split; [assumption|]. split; assumption.
Qed.

Lemma nested_frame rank R pi s s' :
  nested rank R s -> frame pi s s' -> nested rank R s'.
Proof.
  intros (H1 & H3 & H4 & H5) F.
  split; [eapply ranked_frame; eassumption|].
  split; [eapply parent_ranked_frame; eassumption|].
  split; [eapply rank_bound_frame; eassumption|].
  eapply parents_contain_frame; eassumption.
Qed.

Lemma nested_fuel rank R s x p :
  nested rank R s -> parent_at s x = Some p ->
  (rank x < rank p)%nat /\ (rank p <= R)%nat /\
  (exists c, container_at s p c).
Proof.
  intros (_ & Hpr & Hb & Hpc) H.
  destruct (Hpc x p H) as [c Hc].
  split; [exact (Hpr x p H)|].
  split; [apply Hb; eapply container_at_Some; exact Hc | eauto].
Qed.

Lemma update_total rank R m s root c x y t p :
  nested rank R s -> container_at s root c -> (R <= m)%nat ->
  exists b s',
    update_pointer_focus_at (wlmtk_element_pointer_motion m)
      (wlmtk_element_get_pointer_area m) root x y t p s = Done (b, s') /\
    frame motion_perm s s'.
Proof.
  intros Ht Hc Hm.
  pose proof Ht as (Hr & _ & Hb & _).
  assert (HR : (rank root <= R)%nat)
    by (apply Hb; eapply container_at_Some; exact Hc).
  assert (Hex : exists b s',
    update_pointer_focus_at (wlmtk_element_pointer_motion m)
      (wlmtk_element_get_pointer_area m) root x y t p s = Done (b, s')).
  { destruct (pointer_grab_element_ptr c) as [g|] eqn:Hg.
    - destruct (Hr root c Hc g (grab_in_refs _ _ Hg)) as [[ge Hge] Hgl].
      rewrite (update_grab_run _ _ s root c g ge _ _ _ _ Hc Hg Hge).
      destruct (motion_spec rank m g (local_event ge x y t p) s Hr
                  (ex_intro _ _ Hge) ltac:(lia)) as (s' & Hrun & _).
      run_with Hrun. eexists _, _. reflexivity.
    - destruct (update_no_grab_run rank m s root c x y t p Hr Hc ltac:(lia)
                  Hg) as (s1 & _ & Hrun & _).
      eexists _, _. exact Hrun. }
  destruct Hex as (b & s' & Hrun). exists b, s'. split; [exact Hrun|].
  exact (proj1 (update_pointer_focus_at_evolves
                  (wlmtk_element_pointer_motion m)
                  (wlmtk_element_get_pointer_area m)
                  (motion_evolves m) _ _ _ _ _ _ _ _ Hrun)).
Qed.

Lemma update_pointer_focus_climb rank R : forall fuel C s,
  nested rank R s -> (exists c, container_at s C c) ->
  (R + (R - rank C) < fuel)%nat ->
  exists root e m b s',
    (root = C \/ above s C root) /\
    heap s !! root = Some e /\ parent_container_ptr e = None /\
    (R <= m)%nat /\
    update_pointer_focus_at (wlmtk_element_pointer_motion m)
      (wlmtk_element_get_pointer_area m) root
      (ev_x (last_pointer_motion_event e))
      (ev_y (last_pointer_motion_event e))
      (ev_time_msec (last_pointer_motion_event e))
      (ev_pointer_ptr (last_pointer_motion_event e)) s = Done (b, s') /\
    frame motion_perm s s' /\
    wlmtk_container_update_pointer_focus fuel C s = Done (tt, s').
Proof.
  induction fuel as [|n IH]; intros C s Ht [c Hc] Hf; [lia|].
  pose proof Hc as (e & He & Hv).
  simpl. run_element He.
  destruct (parent_container_ptr e) as [p|] eqn:Hp.
  - assert (Hpar : parent_at s C = Some p)
      by (unfold parent_at; rewrite He; exact Hp).
    destruct (nested_fuel rank R s C p Ht Hpar) as (Hlt & HpR & Hcp).
    destruct (IH p s Ht Hcp ltac:(lia))
      as (root & er & m & b & s' & Hroot & Her & Hnone & Hm & Hup & F & Hrun).
    exists root, er, m, b, s'.
    split.
    { right. destruct Hroot as [-> | Hab];
        [apply above_parent | eapply above_step]; eassumption. }
    repeat (split; [assumption|]). exact Hrun.
  - destruct (update_total rank R n s C c
                (ev_x (last_pointer_motion_event e))
                (ev_y (last_pointer_motion_event e))
                (ev_time_msec (last_pointer_motion_event e))
                (ev_pointer_ptr (last_pointer_motion_event e))
                Ht Hc ltac:(lia)) as (b & s' & Hup & F).
    exists C, e, n, b, s'. split; [left; reflexivity|].
    split; [exact He|]. split; [exact Hp|]. split; [lia|].
    split; [exact Hup|]. split; [exact F|].
    run_with Hup. reflexivity.
Qed.

Lemma update_layout_climb rank R : forall fuel C s,
  nested rank R s -> (exists c, container_at s C c) ->
  (S R + (R - rank C) < fuel)%nat ->
  exists root e m b s',
    (root = C \/ above s C root) /\
    heap s !! root = Some e /\ parent_container_ptr e = None /\
    (R <= m)%nat /\
    update_pointer_focus_at (wlmtk_element_pointer_motion m)
      (wlmtk_element_get_pointer_area m) root
      (ev_x (last_pointer_motion_event e))
      (ev_y (last_pointer_motion_event e))
      (ev_time_msec (last_pointer_motion_event e))
      (ev_pointer_ptr (last_pointer_motion_event e)) s = Done (b, s') /\
    frame motion_perm s s' /\
    wlmtk_container_update_layout fuel C s = Done (tt, s').
Proof.
  induction fuel as [|n IH]; intros C s Ht [c Hc] Hf; [lia|].
  simpl. run_with (parent_of_intro s C (container_at_Some _ _ _ Hc)).
  destruct (parent_at s C) as [p|] eqn:Hpar.
  - destruct (nested_fuel rank R s C p Ht Hpar) as (Hlt & HpR & Hcp).
    destruct (IH p s Ht Hcp ltac:(lia))
      as (root & er & m & b & s' & Hroot & Her & Hnone & Hm & Hup & F & Hrun).
    exists root, er, m, b, s'.
    split.
    { right. destruct Hroot as [-> | Hab];
        [apply above_parent | eapply above_step]; eassumption. }
    repeat (split; [assumption|]). exact Hrun.
  - destruct (update_pointer_focus_climb rank R n C s Ht
                (ex_intro _ c Hc) ltac:(lia))
      as (root & er & m & b & s' & Hroot & Her & Hnone & Hm & Hup & F & Hrun).
    exists root, er, m, b, s'. repeat (split; [assumption|]). exact Hrun.
Qed.

(** X8. A layout update ends in the pointer-focus update of the outermost
    container.  Called on any container of a well-formed tree,
    [wlmtk_container_update_layout] and
    [wlmtk_container_update_pointer_focus] climb to the container that has
    no parent and run the pointer-focus update there, at the position of the
    last motion event that container received.  Both return; no list of
    elements and no slot other than pointer focus changes. *)
Theorem layout_update_reaches_root rank R fuel C s :
  tree rank R s -> (exists c, container_at s C c) ->
  (2 * R + 1 < fuel)%nat ->
  (exists root e m b s',
     (root = C \/ above s C root) /\
     heap s !! root = Some e /\ parent_container_ptr e = None /\
     (R <= m)%nat /\
     update_pointer_focus_at (wlmtk_element_pointer_motion m)
       (wlmtk_element_get_pointer_area m) root
       (ev_x (last_pointer_motion_event e))
       (ev_y (last_pointer_motion_event e))
       (ev_time_msec (last_pointer_motion_event e))
       (ev_pointer_ptr (last_pointer_motion_event e)) s = Done (b, s') /\
     frame motion_perm s s' /\
     wlmtk_container_update_layout fuel C s = Done (tt, s')) /\
  (exists root e m b s',
     (root = C \/ above s C root) /\
     heap s !! root = Some e /\ parent_container_ptr e = None /\
     (R <= m)%nat /\
     update_pointer_focus_at (wlmtk_element_pointer_motion m)
       (wlmtk_element_get_pointer_area m) root
       (ev_x (last_pointer_motion_event e))
       (ev_y (last_pointer_motion_event e))
       (ev_time_msec (last_pointer_motion_event e))
       (ev_pointer_ptr (last_pointer_motion_event e)) s = Done (b, s') /\
     frame motion_perm s s' /\
     wlmtk_container_update_pointer_focus fuel C s = Done (tt, s')).
Proof.
  intros Ht Hc Hf. apply tree_nested in Ht. split.
  - apply (update_layout_climb rank R fuel C s Ht Hc). lia.
  - apply (update_pointer_focus_climb rank R fuel C s Ht Hc). lia.
Qed.

(** ** Adding and raising elements *)

Lemma tree_adopt rank R s s' C c l' e :
  tree rank R s -> container_at s C c ->
  (forall k, is_Some (heap s' !! k) <-> is_Some (heap s !! k)) ->
  container_at s' C (set_elements c l') ->
  (forall k, k <> C -> container_of s' k = container_of s k) ->
  (forall x, x <> e -> parent_at s' x = parent_at s x) ->
  parent_at s' e = Some C ->
  parent_at s e = None \/ parent_at s e = Some C ->
  is_Some (heap s !! e) -> (rank e < rank C)%nat ->
  (forall q, q ∈ l' -> q ∈ elements c \/ q = e) ->
  tree rank R s'.
Proof.
  intros (Hr & Ho & Hpr & Hb & Hpc) Hc Hdom Hc' Hoth Hpar HeC Hwas He Hrk Hl.
  assert (Hback : forall k c0, k <> C -> container_at s' k c0 ->
            container_at s k c0).
  { intros k c0 Hk H0. apply container_of_at. rewrite <- (Hoth k Hk).
    apply container_of_at. exact H0. }
  assert (Hrefs : forall q, q ∈ refs (set_elements c l') ->
            q ∈ refs c \/ q = e).
  { intros q Hq. apply elem_of_refs in Hq as [Hq | Hq].
    - destruct (Hl q Hq) as [H | H]; [left | right; exact H].
      apply elem_of_refs. left. exact H.
    - left. apply elem_of_refs. right. exact Hq. }
  split; [|split; [|split; [|split]]].
  - intros k c0 H0 q Hq.
    destruct (decide (k = C)) as [-> | Hk].
    + rewrite (container_at_inj _ _ _ _ H0 Hc') in Hq.
      destruct (Hrefs q Hq) as [H | ->].
      * destruct (Hr C c Hc q H) as [Hs Hlt]. split; [|exact Hlt].
        apply Hdom. exact Hs.
      * split; [apply Hdom; exact He | exact Hrk].
    + destruct (Hr k c0 (Hback k c0 Hk H0) q Hq) as [Hs Hlt].
      split; [apply Hdom; exact Hs | exact Hlt].
  - intros a c0 q H0 Hq.
    destruct (decide (q = e)) as [-> | Hqe].
    + destruct (decide (a = C)) as [-> | Ha]; [exact HeC|].
      pose proof (Ho a c0 e (Hback a c0 Ha H0) Hq) as Hp.
      destruct Hwas as [Hw | Hw]; congruence.
    + rewrite (Hpar q Hqe).
      destruct (decide (a = C)) as [-> | Ha].
      * rewrite (container_at_inj _ _ _ _ H0 Hc') in Hq.
        destruct (Hrefs q Hq) as [H | H]; [|contradiction].
        exact (Ho C c q Hc H).
      * exact (Ho a c0 q (Hback a c0 Ha H0) Hq).
  - intros x p Hp.
    destruct (decide (x = e)) as [-> | Hx].
    + rewrite HeC in Hp. injection Hp as <-. exact Hrk.
    + rewrite (Hpar x Hx) in Hp. exact (Hpr x p Hp).
  - intros k Hk. apply Hb. apply Hdom. exact Hk.
  - intros x p Hp.
    assert (Hcp : exists c0, container_at s p c0).
    { destruct (decide (x = e)) as [-> | Hx].
      - rewrite HeC in Hp. injection Hp as <-. eauto.
      - rewrite (Hpar x Hx) in Hp. exact (Hpc x p Hp). }
    destruct (decide (p = C)) as [-> | HpC]; [eauto|].
    destruct Hcp as [c0 H0]. exists c0.
    apply container_of_at. rewrite (Hoth p HpC).
    apply container_of_at. exact H0.
Qed.

Lemma set_parent_run e ee p s :
  heap s !! e = Some ee ->
  wlmtk_element_set_parent_container e p s
  = Done (tt, State
                (<[e := Element (x_pos ee) (y_pos ee) (visible ee) p
                          (last_pointer_motion_event ee) (vmt ee)]> (heap s))
                (calls s)).
Proof.
  intros He. unfold wlmtk_element_set_parent_container. run_element He.
  reflexivity.
Qed.

Lemma adopt_run rank R fuel s C c e ee l' :
  tree rank R s -> container_at s C c ->
  heap s !! e = Some ee -> parent_container_ptr ee = None ->
  (rank e < rank C)%nat ->
  (forall q, q ∈ l' -> q ∈ elements c \/ q = e) ->
  (S R + (R - rank C) < fuel)%nat ->
  exists s2 s',
    (let* _ := put_container C (set_elements c l') in
     let* _ := wlmtk_element_set_parent_container e (Some C) in
     wlmtk_container_update_layout fuel C) s = Done (tt, s') /\
    tree rank R s2 /\ container_at s2 C (set_elements c l') /\
    parent_at s2 e = Some C /\
    (forall k, k <> C -> container_of s2 k = container_of s k) /\
    (forall x, x <> e -> parent_at s2 x = parent_at s x) /\
    frame motion_perm s2 s'.
Proof.
  intros Ht Hc He Hnone Hrk Hl Hf.
  assert (HeC : e <> C) by (intros ->; lia).
  destruct (put_container_at s C c (set_elements c l') Hc)
    as (s1 & Hput & Hc1 & Hcalls & Hoth & Hpar & _).
  run_with Hput.
  assert (He1 : heap s1 !! e = Some ee) by (rewrite Hoth; assumption).
  run_with (set_parent_run e ee (Some C) s1 He1).
  set (s2 := State
               (<[e := Element (x_pos ee) (y_pos ee) (visible ee) (Some C)
                         (last_pointer_motion_event ee) (vmt ee)]> (heap s1))
               (calls s1)).
  assert (Hc2 : container_at s2 C (set_elements c l')).
  { destruct Hc1 as (e1 & H1 & V1). exists e1. split; [|exact V1].
    unfold s2. simpl. rewrite lookup_insert_ne by exact HeC. exact H1. }
  assert (Hpe : parent_at s2 e = Some C).
  { unfold parent_at, s2. simpl. rewrite lookup_insert_eq. reflexivity. }
  assert (Hcof : forall k, k <> C -> container_of s2 k = container_of s k).
  { intros k Hk. unfold container_of, s2. simpl.
    destruct (decide (k = e)) as [-> | Hke].
    - rewrite lookup_insert_eq, He. reflexivity.
    - rewrite lookup_insert_ne by congruence. rewrite (Hoth k Hk).
      reflexivity. }
  assert (Hpx : forall x, x <> e -> parent_at s2 x = parent_at s x).
  { intros x Hx. rewrite <- (Hpar x). unfold parent_at, s2. simpl.
    rewrite lookup_insert_ne by congruence. reflexivity. }
  assert (Ht2 : tree rank R s2).
  { apply (tree_adopt rank R s s2 C c l' e Ht Hc); try assumption.
    - intros k. unfold s2. simpl.
      destruct (decide (k = e)) as [-> | Hke].
      + rewrite lookup_insert_eq, He. split; eauto.
      + rewrite lookup_insert_ne by congruence.
        destruct (decide (k = C)) as [-> | HkC].
        * split; intros _; eapply container_at_Some; eassumption.
        * rewrite (Hoth k HkC). reflexivity.
    - left. unfold parent_at. rewrite He. exact Hnone.
    - eauto. }
  destruct (update_layout_climb rank R fuel C s2 (tree_nested _ _ _ Ht2) (ex_intro _ _ Hc2) Hf)
    as (root & er & m & b & s' & _ & _ & _ & _ & _ & F & Hrun).
  exists s2, s'. split; [exact Hrun|]. repeat (split; [assumption|]).
  exact F.
Qed.

Lemma adopt_result rank R s2 s' C c0 l' e :
  tree rank R s2 -> container_at s2 C (set_elements c0 l') ->
  parent_at s2 e = Some C -> frame motion_perm s2 s' ->
  tree rank R s' /\
  (exists c', container_at s' C c' /\ elements c' = l' /\
     left_button_element_ptr c' = left_button_element_ptr c0 /\
     pointer_grab_element_ptr c' = pointer_grab_element_ptr c0 /\
     keyboard_focus_element_ptr c' = keyboard_focus_element_ptr c0) /\
  parent_at s' e = Some C.
Proof.
  intros Ht Hc Hp F.
  split; [eapply tree_frame; eassumption|].
  split; [|rewrite (parent_at_frame _ _ _ _ F); exact Hp].
  destruct (frame_container _ _ _ _ _ F Hc) as (c' & Hc' & St).
  destruct St as (Hel & _ & Hcap & Hgrab & Hkbd).
  exists c'. split; [exact Hc'|]. split; [exact Hel|].
  split; [exact (slot_step_fixed _ _ _ Hcap)|].
  split; [exact (slot_step_fixed _ _ _ Hgrab)|].
  exact (slot_step_fixed _ _ _ Hkbd).
Qed.

Lemma elements_kept pi s s' k ck :
  frame pi s s' -> container_at s k ck ->
  exists ck', container_at s' k ck' /\ elements ck' = elements ck.
Proof.
  intros F Hc. destruct (frame_container _ _ _ _ _ F Hc) as (c' & Hc' & St).
  exists c'. split; [exact Hc' | apply St].
Qed.

Lemma add_element_spec rank R fuel s C c e ee :
  tree rank R s -> container_at s C c ->
  heap s !! e = Some ee -> parent_container_ptr ee = None ->
  (rank e < rank C)%nat -> (2 * R + 1 < fuel)%nat ->
  exists s' c',
    wlmtk_container_add_element fuel C e s = Done (tt, s') /\
    tree rank R s' /\
    container_at s' C c' /\ elements c' = e :: elements c /\
    left_button_element_ptr c' = left_button_element_ptr c /\
    pointer_grab_element_ptr c' = pointer_grab_element_ptr c /\
    keyboard_focus_element_ptr c' = keyboard_focus_element_ptr c /\
    parent_at s' e = Some C /\
    slot_of pointer_grab_element_ptr s' e = None /\
    (forall k ck, k <> C -> container_at s k ck ->
       exists ck', container_at s' k ck' /\ elements ck' = elements ck) /\
    (forall x, x <> e -> parent_at s' x = parent_at s x).
Proof.
  intros Ht Hc He Hnone Hrk Hf.
  pose proof Ht as (Hr & Ho & Hpr & Hb & _).
  assert (HCR : (rank C <= R)%nat)
    by (apply Hb; eapply container_at_Some; exact Hc).
  unfold wlmtk_container_add_element. run_element He.
  rewrite Hnone. simpl. rewrite bind_ret.
  destruct (cancel_spec rank fuel e s Hr Ho (ex_intro _ _ He) ltac:(lia))
    as (s1 & l & Hcan & F1 & _ & _ & Hconf & Hclr).
  run_with Hcan.
  pose proof (tree_frame _ _ _ _ _ Ht F1) as Ht1.
  assert (HC1 : heap s1 !! C = heap s !! C).
  { apply Hconf. intros Hbel.
    pose proof (below_rank rank s e C Hpr Hbel). lia. }
  assert (Hc1 : container_at s1 C c).
  { destruct Hc as (eC & HeC & HvC). exists eC. rewrite HC1. eauto. }
  destruct (frame_lookup _ _ _ _ _ F1 He) as (ee1 & He1 & St1).
  assert (Hnone1 : parent_container_ptr ee1 = None).
  { destruct St1 as (_ & _ & _ & P & _). congruence. }
  run_container Hc1.
  destruct (adopt_run rank R fuel s1 C c e ee1
              (bs_dllist_push_front (elements c) e) Ht1 Hc1 He1 Hnone1 Hrk)
    as (s2 & s' & Hrun & Ht2 & Hc2 & Hp2 & Hcof & Hpx & F2); [| lia |].
  { intros q Hq. apply elem_of_cons in Hq as [-> | Hq]; auto. }
  destruct (adopt_result rank R s2 s' C c _ e Ht2 Hc2 Hp2 F2)
    as (Ht' & (c' & Hc' & Hel & Hcap & Hgrab & Hkbd) & Hp').
  exists s', c'. split; [exact Hrun|]. split; [exact Ht'|].
  split; [exact Hc'|]. split; [exact Hel|]. split; [exact Hcap|].
  split; [exact Hgrab|]. split; [exact Hkbd|]. split; [exact Hp'|].
  assert (HeC : e <> C) by (intros ->; lia).
  split; [|split].
  - unfold slot_of.
    destruct (container_of s2 e) as [ce2|] eqn:Hce2.
    + apply container_of_at in Hce2.
      destruct (frame_container _ _ _ _ _ F2 Hce2) as (ce' & Hce' & St).
      apply container_of_at in Hce'. rewrite Hce'.
      destruct St as (_ & _ & _ & Hg & _).
      rewrite (slot_step_fixed _ _ _ Hg).
      apply container_of_at in Hce2. rewrite (Hcof e HeC) in Hce2.
      apply container_of_at in Hce2.
      destruct (frame_container_rev _ _ _ _ _ F1 Hce2) as (ce & Hce & _).
      specialize (Hclr ce Hce). unfold slot_of in Hclr.
      apply container_of_at in Hce2. rewrite Hce2 in Hclr. exact Hclr.
    + destruct (container_of s' e) as [ce'|] eqn:Hce'; [|reflexivity].
      apply container_of_at in Hce'.
      destruct (frame_container_rev _ _ _ _ _ F2 Hce') as (ce & Hce & _).
      apply container_of_at in Hce. congruence.
  - intros k ck Hk Hck.
    destruct (elements_kept _ _ _ _ _ F1 Hck) as (ck1 & Hck1 & E1).
    assert (Hck2 : container_at s2 k ck1).
    { apply container_of_at. rewrite (Hcof k Hk). apply container_of_at.
      exact Hck1. }
    destruct (elements_kept _ _ _ _ _ F2 Hck2) as (ck' & Hck' & E2).
    exists ck'. split; [exact Hck' | congruence].
  - intros x Hx. rewrite (parent_at_frame _ _ _ _ F2), (Hpx x Hx).
    apply (parent_at_frame _ _ _ _ F1).
Qed.

(** X9. Adding an element puts it in front.  For an element that has no
    parent, [wlmtk_container_add_element] returns; the element is then the
    head of the container's list, in front of the former elements in their
    former order, and records the container as its parent; a grab held
    inside the element has been cancelled; the capture, grab and
    keyboard-focus holders of the container are the former ones, no other
    container's list has changed, and the tree is well-formed again. *)
Theorem add_element_puts_in_front rank R fuel s C c e ee :
  tree rank R s -> container_at s C c ->
  heap s !! e = Some ee -> parent_container_ptr ee = None ->
  (rank e < rank C)%nat -> (2 * R + 1 < fuel)%nat ->
  exists s' c',
    wlmtk_container_add_element fuel C e s = Done (tt, s') /\
    tree rank R s' /\
    container_at s' C c' /\ elements c' = e :: elements c /\
    left_button_element_ptr c' = left_button_element_ptr c /\
    pointer_grab_element_ptr c' = pointer_grab_element_ptr c /\
    keyboard_focus_element_ptr c' = keyboard_focus_element_ptr c /\
    parent_at s' e = Some C /\
    slot_of pointer_grab_element_ptr s' e = None /\
    (forall k ck, k <> C -> container_at s k ck ->
       exists ck', container_at s' k ck' /\ elements ck' = elements ck).
Proof.
  intros Ht Hc He Hnone Hrk Hf.
  destruct (add_element_spec rank R fuel s C c e ee Ht Hc He Hnone Hrk Hf)
    as (s' & c' & H1 & H2 & H3 & H4 & H5 & H6 & H7 & H8 & H9 & H10 & _).
  exists s', c'. auto 12.
Qed.

Lemma insert_node_before_spec els r e :
  r ∈ els ->
  exists pre post,
    els = pre ++ r :: post /\ (r ∉ pre) /\
    bs_dllist_insert_node_before els r e = Some (pre ++ e :: r :: post).
Proof.
  induction els as [|q els IH]; intros Hin; [inversion Hin|].
  simpl. destruct (decide (q = r)) as [-> | Hq].
  - exists [], els. rewrite bool_decide_eq_true_2 by reflexivity.
    split; [reflexivity|]. split; [apply not_elem_of_nil | reflexivity].
  - rewrite bool_decide_eq_false_2 by exact Hq.
    apply elem_of_cons in Hin as [-> | Hin]; [contradiction|].
    destruct (IH Hin) as (pre & post & -> & Hpre & ->).
    exists (q :: pre), post. split; [reflexivity|].
    split; [|reflexivity].
    intros H. apply elem_of_cons in H as [-> | H]; contradiction.
Qed.

Lemma add_element_atop_spec rank R fuel s C c reference e ee :
  tree rank R s -> container_at s C c ->
  heap s !! e = Some ee -> parent_container_ptr ee = None ->
  (rank e < rank C)%nat -> (2 * R + 1 < fuel)%nat ->
  (forall r, reference = Some r -> r ∈ elements c) ->
  exists s' c',
    wlmtk_container_add_element_atop fuel C reference e s = Done (tt, s') /\
    tree rank R s' /\ container_at s' C c' /\ parent_at s' e = Some C /\
    match reference with
    | None => elements c' = elements c ++ [e]
    | Some r =>
      exists pre post,
        elements c = pre ++ r :: post /\ (r ∉ pre) /\
        elements c' = pre ++ e :: r :: post
    end /\
    left_button_element_ptr c' = left_button_element_ptr c /\
    pointer_grab_element_ptr c' = pointer_grab_element_ptr c /\
    keyboard_focus_element_ptr c' = keyboard_focus_element_ptr c /\
    (forall x, x <> e -> parent_at s' x = parent_at s x).
Proof.
  intros Ht Hc He Hnone Hrk Hf Href.
  pose proof Ht as (Hr & Ho & Hpr & Hb & _).
  assert (HCR : (rank C <= R)%nat)
    by (apply Hb; eapply container_at_Some; exact Hc).
  unfold wlmtk_container_add_element_atop. run_element He.
  rewrite Hnone. simpl. rewrite bind_ret.
  assert (Hlist : exists l',
    (forall q, q ∈ l' -> q ∈ elements c \/ q = e) /\
    (let* _ :=
       match reference with
       | None => ret tt
       | Some r =>
         let* re := get_element r in
         BS_ASSERT (ptr_eqb (Some C) (parent_container_ptr re))
       end in
     let* c0 := get_container C in
     let* els :=
       match reference with
       | None => ret (bs_dllist_push_back (elements c0) e)
       | Some r =>
         match bs_dllist_insert_node_before (elements c0) r e with
         | Some l => ret l
         | None => fun _ => Wild
         end
       end in
     let* _ := put_container C (set_elements c0 els) in
     let* _ := wlmtk_element_set_parent_container e (Some C) in
     wlmtk_container_update_layout fuel C) s
    = (let* _ := put_container C (set_elements c l') in
       let* _ := wlmtk_element_set_parent_container e (Some C) in
       wlmtk_container_update_layout fuel C) s /\
    match reference with
    | None => l' = elements c ++ [e]
    | Some r =>
      exists pre post,
        elements c = pre ++ r :: post /\ (r ∉ pre) /\
        l' = pre ++ e :: r :: post
    end).
  { destruct reference as [r|].
    - specialize (Href r eq_refl).
      destruct (insert_node_before_spec _ r e Href)
        as (pre & post & Hel & Hpre & Hins).
      exists (pre ++ e :: r :: post). split; [|split].
      + intros q Hq. rewrite Hel.
        rewrite elem_of_app, elem_of_cons in Hq.
        rewrite elem_of_app. tauto.
      + assert (Hrin : r ∈ refs c) by (apply elem_of_refs; left; exact Href).
        destruct (Hr C c Hc r Hrin) as [[re Hre] _].
        pose proof (Ho C c r Hc Hrin) as Hpar.
        unfold parent_at in Hpar. rewrite Hre in Hpar.
        unfold bind at 1. run_element Hre. rewrite Hpar.
        unfold ptr_eqb. rewrite bool_decide_eq_true_2 by reflexivity.
        simpl. run_container Hc. rewrite Hins. rewrite bind_ret.
        reflexivity.
      + exists pre, post. auto.
    - exists (elements c ++ [e]). split; [|split].
      + intros q Hq. rewrite elem_of_app in Hq.
        destruct Hq as [Hq | Hq]; [left; exact Hq|].
        apply list_elem_of_singleton in Hq. right. exact Hq.
      + rewrite bind_ret. run_container Hc. rewrite bind_ret. reflexivity.
      + reflexivity. }
  destruct Hlist as (l' & Hl & Heq & Hshape).
  rewrite Heq.
  destruct (adopt_run rank R fuel s C c e ee l' Ht Hc He Hnone Hrk Hl
              ltac:(lia))
    as (s2 & s' & Hrun & Ht2 & Hc2 & Hp2 & _ & Hpx & F2).
  destruct (adopt_result rank R s2 s' C c _ e Ht2 Hc2 Hp2 F2)
    as (Ht' & (c' & Hc' & Hel & Hcap & Hgrab & Hkbd) & Hp').
  exists s', c'. split; [exact Hrun|]. split; [exact Ht'|].
  split; [exact Hc'|]. split; [exact Hp'|].
  split; [rewrite Hel; exact Hshape|].
  do 3 (split; [assumption|]).
  intros x Hx. rewrite (parent_at_frame _ _ _ _ F2). exact (Hpx x Hx).
Qed.

(** X10. Adding an element atop another.  For an element that has no
    parent, [wlmtk_container_add_element_atop] returns: without a reference
    element, the element becomes the last of the container's list (the
    back); with a reference element of the list, it is placed right before
    the reference, that is one step nearer the front, the other elements
    keeping their order.  The element records the container as its parent
    and the tree is well-formed again. *)
Theorem add_element_atop_places rank R fuel s C c reference e ee :
  tree rank R s -> container_at s C c ->
  heap s !! e = Some ee -> parent_container_ptr ee = None ->
  (rank e < rank C)%nat -> (2 * R + 1 < fuel)%nat ->
  (forall r, reference = Some r -> r ∈ elements c) ->
  exists s' c',
    wlmtk_container_add_element_atop fuel C reference e s = Done (tt, s') /\
    tree rank R s' /\ container_at s' C c' /\ parent_at s' e = Some C /\
    match reference with
    | None => elements c' = elements c ++ [e]
    | Some r =>
      exists pre post,
        elements c = pre ++ r :: post /\ (r ∉ pre) /\
        elements c' = pre ++ e :: r :: post
    end.
Proof.
  intros Ht Hc He Hnone Hrk Hf Href.
  destruct (add_element_atop_spec rank R fuel s C c reference e ee Ht Hc He
              Hnone Hrk Hf Href)
    as (s' & c' & H1 & H2 & H3 & H4 & H5 & _).
  exists s', c'. auto.
Qed.

Lemma remove_absent (l : list ptr) e : e ∉ l -> bs_dllist_remove l e = l.
Proof.
  unfold bs_dllist_remove. induction l as [|q l IH]; intros Hn;
    [reflexivity|].
  rewrite filter_cons. rewrite not_elem_of_cons in Hn. destruct Hn as [Hq Hn].
  destruct (decide (q <> e)) as [_ | Hc]; [|contradiction Hc; congruence].
  rewrite IH by exact Hn. reflexivity.
Qed.

Lemma raise_permutation (l : list ptr) e :
  NoDup l -> e ∈ l -> e :: bs_dllist_remove l e ≡ₚ l.
Proof.
  unfold bs_dllist_remove. induction l as [|q l IH]; intros Hnd Hin;
    [inversion Hin|].
  apply NoDup_cons in Hnd as [Hq Hnd]. rewrite filter_cons.
  destruct (decide (q = e)) as [-> | Hne].
  - destruct (decide (e <> e)) as [Hc | _]; [contradiction|].
    fold (bs_dllist_remove l e). rewrite remove_absent by exact Hq.
    reflexivity.
  - destruct (decide (q <> e)) as [_ | Hc]; [|contradiction].
    apply elem_of_cons in Hin as [-> | Hin]; [contradiction|].
    rewrite Permutation_swap. constructor. exact (IH Hnd Hin).
Qed.

(** X11. Raising an element to the top.  For an element of the container's
    list, [wlmtk_container_raise_element_to_top] returns.  When the element
    is the head of the list already, nothing at all happens: the state is
    the same and no call is made.  Otherwise the element becomes the head
    and the other elements follow in their former order, so that a list
    without repetition is rearranged, nothing lost and nothing added; the
    capture, grab and keyboard-focus holders stay, the tree is well-formed
    again, and raising the element once more changes nothing. *)
Theorem raise_element_to_top_moves_to_head rank R fuel s C c e :
  tree rank R s -> container_at s C c -> e ∈ elements c ->
  (2 * R + 1 < fuel)%nat ->
  (head (elements c) = Some e ->
   wlmtk_container_raise_element_to_top fuel C e s = Done (tt, s)) /\
  (head (elements c) <> Some e ->
   exists s' c',
     wlmtk_container_raise_element_to_top fuel C e s = Done (tt, s') /\
     tree rank R s' /\ container_at s' C c' /\
     elements c' = e :: bs_dllist_remove (elements c) e /\
     (NoDup (elements c) -> elements c' ≡ₚ elements c) /\
     left_button_element_ptr c' = left_button_element_ptr c /\
     pointer_grab_element_ptr c' = pointer_grab_element_ptr c /\
     keyboard_focus_element_ptr c' = keyboard_focus_element_ptr c /\
     wlmtk_container_raise_element_to_top fuel C e s' = Done (tt, s')).
Proof.
  intros Ht Hc Hin Hf.
  pose proof Ht as (Hr & Ho & Hpr & Hb & _).
  assert (HCR : (rank C <= R)%nat)
    by (apply Hb; eapply container_at_Some; exact Hc).
  assert (Hrefs : e ∈ refs c) by (apply elem_of_refs; left; exact Hin).
  destruct (Hr C c Hc e Hrefs) as [[ee He] Hrk].
  pose proof (Ho C c e Hc Hrefs) as Hpar.
  assert (Hpe : parent_container_ptr ee = Some C)
    by (unfold parent_at in Hpar; rewrite He in Hpar; exact Hpar).
  unfold wlmtk_container_raise_element_to_top.
  run_element He. rewrite Hpe.
  rewrite (proj2 (ptr_eqb_true (Some C) (Some C))) by reflexivity.
  simpl. rewrite bind_ret.
  run_container Hc. split; intros Hhead.
  - rewrite (proj2 (ptr_eqb_true (Some e) (head (elements c))))
      by (symmetry; exact Hhead).
    reflexivity.
  - rewrite (proj2 (ptr_eqb_false (Some e) (head (elements c))))
      by (intros Hx; apply Hhead; symmetry; exact Hx).
    set (l' := bs_dllist_push_front (bs_dllist_remove (elements c) e) e).
    destruct (put_container_at s C c (set_elements c l') Hc)
      as (s1 & Hput & Hc1 & Hcalls & Hoth & Hpar1 & _).
    run_with Hput.
    assert (Ht1 : tree rank R s1).
    { apply (tree_adopt rank R s s1 C c l' e Ht Hc); try assumption.
      - intros k. destruct (decide (k = C)) as [-> | Hk].
        + split; intros _; eapply container_at_Some; eassumption.
        + rewrite (Hoth k Hk). reflexivity.
      - intros k Hk. unfold container_of. rewrite (Hoth k Hk). reflexivity.
      - intros x _. apply Hpar1.
      - rewrite Hpar1. exact Hpar.
      - right. exact Hpar.
      - eauto.
      - intros q Hq. apply elem_of_cons in Hq as [-> | Hq]; [auto|].
        left. unfold bs_dllist_remove in Hq.
        apply list_elem_of_filter in Hq. apply Hq. }
    destruct (update_layout_climb rank R fuel C s1 (tree_nested _ _ _ Ht1) (ex_intro _ _ Hc1)
                ltac:(lia))
      as (root & er & m & b & s' & _ & _ & _ & _ & _ & F & Hrun).
    destruct (adopt_result rank R s1 s' C c l' e Ht1 Hc1
                ltac:(rewrite Hpar1; exact Hpar) F)
      as (Ht' & (c' & Hc' & Hel & Hcap & Hgrab & Hkbd) & Hp').
    exists s', c'. split; [exact Hrun|]. split; [exact Ht'|].
    split; [exact Hc'|]. split; [exact Hel|].
    split; [intros Hnd; rewrite Hel; apply raise_permutation; assumption|].
    do 3 (split; [assumption|]).
    destruct (parent_at_Some _ _ _ Hp') as [ee' He'].
    assert (Hpe' : parent_container_ptr ee' = Some C)
      by (unfold parent_at in Hp'; rewrite He' in Hp'; exact Hp').
    run_element He'. rewrite Hpe'.
    rewrite (proj2 (ptr_eqb_true (Some C) (Some C))) by reflexivity.
    simpl. rewrite bind_ret. run_container Hc'. rewrite Hel. simpl.
    rewrite (proj2 (ptr_eqb_true (Some e) (Some e))) by reflexivity.
    reflexivity.
Qed.

(** ** Leaving a container *)

Lemma focus_path_event s s' a k :
  frame event_perm s s' -> focus_path s a k -> focus_path s' a k.
Proof.
  intros F. induction 1 as [el c Hc Hg | el c f k Hc Hg Hf _ IH].
  - eapply focus_path_here; [|exact Hg].
    exact (frame_event_container _ _ _ _ F Hc).
  - eapply focus_path_down; [| exact Hg | exact Hf | exact IH].
    exact (frame_event_container _ _ _ _ F Hc).
Qed.

Lemma focus_path_rank rank s a k :
  ranked rank s -> focus_path s a k -> (rank k <= rank a)%nat.
Proof.
  intros Hr. induction 1 as [el c Hc Hg | el c f k Hc Hg Hf _ IH]; [lia|].
  destruct (Hr el c Hc f (focus_in_refs _ _ Hf)) as [_ Hlt]. lia.
Qed.

Lemma focus_path_start s a k :
  focus_path s a k ->
  exists c, container_at s a c /\ pointer_grab_element_ptr c = None.
Proof. destruct 1; eauto. Qed.

Lemma sentinel_clears rank fuel : forall el ev s,
  ranked rank s -> (rank el < fuel)%nat -> ev_x ev = NAN ->
  (exists c, container_at s el c /\ pointer_grab_element_ptr c = None) ->
  exists s',
    wlmtk_element_pointer_motion fuel el ev s = Done (false, s') /\
    forall k, focus_path s el k ->
      slot_of pointer_focus_element_ptr s' k = None.
Proof.
  induction fuel as [|n IH]; intros el ev s Hr Hlt Hnan (c & Hc & Hg); [lia|].
  pose proof Hc as (e & He & Hv).
  rewrite (motion_container n el ev s e c He Hv).
  pose proof (with_motion_event_frame el e ev s He) as Fb.
  pose proof (with_motion_event_container el e ev s c He Hv) as Hcb.
  pose proof (ranked_frame _ _ _ _ Hr Fb) as Hrb.
  set (sb := with_motion_event el e ev s) in *. clearbody sb.
  destruct (update_no_grab_run rank n sb el c (ev_x ev) (ev_y ev)
              (ev_time_msec ev) (ev_pointer_ptr ev) Hrb Hcb ltac:(lia) Hg)
    as (s1 & Hd & Hrun & Hunt & _).
  rewrite Hnan in Hd, Hrun |- *. rewrite plan_nan in Hd, Hrun.
  simpl in Hd, Hrun.
  exists (with_pointer_focus el None s1). split; [exact Hrun|].
  assert (Hc1 : container_at s1 el c).
  { destruct Hcb as (eb & Heb & Hvb). exists eb. split; [|exact Hvb].
    rewrite (Hunt el) by lia. exact Heb. }
  intros k Hk. inversion Hk as [? c0 Hc0 Hg0 | ? c0 f ? Hc0 Hg0 Hf Hpath];
    subst.
  - rewrite (slot_of_at _ _ _ _ (with_pointer_focus_container s1 k c None Hc1)).
    reflexivity.
  - rewrite (container_at_inj _ _ _ _ Hc0 Hc) in Hf.
    destruct (Hr el c Hc f (focus_in_refs _ _ Hf)) as [_ Hfl].
    pose proof (focus_path_event s sb f k Fb Hpath) as Hpb.
    destruct (IH f (sentinel (ev_time_msec ev) (ev_pointer_ptr ev)) sb Hrb
                ltac:(lia) eq_refl (focus_path_start _ _ _ Hpb))
      as (s1' & Hrun' & Hclr).
    unfold leave in Hd. rewrite Hf in Hd.
    rewrite bool_decide_eq_false_2 in Hd by discriminate.
    simpl in Hd. rewrite (bind_Done_intro _ _ _ _ _ Hrun') in Hd.
    pose proof (focus_path_rank rank s f k Hr Hpath) as Hkr.
    unfold slot_of, container_of.
    rewrite with_pointer_focus_other by (intros ->; lia).
    fold (container_of s1 k). fold (slot_of pointer_focus_element_ptr s1 k).
    injection Hd as <-. exact (Hclr k Hpb).
Qed.

(** ** Removing an element *)

Lemma elem_of_remove (l : list ptr) e q :
  q ∈ bs_dllist_remove l e <-> q ∈ l /\ q <> e.
Proof.
  unfold bs_dllist_remove. rewrite list_elem_of_filter. tauto.
Qed.

Lemma nested_release rank R s s' C c c' e :
  tree rank R s -> container_at s C c -> container_at s' C c' ->
  (forall q, q ∈ refs c' -> q ∈ refs c) ->
  (forall k, is_Some (heap s' !! k) <-> is_Some (heap s !! k)) ->
  (forall k, k <> C -> container_of s' k = container_of s k) ->
  (forall x, x <> e -> parent_at s' x = parent_at s x) ->
  parent_at s' e = None ->
  nested rank R s'.
Proof.
  intros (Hr & Ho & Hpr & Hb & Hpc) Hc Hc' Hrefs Hdom Hoth Hpar He.
  split; [|split; [|split]].
  - intros k c0 H0 q Hq.
    assert (Hs : is_Some (heap s !! q) /\ (rank q < rank k)%nat).
    { destruct (decide (k = C)) as [-> | Hk].
      - rewrite (container_at_inj _ _ _ _ H0 Hc') in Hq.
        exact (Hr C c Hc q (Hrefs q Hq)).
      - apply (Hr k c0); [|exact Hq].
        apply container_of_at. rewrite <- (Hoth k Hk).
        apply container_of_at. exact H0. }
    split; [apply Hdom|]; apply Hs.
  - intros x p Hp. destruct (decide (x = e)) as [-> | Hx]; [congruence|].
    rewrite (Hpar x Hx) in Hp. exact (Hpr x p Hp).
  - intros k Hk. apply Hb. apply Hdom. exact Hk.
  - intros x p Hp. destruct (decide (x = e)) as [-> | Hx]; [congruence|].
    rewrite (Hpar x Hx) in Hp. destruct (Hpc x p Hp) as [c0 H0].
    destruct (decide (p = C)) as [-> | HpC]; [eauto|].
    exists c0. apply container_of_at. rewrite (Hoth p HpC).
    apply container_of_at. exact H0.
Qed.

Lemma focus_step_avoids (c c' : wlmtk_container_t) e :
  container_step motion_perm c c' ->
  e ∉ elements c -> pointer_focus_element_ptr c <> Some e ->
  pointer_focus_element_ptr c' <> Some e.
Proof.
  intros (_ & Hfoc & _) Hnot Hne Heq.
  destruct Hfoc as [H | [_ [H | (q & Hq & Hin)]]]; congruence.
Qed.

(** The first half of [wlmtk_container_remove_element]: the element has lost
    its parent and its place in the list, and the capture slot no longer
    designates it. *)
Lemma remove_prepare rank R s C c e ee :
  tree rank R s -> container_at s C c ->
  heap s !! e = Some ee -> parent_container_ptr ee = Some C ->
  exists s1 s2 s3 c3,
    wlmtk_element_set_parent_container e None s = Done (tt, s1) /\
    container_at s1 C c /\
    put_container C
      (set_elements c (bs_dllist_remove (elements c) e)) s1
    = Done (tt, s2) /\
    container_at s2 C (set_elements c (bs_dllist_remove (elements c) e)) /\
    (if ptr_eqb (left_button_element_ptr c) (Some e)
     then put_container C
            (set_left_button
               (set_elements c (bs_dllist_remove (elements c) e)) None)
     else ret tt) s2 = Done (tt, s3) /\
    nested rank R s3 /\ container_at s3 C c3 /\
    elements c3 = bs_dllist_remove (elements c) e /\
    pointer_focus_element_ptr c3 = pointer_focus_element_ptr c /\
    pointer_grab_element_ptr c3 = pointer_grab_element_ptr c /\
    keyboard_focus_element_ptr c3 = keyboard_focus_element_ptr c /\
    left_button_element_ptr c3
    = (if ptr_eqb (left_button_element_ptr c) (Some e) then None
       else left_button_element_ptr c) /\
    parent_at s3 e = None /\
    (forall x, x <> e -> parent_at s3 x = parent_at s x) /\
    calls s3 = calls s.
Proof.
  intros Ht Hc He Hpe.
  pose proof Ht as (Hr & Ho & Hpr & Hb & Hpc).
  assert (HeC : e <> C).
  { intros ->. assert (Hp : parent_at s C = Some C)
      by (unfold parent_at; rewrite He; exact Hpe).
    pose proof (Hpr C C Hp). lia. }
  pose proof (set_parent_run e ee None s He) as Hset.
  set (s1 := State
               (<[e := Element (x_pos ee) (y_pos ee) (visible ee) None
                         (last_pointer_motion_event ee) (vmt ee)]> (heap s))
               (calls s)) in *.
  assert (Hc1 : container_at s1 C c).
  { destruct Hc as (eC & H1 & V1). exists eC. split; [|exact V1].
    unfold s1. simpl. rewrite lookup_insert_ne by exact HeC. exact H1. }
  set (l' := bs_dllist_remove (elements c) e).
  destruct (put_container_at s1 C c (set_elements c l') Hc1)
    as (s2 & Hput & Hc2 & Hcalls2 & Hoth2 & Hpar2 & _).
  assert (Hcap : exists s3 c3,
    (if ptr_eqb (left_button_element_ptr (set_elements c l')) (Some e)
     then put_container C (set_left_button (set_elements c l') None)
     else ret tt) s2 = Done (tt, s3) /\
    container_at s3 C c3 /\ elements c3 = l' /\
    pointer_focus_element_ptr c3 = pointer_focus_element_ptr c /\
    pointer_grab_element_ptr c3 = pointer_grab_element_ptr c /\
    keyboard_focus_element_ptr c3 = keyboard_focus_element_ptr c /\
    left_button_element_ptr c3
    = (if ptr_eqb (left_button_element_ptr c) (Some e) then None
       else left_button_element_ptr c) /\
    (forall x, x <> C -> heap s3 !! x = heap s2 !! x) /\
    (forall x, parent_at s3 x = parent_at s2 x) /\ calls s3 = calls s2).
  { destruct (ptr_eqb (left_button_element_ptr (set_elements c l')) (Some e))
      eqn:Heq.
    - destruct (put_container_at s2 C _
                  (set_left_button (set_elements c l') None) Hc2)
        as (s3 & Hput3 & Hc3 & Hcalls3 & Hoth3 & Hpar3 & _).
      exists s3, (set_left_button (set_elements c l') None).
      split; [exact Hput3|]. split; [exact Hc3|].
      simpl in *. rewrite Heq. do 5 (split; [reflexivity|]).
      split; [exact Hoth3|]. split; [exact Hpar3 | exact Hcalls3].
    - apply ptr_eqb_false in Heq.
      exists s2, (set_elements c l'). split; [reflexivity|].
      split; [exact Hc2|]. simpl in *.
      rewrite (proj2 (ptr_eqb_false _ _) Heq).
      do 5 (split; [reflexivity|]).
      split; [reflexivity|]. split; reflexivity. }
  destruct Hcap as (s3 & c3 & Hrun3 & Hc3 & Hel3 & Hf3 & Hg3 & Hk3 & Hl3
                    & Hoth3 & Hpar3 & Hcalls3).
  exists s1, s2, s3, c3. split; [exact Hset|]. split; [exact Hc1|].
  split; [exact Hput|]. split; [exact Hc2|]. split; [exact Hrun3|].
  assert (Hp1 : forall x, x <> e -> parent_at s1 x = parent_at s x).
  { intros x Hx. unfold parent_at, s1. simpl.
    rewrite lookup_insert_ne by congruence. reflexivity. }
  assert (Hpe3 : parent_at s3 e = None).
  { rewrite Hpar3, Hpar2. unfold parent_at, s1. simpl.
    rewrite lookup_insert_eq. reflexivity. }
  assert (Hp3 : forall x, x <> e -> parent_at s3 x = parent_at s x).
  { intros x Hx. rewrite Hpar3, Hpar2. exact (Hp1 x Hx). }
  split.
  { apply (nested_release rank R s s3 C c c3 e Ht Hc Hc3);
      try assumption.
    - intros q Hq. apply elem_of_refs in Hq as [Hq | Hq].
      + rewrite Hel3 in Hq. apply elem_of_remove in Hq as [Hq _].
        apply elem_of_refs. left. exact Hq.
      + apply elem_of_refs. right. apply elem_of_slots in Hq.
        apply elem_of_slots. rewrite Hf3, Hg3, Hk3, Hl3 in Hq.
        destruct (ptr_eqb (left_button_element_ptr c) (Some e));
          intuition congruence.
    - intros k. destruct (decide (k = C)) as [-> | HkC].
      + split; intros _; eapply container_at_Some; eassumption.
      + rewrite (Hoth3 k HkC), (Hoth2 k HkC). unfold s1. simpl.
        destruct (decide (k = e)) as [-> | Hke].
        * rewrite lookup_insert_eq, He. split; eauto.
        * rewrite lookup_insert_ne by congruence. reflexivity.
    - intros k HkC. unfold container_of.
      rewrite (Hoth3 k HkC), (Hoth2 k HkC). unfold s1. simpl.
      destruct (decide (k = e)) as [-> | Hke].
      + rewrite lookup_insert_eq, He. reflexivity.
      + rewrite lookup_insert_ne by congruence. reflexivity. }
  repeat (split; [assumption|]).
  rewrite Hcalls3, Hcalls2. reflexivity.
Qed.

Lemma remove_element_spec rank R fuel s C c e ee :
  tree rank R s -> container_at s C c ->
  heap s !! e = Some ee -> parent_container_ptr ee = Some C ->
  pointer_grab_element_ptr c <> Some e ->
  keyboard_focus_element_ptr c <> Some e ->
  pointer_focus_element_ptr c <> Some e \/
    (parent_at s C = None /\ pointer_grab_element_ptr c = None) ->
  (2 * R + 1 < fuel)%nat ->
  exists s' c',
    wlmtk_container_remove_element fuel C e s = Done (tt, s') /\
    container_at s' C c' /\
    elements c' = bs_dllist_remove (elements c) e /\
    (e ∉ refs c') /\ parent_at s' e = None /\
    left_button_element_ptr c'
    = (if ptr_eqb (left_button_element_ptr c) (Some e) then None
       else left_button_element_ptr c) /\
    pointer_grab_element_ptr c' = pointer_grab_element_ptr c /\
    keyboard_focus_element_ptr c' = keyboard_focus_element_ptr c /\
    (forall x, x <> e -> parent_at s' x = parent_at s x).
Proof.
  intros Ht Hc He Hpe Hgrab Hkbd Hfoc Hf.
  destruct (remove_prepare rank R s C c e ee Ht Hc He Hpe)
    as (s1 & s2 & s3 & c3 & Hset & Hc1 & Hput & Hc2 & Hcap & Hn3 & Hc3 & Hel3
        & Hf3 & Hg3 & Hk3 & Hl3 & Hpe3 & Hp3 & Hcalls3).
  assert (HeC : e <> C).
  { intros ->. pose proof Ht as (_ & _ & Hpr & _).
    assert (Hp : parent_at s C = Some C)
      by (unfold parent_at; rewrite He; exact Hpe).
    pose proof (Hpr C C Hp). lia. }
  pose proof Hn3 as (Hr3 & _ & Hb3 & _).
  assert (HCR : (rank C <= R)%nat)
    by (apply Hb3; eapply container_at_Some; exact Hc3).
  unfold wlmtk_container_remove_element.
  run_element He. rewrite Hpe.
  rewrite (proj2 (ptr_eqb_true (Some C) (Some C))) by reflexivity.
  simpl. rewrite bind_ret.
  run_with Hset. run_container Hc1. run_with Hput. run_container Hc2.
  simpl.
  rewrite (proj2 (ptr_eqb_false (pointer_grab_element_ptr c) (Some e)))
    by exact Hgrab.
  rewrite bind_ret. run_container Hc2. simpl.
  run_with Hcap. run_container Hc3. rewrite Hk3.
  rewrite (proj2 (ptr_eqb_false (keyboard_focus_element_ptr c) (Some e)))
    by exact Hkbd.
  rewrite bind_ret.
  destruct (update_layout_climb rank R fuel C s3 Hn3 (ex_intro _ _ Hc3)
              ltac:(lia))
    as (root & er & m & b & s4 & Hroot & Her & Hnone & Hm & Hup & F34 & Hrun4).
  run_with Hrun4.
  destruct (frame_container _ _ _ _ _ F34 Hc3) as (c4 & Hc4 & St4).
  assert (Hnot3 : e ∉ elements c3).
  { rewrite Hel3. intros H. apply elem_of_remove in H. tauto. }
  assert (Hf4 : pointer_focus_element_ptr c4 <> Some e).
  { destruct Hfoc as [Hne | [Hroot' Hnog]].
    - apply (focus_step_avoids c3 c4 e St4 Hnot3). rewrite Hf3. exact Hne.
    - destruct Hroot as [-> | Hab].
      + destruct (update_no_grab_run rank m s3 C c3
                    (ev_x (last_pointer_motion_event er))
                    (ev_y (last_pointer_motion_event er))
                    (ev_time_msec (last_pointer_motion_event er))
                    (ev_pointer_ptr (last_pointer_motion_event er))
                    Hr3 Hc3 ltac:(lia) ltac:(rewrite Hg3; exact Hnog))
          as (s0 & _ & Hrun' & Hunt & _).
        rewrite Hrun' in Hup. injection Hup as _ Hs4.
        assert (Hc0 : container_at s0 C c3).
        { destruct Hc3 as (e3 & H3 & V3). exists e3. split; [|exact V3].
          rewrite (Hunt C) by lia. exact H3. }
        pose proof (with_pointer_focus_container s0 C c3
                      (plan (accepts m) (wlmtk_element_get_pointer_area m)
                         (heap s3)
                         (ev_x (last_pointer_motion_event er))
                         (ev_y (last_pointer_motion_event er))
                         (ev_time_msec (last_pointer_motion_event er))
                         (ev_pointer_ptr (last_pointer_motion_event er))
                         (elements c3)).2 Hc0) as Hc4'.
        rewrite Hs4 in Hc4'.
        rewrite (container_at_inj _ _ _ _ Hc4 Hc4'). simpl.
        intros Hw.
        destruct (plan_winner _ _ _ _ _ _ _ _ _ Hw)
          as (pre & post & Hsplit & _).
        apply Hnot3. rewrite Hsplit. apply elem_of_app. right. left.
      + exfalso. rewrite <- (Hp3 C) in Hroot' by congruence.
        inversion Hab as [? ? Hp | ? ? ? Hp _]; subst; congruence. }
  pose proof (nested_frame _ _ _ _ _ Hn3 F34) as Hn4.
  destruct (update_pointer_focus_climb rank R fuel C s4 Hn4
              (ex_intro _ _ Hc4) ltac:(lia))
    as (root5 & er5 & m5 & b5 & s5 & _ & _ & _ & _ & _ & F45 & Hrun5).
  run_with Hrun5.
  destruct (frame_container _ _ _ _ _ F45 Hc4) as (c5 & Hc5 & St5).
  pose proof St4 as (Hel4 & _ & Hcap4 & Hgrab4 & Hkbd4).
  pose proof St5 as (Hel5 & _ & Hcap5 & Hgrab5 & Hkbd5).
  apply slot_step_fixed in Hcap4, Hgrab4, Hkbd4, Hcap5, Hgrab5, Hkbd5.
  assert (Hf5 : pointer_focus_element_ptr c5 <> Some e).
  { apply (focus_step_avoids c4 c5 e St5); [|exact Hf4].
    rewrite Hel4. exact Hnot3. }
  run_container Hc5.
  rewrite (proj2 (ptr_eqb_false (Some e) (pointer_focus_element_ptr c5)))
    by congruence.
  simpl. rewrite bind_ret.
  rewrite (proj2 (ptr_eqb_false (Some e) (keyboard_focus_element_ptr c5)))
    by congruence.
  simpl. exists s5, c5. split; [reflexivity|]. split; [exact Hc5|].
  assert (Hl5 : left_button_element_ptr c5 <> Some e).
  { rewrite Hcap5, Hcap4, Hl3.
    destruct (ptr_eqb (left_button_element_ptr c) (Some e)) eqn:Heq;
      [discriminate|]. apply ptr_eqb_false. exact Heq. }
  split; [congruence|]. split; [|split; [|split; [|split; [|split]]]].
  - intros Hin. apply elem_of_refs in Hin as [Hin | Hin].
    + rewrite Hel5, Hel4 in Hin. contradiction.
    + apply elem_of_slots in Hin. intuition congruence.
  - rewrite (parent_at_frame _ _ _ _ F45), (parent_at_frame _ _ _ _ F34).
    exact Hpe3.
  - congruence.
  - congruence.
  - congruence.
  - intros x Hx.
    rewrite (parent_at_frame _ _ _ _ F45), (parent_at_frame _ _ _ _ F34).
    exact (Hp3 x Hx).
Qed.

(** X13. Removing an element that holds neither grab nor keyboard focus.
    Let [e] be an element whose parent is the container [C], and which is
    neither the grab holder nor the keyboard-focus holder of [C].  If [e] is
    not the pointer-focus holder of [C], or if [C] is the outermost
    container and holds no grab, [wlmtk_container_remove_element] returns:
    [e] is gone from the list, whose other elements keep their order, none
    of the four slots of [C] designates [e], and [e] has no parent. *)
Theorem remove_element_detaches rank R fuel s C c e ee :
  tree rank R s -> container_at s C c ->
  heap s !! e = Some ee -> parent_container_ptr ee = Some C ->
  pointer_grab_element_ptr c <> Some e ->
  keyboard_focus_element_ptr c <> Some e ->
  pointer_focus_element_ptr c <> Some e \/
    (parent_at s C = None /\ pointer_grab_element_ptr c = None) ->
  (2 * R + 1 < fuel)%nat ->
  exists s' c',
    wlmtk_container_remove_element fuel C e s = Done (tt, s') /\
    container_at s' C c' /\
    elements c' = bs_dllist_remove (elements c) e /\
    (e ∉ refs c') /\ parent_at s' e = None.
Proof.
  intros Ht Hc He Hpe Hgrab Hkbd Hfoc Hf.
  destruct (remove_element_spec rank R fuel s C c e ee Ht Hc He Hpe Hgrab
              Hkbd Hfoc Hf)
    as (s' & c' & H1 & H2 & H3 & H4 & H5 & _).
  exists s', c'. auto.
Qed.

Lemma remove_after_adopt rank R fuel s s1 C c c1 e ee :
  tree rank R s -> container_at s C c ->
  heap s !! e = Some ee -> parent_container_ptr ee = None ->
  parent_at s C = None -> pointer_grab_element_ptr c = None ->
  (2 * R + 1 < fuel)%nat ->
  tree rank R s1 -> container_at s1 C c1 -> parent_at s1 e = Some C ->
  bs_dllist_remove (elements c1) e = elements c ->
  left_button_element_ptr c1 = left_button_element_ptr c ->
  pointer_grab_element_ptr c1 = pointer_grab_element_ptr c ->
  keyboard_focus_element_ptr c1 = keyboard_focus_element_ptr c ->
  (forall x, x <> e -> parent_at s1 x = parent_at s x) ->
  exists s2 c2,
    wlmtk_container_remove_element fuel C e s1 = Done (tt, s2) /\
    container_at s2 C c2 /\
    elements c2 = elements c /\
    left_button_element_ptr c2 = left_button_element_ptr c /\
    pointer_grab_element_ptr c2 = pointer_grab_element_ptr c /\
    keyboard_focus_element_ptr c2 = keyboard_focus_element_ptr c /\
    parent_at s2 e = None.
Proof.
  intros Ht Hc He Hnone Hroot Hgrab Hf Ht1 Hc1 Hp1 Hel1 Hcap1 Hg1 Hk1 Hpar1.
  pose proof Ht as (_ & Ho & Hpr & _).
  assert (Hslots : forall v, v ∈ slots c -> v <> e).
  { intros v Hv ->.
    assert (Hin : e ∈ refs c) by (apply elem_of_refs; right; exact Hv).
    pose proof (Ho C c e Hc Hin) as Hp.
    unfold parent_at in Hp. rewrite He in Hp. congruence. }
  assert (HeC : e <> C).
  { intros ->. pose proof Ht1 as (_ & _ & Hpr1 & _).
    pose proof (Hpr1 C C Hp1). lia. }
  destruct (parent_at_Some _ _ _ Hp1) as [ee1 He1].
  assert (Hpe1 : parent_container_ptr ee1 = Some C)
    by (unfold parent_at in Hp1; rewrite He1 in Hp1; exact Hp1).
  destruct (remove_element_spec rank R fuel s1 C c1 e ee1 Ht1 Hc1 He1 Hpe1)
    as (s2 & c2 & Hrem & Hc2 & Hel2 & _ & Hp2 & Hcap2 & Hg2 & Hk2 & _);
    [| | | exact Hf |].
  - rewrite Hg1, Hgrab. discriminate.
  - rewrite Hk1. intros Hk. apply (Hslots e); [|reflexivity].
    apply elem_of_slots. auto.
  - right. split; [rewrite (Hpar1 C) by congruence; exact Hroot|].
    rewrite Hg1. exact Hgrab.
  - exists s2, c2. split; [exact Hrem|]. split; [exact Hc2|].
    split; [congruence|]. split.
    { rewrite Hcap2, Hcap1.
      rewrite (proj2 (ptr_eqb_false (left_button_element_ptr c) (Some e)));
        [reflexivity|].
      intros Hl. apply (Hslots e); [|reflexivity].
      apply elem_of_slots. auto. }
    split; [congruence|]. split; [congruence | exact Hp2].
Qed.

Lemma remove_inserted (l pre post : list ptr) e :
  e ∉ l -> l = pre ++ post ->
  bs_dllist_remove (pre ++ e :: post) e = l.
Proof.
  intros Hn ->. unfold bs_dllist_remove.
  rewrite filter_app, filter_cons.
  destruct (decide (e <> e)) as [Hc | _]; [contradiction|].
  rewrite <- filter_app. apply remove_absent. exact Hn.
Qed.

Lemma add_then_remove_any rank R fuel s C c e ee :
  tree rank R s -> container_at s C c ->
  heap s !! e = Some ee -> parent_container_ptr ee = None ->
  (rank e < rank C)%nat ->
  parent_at s C = None -> pointer_grab_element_ptr c = None ->
  (2 * R + 1 < fuel)%nat ->
  forall add,
    add = wlmtk_container_add_element fuel C e \/
    (exists reference,
       add = wlmtk_container_add_element_atop fuel C reference e /\
       forall r, reference = Some r -> r ∈ elements c) ->
    exists s1 s2 c2,
      add s = Done (tt, s1) /\
      wlmtk_container_remove_element fuel C e s1 = Done (tt, s2) /\
      container_at s2 C c2 /\
      elements c2 = elements c /\
      left_button_element_ptr c2 = left_button_element_ptr c /\
      pointer_grab_element_ptr c2 = pointer_grab_element_ptr c /\
      keyboard_focus_element_ptr c2 = keyboard_focus_element_ptr c /\
      parent_at s2 e = None.
Proof.
  intros Ht Hc He Hnone Hrk Hroot Hgrab Hf add Hadd.
  pose proof Ht as (_ & Ho & _).
  assert (Hfresh : e ∉ elements c).
  { intros Hin.
    assert (Hin' : e ∈ refs c) by (apply elem_of_refs; left; exact Hin).
    pose proof (Ho C c e Hc Hin') as Hp.
    unfold parent_at in Hp. rewrite He in Hp. congruence. }
  assert (Hmid : exists s1 c1,
    add s = Done (tt, s1) /\ tree rank R s1 /\ container_at s1 C c1 /\
    parent_at s1 e = Some C /\
    bs_dllist_remove (elements c1) e = elements c /\
    left_button_element_ptr c1 = left_button_element_ptr c /\
    pointer_grab_element_ptr c1 = pointer_grab_element_ptr c /\
    keyboard_focus_element_ptr c1 = keyboard_focus_element_ptr c /\
    (forall x, x <> e -> parent_at s1 x = parent_at s x)).
  { destruct Hadd as [-> | (reference & -> & Href)].
    - destruct (add_element_spec rank R fuel s C c e ee Ht Hc He Hnone Hrk Hf)
        as (s1 & c1 & Hrun & Ht1 & Hc1 & Hel1 & Hcap1 & Hg1 & Hk1 & Hp1 & _
            & _ & Hpar1).
      exists s1, c1. repeat (split; [assumption|]).
      split; [|auto].
      rewrite Hel1. apply (remove_inserted (elements c) [] (elements c) e);
        [exact Hfresh | reflexivity].
    - destruct (add_element_atop_spec rank R fuel s C c reference e ee Ht Hc
                  He Hnone Hrk Hf Href)
        as (s1 & c1 & Hrun & Ht1 & Hc1 & Hp1 & Hshape & Hcap1 & Hg1 & Hk1
            & Hpar1).
      exists s1, c1. repeat (split; [assumption|]).
      split; [|auto].
      destruct reference as [r|].
      + destruct Hshape as (pre & post & Hel & _ & ->).
        apply (remove_inserted (elements c) pre (r :: post) e);
          [exact Hfresh | exact Hel].
      + rewrite Hshape.
        apply (remove_inserted (elements c) (elements c) [] e);
          [exact Hfresh | symmetry; apply app_nil_r]. }
  destruct Hmid as (s1 & c1 & Hrun & Ht1 & Hc1 & Hp1 & Hel1 & Hcap1 & Hg1
                    & Hk1 & Hpar1).
  destruct (remove_after_adopt rank R fuel s s1 C c c1 e ee Ht Hc He Hnone
              Hroot Hgrab Hf Ht1 Hc1 Hp1 Hel1 Hcap1 Hg1 Hk1 Hpar1)
    as (s2 & c2 & H).
  exists s1, s2, c2. split; [exact Hrun | exact H].
Qed.

(** X14. Adding an element and removing it again.  In the outermost
    container, holding no grab, adding an element that has no parent (in
    front, or at the back, or atop a reference element of the list) and
    then removing it both return; the container then has its former list of
    elements and its former capture, grab and keyboard-focus holders, and
    the element has no parent again. *)
Theorem add_then_remove_restores rank R fuel s C c e ee :
  tree rank R s -> container_at s C c ->
  heap s !! e = Some ee -> parent_container_ptr ee = None ->
  (rank e < rank C)%nat ->
  parent_at s C = None -> pointer_grab_element_ptr c = None ->
  (2 * R + 1 < fuel)%nat ->
  (exists s1 s2,
     wlmtk_container_add_element fuel C e s = Done (tt, s1) /\
     wlmtk_container_remove_element fuel C e s1 = Done (tt, s2) /\
     restored C c e s2) /\
  (forall reference,
     (forall r, reference = Some r -> r ∈ elements c) ->
     exists s1 s2,
       wlmtk_container_add_element_atop fuel C reference e s
       = Done (tt, s1) /\
       wlmtk_container_remove_element fuel C e s1 = Done (tt, s2) /\
       restored C c e s2).
Proof.
  intros Ht Hc He Hnone Hrk Hroot Hgrab Hf.
  pose proof (add_then_remove_any rank R fuel s C c e ee Ht Hc He Hnone Hrk
                Hroot Hgrab Hf) as Hany.
  split.
  - destruct (Hany _ (or_introl eq_refl))
      as (s1 & s2 & c2 & H1 & H2 & H3).
    exists s1, s2. split; [exact H1|]. split; [exact H2|].
    exists c2. exact H3.
  - intros reference Href.
    destruct (Hany _ (or_intror (ex_intro _ reference (conj eq_refl Href))))
      as (s1 & s2 & c2 & H1 & H2 & H3).
    exists s1, s2. split; [exact H1|]. split; [exact H2|].
    exists c2. exact H3.
Qed.

(** ** Geometry is not a matter of events *)

Lemma dimensions_frame pi s s' n el :
  frame pi s s' ->
  wlmtk_element_get_dimensions n (heap s') el
  = wlmtk_element_get_dimensions n (heap s) el.
Proof.
  intros F. revert el. induction n as [|n IH]; intros el; simpl;
    [reflexivity|].
  destruct (heap s !! el) as [e|] eqn:He.
  - destruct (frame_lookup _ _ _ _ _ F He) as (e' & -> & St).
    destruct St as (_ & _ & _ & _ & _ & Sv). unfold vmt_step in Sv.
    destruct (vmt e) as [l|c], (vmt e') as [l'|c']; try contradiction.
    + congruence.
    + unfold _wlmtk_container_element_get_dimensions, container_box.
      destruct Sv as (-> & _).
      rewrite (aggregate_frame pi s s' (wlmtk_element_get_dimensions n)
                 (wlmtk_element_get_dimensions n)); [reflexivity|exact F|].
      intros q _. apply IH.
  - rewrite (frame_none _ _ _ _ F He). reflexivity.
Qed.

(** X15. Delivering events changes no geometry.  After a pointer motion or
    a button event has been delivered anywhere in the tree, every element
    has the dimensions and the pointer area it had before. *)
Theorem event_delivery_keeps_geometry fuel el s s' n k :
  (exists ev b, wlmtk_element_pointer_motion fuel el ev s = Done (b, s')) \/
  (exists ev b, wlmtk_element_pointer_button fuel el ev s = Done (b, s')) ->
  wlmtk_element_get_dimensions n (heap s') k
  = wlmtk_element_get_dimensions n (heap s) k /\
  wlmtk_element_get_pointer_area n (heap s') k
  = wlmtk_element_get_pointer_area n (heap s) k.
Proof.
  intros [(ev & b & H) | (ev & b & H)].
  - pose proof (proj1 (motion_evolves _ _ _ _ _ _ H)) as F.
    split; [eapply dimensions_frame | eapply area_frame]; exact F.
  - pose proof (proj1 (button_evolves _ _ _ _ _ _ H)) as F.
    split; [eapply dimensions_frame | eapply area_frame]; exact F.
Qed.

(** ** Leaving a container, in one statement *)

(** X12. A leave notification clears the pointer focus all the way down.
    A motion event whose x coordinate is not a number, delivered to a
    container that holds no grab, is reported not accepted, and afterwards
    neither that container nor any container that was reached from it by
    going from pointer-focus holder to pointer-focus holder (through
    containers holding no grab) has a pointer-focus holder. *)
Theorem leave_clears_focus_path rank fuel el ev s c :
  ranked rank s -> container_at s el c ->
  pointer_grab_element_ptr c = None ->
  ev_x ev = NAN -> (rank el < fuel)%nat ->
  exists s',
    wlmtk_element_pointer_motion fuel el ev s = Done (false, s') /\
    forall k, focus_path s el k ->
      slot_of pointer_focus_element_ptr s' k = None.
Proof.
  intros Hr Hc Hg Hnan Hf.
  apply (sentinel_clears rank fuel el ev s Hr Hf Hnan). eauto.
Qed.

(** ** The guards of the exported functions *)

(** X16. Every operation checks whose element it is given.  Adding an
    element that has a parent aborts; removing or raising an element, making
    it the grab holder or the keyboard-focus holder, or releasing its grab,
    aborts when the element's parent is not the container the operation is
    called on. *)
Theorem foreign_elements_abort fuel s C e ee :
  heap s !! e = Some ee ->
  (parent_container_ptr ee <> None ->
   wlmtk_container_add_element fuel C e s = Fatal /\
   forall reference,
     wlmtk_container_add_element_atop fuel C reference e s = Fatal) /\
  (parent_container_ptr ee <> Some C ->
   wlmtk_container_remove_element fuel C e s = Fatal /\
   wlmtk_container_raise_element_to_top fuel C e s = Fatal /\
   wlmtk_container_pointer_grab (S fuel) C e s = Fatal /\
   wlmtk_container_pointer_grab_release (S fuel) C e s = Fatal /\
   wlmtk_container_set_keyboard_focus_element (S fuel) C (Some e) s = Fatal).
Proof.
  intros He. split; intros Hp.
  - assert (H1 : ptr_eqb None (parent_container_ptr ee) = false)
      by (apply ptr_eqb_false; congruence).
    split; [|intros reference].
    + unfold wlmtk_container_add_element. run_element He. rewrite H1.
      reflexivity.
    + unfold wlmtk_container_add_element_atop. run_element He. rewrite H1.
      reflexivity.
  - assert (H1 : ptr_eqb (parent_container_ptr ee) (Some C) = false)
      by (apply ptr_eqb_false; congruence).
    assert (H2 : ptr_eqb (Some C) (parent_container_ptr ee) = false)
      by (apply ptr_eqb_false; congruence).
    split; [|split; [|split; [|split]]].
    + unfold wlmtk_container_remove_element. run_element He. rewrite H1.
      reflexivity.
    + unfold wlmtk_container_raise_element_to_top. run_element He.
      rewrite H1. reflexivity.
    + rewrite pointer_grab_unfold. run_element He. rewrite H2. reflexivity.
    + rewrite grab_release_unfold. run_element He. rewrite H2. reflexivity.
    + rewrite set_keyboard_focus_unfold. unfold bind at 1. run_element He.
      rewrite H1. reflexivity.
Qed.

(** ** Removal under a grab held by another element *)

Lemma grabbed_update_keeps rank m s C c g x y t p b s' :
  ranked rank s -> container_at s C c ->
  pointer_grab_element_ptr c = Some g -> (rank C <= m)%nat ->
  update_pointer_focus_at (wlmtk_element_pointer_motion m)
    (wlmtk_element_get_pointer_area m) C x y t p s = Done (b, s') ->
  heap s' !! C = heap s !! C.
Proof.
  intros Hr Hc Hg Hm H.
  destruct (Hr C c Hc g (grab_in_refs _ _ Hg)) as [[ge Hge] Hgl].
  rewrite (update_grab_run _ _ s C c g ge _ _ _ _ Hc Hg Hge) in H.
  destruct (motion_spec rank m g (local_event ge x y t p) s Hr
              (ex_intro _ _ Hge) ltac:(lia)) as (s1 & Hrun & Hunt).
  rewrite (bind_Done_intro _ _ _ _ _ Hrun) in H. inv_step H.
  apply Hunt. lia.
Qed.

Lemma root_is_self s C root :
  parent_at s C = None -> root = C \/ above s C root -> root = C.
Proof.
  intros Hp [-> | Hab]; [reflexivity|].
  inversion Hab; subst; congruence.
Qed.

(** X17. Removing the pointer-focus holder under another element's grab
    aborts.  When the outermost container holds a grab for one element and
    its pointer focus is on another, removing the latter (which holds
    neither the keyboard focus nor the grab) ends in the abort of the
    closing assertion: both focus recomputations only pass a motion to the
    grab holder and leave the focus slot on the removed element. *)
Theorem remove_aborts_on_stale_focus rank R fuel s C c e ee g :
  tree rank R s -> container_at s C c ->
  heap s !! e = Some ee -> parent_container_ptr ee = Some C ->
  parent_at s C = None ->
  pointer_grab_element_ptr c = Some g -> g <> e ->
  pointer_focus_element_ptr c = Some e ->
  keyboard_focus_element_ptr c <> Some e ->
  (2 * R + 1 < fuel)%nat ->
  wlmtk_container_remove_element fuel C e s = Fatal.
Proof.
  intros Ht Hc He Hpe Hroot Hg Hge Hfoc Hkbd Hf.
  destruct (remove_prepare rank R s C c e ee Ht Hc He Hpe)
    as (s1 & s2 & s3 & c3 & Hset & Hc1 & Hput & Hc2 & Hcap & Hn3 & Hc3 & Hel3
        & Hf3 & Hg3 & Hk3 & Hl3 & Hpe3 & Hp3 & Hcalls3).
  assert (HeC : e <> C).
  { intros ->. pose proof Ht as (_ & _ & Hpr & _).
    assert (Hp : parent_at s C = Some C)
      by (unfold parent_at; rewrite He; exact Hpe).
    pose proof (Hpr C C Hp). lia. }
  pose proof Hn3 as (Hr3 & _ & Hb3 & _).
  assert (HCR : (rank C <= R)%nat)
    by (apply Hb3; eapply container_at_Some; exact Hc3).
  assert (Hroot3 : parent_at s3 C = None)
    by (rewrite (Hp3 C) by congruence; exact Hroot).
  unfold wlmtk_container_remove_element.
  run_element He. rewrite Hpe.
  rewrite (proj2 (ptr_eqb_true (Some C) (Some C))) by reflexivity.
  simpl. rewrite bind_ret.
  run_with Hset. run_container Hc1. run_with Hput. run_container Hc2.
  simpl.
  rewrite (proj2 (ptr_eqb_false (pointer_grab_element_ptr c) (Some e)))
    by congruence.
  rewrite bind_ret. run_container Hc2. simpl.
  run_with Hcap. run_container Hc3. rewrite Hk3.
  rewrite (proj2 (ptr_eqb_false (keyboard_focus_element_ptr c) (Some e)))
    by exact Hkbd.
  rewrite bind_ret.
  destruct (update_layout_climb rank R fuel C s3 Hn3 (ex_intro _ _ Hc3)
              ltac:(lia))
    as (root & er & m & b & s4 & Hr4 & Her & Hnone & Hm & Hup & F34 & Hrun4).
  run_with Hrun4.
  apply (root_is_self s3 C root Hroot3) in Hr4. subst root.
  pose proof (grabbed_update_keeps rank m s3 C c3 g _ _ _ _ b s4 Hr3 Hc3
                ltac:(rewrite Hg3; exact Hg) ltac:(lia) Hup) as Hk4.
  assert (Hc4 : container_at s4 C c3).
  { destruct Hc3 as (e3 & H3 & V3). exists e3. rewrite Hk4. eauto. }
  pose proof (nested_frame _ _ _ _ _ Hn3 F34) as Hn4.
  pose proof Hn4 as (Hrk4 & _).
  destruct (update_pointer_focus_climb rank R fuel C s4 Hn4
              (ex_intro _ _ Hc4) ltac:(lia))
    as (root5 & er5 & m5 & b5 & s5 & Hr5 & _ & _ & Hm5 & Hup5 & F45 & Hrun5).
  run_with Hrun5.
  apply (root_is_self s4 C root5) in Hr5;
    [|rewrite (parent_at_frame _ _ _ _ F34); exact Hroot3].
  subst root5.
  pose proof (grabbed_update_keeps rank m5 s4 C c3 g _ _ _ _ b5 s5 Hrk4 Hc4
                ltac:(rewrite Hg3; exact Hg) ltac:(lia) Hup5) as Hk5.
  assert (Hc5 : container_at s5 C c3).
  { destruct Hc4 as (e4 & H4 & V4). exists e4. rewrite Hk5. eauto. }
  run_container Hc5. rewrite Hf3, Hfoc.
  rewrite (proj2 (ptr_eqb_true (Some e) (Some e))) by reflexivity.
  reflexivity.
Qed.

(** ** What a grab does to the pointer focus *)

Lemma motion_first_call fuel el ev s b s' :
  wlmtk_element_pointer_motion fuel el ev s = Done (b, s') ->
  exists l, calls s' = calls s ++ pointer_motion_call el ev :: l.
Proof.
  intros H.
  destruct (motion_Done_lookup _ _ _ _ _ H) as (n & e & -> & He).
  destruct (vmt e) as [lf|c] eqn:Hv.
  - rewrite (motion_leaf n el ev s e lf He Hv) in H. injection H as _ <-.
    exists []. reflexivity.
  - rewrite (motion_container n el ev s e c He Hv) in H.
    destruct (proj2 (update_pointer_focus_at_evolves
                       (wlmtk_element_pointer_motion n)
                       (wlmtk_element_get_pointer_area n)
                       (motion_evolves n) _ _ _ _ _ _ _ _ H)) as [l Hl].
    exists l. rewrite Hl. simpl. rewrite <- app_assoc. reflexivity.
Qed.

(** X18. Acquiring a grab tells the pointer-focus holder that the pointer
    left, and keeps it as holder.  When the outermost container, whose
    pointer focus is on [f], is asked for the grab on behalf of another of
    its elements [E], the call returns with [E] as grab holder; [f] has
    received the sentinel motion, and is the pointer-focus holder of the
    container still. *)
Theorem grab_leaves_focus_slot rank R fuel s C c E eE f :
  tree rank R s -> container_at s C c -> parent_at s C = None ->
  heap s !! E = Some eE -> parent_container_ptr eE = Some C ->
  has_pointer_grab_cancel eE = true ->
  pointer_grab_element_ptr c <> Some E ->
  pointer_focus_element_ptr c = Some f -> f <> E ->
  (R + 1 < fuel)%nat ->
  exists s' l1 l2,
    wlmtk_container_pointer_grab fuel C E s = Done (tt, s') /\
    slot_of pointer_grab_element_ptr s' C = Some E /\
    slot_of pointer_focus_element_ptr s' C = Some f /\
    calls s'
    = calls s ++ l1 ++ pointer_motion_call f (MotionEvent NAN NAN 0 None)
                       :: l2.
Proof.
  intros Ht Hc Hroot HE Hpe Hcan Hng Hfoc HfE Hfuel.
  destruct fuel as [|n]; [lia|].
  pose proof Ht as (Hr & Ho & Hpr & Hb & Hpc).
  assert (Hch : parent_at s E = Some C)
    by (unfold parent_at; rewrite HE; exact Hpe).
  rewrite pointer_grab_unfold. run_element HE. rewrite Hpe.
  rewrite (proj2 (ptr_eqb_true (Some C) (Some C))) by reflexivity.
  rewrite Hcan. simpl. rewrite !bind_ret. run_container Hc.
  rewrite (proj2 (ptr_eqb_false _ _) Hng).
  destruct (container_cancel_spec rank R n C c s Ht Hc ltac:(lia))
    as (s1 & l1 & Hrun1 & F1 & Hcalls1 & _).
  run_with Hrun1.
  pose proof (tree_frame _ _ _ _ _ Ht F1) as Ht1.
  destruct (frame_container _ _ _ _ _ F1 Hc) as (c1 & Hc1 & St1).
  assert (Hf1 : pointer_focus_element_ptr c1 = Some f).
  { destruct St1 as (_ & Hfo & _). apply slot_step_fixed in Hfo. congruence. }
  run_container Hc1.
  destruct (put_container_at s1 C c1 (set_pointer_grab c1 (Some E)) Hc1)
    as (s2 & Hp & Hc2 & Hcalls2 & Hoth2 & Hpar2 & _).
  run_with Hp.
  assert (Hch1 : parent_at s1 E = Some C)
    by (rewrite (parent_at_frame _ _ _ _ F1); exact Hch).
  assert (Ht2 : tree rank R s2).
  { apply (tree_put rank R s1 s2 C c1 (set_pointer_grab c1 (Some E)) E
             Ht1 Hc1 Hch1); try assumption; [reflexivity|].
    apply grab_slots_put. }
  run_with (parent_of_intro s2 C (container_at_Some _ _ _ Hc2)).
  rewrite Hpar2, (parent_at_frame _ _ _ _ F1), Hroot. rewrite bind_ret.
  run_container Hc2. simpl. rewrite Hf1.
  rewrite bool_decide_eq_false_2 by exact HfE.
  pose proof Ht2 as (Hr2 & _).
  destruct (Hr2 C _ Hc2 f) as [Hsf Hfl].
  { apply focus_in_refs. simpl. exact Hf1. }
  assert (HCR : (rank C <= R)%nat)
    by (apply Hb; eapply container_at_Some; exact Hc).
  destruct (motion_spec rank n f (MotionEvent NAN NAN 0 None) s2 Hr2 Hsf
              ltac:(lia)) as (s3 & Hrun3 & Hunt3).
  run_with Hrun3.
  destruct (motion_first_call _ _ _ _ _ _ Hrun3) as [l2 Hl2].
  assert (Hc3 : container_at s3 C (set_pointer_grab c1 (Some E))).
  { destruct Hc2 as (e2 & H2 & V2). exists e2. split; [|exact V2].
    rewrite (Hunt3 C) by lia. exact H2. }
  exists s3, l1, l2. split; [reflexivity|].
  split; [rewrite (slot_of_at _ _ _ _ Hc3); reflexivity|].
  split; [rewrite (slot_of_at _ _ _ _ Hc3); exact Hf1|].
  rewrite Hl2, Hcalls2, Hcalls1. rewrite <- app_assoc. reflexivity.
Qed.

(** ** The capture of the left button, through nested containers *)

Lemma slot_line_heap slot s s' a L :
  heap s' = heap s -> slot_line slot s a L -> slot_line slot s' a L.
Proof.
  intros Hh. induction 1 as [L e lf He Hv | a c q L Hc Hg Hq _ IH].
  - eapply slot_line_leaf; [rewrite Hh; exact He | exact Hv].
  - eapply slot_line_step; [| exact Hg | exact Hq | exact IH].
    destruct Hc as (e & He & Hv). exists e. rewrite Hh. eauto.
Qed.

Lemma slot_line_rank rank slot s a L :
  (forall c q, slot c = Some q -> q ∈ refs c) ->
  ranked rank s -> slot_line slot s a L -> (rank L <= rank a)%nat.
Proof.
  intros Hin Hr. induction 1 as [|a c q L Hc Hg Hq _ IH]; [lia|].
  destruct (Hr a c Hc q (Hin c q Hq)) as [_ Hlt]. lia.
Qed.

Lemma slot_line_below rank slot s s' a L :
  (forall c q, slot c = Some q -> q ∈ refs c) ->
  ranked rank s ->
  (forall x, (rank x <= rank a)%nat -> heap s' !! x = heap s !! x) ->
  slot_line slot s a L -> slot_line slot s' a L.
Proof.
  intros Hin Hr Hsame Hl. revert Hsame.
  induction Hl as [L e lf He Hv | a c q L Hc Hg Hq _ IH]; intros Hsame.
  - eapply slot_line_leaf; [rewrite Hsame by lia; exact He | exact Hv].
  - destruct (Hr a c Hc q (Hin c q Hq)) as [_ Hlt].
    eapply slot_line_step; [| exact Hg | exact Hq |].
    + destruct Hc as (e & He & Hv). exists e.
      rewrite Hsame by lia. eauto.
    + apply IH. intros x Hx. apply Hsame. lia.
Qed.

Lemma capture_line_frame pi s s' a L :
  may_capture pi = false -> may_grab pi = false -> frame pi s s' ->
  slot_line left_button_element_ptr s a L ->
  slot_line left_button_element_ptr s' a L.
Proof.
  intros Hcap Hgrab F.
  induction 1 as [L e lf He Hv | a c q L Hc Hg Hq _ IH].
  - destruct (frame_lookup _ _ _ _ _ F He) as (e' & He' & St).
    destruct St as (_ & _ & _ & _ & _ & Sv). unfold vmt_step in Sv.
    rewrite Hv in Sv. destruct (vmt e') as [l'|] eqn:Hv'; [|contradiction].
    eapply slot_line_leaf; eassumption.
  - destruct (frame_container _ _ _ _ _ F Hc) as (c' & Hc' & St).
    destruct St as (_ & _ & Sc & Sg & _). rewrite Hcap in Sc.
    rewrite Hgrab in Sg. apply slot_step_fixed in Sc, Sg.
    apply (slot_line_step _ s' a c' q L Hc'); [congruence | congruence | exact IH].
Qed.

Lemma left_button_in_refs c q :
  left_button_element_ptr c = Some q -> q ∈ refs c.
Proof. intros H. apply elem_of_refs. right. apply elem_of_slots. tauto. Qed.

Lemma up_follows_capture rank ev :
  button ev = BTN_LEFT -> type ev = WLMTK_BUTTON_UP ->
  forall fuel a L s,
    ranked rank s -> slot_line left_button_element_ptr s a L ->
    (rank a < fuel)%nat ->
    exists eL lf l,
      heap s !! L = Some eL /\ vmt eL = LeafVmt lf /\
      wlmtk_element_pointer_button fuel a ev s
      = Done (leaf_pointer_button lf ev, State (heap s) (calls s ++ l)).
Proof.
  intros Hb Hty. induction fuel as [|n IH]; intros a L s Hr Hl Hf; [lia|].
  inversion Hl as [? e lf He Hv | ? c q ? Hc Hg Hq Hrest]; subst.
  - exists e, lf, [pointer_button_call L ev]. split; [exact He|].
    split; [exact Hv|]. simpl. unfold bind, emit, get_element. simpl.
    rewrite He, Hv. reflexivity.
  - pose proof Hc as (e & He & Hv).
    destruct (Hr a c Hc q (left_button_in_refs _ _ Hq)) as [_ Hlt].
    destruct (IH q L (State (heap s) (calls s ++ [pointer_button_call a ev]))
                (ranked_calls _ _ _ Hr)
                (slot_line_heap _ s
                   (State (heap s) (calls s ++ [pointer_button_call a ev]))
                   q L eq_refl Hrest) ltac:(lia))
      as (eL & lf & l & HeL & HvL & Hrun).
    exists eL, lf, (pointer_button_call a ev :: l).
    split; [exact HeL|]. split; [exact HvL|].
    simpl. unfold bind at 1, emit. unfold bind at 1, get_element at 1. simpl.
    rewrite He, Hv.
    unfold _wlmtk_container_element_pointer_button.
    assert (Hc0 : container_at
                    (State (heap s) (calls s ++ [pointer_button_call a ev]))
                    a c) by exact Hc.
    run_container Hc0. rewrite Hg, Hb, Hty, Hq. simpl.
    rewrite Hrun. simpl. rewrite <- app_assoc. reflexivity.
Qed.

Lemma focus_path_heap s s' a k :
  heap s' = heap s -> focus_path s a k -> focus_path s' a k.
Proof.
  intros Hh. induction 1 as [el c Hc Hg | el c f k Hc Hg Hf _ IH].
  - eapply focus_path_here; [|exact Hg].
    destruct Hc as (e & He & Hv). exists e. rewrite Hh. eauto.
  - eapply focus_path_down; [| exact Hg | exact Hf | exact IH].
    destruct Hc as (e & He & Hv). exists e. rewrite Hh. eauto.
Qed.

Lemma down_records rank ev :
  button ev = BTN_LEFT -> type ev = WLMTK_BUTTON_DOWN ->
  forall fuel a L s,
    ranked rank s -> slot_line pointer_focus_element_ptr s a L ->
    (rank a < fuel)%nat ->
    exists eL lf s',
      heap s !! L = Some eL /\ vmt eL = LeafVmt lf /\
      wlmtk_element_pointer_button fuel a ev s
      = Done (leaf_pointer_button lf ev, s') /\
      (forall x, (rank a < rank x)%nat -> heap s' !! x = heap s !! x) /\
      (leaf_pointer_button lf ev = true ->
       slot_line left_button_element_ptr s' a L) /\
      (leaf_pointer_button lf ev = false ->
       forall k, focus_path s a k ->
         slot_of left_button_element_ptr s' k = None).
Proof.
  intros Hb Hty. induction fuel as [|n IH]; intros a L s Hr Hl Hf; [lia|].
  inversion Hl as [? e lf He Hv | ? c f ? Hc Hg Hq Hrest]; subst.
  - exists e, lf, (State (heap s) (calls s ++ [pointer_button_call L ev])).
    split; [exact He|]. split; [exact Hv|].
    split.
    { simpl. unfold bind, emit, get_element. simpl. rewrite He, Hv.
      reflexivity. }
    split; [reflexivity|]. split.
    + intros _. eapply slot_line_leaf; [exact He | exact Hv].
    + intros _ k Hk. inversion Hk as [? c Hc _ | ? c ? ? Hc _ _ _]; subst;
        destruct Hc as (e' & He' & Hv'); congruence.
  - pose proof Hc as (e & He & Hv).
    destruct (Hr a c Hc f (focus_in_refs _ _ Hq)) as [_ Hlt].
    set (s0 := State (heap s) (calls s ++ [pointer_button_call a ev])).
    assert (Hr0 : ranked rank s0) by (apply ranked_calls; exact Hr).
    destruct (IH f L s0 Hr0 (slot_line_heap _ s s0 f L eq_refl Hrest)
                ltac:(lia))
      as (eL & lf & s1 & HeL & HvL & Hrun & Hsame & Hacc & Hrej).
    assert (Hc1 : container_at s1 a c).
    { exists e. rewrite (Hsame a Hlt). eauto. }
    destruct (put_container_at s1 a c
                (set_left_button c
                   (if leaf_pointer_button lf ev
                    then pointer_focus_element_ptr c else None)) Hc1)
      as (s2 & Hput & Hc2 & _ & Hoth & _).
    exists eL, lf, s2. split; [exact HeL|]. split; [exact HvL|].
    split.
    { simpl. unfold bind at 1, emit. unfold bind at 1, get_element at 1.
      simpl. rewrite He, Hv.
      unfold _wlmtk_container_element_pointer_button.
      assert (Hc0 : container_at s0 a c) by exact Hc.
      fold s0. run_container Hc0. rewrite Hg, Hb, Hty, Hq. simpl.
      run_with Hrun. run_container Hc1. run_with Hput.
      reflexivity. }
    split.
    { intros x Hx. rewrite (Hoth x) by (intros ->; lia).
      apply Hsame. lia. }
    split.
    + intros Ha. rewrite Ha in Hc2.
      apply (slot_line_step _ s2 a _ f L Hc2); [exact Hg | exact Hq|].
      pose proof (Hacc Ha) as Hline.
      apply (slot_line_below rank _ s1 s2 f L left_button_in_refs);
        [| | exact Hline].
      * apply (ranked_frame rank button_perm s0 s1 Hr0).
        exact (proj1 (button_evolves _ _ _ _ _ _ Hrun)).
      * intros x Hx. apply Hoth. intros ->. lia.
    + intros Ha k Hk. rewrite Ha in Hc2.
      inversion Hk as [? c0 Hc0 _ | ? c0 f0 ? Hc0 _ Hf0 Hpath]; subst.
      * rewrite (slot_of_at _ _ _ _ Hc2). reflexivity.
      * rewrite (container_at_inj _ _ _ _ Hc0 Hc) in Hf0.
        assert (f0 = f) by congruence. subst f0.
        pose proof (focus_path_rank rank s f k Hr Hpath) as Hkr.
        unfold slot_of, container_of. rewrite (Hoth k) by (intros ->; lia).
        apply (Hrej Ha k). apply (focus_path_heap s s0); [reflexivity|].
        exact Hpath.
Qed.

(** X19. A left-button DOWN records the capture holder at every level.
    When the pointer-focus holders lead from the container [a], through
    containers holding no grab, down to the leaf [L], the DOWN of the left
    button delivered at [a] is answered by [L].  If [L] accepts, every
    container on the way records its pointer-focus holder as capture
    holder, so that the capture holders lead from [a] to [L] as well; if
    [L] rejects, every container on the way has its capture slot
    cleared. *)
Theorem down_records_capture_line rank fuel s a L ev :
  ranked rank s -> slot_line pointer_focus_element_ptr s a L ->
  button ev = BTN_LEFT -> type ev = WLMTK_BUTTON_DOWN ->
  (rank a < fuel)%nat ->
  exists eL lf s',
    heap s !! L = Some eL /\ vmt eL = LeafVmt lf /\
    wlmtk_element_pointer_button fuel a ev s
    = Done (leaf_pointer_button lf ev, s') /\
    (leaf_pointer_button lf ev = true ->
     slot_line left_button_element_ptr s' a L) /\
    (leaf_pointer_button lf ev = false ->
     forall k, focus_path s a k ->
       slot_of left_button_element_ptr s' k = None).
Proof.
  intros Hr Hl Hb Hty Hf.
  destruct (down_records rank ev Hb Hty fuel a L s Hr Hl Hf)
    as (eL & lf & s' & H1 & H2 & H3 & _ & H4 & H5).
  exists eL, lf, s'. auto.
Qed.

(** X20. The capture-button law through nested containers.  With the
    pointer-focus holders leading from [a] down to the leaf [L] (no grab on
    the way), let [L] accept the DOWN of the left button delivered at [a].
    Whatever pointer motion is then delivered at [a], moving the pointer
    focus wherever, the UP of the left button delivered at [a] afterwards is
    passed to [L] and answered by it, and changes nothing in the tree. *)
Theorem capture_outlives_motion rank fuel s a L down mv up :
  ranked rank s -> slot_line pointer_focus_element_ptr s a L ->
  button down = BTN_LEFT -> type down = WLMTK_BUTTON_DOWN ->
  button up = BTN_LEFT -> type up = WLMTK_BUTTON_UP ->
  (rank a < fuel)%nat ->
  exists eL lf,
    heap s !! L = Some eL /\ vmt eL = LeafVmt lf /\
    (leaf_pointer_button lf down = true ->
     exists s1 b s2 l,
       wlmtk_element_pointer_button fuel a down s = Done (true, s1) /\
       wlmtk_element_pointer_motion fuel a mv s1 = Done (b, s2) /\
       wlmtk_element_pointer_button fuel a up s2
       = Done (leaf_pointer_button lf up,
               State (heap s2) (calls s2 ++ l))).
Proof.
  intros Hr Hl Hbd Htd Hbu Htu Hf.
  destruct (down_records rank down Hbd Htd fuel a L s Hr Hl Hf)
    as (eL & lf & s1 & HeL & HvL & Hrun1 & _ & Hacc & _).
  exists eL, lf. split; [exact HeL|]. split; [exact HvL|]. intros Ha.
  rewrite Ha in Hrun1. specialize (Hacc Ha).
  pose proof (proj1 (button_evolves _ _ _ _ _ _ Hrun1)) as F1.
  pose proof (ranked_frame _ _ _ _ Hr F1) as Hr1.
  assert (Hs1 : is_Some (heap s1 !! a)).
  { inversion Hacc as [? e ? He _ | ? c ? ? Hc _ _ _]; subst;
      [eauto | eapply container_at_Some; exact Hc]. }
  destruct (motion_spec rank fuel a mv s1 Hr1 Hs1 Hf) as (s2 & Hrun2 & _).
  pose proof (proj1 (motion_evolves _ _ _ _ _ _ Hrun2)) as F2.
  pose proof (ranked_frame _ _ _ _ Hr1 F2) as Hr2.
  pose proof (capture_line_frame motion_perm s1 s2 a L eq_refl eq_refl F2
                Hacc) as Hline2.
  destruct (up_follows_capture rank up Hbu Htu fuel a L s2 Hr2 Hline2 Hf)
    as (eL2 & lf2 & l & HeL2 & HvL2 & Hrun3).
  assert (lf2 = lf).
  { destruct (frame_lookup _ _ _ _ _ F1 HeL) as (e1 & He1 & St1).
    destruct (frame_lookup _ _ _ _ _ F2 He1) as (e2 & He2 & St2).
    destruct St1 as (_ & _ & _ & _ & _ & V1).
    destruct St2 as (_ & _ & _ & _ & _ & V2).
    unfold vmt_step in V1, V2. rewrite HvL in V1.
    destruct (vmt e1) as [l1|] eqn:Hv1; [|contradiction]. subst l1.
    destruct (vmt e2) as [l2|] eqn:Hv2; [|contradiction]. subst l2.
    congruence. }
  subst lf2. eexists s1, _, s2, l. split; [exact Hrun1|].
  split; [exact Hrun2 | exact Hrun3].
Qed.

(** ** Pointer motion under a grab, through nested containers *)




(** * Worked examples, continued *)

(** The left button goes up over the scene whose capture holder is
    element 1. *)
Lemma button_writes_only_on_left_down_witness :
  heap
    (final_state
       (wlmtk_element_pointer_button 3 0%nat
          (ButtonEvent BTN_LEFT WLMTK_BUTTON_UP)
          (scene (Container [1%nat; 2%nat] (Some 1%nat) (Some 1%nat) None None)
             true))
       (scene (Container [1%nat; 2%nat] (Some 1%nat) (Some 1%nat) None None)
          true))
  = heap
      (scene (Container [1%nat; 2%nat] (Some 1%nat) (Some 1%nat) None None)
         true).
Proof.
  apply (button_writes_only_on_left_down 3 0%nat
           (ButtonEvent BTN_LEFT WLMTK_BUTTON_UP)
           (scene (Container [1%nat; 2%nat] (Some 1%nat) (Some 1%nat) None
                     None) true)
           true).
  - right. discriminate.
  - vm_compute. reflexivity.
Defined.

(** Element 3 holds the grab in the scene of nested containers; a right
    button event of an unknown phase is delivered at the outermost
    container. *)
Lemma grab_chain_routes_buttons_witness :
  exists path,
    Forall
      (fun q =>
         below
           (nested_scene (Container [1%nat] None None (Some 1%nat) None)
              (Container [2%nat] None None (Some 2%nat) None)
              (Container [3%nat] None None (Some 3%nat) None)) q 3%nat)
      path /\
    wlmtk_element_pointer_button 5 0%nat (ButtonEvent 273 (BUTTON_OTHER 9))
      (nested_scene (Container [1%nat] None None (Some 1%nat) None)
         (Container [2%nat] None None (Some 2%nat) None)
         (Container [3%nat] None None (Some 3%nat) None))
    = Done (true,
            State
              (heap
                 (nested_scene (Container [1%nat] None None (Some 1%nat) None)
                    (Container [2%nat] None None (Some 2%nat) None)
                    (Container [3%nat] None None (Some 3%nat) None)))
              ([] ++ ((fun q =>
                         pointer_button_call q
                           (ButtonEvent 273 (BUTTON_OTHER 9)))
                      <$> path ++ [3%nat]))).
Proof.
  apply (grab_chain_routes_buttons scene_rank 3 5
           (nested_scene (Container [1%nat] None None (Some 1%nat) None)
              (Container [2%nat] None None (Some 2%nat) None)
              (Container [3%nat] None None (Some 3%nat) None))
           0%nat 3%nat
           (Element 0 0 true (Some 2%nat) zero_event
              (wlmtk_fake_element 10 10 true))
           (Leaf (Box 0 0 10 10) (Box (-1) (-2) 13 14)
              (fun _ => true) (fun _ => true) true)
           (ButtonEvent 273 (BUTTON_OTHER 9))).
  - apply treeb_sound. vm_compute. reflexivity.
  - apply (below_child _ _ 3%nat 2%nat); [reflexivity|].
    apply (below_child _ _ 2%nat 1%nat); [reflexivity|].
    apply (below_child _ _ 1%nat 0%nat); [reflexivity|].
    apply below_self.
  - apply (grab_chain_step _ 3%nat 2%nat); [reflexivity | reflexivity |].
    apply (grab_chain_step _ 2%nat 1%nat); [reflexivity | reflexivity |].
    apply (grab_chain_step _ 1%nat 0%nat); [reflexivity | reflexivity |].
    apply grab_chain_root. reflexivity.
  - reflexivity.
  - reflexivity.
  - vm_compute. lia.
Defined.

(** An axis event in the same scene: element 3 answers. *)
Lemma grab_chain_routes_axis_witness :
  wlmtk_element_pointer_axis (fun q => bool_decide (q = 3%nat)) 5
    (heap
       (nested_scene (Container [1%nat] None None (Some 1%nat) None)
          (Container [2%nat] None None (Some 2%nat) None)
          (Container [3%nat] None None (Some 3%nat) None)))
    0%nat
  = Done (bool_decide (3%nat = 3%nat)).
Proof.
  apply (grab_chain_routes_axis scene_rank 3
           (fun q => bool_decide (q = 3%nat)) 5
           (nested_scene (Container [1%nat] None None (Some 1%nat) None)
              (Container [2%nat] None None (Some 2%nat) None)
              (Container [3%nat] None None (Some 3%nat) None))
           0%nat 3%nat
           (Element 0 0 true (Some 2%nat) zero_event
              (wlmtk_fake_element 10 10 true))
           (Leaf (Box 0 0 10 10) (Box (-1) (-2) 13 14)
              (fun _ => true) (fun _ => true) true)).
  - apply treeb_sound. vm_compute. reflexivity.
  - apply (below_child _ _ 3%nat 2%nat); [reflexivity|].
    apply (below_child _ _ 2%nat 1%nat); [reflexivity|].
    apply (below_child _ _ 1%nat 0%nat); [reflexivity|].
    apply below_self.
  - apply (grab_chain_step _ 3%nat 2%nat); [reflexivity | reflexivity |].
    apply (grab_chain_step _ 2%nat 1%nat); [reflexivity | reflexivity |].
    apply (grab_chain_step _ 1%nat 0%nat); [reflexivity | reflexivity |].
    apply grab_chain_root. reflexivity.
  - reflexivity.
  - reflexivity.
  - vm_compute. lia.
Defined.

(** The keyboard focus is on element 3, recorded all the way up; a keyboard
    event is delivered at the outermost container. *)
Lemma keyboard_event_follows_focus_witness :
  wlmtk_element_keyboard_event (fun q => bool_decide (q = 3%nat)) 5
    (heap
       (nested_scene (Container [1%nat] None None None (Some 1%nat))
          (Container [2%nat] None None None (Some 2%nat))
          (Container [3%nat] None None None (Some 3%nat))))
    0%nat
  = Done (bool_decide (3%nat = 3%nat)).
Proof.
  apply (keyboard_event_follows_focus scene_rank 3
           (fun q => bool_decide (q = 3%nat)) 5
           (nested_scene (Container [1%nat] None None None (Some 1%nat))
              (Container [2%nat] None None None (Some 2%nat))
              (Container [3%nat] None None None (Some 3%nat)))
           0%nat 3%nat
           (Element 0 0 true (Some 2%nat) zero_event
              (wlmtk_fake_element 10 10 true))).
  - apply treeb_sound. vm_compute. reflexivity.
  - apply (below_child _ _ 3%nat 2%nat); [reflexivity|].
    apply (below_child _ _ 2%nat 1%nat); [reflexivity|].
    apply (below_child _ _ 1%nat 0%nat); [reflexivity|].
    apply below_self.
  - apply (kbd_chain_step _ 3%nat 2%nat); [reflexivity | reflexivity |].
    apply (kbd_chain_step _ 2%nat 1%nat); [reflexivity | reflexivity |].
    apply (kbd_chain_step _ 1%nat 0%nat); [reflexivity | reflexivity |].
    apply kbd_chain_root. reflexivity.
  - reflexivity.
  - vm_compute. lia.
Defined.

(** The keyboard focus is set to element 3 at container 2 and cleared
    again; keyboard events are delivered at container 1. *)
Lemma keyboard_focus_directs_events_witness :
  exists s1,
    wlmtk_container_set_keyboard_focus_element 8 2%nat (Some 3%nat)
      (nested_scene (Container [1%nat] None None None None)
         (Container [2%nat] None None None None)
         (Container [3%nat] None None None None))
    = Done (tt, s1) /\
    wlmtk_element_keyboard_event (fun q => bool_decide (q = 3%nat)) 4
      (heap s1) 1%nat
    = Done (bool_decide (3%nat = 3%nat)) /\
    exists s2,
      wlmtk_container_set_keyboard_focus_element 8 2%nat None s1
      = Done (tt, s2) /\
      wlmtk_element_keyboard_event (fun q => bool_decide (q = 3%nat)) 4
        (heap s2) 1%nat
      = Done false.
Proof.
  apply (keyboard_focus_directs_events scene_rank 3 8 4
           (fun q => bool_decide (q = 3%nat))
           (nested_scene (Container [1%nat] None None None None)
              (Container [2%nat] None None None None)
              (Container [3%nat] None None None None))
           1%nat 2%nat 3%nat
           (Element 0 0 true (Some 2%nat) zero_event
              (wlmtk_fake_element 10 10 true))
           (Leaf (Box 0 0 10 10) (Box (-1) (-2) 13 14)
              (fun _ => true) (fun _ => true) true)).
  - apply treeb_sound. vm_compute. reflexivity.
  - reflexivity.
  - reflexivity.
  - reflexivity.
  - reflexivity.
  - discriminate.
  - lia.
  - vm_compute. lia.
Defined.

(** A motion at (15, 5) in the scene whose focus is on element 1: element 1
    is told that the pointer left, and keeps its place. *)
Lemma motion_touches_only_focus_witness :
  exists e',
    heap
      (final_state
         (wlmtk_element_pointer_motion 4 0%nat
            (MotionEvent (Finite 15) (Finite 5) 7 None)
            (scene (Container [1%nat; 2%nat] (Some 1%nat) None None None)
               true))
         (scene (Container [1%nat; 2%nat] (Some 1%nat) None None None) true))
    !! 1%nat = Some e' /\
    parent_container_ptr e' = Some 0%nat /\
    x_pos e' = 0 /\ y_pos e' = 0 /\ visible e' = true.
Proof.
  destruct (motion_touches_only_focus scene_rank 3 4 0%nat
              (MotionEvent (Finite 15) (Finite 5) 7 None)
              (scene (Container [1%nat; 2%nat] (Some 1%nat) None None None)
                 true)
              true
              (final_state
                 (wlmtk_element_pointer_motion 4 0%nat
                    (MotionEvent (Finite 15) (Finite 5) 7 None)
                    (scene (Container [1%nat; 2%nat] (Some 1%nat) None None
                              None) true))
                 (scene (Container [1%nat; 2%nat] (Some 1%nat) None None None)
                    true)))
    as (_ & H & _).
  - apply treeb_sound. vm_compute. reflexivity.
  - vm_compute. lia.
  - vm_compute. reflexivity.
  - exact (H 1%nat
             (Element 0 0 true (Some 0%nat) zero_event
                (wlmtk_fake_element 10 10 true)) eq_refl).
Defined.

(** The pointer area of the container of the scene, (-1, -2, 23, 14),
    covers that of element 2, (-1, -2, 13, 14), moved by (10, 0). *)
Lemma container_boxes_cover_children_witness :
  (left (Box (-1) (-2) 23 14) <= 10 + left (Box (-1) (-2) 13 14) /\
   10 + right (Box (-1) (-2) 13 14) <= right (Box (-1) (-2) 23 14)) /\
  (top (Box (-1) (-2) 23 14) <= 0 + top (Box (-1) (-2) 13 14) /\
   0 + bottom (Box (-1) (-2) 13 14) <= bottom (Box (-1) (-2) 23 14)).
Proof.
  destruct (container_boxes_cover_children 3
              (heap (scene (Container [1%nat; 2%nat] None None None None)
                       true))
              (Container [1%nat; 2%nat] None None None None) 2%nat
              (Element 10 0 true (Some 0%nat) zero_event
                 (wlmtk_fake_element 10 10 true)))
    as [_ Harea].
  - right. left.
  - reflexivity.
  - reflexivity.
  - destruct (Harea (Box (-1) (-2) 23 14) (Box (-1) (-2) 13 14))
      as [Hx Hy].
    + repeat (apply Forall_cons_2; [vm_compute; repeat split; discriminate|]).
      apply Forall_nil_2.
    + vm_compute. reflexivity.
    + vm_compute. reflexivity.
    + split; [apply Hx | apply Hy]; reflexivity.
Defined.

(** A layout update asked for at the innermost container of the nested
    scene. *)
Lemma layout_update_reaches_root_witness :
  exists root e m b s',
    (root = 2%nat \/
     above
       (nested_scene (Container [1%nat] None None None None)
          (Container [2%nat] None None None None)
          (Container [3%nat] None None None None)) 2%nat root) /\
    heap
      (nested_scene (Container [1%nat] None None None None)
         (Container [2%nat] None None None None)
         (Container [3%nat] None None None None)) !! root = Some e /\
    parent_container_ptr e = None /\ (3 <= m)%nat /\
    update_pointer_focus_at (wlmtk_element_pointer_motion m)
      (wlmtk_element_get_pointer_area m) root
      (ev_x (last_pointer_motion_event e))
      (ev_y (last_pointer_motion_event e))
      (ev_time_msec (last_pointer_motion_event e))
      (ev_pointer_ptr (last_pointer_motion_event e))
      (nested_scene (Container [1%nat] None None None None)
         (Container [2%nat] None None None None)
         (Container [3%nat] None None None None)) = Done (b, s') /\
    frame motion_perm
      (nested_scene (Container [1%nat] None None None None)
         (Container [2%nat] None None None None)
         (Container [3%nat] None None None None)) s' /\
    wlmtk_container_update_layout 8 2%nat
      (nested_scene (Container [1%nat] None None None None)
         (Container [2%nat] None None None None)
         (Container [3%nat] None None None None)) = Done (tt, s').
Proof.
  apply (layout_update_reaches_root scene_rank 3 8 2%nat
           (nested_scene (Container [1%nat] None None None None)
              (Container [2%nat] None None None None)
              (Container [3%nat] None None None None))).
  - apply treeb_sound. vm_compute. reflexivity.
  - eexists. eexists. split; reflexivity.
  - lia.
Defined.

(** Element 2, which has no parent, is added to the container of the loose
    scene. *)
Lemma add_element_puts_in_front_witness :
  exists s' c',
    wlmtk_container_add_element 8 0%nat 2%nat
      (loose_scene (Container [1%nat] None None None None)) = Done (tt, s') /\
    tree scene_rank 3 s' /\
    container_at s' 0%nat c' /\ elements c' = [2%nat; 1%nat] /\
    left_button_element_ptr c' = None /\
    pointer_grab_element_ptr c' = None /\
    keyboard_focus_element_ptr c' = None /\
    parent_at s' 2%nat = Some 0%nat /\
    slot_of pointer_grab_element_ptr s' 2%nat = None /\
    (forall k ck, k <> 0%nat ->
       container_at (loose_scene (Container [1%nat] None None None None)) k ck ->
       exists ck', container_at s' k ck' /\ elements ck' = elements ck).
Proof.
  apply (add_element_puts_in_front scene_rank 3 8
           (loose_scene (Container [1%nat] None None None None))
           0%nat (Container [1%nat] None None None None) 2%nat
           (Element 10 0 true None zero_event (wlmtk_fake_element 10 10 true))).
  - apply treeb_sound. vm_compute. reflexivity.
  - eexists. split; reflexivity.
  - reflexivity.
  - reflexivity.
  - vm_compute. lia.
  - lia.
Defined.

(** Element 2 is added atop element 1. *)
Lemma add_element_atop_places_witness :
  exists s' c',
    wlmtk_container_add_element_atop 8 0%nat (Some 1%nat) 2%nat
      (loose_scene (Container [1%nat] None None None None)) = Done (tt, s') /\
    tree scene_rank 3 s' /\ container_at s' 0%nat c' /\
    parent_at s' 2%nat = Some 0%nat /\
    exists pre post,
      [1%nat] = pre ++ 1%nat :: post /\ (1%nat ∉ pre) /\
      elements c' = pre ++ 2%nat :: 1%nat :: post.
Proof.
  apply (add_element_atop_places scene_rank 3 8
           (loose_scene (Container [1%nat] None None None None))
           0%nat (Container [1%nat] None None None None) (Some 1%nat) 2%nat
           (Element 10 0 true None zero_event (wlmtk_fake_element 10 10 true))).
  - apply treeb_sound. vm_compute. reflexivity.
  - eexists. split; reflexivity.
  - reflexivity.
  - reflexivity.
  - vm_compute. lia.
  - lia.
  - intros r Hr. injection Hr as <-. left.
Defined.

(** Element 2 of the scene is raised. *)
Lemma raise_element_to_top_moves_to_head_witness :
  exists s' c',
    wlmtk_container_raise_element_to_top 8 0%nat 2%nat
      (scene (Container [1%nat; 2%nat] (Some 1%nat) None None None) true)
    = Done (tt, s') /\
    tree scene_rank 3 s' /\ container_at s' 0%nat c' /\
    elements c' = 2%nat :: bs_dllist_remove [1%nat; 2%nat] 2%nat /\
    (NoDup [1%nat; 2%nat] -> elements c' ≡ₚ [1%nat; 2%nat]) /\
    left_button_element_ptr c' = None /\
    pointer_grab_element_ptr c' = None /\
    keyboard_focus_element_ptr c' = None /\
    wlmtk_container_raise_element_to_top 8 0%nat 2%nat s' = Done (tt, s').
Proof.
  destruct (raise_element_to_top_moves_to_head scene_rank 3 8
              (scene (Container [1%nat; 2%nat] (Some 1%nat) None None None)
                 true)
              0%nat (Container [1%nat; 2%nat] (Some 1%nat) None None None)
              2%nat) as [_ H].
  - apply treeb_sound. vm_compute. reflexivity.
  - eexists. split; reflexivity.
  - right. left.
  - lia.
  - apply H. discriminate.
Defined.

(** The pointer leaves the container of the scene, whose focus is on
    element 1. *)
Lemma leave_clears_focus_path_witness :
  exists s',
    wlmtk_element_pointer_motion 4 0%nat (sentinel 7 None)
      (scene (Container [1%nat; 2%nat] (Some 1%nat) None None None) true)
    = Done (false, s') /\
    forall k,
      focus_path
        (scene (Container [1%nat; 2%nat] (Some 1%nat) None None None) true)
        0%nat k ->
      slot_of pointer_focus_element_ptr s' k = None.
Proof.
  apply (leave_clears_focus_path scene_rank 4 0%nat (sentinel 7 None)
           (scene (Container [1%nat; 2%nat] (Some 1%nat) None None None) true)
           (Container [1%nat; 2%nat] (Some 1%nat) None None None)).
  - apply rankedb_sound. vm_compute. reflexivity.
  - eexists. split; reflexivity.
  - reflexivity.
  - reflexivity.
  - vm_compute. lia.
Defined.

(** Element 1, the pointer-focus and capture holder, is removed from the
    scene. *)
Lemma remove_element_detaches_witness :
  exists s' c',
    wlmtk_container_remove_element 8 0%nat 1%nat
      (scene (Container [1%nat; 2%nat] (Some 1%nat) (Some 1%nat) None None)
         true) = Done (tt, s') /\
    container_at s' 0%nat c' /\
    elements c' = bs_dllist_remove [1%nat; 2%nat] 1%nat /\
    (1%nat ∉ refs c') /\ parent_at s' 1%nat = None.
Proof.
  apply (remove_element_detaches scene_rank 3 8
           (scene (Container [1%nat; 2%nat] (Some 1%nat) (Some 1%nat) None
                     None) true)
           0%nat (Container [1%nat; 2%nat] (Some 1%nat) (Some 1%nat) None None)
           1%nat
           (Element 0 0 true (Some 0%nat) zero_event
              (wlmtk_fake_element 10 10 true))).
  - apply treeb_sound. vm_compute. reflexivity.
  - eexists. split; reflexivity.
  - reflexivity.
  - reflexivity.
  - discriminate.
  - discriminate.
  - right. split; reflexivity.
  - lia.
Defined.

(** Element 2 is added to the container of the loose scene and removed
    again. *)
Lemma add_then_remove_restores_witness :
  exists s1 s2,
    wlmtk_container_add_element 8 0%nat 2%nat
      (loose_scene (Container [1%nat] None None None None)) = Done (tt, s1) /\
    wlmtk_container_remove_element 8 0%nat 2%nat s1 = Done (tt, s2) /\
    restored 0%nat (Container [1%nat] None None None None) 2%nat s2.
Proof.
  destruct (add_then_remove_restores scene_rank 3 8
              (loose_scene (Container [1%nat] None None None None))
              0%nat (Container [1%nat] None None None None) 2%nat
              (Element 10 0 true None zero_event
                 (wlmtk_fake_element 10 10 true))) as [H _].
  - apply treeb_sound. vm_compute. reflexivity.
  - eexists. split; reflexivity.
  - reflexivity.
  - reflexivity.
  - vm_compute. lia.
  - reflexivity.
  - reflexivity.
  - lia.
  - exact H.
Defined.

(** The pointer area of element 2 after a motion at (15, 5). *)
Lemma event_delivery_keeps_geometry_witness :
  wlmtk_element_get_dimensions 3
    (heap
       (final_state
          (wlmtk_element_pointer_motion 4 0%nat
             (MotionEvent (Finite 15) (Finite 5) 7 None)
             (scene (Container [1%nat; 2%nat] (Some 1%nat) None None None)
                true))
          (scene (Container [1%nat; 2%nat] (Some 1%nat) None None None)
             true))) 0%nat
  = wlmtk_element_get_dimensions 3
      (heap (scene (Container [1%nat; 2%nat] (Some 1%nat) None None None)
               true)) 0%nat /\
  wlmtk_element_get_pointer_area 3
    (heap
       (final_state
          (wlmtk_element_pointer_motion 4 0%nat
             (MotionEvent (Finite 15) (Finite 5) 7 None)
             (scene (Container [1%nat; 2%nat] (Some 1%nat) None None None)
                true))
          (scene (Container [1%nat; 2%nat] (Some 1%nat) None None None)
             true))) 0%nat
  = wlmtk_element_get_pointer_area 3
      (heap (scene (Container [1%nat; 2%nat] (Some 1%nat) None None None)
               true)) 0%nat.
Proof.
  apply (event_delivery_keeps_geometry 4 0%nat
           (scene (Container [1%nat; 2%nat] (Some 1%nat) None None None)
              true)).
  left. exists (MotionEvent (Finite 15) (Finite 5) 7 None), true.
  vm_compute. reflexivity.
Defined.

(** Element 1 of the scene has a parent: it cannot be added. *)
Lemma foreign_elements_abort_witness :
  wlmtk_container_add_element 8 0%nat 1%nat
    (scene (Container [1%nat; 2%nat] None None None None) true) = Fatal /\
  forall reference,
    wlmtk_container_add_element_atop 8 0%nat reference 1%nat
      (scene (Container [1%nat; 2%nat] None None None None) true) = Fatal.
Proof.
  destruct (foreign_elements_abort 8
              (scene (Container [1%nat; 2%nat] None None None None) true)
              0%nat 1%nat
              (Element 0 0 true (Some 0%nat) zero_event
                 (wlmtk_fake_element 10 10 true))) as [H _].
  - reflexivity.
  - apply H. discriminate.
Defined.

(** Element 1 holds the pointer focus, element 2 the grab; element 1 is
    removed. *)
Lemma remove_aborts_on_stale_focus_witness :
  wlmtk_container_remove_element 8 0%nat 1%nat
    (scene (Container [1%nat; 2%nat] (Some 1%nat) None (Some 2%nat) None)
       true) = Fatal.
Proof.
  apply (remove_aborts_on_stale_focus scene_rank 3 8
           (scene (Container [1%nat; 2%nat] (Some 1%nat) None (Some 2%nat)
                     None) true)
           0%nat (Container [1%nat; 2%nat] (Some 1%nat) None (Some 2%nat) None)
           1%nat
           (Element 0 0 true (Some 0%nat) zero_event
              (wlmtk_fake_element 10 10 true))
           2%nat).
  - apply treeb_sound. vm_compute. reflexivity.
  - eexists. split; reflexivity.
  - reflexivity.
  - reflexivity.
  - reflexivity.
  - reflexivity.
  - discriminate.
  - reflexivity.
  - discriminate.
  - lia.
Defined.

(** Element 2 of the scene acquires the grab while the pointer focus is on
    element 1. *)
Lemma grab_leaves_focus_slot_witness :
  exists s' l1 l2,
    wlmtk_container_pointer_grab 8 0%nat 2%nat
      (scene (Container [1%nat; 2%nat] (Some 1%nat) None None None) true)
    = Done (tt, s') /\
    slot_of pointer_grab_element_ptr s' 0%nat = Some 2%nat /\
    slot_of pointer_focus_element_ptr s' 0%nat = Some 1%nat /\
    calls s'
    = calls (scene (Container [1%nat; 2%nat] (Some 1%nat) None None None)
               true)
      ++ l1 ++ pointer_motion_call 1%nat (MotionEvent NAN NAN 0 None) :: l2.
Proof.
  apply (grab_leaves_focus_slot scene_rank 3 8
           (scene (Container [1%nat; 2%nat] (Some 1%nat) None None None) true)
           0%nat (Container [1%nat; 2%nat] (Some 1%nat) None None None)
           2%nat
           (Element 10 0 true (Some 0%nat) zero_event
              (wlmtk_fake_element 10 10 true))
           1%nat).
  - apply treeb_sound. vm_compute. reflexivity.
  - eexists. split; reflexivity.
  - reflexivity.
  - reflexivity.
  - reflexivity.
  - reflexivity.
  - discriminate.
  - reflexivity.
  - discriminate.
  - lia.
Defined.

(** The left button goes down at the outermost container of the nested
    scene, whose pointer-focus holders lead to element 3. *)
Lemma down_records_capture_line_witness :
  exists eL lf s',
    heap
      (nested_scene (Container [1%nat] (Some 1%nat) None None None)
         (Container [2%nat] (Some 2%nat) None None None)
         (Container [3%nat] (Some 3%nat) None None None)) !! 3%nat
    = Some eL /\ vmt eL = LeafVmt lf /\
    wlmtk_element_pointer_button 5 0%nat
      (ButtonEvent BTN_LEFT WLMTK_BUTTON_DOWN)
      (nested_scene (Container [1%nat] (Some 1%nat) None None None)
         (Container [2%nat] (Some 2%nat) None None None)
         (Container [3%nat] (Some 3%nat) None None None))
    = Done (leaf_pointer_button lf (ButtonEvent BTN_LEFT WLMTK_BUTTON_DOWN),
            s') /\
    (leaf_pointer_button lf (ButtonEvent BTN_LEFT WLMTK_BUTTON_DOWN) = true ->
     slot_line left_button_element_ptr s' 0%nat 3%nat) /\
    (leaf_pointer_button lf (ButtonEvent BTN_LEFT WLMTK_BUTTON_DOWN) = false ->
     forall k,
       focus_path
         (nested_scene (Container [1%nat] (Some 1%nat) None None None)
            (Container [2%nat] (Some 2%nat) None None None)
            (Container [3%nat] (Some 3%nat) None None None)) 0%nat k ->
       slot_of left_button_element_ptr s' k = None).
Proof.
  apply (down_records_capture_line scene_rank 5
           (nested_scene (Container [1%nat] (Some 1%nat) None None None)
              (Container [2%nat] (Some 2%nat) None None None)
              (Container [3%nat] (Some 3%nat) None None None))
           0%nat 3%nat (ButtonEvent BTN_LEFT WLMTK_BUTTON_DOWN)).
  - apply rankedb_sound. vm_compute. reflexivity.
  - eapply (slot_line_step _ _ 0%nat _ 1%nat);
      [eexists; split; reflexivity | reflexivity | reflexivity |].
    eapply (slot_line_step _ _ 1%nat _ 2%nat);
      [eexists; split; reflexivity | reflexivity | reflexivity |].
    eapply (slot_line_step _ _ 2%nat _ 3%nat);
      [eexists; split; reflexivity | reflexivity | reflexivity |].
    eapply slot_line_leaf; reflexivity.
  - reflexivity.
  - reflexivity.
  - vm_compute. lia.
Defined.

(** Down over element 3, a motion that takes the pointer away, up. *)
Lemma capture_outlives_motion_witness :
  exists eL lf,
    heap
      (nested_scene (Container [1%nat] (Some 1%nat) None None None)
         (Container [2%nat] (Some 2%nat) None None None)
         (Container [3%nat] (Some 3%nat) None None None)) !! 3%nat
    = Some eL /\ vmt eL = LeafVmt lf /\
    (leaf_pointer_button lf (ButtonEvent BTN_LEFT WLMTK_BUTTON_DOWN) = true ->
     exists s1 b s2 l,
       wlmtk_element_pointer_button 5 0%nat
         (ButtonEvent BTN_LEFT WLMTK_BUTTON_DOWN)
         (nested_scene (Container [1%nat] (Some 1%nat) None None None)
            (Container [2%nat] (Some 2%nat) None None None)
            (Container [3%nat] (Some 3%nat) None None None))
       = Done (true, s1) /\
       wlmtk_element_pointer_motion 5 0%nat
         (MotionEvent (Finite 50) (Finite 50) 7 None) s1 = Done (b, s2) /\
       wlmtk_element_pointer_button 5 0%nat
         (ButtonEvent BTN_LEFT WLMTK_BUTTON_UP) s2
       = Done (leaf_pointer_button lf (ButtonEvent BTN_LEFT WLMTK_BUTTON_UP),
               State (heap s2) (calls s2 ++ l))).
Proof.
  apply (capture_outlives_motion scene_rank 5
           (nested_scene (Container [1%nat] (Some 1%nat) None None None)
              (Container [2%nat] (Some 2%nat) None None None)
              (Container [3%nat] (Some 3%nat) None None None))
           0%nat 3%nat (ButtonEvent BTN_LEFT WLMTK_BUTTON_DOWN)
           (MotionEvent (Finite 50) (Finite 50) 7 None)
           (ButtonEvent BTN_LEFT WLMTK_BUTTON_UP)).
  - apply rankedb_sound. vm_compute. reflexivity.
  - eapply (slot_line_step _ _ 0%nat _ 1%nat);
      [eexists; split; reflexivity | reflexivity | reflexivity |].
    eapply (slot_line_step _ _ 1%nat _ 2%nat);
      [eexists; split; reflexivity | reflexivity | reflexivity |].
    eapply (slot_line_step _ _ 2%nat _ 3%nat);
      [eexists; split; reflexivity | reflexivity | reflexivity |].
    eapply slot_line_leaf; reflexivity.
  - reflexivity.
  - reflexivity.
  - reflexivity.
  - reflexivity.
  - vm_compute. lia.
Defined.

